(* ===== verification/_CoqProject ===== *)
-Q . S2P
Prelude.v
Strconv.v
Errors.v
Money.v
LedgerDomain.v
LedgerEvents.v
Httpx.v
LedgerDb.v
LedgerStore.v
LedgerFingerprint.v
LedgerReports.v
LedgerService.v
LedgerSpec.v
LedgerInv.v
LedgerBalance.v
LedgerLinks.v
LedgerRefine.v
LedgerTheorems.v
LedgerTrial.v
LedgerGuarantees.v
LedgerWitnesses.v
TxMonad.v
Recon.v
ReconMatch.v
ReconStore.v
ReconRun.v
ReconInv.v
ReconGuarantees.v
Signature.v
Ssrf.v
Keycrypt.v
Webhooks.v
WebhooksStore.v
WebhooksService.v
WebhooksSend.v
WebhooksInv.v
WebhooksWorld.v
WebhooksGuarantees.v
WebhooksTick.v
WebhooksWitnesses.v
Base64Url.v
Ident.v
Identity.v
IdentitySlug.v
IdentityStore.v
IdentityService.v
IdentityInv.v
IdentityWorld.v
IdentityTokens.v
IdentitySandbox.v
IdentityGuarantees.v
IdentityWitnesses.v
Outbox.v
OutboxRelay.v
OutboxDrain.v
EventStream.v
LedgerAnnounce.v
ReconMirror.v
Pipeline.v
Purge.v
PurgeLedger.v
PurgeSatellites.v
PurgeTheorems.v
TenantScope.v
Json.v
Http.v
LedgerViews.v
LedgerHttp.v
HttpFacts.v
LedgerHttpFacts.v
LedgerHttpTheorems.v
LedgerHttpWitnesses.v
ReconHttp.v
WebhooksHttp.v
IdentityHttp.v
PlatformHttp.v
Startup.v
Middleware.v
Lifecycle.v
PlatformWitnesses.v
