(* ===== verification/Prelude.v ===== *)
(** * LedgerCore: a verified model of its services

    LedgerCore is a multi-tenant ledger platform in Go: four services over
    PostgreSQL with row-level security, connected by an event bus. This library
    models the code that decides what those services do - domain packages,
    application services, the statements they run and the tables they run on,
    event consumers and pollers, HTTP adapters, processes - as executable
    definitions, and proves what a client relies on.

    ** The program and the files that model it

    - [libs/go/money]: [Strconv] (strconv, base 10 and 64 bits), [Errors] (the
      error values of all services), [Money] (amounts, checked addition, parsing
      and formatting of units).
    - [libs/go/httpx]: [Httpx] (cursors, keyset pages), [Base64Url] (cursors on
      the wire), [Json] (encoding/json decoders and documents), [Http] (requests,
      responses, the error catalog, middlewares, the mux, the shell of an API
      service), [Middleware] ([Recover], [Logger]). [libs/go/events]: [LedgerEvents] (the envelope every event travels
      in), [EventStream] (the stream, [NewNATSPublisher], the durable consumers),
      [Purge] (the acknowledgement protocol of expiries). [libs/go/ident]:
      [Ident] (scopes, the JWKS cache, authentication). [libs/go/pgxutil]:
      [TxMonad], [WithTenantTx] as a program over the tables of a service.
    - [services/ledger-core]: [LedgerDomain] (accounts, postings, transactions,
      holds, [ValidateBalanced], [Reverse]), [LedgerDb] (the schema and its
      migrations, the transaction monad), [LedgerStore] (commands of
      [postgres/store.go]), [LedgerReports] (its reports), [LedgerFingerprint]
      (canonical requests and idempotency), [LedgerService] ([app/service.go]),
      [LedgerViews] and [LedgerHttp] ([adapters/http]).
    - [services/reconciliation]: [Recon] (entities, CSV parser, matcher),
      [ReconStore] (its statements and use cases), [ReconMirror] (the consumer of
      ledger events), [ReconHttp] ([adapters/httpapi]).
    - [services/webhooks]: [Signature] (HMAC headers), [Ssrf] (the address
      guard of the dispatcher), [Keycrypt] (secrets at rest, also the copy of
      [services/identity]), [Webhooks] (domain), [WebhooksStore] ([repo.go] and
      the SECURITY DEFINER functions of migration 0004), [WebhooksService] (use
      cases, event consumer, dispatcher loop), [WebhooksSend] (one attempt on the
      wire: [Send], the client of [ssrf.go], its redirects), [WebhooksHttp].
    - [services/identity]: [Identity] (tenants, API keys, signing keys, slugs),
      [IdentityStore] (its statements), [IdentityService] (use cases, token
      issuer, signups and their sweep), [IdentityHttp] (handlers, admin gate).
    - The outbox pollers of ledger-core, reconciliation and identity: [Outbox];
      many of them against the broker, which deduplicates by message id over a
      window ([libs/go/events/nats.go]): [OutboxRelay].
      The purges of the three services that keep data of a tenant: [Purge].
    - [cmd] and [config] of the four services: [Startup] (what a configuration
      selects), [Lifecycle] ([run] from its first resource to its exit).

    A posted transaction leaves the ledger as an outbox row in the same
    transaction ([LedgerStore]); a poller publishes it ([Outbox]); its envelope
    reaches the reconciliation mirror ([ReconMirror.handle]) and the fan-out of
    the webhooks service ([WebhooksService.handle]), whose dispatcher claims,
    signs and delivers. [Pipeline] composes ledger, pollers, stream and mirror.
    Identity issues the tokens the other services verify, and announces the
    expired sandbox tenants they purge. Requests enter by the routers of the
    [*Http] files, over the same use cases.

    ** How code becomes definitions

    A Go function returning an error is a function into [result error]; a
    function on a transaction is a program of a small state monad ([Tx] of
    [LedgerDb], [Use] of [TxMonad]) over a record of tables, and a failed body
    leaves no state, as a rolled back transaction does. A table is a [gmap]
    from its key; primary keys, unique constraints, foreign keys, checks,
    triggers and row-level security are guards of the statements, translated
    from the migrations. An HTTP handler maps a context, a request and a state to
    a response and a state; its body runs in [result HttpResponse], an early
    return being the error case. Integers are [Z] with [wrap64] where Go wraps and
    with the checks where the code checks; times are microseconds, the
    resolution of the tables ([second] is 1000000; nanoseconds appear inside
    [Signature.VerifyAt] and in the settings of [Startup] only); UUIDs are [Z]
    with [uuid_Nil] zero. What comes from outside (generated ids, the clock,
    SHA-256, HMAC, AES-GCM, Ed25519, JWT, uuid and URL parsing, JSONB input) is a
    class ([Supply], [Render], [Parsers], [Jwt], [Hmac], [Aead], [UrlParse],
    [Jsonb], ...) that theorems quantify over; a law they need (an AEAD opens what
    it sealed) is an explicit hypothesis and its witness instantiates it.

    ** What is proved

    - Money: addition refuses exactly the sums outside int64; parsing inverts
      formatting.
    - Ledger ([LedgerSpec], [LedgerInv], [LedgerBalance], [LedgerLinks],
      [LedgerRefine], [LedgerTheorems], [LedgerTrial], [LedgerGuarantees],
      [LedgerAnnounce], witnesses in [LedgerWitnesses]): over
      every reachable database transactions balance, cached balances equal the
      sums of the postings, holds are covered; posting, reversing, holding,
      capturing and releasing do exactly what they promise on every branch; no
      reachable state overdraws a guarded account; idempotent retries replay; the
      database refines an abstract ledger; every post is announced once.
    - Reconciliation ([ReconMatch], [ReconRun], [ReconInv],
      [ReconGuarantees], [ReconMirror]): the matcher equals a reference
      classification, a run settles what it should and nothing else, settled
      rows are final, the mirror is idempotent.
    - Webhooks ([WebhooksInv], [WebhooksWorld], [WebhooksGuarantees],
      [WebhooksTick], witnesses in [WebhooksWitnesses]): the delivery state
      machine over every interleaving of requests, workers, late outcomes and
      crashes; fan-out is exact and idempotent; claims are leases; a rotation
      keeps receivers verifying for its grace window; a tick terminates and
      attempts each due delivery once; an attempt reaches public addresses only, with
      at most three requests ([WebhooksSend]); signatures and sealed secrets round
      trip.
    - Identity ([IdentitySlug], [IdentityInv], [IdentityWorld],
      [IdentityTokens], [IdentityGuarantees], [IdentitySandbox], witnesses in
      [IdentityWitnesses]): the lifecycle of tenants and keys over every
      interleaving; who gets a token, and that the other services accept it for
      exactly its scopes; signups, sweeps, and keys at rest.
    - Composition ([OutboxRelay], [OutboxDrain], [ReconMirror], [Pipeline],
      [PurgeLedger], [PurgeSatellites], [PurgeTheorems]): no message is lost
      between a table and the stream, which holds it once while the broker's
      window remembers it, and drains make progress; the mirror follows the
      ledger; an expired tenant leaves no row anywhere, the other tenants of the
      ledger see theirs unchanged, and what the ledger guarantees survives purges.
    - HTTP ([HttpFacts], [LedgerHttpFacts], [LedgerHttpTheorems],
      [TenantScope], [PlatformHttp], the second halves of [ReconHttp],
      [WebhooksHttp] and [IdentityHttp], witnesses in
      [LedgerHttpWitnesses] and [PlatformWitnesses]): one error contract for all
      services; state changes only behind the write scope and within the tenant of
      the claims, or behind the admin token; a repeated POST replays; a client
      following [next_cursor] reads every row once; panics are contained and
      requests logged as the client saw them ([Middleware]).
    - Processes (the second halves of [Startup] and [Lifecycle], [EventStream]): a
      public sandbox is closed; a process listens only with everything it
      promises open, migrated and running, and [run] closes all it opened itself
      however it ends; every topic has its stream and its readers.

    ** Fuel

    [FormatInt] prints at most twenty digits, which covers 64 bits. Following
    cursors takes one request more than there are rows. [Do] takes [maxRedirects]
    requests, after which the client stops. [tick] takes one round
    more than there are deliveries; [tick_drains] proves that this is enough when
    a tick lasts less than a minute, since every round of a full batch pushes a
    due row beyond the window. A drain of a poller runs over the rows of one scan
    and needs no fuel.

    ** Not modelled

    The NATS, PostgreSQL and HTTP libraries themselves, goose migrations as such
    (their final schema is), the tickers around one sweep and one tick, [obs]
    (whose [Setup] does nothing yet), the console, the SDKs and the
    infrastructure. Within the modelled code: the handlers of the routers are
    total functions, panics being those of [Middleware]; letters are
    ASCII where Go is Unicode-aware ([strings.ToUpper], [ToLower], [TrimSpace]),
    so non-ASCII letters that lower to ASCII ones are outside [slugify]; VARCHAR
    lengths, grants and indexes are left out; rows a query leaves unordered are
    ordered by id, and serial ids commit in order; the [created_at] of the outbox
    rows of reconciliation, which the database fills in, and the order of rows
    that share it are parameters of [DrainOutbox]; the width of the broker's window
    is left open ([rs_forget] may drop any id at any time), and generated UUIDs
    never repeat in an outbox; statements of one transaction are
    not interleaved with those of another except where row locks are the point
    (claims), serialisation being the database's; the goroutines of a dispatcher
    batch, which write disjoint rows, run in order; the maintenance role of a
    purge passes the append-only triggers; error texts are dropped, error
    identities kept; the redirects of the mux for unclean paths, the zone an
    instant is printed in, and a JSON body that names one array three times are
    left out; a kept-alive connection of the webhook client counts as one more
    dial of an address the guard let pass. *)

From Stdlib Require Import Ascii String ZArith Lia.
From stdpp Require Export base tactics numbers list strings gmap sorting.

#[export] Set Default Goal Selector "!".

(** ** Results

    Go functions that return [(T, error)] become functions into
    [result error T]. *)

Inductive result (E A : Type) : Type :=
| Ok (a : A)
| Err (e : E).
Arguments Ok {E A} a.
Arguments Err {E A} e.

#[export] Instance result_bind {E} : MBind (result E) := fun A B f m =>
  match m with Ok a => f a | Err e => Err e end.
#[export] Instance result_ret {E} : MRet (result E) := fun A a => Ok a.
#[export] Instance result_fmap {E} : FMap (result E) := fun A B f m =>
  match m with Ok a => Ok (f a) | Err e => Err e end.

Definition is_ok {E A} (r : result E A) : bool :=
  match r with Ok _ => true | Err _ => false end.

Definition map_err {E F A} (f : E -> F) (r : result E A) : result F A :=
  match r with Ok a => Ok a | Err e => Err (f e) end.

#[export] Instance result_eq_dec {E A} `{EqDecision E, EqDecision A} :
  EqDecision (result E A).
Proof. solve_decision. Defined.

(** A guard: the early return [if b { return err }]. *)
Definition guard_err {E} (b : bool) (e : E) : result E unit :=
  if b then Err e else Ok tt.

Lemma bind_ok {E A B} (m : result E A) (f : A -> result E B) b :
  m ≫= f = Ok b <-> exists a, m = Ok a /\ f a = Ok b.
Proof. destruct m; cbn; naive_solver. Qed.

Lemma result_bind_err {E A B} (m : result E A) (f : A -> result E B) e :
  (m ≫= f) = Err e -> m = Err e \/ exists a, m = Ok a /\ f a = Err e.
Proof. destruct m as [a|e0]; cbn; [right; by exists a|left; congruence]. Qed.

Lemma guard_err_ok {E} b (e : E) u : guard_err b e = Ok u <-> b = false.
Proof. destruct b, u; cbn; naive_solver. Qed.

(** Turns every [_ = Ok _] hypothesis over binds and guards into its parts. *)
Ltac inv_ok :=
  repeat match goal with
  | H : _ ≫= _ = Ok _ |- _ =>
      apply bind_ok in H; let x := fresh "r" in destruct H as [x [? ?]]
  | H : guard_err _ _ = Ok _ |- _ => apply guard_err_ok in H
  | H : Ok _ = Ok _ |- _ => injection H as H; try subst
  | H : mret _ = Ok _ |- _ => cbn in H
  | H : Err _ = Ok _ |- _ => discriminate H
  | H : Ok _ = Err _ |- _ => discriminate H
  end.

(** Case split on the innermost scrutinee of a [match] in a hypothesis. *)
Ltac case_in H :=
  match type of H with context [match ?x with _ => _ end] =>
    lazymatch x with
    | context [match _ with _ => _ end] => fail
    | _ => let E := fresh "E" in destruct x eqn:E
    end
  end.

(** Passes the early return at the head of a successful computation. *)
Ltac pass_guard H :=
  lazymatch type of H with
  | (if ?b then _ else _) = _ => let E := fresh "Hguard" in destruct b eqn:E; [done|]
  end.

Ltac case_goal :=
  match goal with |- context [match ?x with _ => _ end] =>
    lazymatch x with
    | context [match _ with _ => _ end] => fail
    | _ => let E := fresh "E" in destruct x eqn:E
    end
  end.

(** ** Machine integers

    A Go [int64] is a [Z]; arithmetic that can wrap is written with
    [wrap64]. *)

Definition min_int64 : Z := -9223372036854775808.
Definition max_int64 : Z := 9223372036854775807.
Definition two64 : Z := 18446744073709551616.

Definition wrap64 (z : Z) : Z := (z + 9223372036854775808) mod two64 - 9223372036854775808.

Definition in_int64 (z : Z) : bool := (min_int64 <=? z)%Z && (z <=? max_int64)%Z.

Ltac unfold64 := unfold in_int64, wrap64, min_int64, max_int64, two64 in *.

Lemma in_int64_spec z : in_int64 z = true <-> (min_int64 <= z <= max_int64)%Z.
Proof. unfold in_int64. rewrite andb_true_iff, !Z.leb_le. lia. Qed.

Lemma in_int64_false z : in_int64 z = false <-> (z < min_int64 \/ max_int64 < z)%Z.
Proof. unfold in_int64. rewrite andb_false_iff, !Z.leb_gt. lia. Qed.

Lemma wrap64_range z : (min_int64 <= wrap64 z <= max_int64)%Z.
Proof.
  unfold64. pose proof (Z.mod_pos_bound (z + 9223372036854775808) 18446744073709551616).
  lia.
Qed.

Lemma wrap64_id z : (min_int64 <= z <= max_int64)%Z -> wrap64 z = z.
Proof. unfold64. intros H. rewrite Z.mod_small; lia. Qed.

(** A sum of two in-range values that leaves the range wraps by exactly one
    modulus. *)
Lemma wrap64_above z :
  (max_int64 < z <= max_int64 + two64)%Z -> wrap64 z = (z - two64)%Z.
Proof.
  unfold64. intros H.
  replace (z + 9223372036854775808)%Z
    with ((z + 9223372036854775808 - 18446744073709551616) + 1 * 18446744073709551616)%Z by lia.
  rewrite Z.mod_add by lia. rewrite Z.mod_small; lia.
Qed.

Lemma wrap64_below z :
  (min_int64 - two64 <= z < min_int64)%Z -> wrap64 z = (z + two64)%Z.
Proof.
  unfold64. intros H.
  replace (z + 9223372036854775808)%Z
    with ((z + 9223372036854775808 + 18446744073709551616) + (-1) * 18446744073709551616)%Z by lia.
  rewrite Z.mod_add by lia. rewrite Z.mod_small; lia.
Qed.

Lemma wrap64_add_l a b : wrap64 (wrap64 a + b) = wrap64 (a + b).
Proof.
  unfold wrap64, two64.
  replace ((a + 9223372036854775808) mod 18446744073709551616 - 9223372036854775808 + b
           + 9223372036854775808)%Z
    with ((a + 9223372036854775808) mod 18446744073709551616 + b)%Z by lia.
  rewrite Zplus_mod_idemp_l. do 2 f_equal. lia.
Qed.

Lemma wrap64_add_r a b : wrap64 (a + wrap64 b) = wrap64 (a + b).
Proof. rewrite Z.add_comm, wrap64_add_l. f_equal. lia. Qed.

(** ** Filters *)

Lemma filter_same {A} (P Q : A -> Prop) `{!forall x, Decision (P x), !forall x, Decision (Q x)} (l : list A) :
  (forall x, x ∈ l -> P x <-> Q x) -> filter P l = filter Q l.
Proof.
  induction l as [|a l IH]; intros Hl; [done|]. rewrite !filter_cons, IH by (intros x Hx; apply Hl; by right).
  pose proof (Hl a ltac:(by left)). repeat case_decide; tauto.
Qed.

Lemma map_to_list_filter {K V} `{Countable K} (P : K * V -> Prop) `{!forall x, Decision (P x)} (m : gmap K V) :
  map_to_list (filter P m) ≡ₚ filter P (map_to_list m).
Proof.
  rewrite map_filter_alt. apply map_to_list_to_map.
  eapply sublist_NoDup; [apply (NoDup_fst_map_to_list m)|]. apply fmap_sublist, sublist_filter.
Qed.

(** ** Sums over lists *)

Fixpoint sumZ {A} (f : A -> Z) (l : list A) : Z :=
  match l with
  | [] => 0%Z
  | a :: l => (f a + sumZ f l)%Z
  end.

Section sums.
Context {A : Type}.
Implicit Types (f g : A -> Z) (l : list A).

Lemma sumZ_app f l1 l2 : sumZ f (l1 ++ l2) = (sumZ f l1 + sumZ f l2)%Z.
Proof. induction l1; cbn in *; lia. Qed.

Lemma sumZ_ext f g l : (forall a, a ∈ l -> f a = g a) -> sumZ f l = sumZ g l.
Proof.
  induction l as [|a l IH]; intros H; cbn; [done|].
  rewrite (H a), IH; [done| |]; set_solver.
Qed.

Lemma sumZ_add f g l : sumZ (fun a => f a + g a)%Z l = (sumZ f l + sumZ g l)%Z.
Proof. induction l; cbn in *; lia. Qed.

Lemma sumZ_sub f g l : sumZ (fun a => f a - g a)%Z l = (sumZ f l - sumZ g l)%Z.
Proof. induction l; cbn in *; lia. Qed.

Lemma sumZ_opp f l : sumZ (fun a => - f a)%Z l = (- sumZ f l)%Z.
Proof. induction l; cbn in *; lia. Qed.

Lemma sumZ_zero f l : (forall a, a ∈ l -> f a = 0%Z) -> sumZ f l = 0%Z.
Proof.
  induction l as [|a l IH]; intros H; cbn; [done|].
  rewrite (H a), IH; [done| |]; set_solver.
Qed.

Lemma sumZ_nonneg f l : (forall a, a ∈ l -> 0 <= f a)%Z -> (0 <= sumZ f l)%Z.
Proof.
  induction l as [|a l IH]; intros H; cbn; [done|].
  pose proof (H a ltac:(set_solver)). pose proof (IH ltac:(set_solver)). lia.
Qed.

Lemma sumZ_filter (P : A -> Prop) `{!forall x, Decision (P x)} f l :
  sumZ f (filter P l) = sumZ (fun a => if decide (P a) then f a else 0%Z) l.
Proof.
  induction l as [|a l IH]; [done|]. rewrite filter_cons. cbn.
  destruct (decide (P a)); cbn; lia.
Qed.

#[export] Instance sumZ_perm f : Proper (Permutation ==> eq) (sumZ f).
Proof. induction 1; cbn in *; lia. Qed.

Lemma sumZ_elem f l a : (forall b, b ∈ l -> 0 <= f b)%Z -> a ∈ l -> (f a <= sumZ f l)%Z.
Proof.
  induction l as [|b l IH]; intros H Ha; [set_solver|]. cbn.
  pose proof (H b ltac:(set_solver)).
  pose proof (sumZ_nonneg f l ltac:(set_solver)).
  apply elem_of_cons in Ha as [->|Ha]; [lia|].
  pose proof (IH ltac:(set_solver) Ha). lia.
Qed.
End sums.

Lemma sumZ_map {A B} (g : A -> B) (f : B -> Z) l : sumZ f (map g l) = sumZ (fun a => f (g a)) l.
Proof. induction l; cbn in *; lia. Qed.

Lemma sumZ_omap {A B} (g : A -> option B) (f : B -> Z) l :
  sumZ f (omap g l) = sumZ (fun a => match g a with Some b => f b | None => 0%Z end) l.
Proof. induction l as [|a l IH]; cbn; [done|]. destruct (g a); cbn in *; lia. Qed.

Lemma sumZ_pick {A} `{EqDecision A} (x : A) (v : Z) (ks : list A) :
  NoDup ks -> sumZ (fun k => if decide (x = k) then v else 0%Z) ks = if decide (x ∈ ks) then v else 0%Z.
Proof.
  induction 1 as [|k ks Hk Hnd IH]; cbn.
  - by rewrite decide_False by apply not_elem_of_nil.
  - rewrite IH. repeat case_decide; set_solver by lia.
Qed.

(** A sum grouped by key: every element is counted in exactly one group. *)
Lemma sumZ_group {A K} `{EqDecision K} (key : A -> K) (g : A -> Z) (l : list A) (ks : list K) :
  NoDup ks -> (forall a, a ∈ l -> g a <> 0%Z -> key a ∈ ks) ->
  sumZ g l = sumZ (fun k => sumZ (fun a => if decide (key a = k) then g a else 0%Z) l) ks.
Proof.
  intros Hnd. induction l as [|a l IH]; intros Hin; cbn.
  - symmetry. by apply sumZ_zero.
  - rewrite sumZ_add, <- IH by set_solver. f_equal. rewrite sumZ_pick by done.
    case_decide as Hd; [done|]. destruct (Z.eq_dec (g a) 0%Z) as [->|Hne]; [done|].
    exfalso. apply Hd, Hin; [set_solver|done].
Qed.

Lemma sumZ_swap {A B} (f : A -> B -> Z) (l : list A) (k : list B) :
  sumZ (fun a => sumZ (f a) k) l = sumZ (fun b => sumZ (fun a => f a b) l) k.
Proof.
  induction l as [|a l IH]; cbn; [symmetry; by apply sumZ_zero|]. rewrite IH. by rewrite sumZ_add.
Qed.

(** ** Lists *)

Lemma list_filter_id {A} (P : A -> Prop) `{!forall x, Decision (P x)} (l : list A) :
  (forall a, a ∈ l -> P a) -> filter P l = l.
Proof.
  induction l as [|a l IH]; intros Hl; [done|]. rewrite filter_cons, decide_True; [|set_solver].
  f_equal. apply IH. set_solver.
Qed.

Lemma list_filter_none {A} (P : A -> Prop) `{!forall x, Decision (P x)} (l : list A) :
  (forall a, a ∈ l -> ~ P a) -> filter P l = [].
Proof.
  induction l as [|a l IH]; intros Hl; [done|]. rewrite filter_cons, decide_False; [|set_solver].
  apply IH. set_solver.
Qed.

Lemma list_filter_and {A} (P Q : A -> Prop) `{!forall x, Decision (P x), !forall x, Decision (Q x)}
  (l : list A) :
  (forall a, a ∈ l -> P a -> Q a) -> filter (fun a => P a /\ Q a) l = filter P l.
Proof.
  induction l as [|a l IH]; intros Hl; [done|]. rewrite !filter_cons.
  rewrite IH by (intros; apply Hl; set_solver).
  destruct (decide (P a)) as [HP|HP].
  - by rewrite decide_True by (split; [done|apply Hl; set_solver]).
  - by rewrite decide_False by naive_solver.
Qed.

Create HintDb ledger.
#[export] Hint Resolve wrap64_range wrap64_id : ledger.
