(* ===== verification/Strconv.v ===== *)
(** * Decimal rendering and parsing of integers

    The part of Go's [strconv] and [fmt] the services use: [FormatInt(x, 10)],
    [Sprintf("%d")] and [ParseInt(s, 10, 64)], over byte strings. *)

From Stdlib Require Import Ascii String ZArith Lia.
From S2P Require Import Prelude.
Local Open Scope Z_scope.

(** ** Digits *)

Definition byte_val (c : ascii) : Z := Z.of_nat (nat_of_ascii c).
Definition is_digit (c : ascii) : bool := (48 <=? byte_val c) && (byte_val c <=? 57).
Definition digit_val (c : ascii) : Z := byte_val c - 48.
Definition digit_char (d : Z) : ascii := ascii_of_nat (Z.to_nat (48 + d)).

(** Value of a digit string read left to right, starting from [acc]. *)
Definition digits_value (acc : Z) (ds : list ascii) : Z :=
  foldl (fun acc c => acc * 10 + digit_val c) acc ds.

(** Decimal digits of a non-negative integer; [fuel] bounds their number. *)
Fixpoint dec_digits (fuel : nat) (n : Z) : list ascii :=
  match fuel with
  | O => []
  | S k => if n <? 10 then [digit_char n]
           else dec_digits k (n / 10) ++ [digit_char (n mod 10)]
  end.

(** 20 digits are enough for every [uint64]. *)
Definition utoa (n : Z) : list ascii := dec_digits 20 n.

(** [strconv.FormatInt(z, 10)] of an [int64]. *)
Definition FormatInt (z : Z) : string :=
  string_of_list_ascii (if z <? 0 then "-"%char :: utoa (- z) else utoa z).

(** [strconv.ParseInt(s, 10, 64)]: an optional sign, then at least one digit,
    in the range of [int64]. *)
Definition ParseInt (s : string) : option Z :=
  let '(negative, ds) :=
    match list_ascii_of_string s with
    | c :: rest => if Ascii.eqb c "-" then (true, rest)
                   else if Ascii.eqb c "+" then (false, rest) else (false, c :: rest)
    | [] => (false, [])
    end in
  if (0 <? Z.of_nat (length ds)) && forallb is_digit ds then
    let v := if negative : bool then - digits_value 0 ds else digits_value 0 ds in
    if in_int64 v then Some v else None
  else None.

(** ** Facts *)

Lemma byte_val_range c : 0 <= byte_val c < 256.
Proof. unfold byte_val. pose proof (nat_ascii_bounded c). lia. Qed.

Lemma byte_val_digit_char d : 0 <= d < 10 -> byte_val (digit_char d) = 48 + d.
Proof. intros H. unfold byte_val, digit_char. rewrite nat_ascii_embedding; lia. Qed.

Lemma digit_val_char d : 0 <= d < 10 -> digit_val (digit_char d) = d.
Proof. intros H. unfold digit_val. rewrite byte_val_digit_char; lia. Qed.

Lemma is_digit_char d : 0 <= d < 10 -> is_digit (digit_char d) = true.
Proof.
  intros H. unfold is_digit. rewrite byte_val_digit_char by done.
  rewrite andb_true_iff, !Z.leb_le. lia.
Qed.

Lemma digit_val_range c : is_digit c = true -> 0 <= digit_val c <= 9.
Proof. unfold is_digit, digit_val. rewrite andb_true_iff, !Z.leb_le. lia. Qed.

Lemma digits_value_app acc l1 l2 :
  digits_value acc (l1 ++ l2) = digits_value (digits_value acc l1) l2.
Proof. apply foldl_app. Qed.

Lemma digits_value_shift acc ds :
  digits_value acc ds = acc * 10 ^ Z.of_nat (length ds) + digits_value 0 ds.
Proof.
  revert acc. induction ds as [|c ds IH]; intros acc; [cbn; lia|].
  cbn [digits_value foldl] in *. fold (digits_value (acc * 10 + digit_val c) ds).
  fold (digits_value (0 * 10 + digit_val c) ds). rewrite IH, (IH (0 * 10 + _)).
  cbn [length]. rewrite Nat2Z.inj_succ, Z.pow_succ_r by lia. lia.
Qed.

Lemma digits_value_nonneg acc ds :
  0 <= acc -> forallb is_digit ds = true -> acc <= digits_value acc ds.
Proof.
  revert acc. induction ds as [|c ds IH]; intros acc Ha; [cbn; lia|].
  cbn [forallb]. rewrite andb_true_iff. intros [Hc Hd].
  apply digit_val_range in Hc. cbn [digits_value foldl].
  fold (digits_value (acc * 10 + digit_val c) ds).
  specialize (IH (acc * 10 + digit_val c) ltac:(lia) Hd). lia.
Qed.

Lemma digits_value_lt ds :
  forallb is_digit ds = true -> 0 <= digits_value 0 ds < 10 ^ Z.of_nat (length ds).
Proof.
  induction ds as [|c ds IH]; [cbn; lia|].
  cbn [forallb]. rewrite andb_true_iff. intros [Hc Hd].
  apply digit_val_range in Hc. specialize (IH Hd).
  cbn [digits_value foldl]. fold (digits_value (0 * 10 + digit_val c) ds).
  rewrite digits_value_shift. cbn [length]. rewrite Nat2Z.inj_succ, Z.pow_succ_r by lia. nia.
Qed.

Lemma digits_value_zeros n : digits_value 0 (replicate n "0"%char) = 0.
Proof. induction n; [done|]. cbn [replicate digits_value foldl]. done. Qed.

Lemma digits_value_zeros_l n ds : digits_value 0 (replicate n "0"%char ++ ds) = digits_value 0 ds.
Proof. by rewrite digits_value_app, digits_value_zeros. Qed.

Lemma forallb_zeros n : forallb is_digit (replicate n "0"%char) = true.
Proof. by induction n. Qed.

Lemma dec_digits_digits fuel n : 0 <= n -> forallb is_digit (dec_digits fuel n) = true.
Proof.
  revert n. induction fuel as [|k IH]; intros n Hn; [done|]. cbn [dec_digits].
  destruct (Z.ltb_spec n 10); cbn [forallb].
  - rewrite is_digit_char by lia. done.
  - pose proof (Z.mod_pos_bound n 10 ltac:(lia)).
    pose proof (Z.div_pos n 10 ltac:(lia) ltac:(lia)).
    rewrite forallb_app. cbn [forallb]. rewrite IH by lia. by rewrite is_digit_char by lia.
Qed.

Lemma dec_digits_value fuel n :
  0 <= n < 10 ^ Z.of_nat fuel -> digits_value 0 (dec_digits fuel n) = n.
Proof.
  revert n. induction fuel as [|k IH]; intros n Hn; [cbn in *; lia|].
  cbn [dec_digits]. rewrite Nat2Z.inj_succ, Z.pow_succ_r in Hn by lia.
  destruct (Z.ltb_spec n 10).
  - cbn. rewrite digit_val_char; lia.
  - pose proof (Z.mod_pos_bound n 10 ltac:(lia)).
    rewrite digits_value_app, IH.
    + cbn. rewrite digit_val_char by lia. pose proof (Z.div_mod n 10 ltac:(lia)). lia.
    + split; [apply Z.div_pos; lia|]. apply Z.div_lt_upper_bound; lia.
Qed.

Lemma dec_digits_nonempty fuel n : (0 < fuel)%nat -> dec_digits fuel n <> [].
Proof.
  destruct fuel as [|k]; [lia|]. intros _. cbn [dec_digits].
  destruct (n <? 10); [done|]. destruct (dec_digits k (n / 10)); done.
Qed.

Lemma utoa_value n : 0 <= n < two64 -> digits_value 0 (utoa n) = n.
Proof. unfold two64. intros H. apply dec_digits_value. lia. Qed.

Lemma utoa_digits n : 0 <= n -> forallb is_digit (utoa n) = true.
Proof. apply dec_digits_digits. Qed.

Lemma utoa_nonempty n : utoa n <> [].
Proof. apply dec_digits_nonempty. lia. Qed.

Lemma digit_not_sign c : is_digit c = true -> Ascii.eqb c "-" = false /\ Ascii.eqb c "+" = false.
Proof.
  intros H. split; apply Ascii.eqb_neq; intros ->; discriminate H.
Qed.

#[export] Hint Resolve utoa_value utoa_digits utoa_nonempty : ledger.
#[export] Hint Resolve dec_digits_digits digit_val_range : ledger.

(** Every [int64] survives being rendered and read back. *)
Lemma ParseInt_FormatInt_aux z : in_int64 z = true -> ParseInt (FormatInt z) = Some z.
Proof.
  intros Hz. pose proof (proj1 (in_int64_spec z) Hz) as Hr.
  unfold ParseInt, FormatInt. rewrite list_ascii_of_string_of_list_ascii.
  destruct (Z.ltb_spec z 0).
  - cbn [Ascii.eqb Bool.eqb]. pose proof (utoa_nonempty (- z)) as Hne.
    rewrite utoa_digits, utoa_value by (unfold64; lia). rewrite Z.opp_involutive, Hz.
    destruct (utoa (- z)); [done|]. done.
  - pose proof (utoa_nonempty z) as Hne. pose proof (utoa_digits z ltac:(lia)) as Hd.
    pose proof (utoa_value z ltac:(unfold64; lia)) as Hv.
    destruct (utoa z) as [|c ds]; [done|].
    pose proof Hd as Hd'. cbn [forallb] in Hd'. apply andb_true_iff in Hd' as [Hc _].
    destruct (digit_not_sign c Hc) as [-> ->]. rewrite Hd, Hv, Hz. done.
Qed.
