(* ===== verification/Errors.v ===== *)
(** * Error sentinels of the ledger engine

    One constructor per sentinel error of [libs/go/money/money.go],
    [services/ledger-core/internal/domain/domain.go],
    [services/ledger-core/internal/app/errors.go] and per PostgreSQL error
    class the store distinguishes. The code wraps sentinels with context
    ([fmt.Errorf("...: %w", err)]); callers only ever test the sentinel with
    [errors.Is]/[errors.As], so an error is modelled by the sentinel it wraps. *)

From S2P Require Import Prelude.

(** SQLSTATE classes of [pgconn.PgError], with the violated constraint. *)
Inductive pgcode : Type :=
| UniqueViolation (constraint : string)       (* 23505 *)
| ForeignKeyViolation (constraint : string)   (* 23503 *)
| CheckViolation (constraint : string)        (* 23514 *)
| NumericOutOfRange                           (* 22003 *)
| InsufficientPrivilege                       (* 42501: row-level security *)
| RaiseException.                             (* P0001: RAISE EXCEPTION *)

Inductive error : Type :=
(* package money *)
| ErrOverflow | ErrAssetMismatch | ErrInvalidAsset | ErrInvalidDecimal | ErrTooManyDigits
(* package domain *)
| ErrTooFewPostings | ErrNonPositiveAmount | ErrInvalidDirection | ErrUnbalanced
| ErrNotPosted | ErrAlreadyReversed
(* package app *)
| ErrNotFound | ErrConflict | ErrInvalidState | ErrInsufficientFunds | ErrValidation
| ErrIdempotencyConflict
(* package domain and app of the identity service *)
| ErrSlugConflict | ErrEmailTaken | ErrSignupLimitReached | ErrInvalidCredentials
(* infrastructure *)
| ErrPg (c : pgcode)          (* an unmapped PostgreSQL error *)
| ErrOther.                   (* any other error: id generation, nil tenant, ... *)

#[export] Instance pgcode_eq_dec : EqDecision pgcode.
Proof. solve_decision. Defined.
#[export] Instance error_eq_dec : EqDecision error.
Proof. solve_decision. Defined.
