(* ===== verification/Money.v ===== *)
(** * Integer money: [libs/go/money/money.go]

    Amounts in minor units with checked [int64] arithmetic, and the decimal
    rendering and parsing at the presentation boundary. *)

From Stdlib Require Import Ascii String ZArith Lia.
From S2P Require Import Prelude Strconv Errors.
Local Open Scope Z_scope.

Record Amount : Type := mkAmount { Asset : string; Units : Z }.

#[export] Instance Amount_eq_dec : EqDecision Amount.
Proof. solve_decision. Defined.

(** An [Amount] as Go can hold one: its units are an [int64]. *)
Definition amount_wf (a : Amount) : Prop := in_int64 (Units a) = true.

(** [ValidateAssetCode]: 1 to 12 bytes, each in A-Z or 0-9. A rune outside
    ASCII fails the test like each of its bytes does. *)
Definition asset_byte_ok (c : ascii) : bool :=
  ((65 <=? byte_val c) && (byte_val c <=? 90)) || ((48 <=? byte_val c) && (byte_val c <=? 57)).

Definition ValidateAssetCode (code : string) : result error unit :=
  if (Z.of_nat (String.length code) =? 0) || (12 <? Z.of_nat (String.length code))
  then Err ErrInvalidAsset
  else if forallb asset_byte_ok (list_ascii_of_string code) then Ok tt else Err ErrInvalidAsset.

Definition New (asset : string) (units : Z) : result error Amount :=
  _ ← ValidateAssetCode asset; Ok (mkAmount asset units).

Definition Add (a b : Amount) : result error Amount :=
  if decide (Asset a = Asset b) then
    let sum := wrap64 (Units a + Units b) in
    if ((0 <? Units a) && (0 <? Units b) && (sum <? 0)) ||
       ((Units a <? 0) && (Units b <? 0) && (0 <=? sum))
    then Err ErrOverflow
    else Ok (mkAmount (Asset a) sum)
  else Err ErrAssetMismatch.

Definition Sub (a b : Amount) : result error Amount :=
  if decide (Asset a = Asset b) then
    if Units b =? min_int64 then
      if 0 <=? Units a then Err ErrOverflow
      else Ok (mkAmount (Asset a) (wrap64 (Units a - Units b)))
    else
      let neg := mkAmount (Asset b) (wrap64 (- Units b)) in
      match Add a neg with
      | Err _ => Err ErrOverflow
      | Ok res => Ok res
      end
  else Err ErrAssetMismatch.

Definition Neg (a : Amount) : result error Amount :=
  if Units a =? min_int64 then Err ErrOverflow
  else Ok (mkAmount (Asset a) (wrap64 (- Units a))).

Definition IsZero (a : Amount) : bool := Units a =? 0.

(** ** Rendering *)

(** [uint64(-(u+1)) + 1] for a negative [u]: the absolute value, computed
    without negating [MinInt64]. *)
Definition abs_uint64 (u : Z) : Z :=
  if u <? 0 then (wrap64 (- wrap64 (u + 1)) mod two64 + 1) mod two64 else u.

Definition FormatWithExponent (a : Amount) (exp : Z) : string :=
  if exp <=? 0 then FormatInt (Units a)
  else
    let sign := if Units a <? 0 then ["-"%char] else [] in
    let digits := utoa (abs_uint64 (Units a)) in
    let digits :=
      if Z.of_nat (length digits) <=? exp
      then replicate (Z.to_nat (exp - Z.of_nat (length digits) + 1)) "0"%char ++ digits
      else digits in
    let cut := (length digits - Z.to_nat exp)%nat in
    string_of_list_ascii (sign ++ take cut digits ++ ["."%char] ++ drop cut digits).

(** ** Parsing *)

(** [strings.IndexByte(s, '.')], as the split around the first dot. *)
Fixpoint split_dot (s : list ascii) : option (list ascii * list ascii) :=
  match s with
  | [] => None
  | c :: rest =>
      if Ascii.eqb c "." then Some ([], rest)
      else match split_dot rest with
           | Some (i, f) => Some (c :: i, f)
           | None => None
           end
  end.

(** The accumulation loop over the digits of both parts, with its two
    overflow guards and the escape for [MinInt64] on the last digit. *)
Fixpoint parse_loop (negative : bool) (ds : list ascii) (units : Z) : result error Z :=
  match ds with
  | [] => Ok (if negative then wrap64 (- units) else units)
  | c :: rest =>
      let d := digit_val c in
      if max_int64 / 10 <? units then Err ErrOverflow
      else
        let units := wrap64 (units * 10) in
        if max_int64 - d <? units then
          if negative && (units =? max_int64 - d + 1) && (length rest =? 0)%nat
          then Ok min_int64
          else Err ErrOverflow
        else parse_loop negative rest (wrap64 (units + d))
  end.

(** The sign switch on the first byte. *)
Definition strip_sign (s : list ascii) : bool * list ascii :=
  match s with
  | c :: rest => if Ascii.eqb c "-" then (true, rest)
                 else if Ascii.eqb c "+" then (false, rest) else (false, s)
  | [] => (false, [])
  end.

Definition ParseUnits (decimal : string) (exp : Z) : result error Z :=
  if exp <? 0 then Err ErrInvalidDecimal
  else
    let s := list_ascii_of_string decimal in
    if (length s =? 0)%nat then Err ErrInvalidDecimal
    else
      let '(negative, s) := strip_sign s in
      if decide (s = [] \/ s = ["."%char]) then Err ErrInvalidDecimal
      else
        let '(intPart, fracPart) := default (s, []) (split_dot s) in
        if existsb (fun c => Ascii.eqb c ".") fracPart then Err ErrInvalidDecimal
        else
          let intPart := if (length intPart =? 0)%nat then ["0"%char] else intPart in
          if negb (forallb is_digit intPart && forallb is_digit fracPart)
          then Err ErrInvalidDecimal
          else if exp <? Z.of_nat (length fracPart) then Err ErrTooManyDigits
          else
            let fracPart :=
              fracPart ++ replicate (Z.to_nat (exp - Z.of_nat (length fracPart))) "0"%char in
            parse_loop negative (intPart ++ fracPart) 0.

Example parse_ex1 : ParseUnits "10.50" 2 = Ok 1050. Proof. reflexivity. Qed.
Example parse_ex2 : ParseUnits "-9223372036854775808" 0 = Ok min_int64. Proof. reflexivity. Qed.
Example parse_ex3 : ParseUnits "9223372036854775808" 0 = Err ErrOverflow. Proof. reflexivity. Qed.
Example parse_ex4 : ParseUnits "1.005" 2 = Err ErrTooManyDigits. Proof. reflexivity. Qed.
Example parse_ex5 : ParseUnits "-." 2 = Err ErrInvalidDecimal. Proof. reflexivity. Qed.
Example format_ex1 : FormatWithExponent (mkAmount "BTC" 150) 8 = "0.00000150"%string.
Proof. reflexivity. Qed.

(** ** Checked arithmetic is exact *)

(** The overflow test of [Add] detects exactly the sums outside [int64]. *)
Lemma add_overflow_test x y :
  in_int64 x = true -> in_int64 y = true ->
  ((0 <? x) && (0 <? y) && (wrap64 (x + y) <? 0)) ||
  ((x <? 0) && (y <? 0) && (0 <=? wrap64 (x + y)))
  = negb (in_int64 (x + y)).
Proof.
  rewrite !in_int64_spec. intros Hx Hy.
  destruct (in_int64 (x + y)) eqn:E; cbn [negb].
  - apply in_int64_spec in E. rewrite wrap64_id by done.
    apply orb_false_iff. rewrite !andb_false_iff, !Z.ltb_ge, !Z.leb_gt. lia.
  - apply in_int64_false in E. apply orb_true_iff.
    rewrite !andb_true_iff, !Z.ltb_lt, !Z.leb_le.
    destruct E as [E|E].
    + rewrite wrap64_below by (unfold64; lia). unfold64; lia.
    + rewrite wrap64_above by (unfold64; lia). unfold64; lia.
Qed.

Lemma Add_spec a b :
  amount_wf a -> amount_wf b ->
  Add a b = if decide (Asset a = Asset b)
            then if in_int64 (Units a + Units b)
                 then Ok (mkAmount (Asset a) (Units a + Units b))
                 else Err ErrOverflow
            else Err ErrAssetMismatch.
Proof.
  intros Ha Hb. unfold Add. destruct (decide _); [|done].
  rewrite (add_overflow_test _ _ Ha Hb).
  destruct (in_int64 (Units a + Units b)) eqn:E; cbn [negb]; [|done].
  rewrite wrap64_id; [done|]. by apply in_int64_spec.
Qed.

Lemma Sub_spec a b :
  amount_wf a -> amount_wf b ->
  Sub a b = if decide (Asset a = Asset b)
            then if in_int64 (Units a - Units b)
                 then Ok (mkAmount (Asset a) (Units a - Units b))
                 else Err ErrOverflow
            else Err ErrAssetMismatch.
Proof.
  intros Ha Hb. unfold Sub. destruct (decide (Asset a = Asset b)) as [Hab|]; [|done].
  pose proof (proj1 (in_int64_spec _) Ha) as Ra. pose proof (proj1 (in_int64_spec _) Hb) as Rb.
  destruct (Z.eqb_spec (Units b) min_int64) as [Hm|Hm].
  - destruct (Z.leb_spec 0 (Units a)).
    + replace (in_int64 _) with false; [done|]. symmetry. apply in_int64_false. unfold64; lia.
    + replace (in_int64 _) with true; [|symmetry; apply in_int64_spec; unfold64; lia].
      rewrite wrap64_id; [done|]. unfold64; lia.
  - assert (Hn : (min_int64 <= - Units b <= max_int64)) by (unfold64; lia).
    rewrite wrap64_id by done. rewrite Add_spec; [|done|by apply in_int64_spec]. cbn.
    rewrite decide_True by done. rewrite Z.add_opp_r. by destruct (in_int64 _).
Qed.

Lemma Neg_spec a :
  amount_wf a ->
  Neg a = if in_int64 (- Units a) then Ok (mkAmount (Asset a) (- Units a)) else Err ErrOverflow.
Proof.
  intros Ha. apply in_int64_spec in Ha. unfold Neg.
  destruct (Z.eqb_spec (Units a) min_int64) as [Hm|Hm].
  - by rewrite Hm.
  - replace (in_int64 _) with true; [|symmetry; apply in_int64_spec; unfold64; lia].
    rewrite wrap64_id; [done|]. unfold64; lia.
Qed.

(** ** Parsing computes the decimal value *)

(** What the accumulation loop returns: the digit value, negated when
    asked, or an overflow error when that is outside [int64]. *)
Lemma parse_loop_spec negative ds u :
  forallb is_digit ds = true -> 0 <= u <= max_int64 ->
  parse_loop negative ds u =
    let v := if negative : bool then - digits_value u ds else digits_value u ds in
    if in_int64 v then Ok v else Err ErrOverflow.
Proof.
  revert u. induction ds as [|c rest IH]; intros u Hd Hu; cbn [parse_loop].
  - cbn. assert (in_int64 (if negative then - u else u) = true) as ->.
    { apply in_int64_spec. destruct negative; unfold64; lia. }
    destruct negative; [|done]. rewrite wrap64_id; [done|unfold64; lia].
  - cbn [forallb] in Hd. apply andb_true_iff in Hd as [Hc Hd].
    pose proof (digit_val_range _ Hc) as Hr.
    assert (Hv : digits_value u (c :: rest) = digits_value (u * 10 + digit_val c) rest) by done.
    pose proof (digits_value_nonneg (u * 10 + digit_val c) rest ltac:(lia) Hd) as Hge.
    assert (Herr : max_int64 + 1 < digits_value u (c :: rest) ->
      (let v := if negative : bool then - digits_value u (c :: rest)
                else digits_value u (c :: rest) in
       if in_int64 v then Ok v else Err ErrOverflow) = Err ErrOverflow).
    { intros Hbig. cbn zeta. rewrite (proj2 (in_int64_false _)); [done|].
      destruct negative; unfold64; lia. }
    destruct (Z.ltb_spec (max_int64 / 10) u) as [H1|H1].
    { symmetry. apply Herr. change (max_int64 / 10) with 922337203685477580 in H1. unfold64; lia. }
    change (max_int64 / 10) with 922337203685477580 in H1.
    rewrite (wrap64_id (u * 10)) by (unfold64; lia).
    destruct (Z.ltb_spec (max_int64 - digit_val c) (u * 10)) as [H2|H2].
    + destruct rest as [|c' rest].
      * cbn [length Nat.eqb]. rewrite andb_true_r. cbn zeta. rewrite Hv. cbn.
        destruct negative; cbn [andb].
        -- destruct (Z.eqb_spec (u * 10) (max_int64 - digit_val c + 1)) as [H3|H3].
           ++ replace (- (u * 10 + digit_val c)) with min_int64 by (unfold64; lia). done.
           ++ rewrite (proj2 (in_int64_false _)); [done|]. unfold64; lia.
        -- rewrite (proj2 (in_int64_false _)); [done|]. unfold64; lia.
      * cbn [length Nat.eqb]. rewrite andb_false_r. symmetry. apply Herr. rewrite Hv.
        cbn [forallb] in Hd. apply andb_true_iff in Hd as [Hc' Hd'].
        pose proof (digit_val_range _ Hc').
        pose proof (digits_value_nonneg ((u * 10 + digit_val c) * 10 + digit_val c') rest
                      ltac:(lia) Hd').
        change (digits_value (u * 10 + digit_val c) (c' :: rest))
          with (digits_value ((u * 10 + digit_val c) * 10 + digit_val c') rest).
        unfold64; lia.
    + rewrite wrap64_id by (unfold64; lia). rewrite IH; [|done|lia]. by rewrite Hv.
Qed.

(** The decimal literals the parser is meant to read: an optional sign, then
    digits with at most one dot and at least one digit. [fp] is empty both for
    "5" and for "5.". *)
Inductive decimal_literal : list ascii -> bool -> list ascii -> list ascii -> Prop :=
| decimal_lit sg negative ip fp dot :
    (sg = [] /\ negative = false) \/ (sg = ["+"%char] /\ negative = false) \/
    (sg = ["-"%char] /\ negative = true) ->
    (dot = ["."%char] \/ (dot = [] /\ fp = [])) ->
    forallb is_digit ip = true -> forallb is_digit fp = true ->
    ip ++ fp <> [] ->
    decimal_literal (sg ++ ip ++ dot ++ fp) negative ip fp.

(** Minor units denoted by a literal at a given exponent. *)
Definition literal_units (negative : bool) (ip fp : list ascii) (exp : Z) : Z :=
  let v := digits_value 0 ip * 10 ^ exp
           + digits_value 0 fp * 10 ^ (exp - Z.of_nat (length fp)) in
  if negative then - v else v.

Lemma split_dot_some s i f :
  split_dot s = Some (i, f) <-> s = i ++ "."%char :: f /\ "."%char ∉ i.
Proof.
  revert i. induction s as [|c s IH]; intros i; cbn [split_dot].
  - split; [done|]. intros [H _]. by destruct i.
  - destruct (Ascii.eqb_spec c ".") as [->|Hc].
    + split.
      * intros [= <- <-]. split; [done|]. set_solver.
      * intros [H Hi]. destruct i as [|c' i]; cbn in H.
        -- by injection H as ->.
        -- injection H as <- _. set_solver.
    + assert (Hcons : forall i, (c :: s = i ++ "."%char :: f /\ "."%char ∉ i) ->
        exists i', i = c :: i' /\ split_dot s = Some (i', f)).
      { intros [|c' i'] [H Hi]; cbn in H; [congruence|]. injection H as <- H.
        exists i'. split; [done|]. apply IH. split; [done|]. intros ?. apply Hi. by right. }
      split.
      * destruct (split_dot s) as [[i' f']|] eqn:E; [|done]. intros [= <- <-].
        destruct (proj1 (IH i') eq_refl) as [-> Hi]. split; [done|].
        intros [?|?]%elem_of_cons; [congruence|by apply Hi].
      * intros H. destruct (Hcons i H) as (i' & -> & ->). done.
Qed.

Lemma split_dot_none s : split_dot s = None <-> "."%char ∉ s.
Proof.
  induction s as [|c s IH]; cbn [split_dot]; [set_solver|].
  destruct (Ascii.eqb_spec c "."); [set_solver|].
  destruct (split_dot s) as [[]|]; set_solver.
Qed.

Lemma existsb_dot l : existsb (fun c => Ascii.eqb c ".") l = false <-> "."%char ∉ l.
Proof.
  induction l as [|c l IH]; cbn [existsb]; [set_solver|].
  rewrite orb_false_iff, IH, Ascii.eqb_neq. set_solver.
Qed.

Lemma digits_no_dot l : forallb is_digit l = true -> "."%char ∉ l.
Proof.
  induction l as [|c l IH]; cbn [forallb]; [set_solver|].
  rewrite andb_true_iff. intros [Hc Hl] [?|?]%elem_of_cons; [by subst c|]. by apply IH.
Qed.

Lemma strip_sign_lit sg negative body :
  (sg = [] /\ negative = false) \/ (sg = ["+"%char] /\ negative = false) \/
  (sg = ["-"%char] /\ negative = true) ->
  (exists c rest, body = c :: rest /\ (is_digit c = true \/ c = "."%char)) ->
  strip_sign (sg ++ body) = (negative, body).
Proof.
  intros Hsg (c & rest & -> & Hc).
  assert (Ascii.eqb c "-" = false /\ Ascii.eqb c "+" = false) as [H1 H2].
  { destruct Hc as [Hc| ->]; [by apply digit_not_sign|done]. }
  destruct Hsg as [[-> ->]|[[-> ->]|[-> ->]]]; cbn [strip_sign app].
  - by rewrite H1, H2.
  - done.
  - done.
Qed.

Lemma literal_split ip fp dot :
  (dot = ["."%char] \/ (dot = [] /\ fp = [])) -> forallb is_digit ip = true ->
  default (ip ++ dot ++ fp, []) (split_dot (ip ++ dot ++ fp)) = (ip, fp).
Proof.
  intros Hdot Hip. pose proof (digits_no_dot _ Hip) as Hnd.
  destruct Hdot as [->|[-> ->]].
  - rewrite (proj2 (split_dot_some (ip ++ ["."%char] ++ fp) ip fp)); [done|]. by split.
  - rewrite !app_nil_r. by rewrite (proj2 (split_dot_none ip) Hnd).
Qed.

Lemma literal_digits_value ip fp n :
  (Z.of_nat (length fp) <= n) ->
  digits_value 0 ((if (length ip =? 0)%nat then ["0"%char] else ip) ++
                  fp ++ replicate (Z.to_nat (n - Z.of_nat (length fp))) "0"%char)
  = literal_units false ip fp n.
Proof.
  intros Hn. unfold literal_units. rewrite !digits_value_app.
  assert (digits_value 0 (if (length ip =? 0)%nat then ["0"%char] else ip)
          = digits_value 0 ip) as -> by by destruct ip.
  rewrite (digits_value_shift (digits_value 0 ip) fp).
  rewrite digits_value_shift, length_replicate, digits_value_zeros, Z2Nat.id by lia.
  rewrite Z.mul_add_distr_r, <- Z.mul_assoc, <- Z.pow_add_r by lia.
  replace (Z.of_nat (length fp) + (n - Z.of_nat (length fp))) with n by lia. lia.
Qed.

(** What the parser returns on each literal: too many decimals, out of range,
    or the denoted minor units. *)
Lemma ParseUnits_literal decimal exp negative ip fp :
  0 <= exp -> decimal_literal (list_ascii_of_string decimal) negative ip fp ->
  ParseUnits decimal exp =
    if exp <? Z.of_nat (length fp) then Err ErrTooManyDigits
    else if in_int64 (literal_units negative ip fp exp)
         then Ok (literal_units negative ip fp exp) else Err ErrOverflow.
Proof.
  intros Hexp Hlit. unfold ParseUnits. destruct (Z.ltb_spec exp 0); [lia|].
  inversion Hlit as [sg n i f dot Hsg Hdot Hip Hfp Hne Hs]; subst n i f.
  assert (Hhead : exists c rest, ip ++ dot ++ fp = c :: rest
            /\ (is_digit c = true \/ c = "."%char)).
  { destruct ip as [|c ip]; cbn [app].
    - destruct Hdot as [->|[-> ->]]; [|done]. eexists _, _; split; [done|by right].
    - eexists _, _; split; [done|left]. cbn in Hip. by apply andb_true_iff in Hip as [? _]. }
  rewrite (strip_sign_lit _ _ _ Hsg Hhead).
  destruct Hhead as (c & rest & Hcr & Hc).
  rewrite length_app. rewrite Hcr at 1. cbn [length]. rewrite Nat.add_succ_r. cbn [Nat.eqb].
  rewrite decide_False.
  2:{ rewrite Hcr. intros [?|Hd]; [done|]. rewrite <- Hcr in Hd.
      destruct ip as [|c' ip]; cbn in Hd.
      - destruct Hdot as [->|[-> ->]]; [|done]. cbn in Hd. by injection Hd as ->.
      - injection Hd as -> _. discriminate Hip. }
  rewrite (literal_split _ _ _ Hdot Hip). rewrite (proj2 (existsb_dot fp)) by by apply digits_no_dot.
  assert (Hip' : forallb is_digit (if (length ip =? 0)%nat then ["0"%char] else ip) = true)
    by (by destruct ip).
  rewrite Hip', Hfp. cbn [andb negb]. destruct (Z.ltb_spec exp (Z.of_nat (length fp))); [done|].
  rewrite parse_loop_spec; [| |unfold64; lia].
  2:{ rewrite !forallb_app, Hip', Hfp. by rewrite forallb_zeros. }
  cbn zeta. rewrite literal_digits_value by lia. by destruct negative.
Qed.

(** Anything that is not a literal is rejected as an invalid decimal. *)
Lemma ParseUnits_invalid decimal exp :
  (forall negative ip fp, ~ decimal_literal (list_ascii_of_string decimal) negative ip fp) ->
  ParseUnits decimal exp = Err ErrInvalidDecimal.
Proof.
  intros Hno. unfold ParseUnits. destruct (exp <? 0); [done|].
  set (s0 := list_ascii_of_string decimal) in *.
  destruct (length s0 =? 0)%nat; [done|].
  destruct (strip_sign s0) as [negative s] eqn:Hsign.
  assert (Hs0 : exists sg, s0 = sg ++ s /\ ((sg = [] /\ negative = false) \/
            (sg = ["+"%char] /\ negative = false) \/ (sg = ["-"%char] /\ negative = true))).
  { destruct s0 as [|c rest]; cbn [strip_sign] in Hsign.
    - injection Hsign as <- <-. exists []. naive_solver.
    - destruct (Ascii.eqb_spec c "-") as [->|]; [|destruct (Ascii.eqb_spec c "+") as [->|]];
        injection Hsign as <- <-; [exists ["-"%char]|exists ["+"%char]|exists []]; naive_solver. }
  destruct Hs0 as (sg & -> & Hsg).
  destruct (decide _) as [|Hnd]; [done|].
  assert (exists dot ip fp, s = ip ++ dot ++ fp /\ (dot = ["."%char] \/ (dot = [] /\ fp = []))
          /\ default (s, []) (split_dot s) = (ip, fp)) as (dot & ip & fp & -> & Hdot & ->).
  { destruct (split_dot s) as [[i f]|] eqn:E; cbn.
    - apply split_dot_some in E as [-> _]. exists ["."%char], i, f. by split_and!; [|left|].
    - exists [], s, []. by rewrite !app_nil_r; split_and!; [|right|]. }
  destruct (existsb _ fp); [done|].
  destruct (forallb is_digit _ && forallb is_digit fp) eqn:Hdig; cbn [negb]; [|done].
  apply andb_true_iff in Hdig as [Hip Hfp].
  exfalso. apply (Hno negative ip fp). apply decimal_lit; [done|done| |done|].
  - by destruct ip.
  - intros [-> ->]%app_eq_nil. apply Hnd. destruct Hdot as [->|[-> _]]; [right|left]; done.
Qed.

(** ** Rendering is a literal of the same value *)

Lemma abs_uint64_spec u : in_int64 u = true -> abs_uint64 u = Z.abs u.
Proof.
  rewrite in_int64_spec. intros H. unfold abs_uint64. destruct (Z.ltb_spec u 0); [|lia].
  rewrite (wrap64_id (u + 1)), wrap64_id by (unfold64; lia).
  rewrite (Z.mod_small (- (u + 1))), Z.mod_small by (unfold64; lia). lia.
Qed.

Lemma forallb_take_drop {A} (f : A -> bool) n l :
  forallb f l = true -> forallb f (take n l) = true /\ forallb f (drop n l) = true.
Proof. rewrite <- (take_drop n l) at 1. by rewrite forallb_app, andb_true_iff. Qed.

Lemma format_literal a exp :
  amount_wf a -> 0 <= exp ->
  exists ip fp, decimal_literal (list_ascii_of_string (FormatWithExponent a exp))
                  (Units a <? 0) ip fp /\
    Z.of_nat (length fp) <= exp /\ literal_units (Units a <? 0) ip fp exp = Units a.
Proof.
  intros Hwf Hexp. pose proof (proj1 (in_int64_spec _) Hwf) as Hr. unfold FormatWithExponent.
  destruct (Z.leb_spec exp 0) as [H0|H0].
  - assert (exp = 0) as -> by lia. unfold FormatInt. rewrite list_ascii_of_string_of_list_ascii.
    assert (Hl : forall n, 0 <= n -> utoa n ++ [] ++ [] = utoa n) by (intros; by rewrite !app_nil_r).
    exists (utoa (Z.abs (Units a))), []. split_and!; [|cbn; lia|].
    + destruct (Z.ltb_spec (Units a) 0).
      * replace (Z.abs (Units a)) with (- Units a) by lia. rewrite <- (Hl (- Units a)) at 1 by lia.
        apply (decimal_lit ["-"%char]); [naive_solver|by right|apply utoa_digits; lia|done|].
        rewrite app_nil_r. apply utoa_nonempty.
      * replace (Z.abs (Units a)) with (Units a) by lia. rewrite <- (Hl (Units a)) at 1 by lia.
        apply (decimal_lit []); [naive_solver|by right|apply utoa_digits; lia|done|].
        rewrite app_nil_r. apply utoa_nonempty.
    + unfold literal_units. rewrite utoa_value by (unfold64; lia). cbn.
      destruct (Z.ltb_spec (Units a) 0); lia.
  - rewrite abs_uint64_spec by done.
    set (ds0 := utoa (Z.abs (Units a))).
    set (ds := if Z.of_nat (length ds0) <=? exp then _ else ds0).
    assert (Hds : forallb is_digit ds = true /\ digits_value 0 ds = Z.abs (Units a)
                  /\ exp < Z.of_nat (length ds)).
    { assert (Hd0 : forallb is_digit ds0 = true) by (apply utoa_digits; lia).
      assert (Hv0 : digits_value 0 ds0 = Z.abs (Units a)) by (apply utoa_value; unfold64; lia).
      unfold ds. destruct (Z.leb_spec (Z.of_nat (length ds0)) exp); [|done].
      rewrite forallb_app, forallb_zeros, digits_value_zeros_l, length_app, length_replicate.
      split_and!; [done|done|lia]. }
    destruct Hds as (Hd & Hv & Hlen).
    set (cut := (length ds - Z.to_nat exp)%nat).
    destruct (forallb_take_drop _ cut _ Hd) as [Hti Hdr].
    assert (Hfl : Z.of_nat (length (drop cut ds)) = exp) by (rewrite length_drop; lia).
    exists (take cut ds), (drop cut ds). rewrite list_ascii_of_string_of_list_ascii.
    split_and!; [|lia|].
    + apply decimal_lit; [destruct (Units a <? 0); naive_solver|by left|done|done|].
      rewrite take_drop. intros ->. cbn in Hlen. lia.
    + unfold literal_units. rewrite Hfl, Z.sub_diag.
      assert (digits_value 0 (take cut ds) * 10 ^ exp + digits_value 0 (drop cut ds) * 10 ^ 0
              = Z.abs (Units a)) as ->.
      { transitivity (digits_value 0 (take cut ds ++ drop cut ds)); [|by rewrite take_drop].
        rewrite digits_value_app.
        rewrite (digits_value_shift (digits_value 0 (take cut ds))), Hfl. lia. }
      destruct (Z.ltb_spec (Units a) 0); lia.
Qed.

(** ** Properties *)

(** C40: [Add], [Sub] and [Neg] on amounts held in an [int64] return the exact
    mathematical result exactly when it fits an [int64] and the assets agree,
    and the matching error otherwise: the overflow tests miss nothing and
    reject nothing that fits. *)
Theorem checked_arithmetic_exact (a b : Amount) :
  amount_wf a -> amount_wf b ->
  Add a b = (if decide (Asset a = Asset b)
             then if in_int64 (Units a + Units b)
                  then Ok (mkAmount (Asset a) (Units a + Units b)) else Err ErrOverflow
             else Err ErrAssetMismatch) /\
  Sub a b = (if decide (Asset a = Asset b)
             then if in_int64 (Units a - Units b)
                  then Ok (mkAmount (Asset a) (Units a - Units b)) else Err ErrOverflow
             else Err ErrAssetMismatch) /\
  Neg a = (if in_int64 (- Units a)
           then Ok (mkAmount (Asset a) (- Units a)) else Err ErrOverflow).
Proof. intros. split_and!; [by apply Add_spec|by apply Sub_spec|by apply Neg_spec]. Qed.

Lemma checked_arithmetic_exact_witness :
  Sub (mkAmount "USD" (-1)) (mkAmount "USD" min_int64) = Ok (mkAmount "USD" max_int64).
Proof.
  destruct (checked_arithmetic_exact (mkAmount "USD" (-1)) (mkAmount "USD" min_int64)
              eq_refl eq_refl) as (_ & H & _).
  exact H.
Defined.

(** [ParseUnits] reads exactly the decimal literals: a literal with too
    many decimals is rejected as such, one whose minor units leave [int64] is
    an overflow, every other literal returns its exact minor units (with
    [MinInt64] included), and a string that is no literal is an invalid
    decimal. *)
Theorem ParseUnits_exact (decimal : string) (exp : Z) :
  0 <= exp ->
  (forall negative ip fp, decimal_literal (list_ascii_of_string decimal) negative ip fp ->
     ParseUnits decimal exp =
       if exp <? Z.of_nat (length fp) then Err ErrTooManyDigits
       else if in_int64 (literal_units negative ip fp exp)
            then Ok (literal_units negative ip fp exp) else Err ErrOverflow) /\
  ((forall negative ip fp, ~ decimal_literal (list_ascii_of_string decimal) negative ip fp) ->
     ParseUnits decimal exp = Err ErrInvalidDecimal).
Proof.
  intros Hexp. split; [intros; by apply ParseUnits_literal|apply ParseUnits_invalid].
Qed.

Lemma ParseUnits_exact_witness : ParseUnits "-0.05" 2 = Ok (-5).
Proof.
  destruct (ParseUnits_exact "-0.05" 2 ltac:(lia)) as [H _].
  apply (H true ["0"%char] ["0"%char; "5"%char]).
  apply (decimal_lit ["-"%char] true ["0"%char] ["0"%char; "5"%char] ["."%char]);
    try reflexivity; [right; right; split; reflexivity|left; reflexivity|discriminate].
Defined.

(** rendering an amount with a non-negative exponent and parsing it back
    with the same exponent returns the same minor units, for every [int64]
    and every exponent. *)
Theorem format_parse_roundtrip (a : Amount) (exp : Z) :
  amount_wf a -> 0 <= exp -> ParseUnits (FormatWithExponent a exp) exp = Ok (Units a).
Proof.
  intros Hwf Hexp. destruct (format_literal a exp Hwf Hexp) as (ip & fp & Hlit & Hlen & Hval).
  rewrite (ParseUnits_literal _ _ _ _ _ Hexp Hlit), Hval, Hwf.
  destruct (Z.ltb_spec exp (Z.of_nat (length fp))); [lia|done].
Qed.

Lemma format_parse_roundtrip_witness :
  ParseUnits (FormatWithExponent (mkAmount "BTC" min_int64) 8) 8 = Ok min_int64.
Proof. exact (format_parse_roundtrip (mkAmount "BTC" min_int64) 8 eq_refl ltac:(lia)). Defined.
