(* ===== verification/LedgerDomain.v ===== *)
(** * Ledger domain: [services/ledger-core/internal/domain/domain.go]

    Entities and pure rules of the double-entry engine. *)

From Stdlib Require Import Ascii String ZArith Lia.
From S2P Require Import Prelude Strconv Errors Money.
Local Open Scope Z_scope.

(** Identifiers are the 128-bit value of a [uuid.UUID]; instants are counted
    in microseconds since the Unix epoch, UTC. *)
Abbreviation uuid := Z (only parsing).
Abbreviation time := Z (only parsing).
Definition uuid_Nil : uuid := 0.
(** [time.Time{}]: 0001-01-01T00:00:00Z. *)
Definition zero_time : time := -62135596800000000.
Definition time_IsZero (t : time) : bool := t =? zero_time.

(** ** Enumerations

    Go's string enumerations admit any string; the last constructor holds the
    values outside the declared constants. *)

Inductive AccountType : Type :=
| AccountAsset | AccountLiability | AccountEquity | AccountRevenue | AccountExpense
| AccountTypeOther (s : string).

Definition AccountType_Valid (t : AccountType) : bool :=
  match t with AccountTypeOther _ => false | _ => true end.

Inductive NormalBalance : Type := NormalDebit | NormalCredit | NormalOther (s : string).

Definition NormalBalance_Valid (n : NormalBalance) : bool :=
  match n with NormalOther _ => false | _ => true end.

Inductive Direction : Type := DirectionDebit | DirectionCredit | DirectionOther (s : string).

Definition Direction_Valid (d : Direction) : bool :=
  match d with DirectionOther _ => false | _ => true end.

Definition Opposite (d : Direction) : Direction :=
  match d with DirectionDebit => DirectionCredit | _ => DirectionDebit end.

Inductive TransactionStatus : Type :=
| TransactionDraft | TransactionPosted | TransactionReversed
| TransactionStatusOther (s : string).

Inductive HoldStatus : Type := HoldActive | HoldCaptured | HoldReleased | HoldExpired.

#[export] Instance AccountType_eq_dec : EqDecision AccountType.
Proof. solve_decision. Defined.
#[export] Instance NormalBalance_eq_dec : EqDecision NormalBalance.
Proof. solve_decision. Defined.
#[export] Instance Direction_eq_dec : EqDecision Direction.
Proof. solve_decision. Defined.
#[export] Instance TransactionStatus_eq_dec : EqDecision TransactionStatus.
Proof. solve_decision. Defined.
#[export] Instance HoldStatus_eq_dec : EqDecision HoldStatus.
Proof. solve_decision. Defined.

(** ** Entities *)

(** [map[string]string]; [None] is Go's nil map. *)
Abbreviation metadata := (option (gmap string string)) (only parsing).

Record Ledger : Type := mkLedger {
  l_ID : uuid; l_TenantID : uuid; l_Name : string; l_Description : string;
  l_Environment : string; l_Metadata : metadata; l_CreatedAt : time }.

Record Account : Type := mkAccount {
  a_ID : uuid; a_TenantID : uuid; a_LedgerID : uuid; a_Name : string; a_Path : string;
  a_Type : AccountType; a_NormalBalance : NormalBalance; a_Status : string;
  a_Metadata : metadata; a_CreatedAt : time }.

Record Posting : Type := mkPosting {
  p_ID : uuid; p_AccountID : uuid; p_Direction : Direction; p_Amount : Amount }.

Record Transaction : Type := mkTransaction {
  t_ID : uuid; t_TenantID : uuid; t_LedgerID : uuid; t_Reference : string;
  t_Description : string; t_IdempotencyKey : string; t_Status : TransactionStatus;
  t_EffectiveAt : time; t_EffectiveAtProvided : bool; t_PostedAt : option time;
  t_ReversedByID : option uuid; t_ReversesID : option uuid; t_Metadata : metadata;
  t_Postings : list Posting; t_CreatedAt : time }.

Record Entry : Type := mkEntry {
  e_ID : uuid; e_TransactionID : uuid; e_AccountID : uuid; e_Direction : Direction;
  e_Amount : Amount; e_CreatedAt : time }.

Record Hold : Type := mkHold {
  h_ID : uuid; h_TenantID : uuid; h_LedgerID : uuid; h_AccountID : uuid;
  h_IdempotencyKey : string; h_Amount : Amount; h_Status : HoldStatus;
  h_ExpiresAt : time; h_ExpiresAtProvided : bool; h_CapturedTransactionID : option uuid;
  h_Metadata : metadata; h_CreatedAt : time }.

Record Balance : Type := mkBalance {
  b_Asset : string; b_PostedDebits : Z; b_PostedCredits : Z;
  b_PendingDebits : Z; b_PendingCredits : Z; b_Held : Z; b_Version : Z }.

#[export] Instance Ledger_eq_dec : EqDecision Ledger.
Proof. solve_decision. Defined.
#[export] Instance Account_eq_dec : EqDecision Account.
Proof. solve_decision. Defined.
#[export] Instance Posting_eq_dec : EqDecision Posting.
Proof. solve_decision. Defined.
#[export] Instance Transaction_eq_dec : EqDecision Transaction.
Proof. solve_decision. Defined.
#[export] Instance Hold_eq_dec : EqDecision Hold.
Proof. solve_decision. Defined.

Definition PostedNet (b : Balance) (nb : NormalBalance) : Z :=
  match nb with
  | NormalDebit => wrap64 (b_PostedDebits b - b_PostedCredits b)
  | _ => wrap64 (b_PostedCredits b - b_PostedDebits b)
  end.

Definition PendingNet (b : Balance) (nb : NormalBalance) : Z :=
  match nb with
  | NormalDebit => wrap64 (b_PendingDebits b - b_PendingCredits b)
  | _ => wrap64 (b_PendingCredits b - b_PendingDebits b)
  end.

Definition Available (b : Balance) (nb : NormalBalance) : Z :=
  wrap64 (PostedNet b nb - b_Held b).

Definition SignRaw (nb : NormalBalance) (raw : Z) : Z :=
  match nb with NormalDebit => raw | _ => wrap64 (- raw) end.

Definition RunningBalance (nb : NormalBalance) (openingRaw cumulativeRaw : Z) : Z :=
  SignRaw nb (wrap64 (openingRaw + cumulativeRaw)).

Record StatementEntry : Type := mkStatementEntry {
  se_PostingID : uuid; se_TransactionID : uuid; se_Reference : string;
  se_Direction : Direction; se_Amount : Amount; se_EffectiveAt : time; se_Running : Z }.

Record AssetBalance : Type := mkAssetBalance { ab_Asset : string; ab_Units : Z }.

Record Statement : Type := mkStatement {
  st_Account : Account; st_From : time; st_To : time;
  st_Opening : list AssetBalance; st_Closing : list AssetBalance;
  st_Entries : list StatementEntry }.

Record ProviderAccountBalance : Type := mkProviderAccountBalance {
  pab_AccountID : uuid; pab_Path : string; pab_Type : AccountType; pab_Metadata : metadata;
  pab_Asset : string; pab_PostedDebits : Z; pab_PostedCredits : Z }.

Record ProviderAssetPosition : Type := mkProviderAssetPosition {
  pap_Asset : string; pap_Net : Z; pap_Accounts : list uuid }.

Record ProviderPosition : Type := mkProviderPosition {
  pp_Provider : string; pp_Positions : list ProviderAssetPosition }.

Record TrialBalanceRow : Type := mkTrialBalanceRow {
  tbr_AccountID : uuid; tbr_AccountName : string; tbr_AccountType : AccountType;
  tbr_Asset : string; tbr_Debits : Z; tbr_Credits : Z }.

Record TrialBalanceTotal : Type := mkTrialBalanceTotal {
  tbt_Asset : string; tbt_Debits : Z; tbt_Credits : Z; tbt_Balanced : bool }.

Record TrialBalance : Type := mkTrialBalance {
  tb_LedgerID : uuid; tb_AsOf : time;
  tb_Rows : list TrialBalanceRow; tb_Totals : list TrialBalanceTotal }.

Record BalanceDiscrepancy : Type := mkBalanceDiscrepancy {
  bd_AccountID : uuid; bd_Asset : string;
  bd_ComputedPostedDebits : Z; bd_StoredPostedDebits : Z;
  bd_ComputedPostedCredits : Z; bd_StoredPostedCredits : Z;
  bd_ComputedPendingDebits : Z; bd_StoredPendingDebits : Z;
  bd_ComputedPendingCredits : Z; bd_StoredPendingCredits : Z }.

(** ** Providers

    [strings.ToLower], [TrimSpace] and [EqualFold] on the ASCII range; other
    bytes are left alone. *)

Definition lower_byte (c : ascii) : ascii :=
  if (65 <=? byte_val c) && (byte_val c <=? 90)
  then ascii_of_nat (Z.to_nat (byte_val c + 32)) else c.
Definition upper_byte (c : ascii) : ascii :=
  if (97 <=? byte_val c) && (byte_val c <=? 122)
  then ascii_of_nat (Z.to_nat (byte_val c - 32)) else c.
Definition ToLowerBytes (s : list ascii) : list ascii := map lower_byte s.
Definition ToLower (s : string) : string :=
  string_of_list_ascii (map lower_byte (list_ascii_of_string s)).
Definition ToUpper (s : string) : string :=
  string_of_list_ascii (map upper_byte (list_ascii_of_string s)).

Definition is_space (c : ascii) : bool :=
  (byte_val c =? 32) || ((9 <=? byte_val c) && (byte_val c <=? 13)).
Fixpoint trim_left (s : list ascii) : list ascii :=
  match s with
  | c :: rest => if is_space c then trim_left rest else s
  | [] => []
  end.
Definition TrimSpace (s : string) : string :=
  string_of_list_ascii (rev (trim_left (rev (trim_left (list_ascii_of_string s))))).

(** [strings.FieldsFunc] for the separators ':' and '/': maximal runs of other
    bytes, never empty. *)
Definition is_path_sep (c : ascii) : bool := Ascii.eqb c ":" || Ascii.eqb c "/".
Fixpoint fields_func (cur s : list ascii) : list (list ascii) :=
  match s with
  | [] => if (length cur =? 0)%nat then [] else [rev cur]
  | c :: rest =>
      if is_path_sep c
      then (if (length cur =? 0)%nat then [] else [rev cur]) ++ fields_func [] rest
      else fields_func (c :: cur) rest
  end.

Fixpoint provider_scan (segs : list (list ascii)) : option string :=
  match segs with
  | s1 :: ((s2 :: _) as rest) =>
      if decide (ToLowerBytes s1 = list_ascii_of_string "provider" /\ s2 <> [])
      then Some (string_of_list_ascii (ToLowerBytes s2))
      else provider_scan rest
  | _ => None
  end.

Definition ProviderOf (path : string) (md : metadata) : option string :=
  let p := TrimSpace (default ""%string (default ∅ md !! "provider"%string)) in
  if decide (p <> ""%string) then Some (ToLower p)
  else provider_scan (fields_func [] (list_ascii_of_string path)).

Example provider_ex1 : ProviderOf "assets:provider:AcmePay:usd" None = Some "acmepay"%string.
Proof. reflexivity. Qed.
Example provider_ex2 : ProviderOf "liabilities/provider/nordpay" None = Some "nordpay"%string.
Proof. reflexivity. Qed.
Example provider_ex3 : ProviderOf "assets:cash" (Some {["provider"%string := " Stripe "%string]})
  = Some "stripe"%string.
Proof. reflexivity. Qed.

(** ** Asset registry *)

Definition DefaultAssetExponent : Z := 2.

Definition assetExponents : gmap string Z := list_to_map [
  ("USD", 2); ("EUR", 2); ("MXN", 2); ("DOP", 2); ("GTQ", 2); ("COP", 2); ("PEN", 2);
  ("JPY", 0); ("CLP", 0); ("USDC", 6); ("USDT", 6); ("BTC", 8)]%string.

Definition AssetExponent (code : string) : Z := default DefaultAssetExponent (assetExponents !! code).

(** ** Rules *)

(** One iteration of the loop of [ValidateBalanced] over the two running maps. *)
Definition vb_step (st : gmap string Amount * gmap string Amount) (p : Posting)
  : result error (gmap string Amount * gmap string Amount) :=
  let '(debits, credits) := st in
  let asset := Asset (p_Amount p) in
  _ ← ValidateAssetCode asset;
  if Units (p_Amount p) <=? 0 then Err ErrNonPositiveAmount
  else
    match p_Direction p with
    | DirectionDebit =>
        sum ← Add (default (mkAmount asset 0) (debits !! asset)) (p_Amount p);
        Ok (<[asset := sum]> debits, credits)
    | DirectionCredit =>
        sum ← Add (default (mkAmount asset 0) (credits !! asset)) (p_Amount p);
        Ok (debits, <[asset := sum]> credits)
    | DirectionOther _ => Err ErrInvalidDirection
    end.

Fixpoint vb_run (st : gmap string Amount * gmap string Amount) (ps : list Posting)
  : result error (gmap string Amount * gmap string Amount) :=
  match ps with
  | [] => Ok st
  | p :: rest => st' ← vb_step st p; vb_run st' rest
  end.

(** The two closing loops. Go ranges over the maps in an unspecified order,
    but every iteration that returns returns [ErrUnbalanced]. *)
Definition vb_totals (debits credits : gmap string Amount) : result error unit :=
  if forallb (fun '(asset, d) =>
       match credits !! asset with Some c => Units c =? Units d | None => false end)
     (map_to_list debits)
  then
    if forallb (fun '(asset, c) => bool_decide (is_Some (debits !! asset))) (map_to_list credits)
    then Ok tt else Err ErrUnbalanced
  else Err ErrUnbalanced.

Definition ValidateBalanced (postings : list Posting) : result error unit :=
  if (length postings <? 2)%nat then Err ErrTooFewPostings
  else
    st ← vb_run (∅, ∅) postings;
    vb_totals st.1 st.2.

Definition ReversalReferencePrefix : string := "reversal-of:".

(** [newID]/[uuid.NewV7]: identifiers come from a supply; an exhausted supply
    is a failing generator. *)
Definition newID (ids : list uuid) : result error (uuid * list uuid) :=
  match ids with id :: rest => Ok (id, rest) | [] => Err ErrOther end.

Fixpoint reverse_postings (ps : list Posting) (ids : list uuid)
  : result error (list Posting * list uuid) :=
  match ps with
  | [] => Ok ([], ids)
  | p :: rest =>
      '(id, ids) ← newID ids;
      '(rest, ids) ← reverse_postings rest ids;
      Ok (mkPosting id (p_AccountID p) (Opposite (p_Direction p)) (p_Amount p) :: rest, ids)
  end.

(** Rendering of identifiers and instants by third-party and library code. *)
Class Render : Type := {
  uuid_String : uuid -> string;         (* uuid.UUID.String *)
  rfc3339nano : time -> string          (* t.UTC().Format(time.RFC3339Nano) *)
}.

Section Reverse.
Context `{Render}.

Definition Reverse (original : Transaction) (reversalID : uuid) (now : time) (ids : list uuid)
  : result error (Transaction * list uuid) :=
  if bool_decide (t_ReversedByID original <> None) ||
     bool_decide (t_Status original = TransactionReversed)
  then Err ErrAlreadyReversed
  else if bool_decide (t_Status original <> TransactionPosted) then Err ErrNotPosted
  else
    '(ps, ids) ← reverse_postings (t_Postings original) ids;
    Ok ({| t_ID := reversalID;
           t_TenantID := t_TenantID original;
           t_LedgerID := t_LedgerID original;
           t_Reference := ReversalReferencePrefix +:+ uuid_String (t_ID original);
           t_Description := "";
           t_IdempotencyKey := ReversalReferencePrefix +:+ uuid_String (t_ID original);
           t_Status := TransactionPosted;
           t_EffectiveAt := now;
           t_EffectiveAtProvided := false;
           t_PostedAt := Some now;
           t_ReversedByID := None;
           t_ReversesID := Some (t_ID original);
           t_Metadata := None;
           t_Postings := ps;
           t_CreatedAt := now |}, ids).
End Reverse.

(** ** The balance check decides the double-entry condition *)

(** Total of one asset on one side of a set of postings. *)
Definition side_sum (d : Direction) (asset : string) (ps : list Posting) : Z :=
  sumZ (fun p => if decide (p_Direction p = d /\ Asset (p_Amount p) = asset)
                 then Units (p_Amount p) else 0) ps.

Arguments side_sum : simpl never.

Definition posting_ok (p : Posting) : Prop :=
  ValidateAssetCode (Asset (p_Amount p)) = Ok tt /\ 0 < Units (p_Amount p)
  /\ Direction_Valid (p_Direction p) = true.

Definition postings_wf (ps : list Posting) : Prop := Forall (fun p => amount_wf (p_Amount p)) ps.

(** Every asset's debits and credits can be held in an [int64]. *)
Definition sums_fit (ps : list Posting) : Prop :=
  forall asset, side_sum DirectionDebit asset ps <= max_int64
             /\ side_sum DirectionCredit asset ps <= max_int64.

(** The double-entry condition: for every asset, debits equal credits. *)
Definition balanced (ps : list Posting) : Prop :=
  forall asset, side_sum DirectionDebit asset ps = side_sum DirectionCredit asset ps.

Definition units_at (m : gmap string Amount) (a : string) : Z :=
  match m !! a with Some x => Units x | None => 0 end.

Definition side_ok (m : gmap string Amount) : Prop :=
  forall a x, m !! a = Some x -> Asset x = a /\ 0 < Units x <= max_int64.

Lemma side_sum_nil d a : side_sum d a [] = 0.
Proof. done. Qed.

Lemma side_sum_cons d a p ps :
  side_sum d a (p :: ps) =
    (if decide (p_Direction p = d /\ Asset (p_Amount p) = a) then Units (p_Amount p) else 0)
    + side_sum d a ps.
Proof. done. Qed.

Lemma side_sum_single d a p :
  side_sum d a [p] =
    if decide (p_Direction p = d /\ Asset (p_Amount p) = a) then Units (p_Amount p) else 0.
Proof. unfold side_sum. cbn. lia. Qed.

Lemma side_sum_nonneg d a ps :
  Forall posting_ok ps -> 0 <= side_sum d a ps.
Proof.
  intros H. apply sumZ_nonneg. intros p Hp. rewrite Forall_forall in H.
  destruct (H p Hp) as (_ & ? & _). case_decide; lia.
Qed.

#[export] Instance side_sum_perm d a : Proper (Permutation ==> eq) (side_sum d a).
Proof. intros l l' Hl. unfold side_sum. by rewrite Hl. Qed.

Lemma side_ok_range m a : side_ok m -> 0 <= units_at m a <= max_int64.
Proof.
  intros H. unfold units_at. destruct (m !! a) as [x|] eqn:E; [|unfold64; lia].
  destruct (H a x E). lia.
Qed.

Lemma side_ok_insert m a v :
  side_ok m -> 0 < v <= max_int64 -> side_ok (<[a := mkAmount a v]> m).
Proof.
  intros H Hv b x. destruct (decide (a = b)) as [->|Hne]; intros Hx; simplify_map_eq; [done|].
  by apply H.
Qed.

Lemma units_at_insert m a b v :
  units_at (<[a := mkAmount a v]> m) b = if decide (a = b) then v else units_at m b.
Proof. unfold units_at. destruct (decide (a = b)) as [->|]; by simplify_map_eq. Qed.

Lemma side_add m p :
  side_ok m -> amount_wf (p_Amount p) -> 0 < Units (p_Amount p) ->
  let a := Asset (p_Amount p) in
  let s := units_at m a + Units (p_Amount p) in
  Add (default (mkAmount a 0) (m !! a)) (p_Amount p)
  = if s <=? max_int64 then Ok (mkAmount a s) else Err ErrOverflow.
Proof.
  intros Hm Hp Hpos. cbn zeta. set (a := Asset (p_Amount p)).
  assert (Hcur : Asset (default (mkAmount a 0) (m !! a)) = a /\
                 Units (default (mkAmount a 0) (m !! a)) = units_at m a).
  { unfold units_at. destruct (m !! a) as [x|] eqn:E; cbn; [|done]. by destruct (Hm a x E). }
  destruct Hcur as [Ha Hu]. pose proof (side_ok_range m a Hm).
  pose proof (proj1 (in_int64_spec _) Hp).
  rewrite Add_spec; [|apply in_int64_spec; rewrite Hu; unfold64; lia|done].
  rewrite Ha, Hu, decide_True by done.
  destruct (Z.leb_spec (units_at m a + Units (p_Amount p)) max_int64).
  - rewrite (proj2 (in_int64_spec _)); [done|]. unfold64; lia.
  - rewrite (proj2 (in_int64_false _)); [done|]. lia.
Qed.

(** One step either adds the posting to its side or reports what is wrong. *)
Lemma vb_step_ok d c p st :
  side_ok d -> side_ok c -> amount_wf (p_Amount p) ->
  vb_step (d, c) p = Ok st ->
  posting_ok p /\ side_ok st.1 /\ side_ok st.2 /\
  (forall a, units_at st.1 a = units_at d a + side_sum DirectionDebit a [p]) /\
  (forall a, units_at st.2 a = units_at c a + side_sum DirectionCredit a [p]).
Proof.
  intros Hd Hc Hp. unfold vb_step, posting_ok.
  destruct (ValidateAssetCode _) as [[]|] eqn:Hasset; cbn; [|done].
  destruct (Z.leb_spec (Units (p_Amount p)) 0); [done|].
  destruct (p_Direction p) eqn:Hdir; cbn; [| |done].
  - rewrite (side_add d p Hd Hp) by lia. case_match eqn:Hle; [|done]. apply Z.leb_le in Hle.
    intros [= <-]. cbn. pose proof (side_ok_range d (Asset (p_Amount p)) Hd).
    split_and!; [done|lia|done|apply side_ok_insert; [done|lia]|done| |].
    + intros a. rewrite units_at_insert, side_sum_single, Hdir. do 2 case_decide; naive_solver lia.
    + intros a. rewrite side_sum_single, Hdir. case_decide; naive_solver lia.
  - rewrite (side_add c p Hc Hp) by lia. case_match eqn:Hle; [|done]. apply Z.leb_le in Hle.
    intros [= <-]. cbn. pose proof (side_ok_range c (Asset (p_Amount p)) Hc).
    split_and!; [done|lia|done|done|apply side_ok_insert; [done|lia]| |].
    + intros a. rewrite side_sum_single, Hdir. case_decide; naive_solver lia.
    + intros a. rewrite units_at_insert, side_sum_single, Hdir. do 2 case_decide; naive_solver lia.
Qed.

Lemma vb_step_total d c p :
  side_ok d -> side_ok c -> amount_wf (p_Amount p) -> posting_ok p ->
  (forall a, units_at d a + side_sum DirectionDebit a [p] <= max_int64) ->
  (forall a, units_at c a + side_sum DirectionCredit a [p] <= max_int64) ->
  exists st, vb_step (d, c) p = Ok st.
Proof.
  intros Hd Hc Hp (Ha & Hpos & Hdir) Hsd Hsc. unfold vb_step. rewrite Ha. cbn.
  destruct (Z.leb_spec (Units (p_Amount p)) 0); [lia|].
  specialize (Hsd (Asset (p_Amount p))). specialize (Hsc (Asset (p_Amount p))).
  rewrite side_sum_single in Hsd, Hsc. destruct (p_Direction p) eqn:E; [| |done].
  - rewrite decide_True in Hsd by done. rewrite (side_add d p Hd Hp) by lia. cbn.
    destruct (Z.leb_spec (units_at d (Asset (p_Amount p)) + Units (p_Amount p)) max_int64); [|lia].
    by eexists.
  - rewrite decide_True in Hsc by done. rewrite (side_add c p Hc Hp) by lia. cbn.
    destruct (Z.leb_spec (units_at c (Asset (p_Amount p)) + Units (p_Amount p)) max_int64); [|lia].
    by eexists.
Qed.

Lemma vb_run_ok ps d c st :
  side_ok d -> side_ok c -> postings_wf ps ->
  vb_run (d, c) ps = Ok st ->
  Forall posting_ok ps /\ side_ok st.1 /\ side_ok st.2 /\
  (forall a, units_at st.1 a = units_at d a + side_sum DirectionDebit a ps) /\
  (forall a, units_at st.2 a = units_at c a + side_sum DirectionCredit a ps).
Proof.
  revert d c. induction ps as [|p ps IH]; intros d c Hd Hc Hwf; cbn [vb_run].
  - intros [= <-]. cbn. split_and!; [done|done|done| |]; intros; rewrite side_sum_nil; lia.
  - apply Forall_cons in Hwf as [Hp Hwf]. intros ([d' c'] & H0 & H1)%bind_ok.
    destruct (vb_step_ok _ _ _ _ Hd Hc Hp H0) as (Hok & Hd' & Hc' & Sd & Sc).
    destruct (IH d' c' Hd' Hc' Hwf H1) as (Hoks & ? & ? & Sd' & Sc').
    split_and!; [by constructor|done|done| |]; intros a.
    + rewrite Sd'. cbn in Sd. rewrite Sd, side_sum_single, side_sum_cons. lia.
    + rewrite Sc'. cbn in Sc. rewrite Sc, side_sum_single, side_sum_cons. lia.
Qed.

Lemma vb_run_total ps d c :
  side_ok d -> side_ok c -> postings_wf ps -> Forall posting_ok ps ->
  (forall a, units_at d a + side_sum DirectionDebit a ps <= max_int64) ->
  (forall a, units_at c a + side_sum DirectionCredit a ps <= max_int64) ->
  exists st, vb_run (d, c) ps = Ok st.
Proof.
  revert d c. induction ps as [|p ps IH]; intros d c Hd Hc Hwf Hok Hsd Hsc; [by eexists|].
  apply Forall_cons in Hwf as [Hp Hwf]. apply Forall_cons in Hok as [Hpo Hok].
  assert (Hnn : forall s a, 0 <= side_sum s a ps) by (intros; by apply side_sum_nonneg).
  destruct (vb_step_total d c p Hd Hc Hp Hpo) as [[d' c'] Hst].
  { intros a. specialize (Hsd a). specialize (Hnn DirectionDebit a).
    rewrite side_sum_cons in Hsd. rewrite side_sum_single. lia. }
  { intros a. specialize (Hsc a). specialize (Hnn DirectionCredit a).
    rewrite side_sum_cons in Hsc. rewrite side_sum_single. lia. }
  cbn [vb_run]. rewrite Hst. cbn.
  destruct (vb_step_ok _ _ _ _ Hd Hc Hp Hst) as (_ & Hd' & Hc' & Sd & Sc). cbn in *.
  apply IH; [done|done|done|done| |]; intros a.
  - specialize (Hsd a). rewrite side_sum_cons in Hsd. rewrite Sd, side_sum_single. lia.
  - specialize (Hsc a). rewrite side_sum_cons in Hsc. rewrite Sc, side_sum_single. lia.
Qed.

(** The closing comparison, on maps whose entries are positive. *)
Lemma vb_totals_spec d c :
  side_ok d -> side_ok c ->
  vb_totals d c = Ok tt <-> (forall a, units_at d a = units_at c a).
Proof.
  intros Hd Hc. unfold vb_totals. split.
  - case_match eqn:H1; [|done]. case_match eqn:H2; [|done]. intros _ a.
    rewrite forallb_forall in H1, H2. unfold units_at.
    destruct (d !! a) as [x|] eqn:Ed.
    + specialize (H1 (a, x)). cbn in H1. rewrite <- list_elem_of_In, elem_of_map_to_list in H1.
      specialize (H1 Ed). destruct (c !! a); [|done]. apply Z.eqb_eq in H1. lia.
    + destruct (c !! a) as [y|] eqn:Ec; [|done].
      specialize (H2 (a, y)). cbn in H2. rewrite <- list_elem_of_In, elem_of_map_to_list in H2.
      specialize (H2 Ec). apply bool_decide_eq_true in H2. rewrite Ed in H2. by destruct H2.
  - intros Heq.
    assert (Hdom : forall a, is_Some (d !! a) <-> is_Some (c !! a)).
    { intros a. specialize (Heq a). unfold units_at in Heq.
      destruct (d !! a) as [x|] eqn:Ed, (c !! a) as [y|] eqn:Ec; [done| | |done].
      - destruct (Hd a x Ed). lia.
      - destruct (Hc a y Ec). lia. }
    assert (forallb _ (map_to_list d) = true) as ->.
    { apply forallb_forall. intros [a x] Hin%list_elem_of_In%elem_of_map_to_list.
      destruct (proj1 (Hdom a) ltac:(by eexists)) as [y Hy]. rewrite Hy.
      specialize (Heq a). unfold units_at in Heq. rewrite Hin, Hy in Heq. apply Z.eqb_eq. done. }
    assert (forallb _ (map_to_list c) = true) as ->; [|done].
    apply forallb_forall. intros [a y] Hin%list_elem_of_In%elem_of_map_to_list.
    apply bool_decide_eq_true, Hdom. by eexists.
Qed.

Lemma side_ok_empty : side_ok ∅.
Proof. intros a x. by rewrite lookup_empty. Qed.
#[export] Hint Resolve side_ok_empty : ledger.

Lemma units_at_empty a : units_at ∅ a = 0.
Proof. unfold units_at. by rewrite lookup_empty. Qed.

(** Acceptance is exactly the double-entry condition. *)
Lemma ValidateBalanced_ok ps :
  postings_wf ps ->
  ValidateBalanced ps = Ok tt <->
    (2 <= length ps)%nat /\ Forall posting_ok ps /\ sums_fit ps /\ balanced ps.
Proof.
  intros Hwf. unfold ValidateBalanced. destruct (Nat.ltb_spec (length ps) 2); [split; [done|lia]|].
  split.
  - intros (st & H1 & H2)%bind_ok. destruct (vb_run_ok _ _ _ _ side_ok_empty side_ok_empty Hwf H1)
      as (Hok & Hd & Hc & Sd & Sc).
    rewrite (vb_totals_spec _ _ Hd Hc) in H2.
    split_and!; [done|done| |]; intros a; specialize (Sd a); specialize (Sc a);
      rewrite units_at_empty in Sd, Sc; rewrite <- ?Sd, <- ?Sc in *.
    + pose proof (side_ok_range _ a Hd). pose proof (side_ok_range _ a Hc). lia.
    + specialize (H2 a). lia.
  - intros (_ & Hok & Hfit & Hbal).
    destruct (vb_run_total ps ∅ ∅ side_ok_empty side_ok_empty Hwf Hok) as [st Hst].
    1,2: intros a; destruct (Hfit a); rewrite units_at_empty; lia.
    destruct (vb_run_ok _ _ _ _ side_ok_empty side_ok_empty Hwf Hst) as (_ & Hd & Hc & Sd & Sc).
    rewrite Hst. cbn. apply (vb_totals_spec _ _ Hd Hc). intros a.
    rewrite Sd, Sc, !units_at_empty. specialize (Hbal a). lia.
Qed.

(** ** Mirrored postings *)

(** [rev] has the legs of [ps] with opposite directions, up to posting ids. *)
Definition mirrors (ps rev : list Posting) : Prop :=
  map (fun p => (p_AccountID p, p_Direction p, p_Amount p)) rev
  = map (fun p => (p_AccountID p, Opposite (p_Direction p), p_Amount p)) ps.

Lemma mirrors_Forall2 ps rev :
  mirrors ps rev <->
  Forall2 (fun p q => p_AccountID q = p_AccountID p /\ p_Direction q = Opposite (p_Direction p) /\
                      p_Amount q = p_Amount p) ps rev.
Proof.
  unfold mirrors. revert rev. induction ps as [|p ps IH]; intros [|q rev]; cbn.
  1-3: split; by inversion 1.
  split.
  - intros [= ? ? ? H]. constructor; [done|]. by apply IH.
  - intros ((Ea & Ed & Em) & H)%Forall2_cons. rewrite Ea, Ed, Em. f_equal. by apply IH.
Qed.

Lemma Opposite_valid d : Direction_Valid d = true -> Opposite (Opposite d) = d.
Proof. by destruct d. Qed.

Lemma mirrors_side_sum ps rev d asset :
  mirrors ps rev -> Forall (fun p => Direction_Valid (p_Direction p) = true) ps ->
  Direction_Valid d = true ->
  side_sum d asset rev = side_sum (Opposite d) asset ps.
Proof.
  intros H%mirrors_Forall2 Hv Hd. induction H as [|p q ps rev (Ha & Hdir & Ham) H IH]; [done|].
  apply Forall_cons in Hv as [Hp Hv]. rewrite !side_sum_cons, Hdir, Ham, IH by done. f_equal.
  revert Hp. destruct (p_Direction p), d; cbn; intros; repeat case_decide; naive_solver.
Qed.

Lemma mirrors_balanced ps rev :
  mirrors ps rev -> Forall (fun p => Direction_Valid (p_Direction p) = true) ps ->
  balanced ps -> balanced rev.
Proof.
  intros H Hv Hb asset. rewrite !(mirrors_side_sum ps rev) by done. cbn. by rewrite Hb.
Qed.

(** ** What a reversal is made of *)

Lemma reverse_postings_ok ps ids rev ids' :
  reverse_postings ps ids = Ok (rev, ids') -> mirrors ps rev /\ ids = map p_ID rev ++ ids'.
Proof.
  revert ids rev. induction ps as [|p ps IH]; intros ids rev; cbn [reverse_postings].
  - by intros [= <- <-].
  - unfold newID. destruct ids as [|i ids]; [done|]. cbn.
    destruct (reverse_postings ps ids) as [[rest ids1]|] eqn:E; [|done]. cbn. intros [= <- <-].
    destruct (IH _ _ E) as [Hm ->]. split; [|done]. unfold mirrors in *. cbn. by rewrite Hm.
Qed.

Lemma reverse_postings_total ps ids :
  (length ps <= length ids)%nat -> exists rev ids', reverse_postings ps ids = Ok (rev, ids').
Proof.
  revert ids. induction ps as [|p ps IH]; intros ids Hlen; cbn; [by eauto|].
  destruct ids as [|i ids]; cbn in Hlen; [lia|]. cbn.
  destruct (IH ids ltac:(lia)) as (rev & ids' & ->). cbn. by eauto.
Qed.

Section ReverseFacts.
Context `{Render}.

(** The reversal of [o] but for its posting ids. *)
Definition reversal (o : Transaction) (reversalID : uuid) (now : time) (ps : list Posting) : Transaction :=
  {| t_ID := reversalID; t_TenantID := t_TenantID o; t_LedgerID := t_LedgerID o;
     t_Reference := ReversalReferencePrefix +:+ uuid_String (t_ID o); t_Description := "";
     t_IdempotencyKey := ReversalReferencePrefix +:+ uuid_String (t_ID o);
     t_Status := TransactionPosted; t_EffectiveAt := now; t_EffectiveAtProvided := false;
     t_PostedAt := Some now; t_ReversedByID := None; t_ReversesID := Some (t_ID o);
     t_Metadata := None; t_Postings := ps; t_CreatedAt := now |}.

Lemma Reverse_ok o reversalID now ids rev ids' :
  Reverse o reversalID now ids = Ok (rev, ids') ->
  t_Status o = TransactionPosted /\ t_ReversedByID o = None /\
  rev = reversal o reversalID now (t_Postings rev) /\ mirrors (t_Postings o) (t_Postings rev) /\
  ids = map p_ID (t_Postings rev) ++ ids'.
Proof.
  unfold Reverse. case_bool_decide as H1; cbn; [done|]. case_bool_decide as H2; cbn; [done|].
  case_bool_decide as H3; cbn; [done|].
  destruct (reverse_postings (t_Postings o) ids) as [[ps ids1]|] eqn:E; cbn; [|done].
  intros [= <- <-]. destruct (reverse_postings_ok _ _ _ _ E) as [Hm ->]. cbn.
  split_and!; try done; by apply dec_stable.
Qed.
End ReverseFacts.

(** ** Properties of the rules *)

(** [ValidateBalanced] decides the double-entry condition. On int64 amounts
    it accepts exactly the sets of at least two postings with valid assets,
    positive amounts and valid directions whose per-asset totals fit an int64
    and agree; and when only the agreement fails it answers [ErrUnbalanced]. *)
Theorem ValidateBalanced_correct ps :
  postings_wf ps ->
  (ValidateBalanced ps = Ok tt <->
     (2 <= length ps)%nat /\ Forall posting_ok ps /\ sums_fit ps /\ balanced ps) /\
  ((2 <= length ps)%nat -> Forall posting_ok ps -> sums_fit ps -> ~ balanced ps ->
     ValidateBalanced ps = Err ErrUnbalanced).
Proof.
  intros Hwf. split; [by apply ValidateBalanced_ok|]. intros Hlen Hok Hfit Hnb.
  pose proof (ValidateBalanced_ok ps Hwf) as Hiff. unfold ValidateBalanced in *.
  destruct (Nat.ltb_spec (length ps) 2); [lia|].
  destruct (vb_run_total ps ∅ ∅ side_ok_empty side_ok_empty Hwf Hok) as [st Hst].
  1,2: intros a; destruct (Hfit a); rewrite units_at_empty; lia.
  rewrite Hst in *. cbn in *. unfold vb_totals in *.
  repeat case_match; try done; exfalso; by apply Hnb, Hiff.
Qed.

Lemma ValidateBalanced_correct_witness :
  let p d a u := mkPosting 0 0 d (mkAmount a u) in
  ValidateBalanced [p DirectionDebit "USD" 7; p DirectionDebit "EUR" 5; p DirectionCredit "USD" 7;
                    p DirectionCredit "EUR" 4]%string = Err ErrUnbalanced.
Proof.
  intros p. set (ps := [_; _; _; _]).
  assert (Hwf : postings_wf ps) by (repeat constructor).
  apply (proj2 (ValidateBalanced_correct ps Hwf)).
  - cbn. lia.
  - repeat constructor.
  - intros a. unfold side_sum. cbn. repeat case_decide; unfold64; split; lia.
  - intros Hb. specialize (Hb "EUR"%string). vm_compute in Hb. discriminate.
Defined.

(** reversing. [Reverse] refuses reversed and unposted transactions with the
    matching error; given enough ids it otherwise succeeds, with the original's
    legs mirrored, so it balances when the original does and cancels it side by
    side, and it links back to the original, posted at the given instant. *)
Theorem Reverse_correct `{Render} o reversalID now ids :
  (t_ReversedByID o <> None \/ t_Status o = TransactionReversed ->
     Reverse o reversalID now ids = Err ErrAlreadyReversed) /\
  (t_ReversedByID o = None -> t_Status o <> TransactionReversed -> t_Status o <> TransactionPosted ->
     Reverse o reversalID now ids = Err ErrNotPosted) /\
  (t_ReversedByID o = None -> t_Status o = TransactionPosted ->
     (length (t_Postings o) <= length ids)%nat ->
     exists rev ids', Reverse o reversalID now ids = Ok (rev, ids') /\
       rev = reversal o reversalID now (t_Postings rev) /\ mirrors (t_Postings o) (t_Postings rev) /\
       (Forall (fun p => Direction_Valid (p_Direction p) = true) (t_Postings o) ->
          (balanced (t_Postings o) -> balanced (t_Postings rev)) /\
          forall d asset, Direction_Valid d = true ->
            side_sum d asset (t_Postings rev) = side_sum (Opposite d) asset (t_Postings o))).
Proof.
  split_and!.
  - intros Hr. unfold Reverse. destruct Hr as [Hr|Hr].
    + by rewrite bool_decide_eq_true_2.
    + by rewrite (bool_decide_eq_true_2 (t_Status o = _)), orb_true_r.
  - intros Hn Hr Hp. unfold Reverse. rewrite (bool_decide_eq_false_2 (t_ReversedByID o <> None)) by naive_solver.
    by rewrite bool_decide_eq_false_2, bool_decide_eq_true_2.
  - intros Hn Hp Hlen. destruct (reverse_postings_total _ _ Hlen) as (ps & ids' & E).
    assert (HR : Reverse o reversalID now ids = Ok (reversal o reversalID now ps, ids')).
    { unfold Reverse. rewrite (bool_decide_eq_false_2 (t_ReversedByID o <> None)) by naive_solver.
      rewrite Hp, !bool_decide_eq_false_2 by naive_solver. cbn. by rewrite E. }
    destruct (reverse_postings_ok _ _ _ _ E) as [Hm _].
    exists (reversal o reversalID now ps), ids'. split_and!; [done|done|done|]. intros Hv. split.
    + by apply mirrors_balanced.
    + intros d asset Hd. by apply mirrors_side_sum.
Qed.

Lemma Reverse_correct_witness :
  let R : Render := {| uuid_String := FormatInt; rfc3339nano := FormatInt |} in
  let o := {| t_ID := 5; t_TenantID := 1; t_LedgerID := 2; t_Reference := ""; t_Description := "";
              t_IdempotencyKey := "k"; t_Status := TransactionPosted; t_EffectiveAt := 0;
              t_EffectiveAtProvided := false; t_PostedAt := Some 0; t_ReversedByID := None;
              t_ReversesID := None; t_Metadata := None;
              t_Postings := [mkPosting 6 10 DirectionDebit (mkAmount "USD" 3);
                             mkPosting 7 11 DirectionCredit (mkAmount "USD" 3)];
              t_CreatedAt := 0 |}%string in
  exists rev ids', Reverse o 20 9 [21; 22; 23] = Ok (rev, ids') /\ mirrors (t_Postings o) (t_Postings rev).
Proof.
  intros R o. destruct (proj2 (proj2 (Reverse_correct o 20 9 [21; 22; 23]))) as (rev & ids' & E & _ & Hm & _);
    [done|done|cbn; lia|].
  by exists rev, ids'.
Defined.
