(* ===== verification/LedgerEvents.v ===== *)
(** * Events: [libs/go/events/events.go] and [services/ledger-core/internal/app/events.go]

    Topics, the envelope and the payloads the ledger writes to its outbox. *)

From Stdlib Require Import Ascii String ZArith Lia.
From S2P Require Import Prelude Strconv Errors Money LedgerDomain.
Local Open Scope Z_scope.

Definition TopicTransactionPosted : string := "ledger.transaction.posted".
Definition TopicTransactionReversed : string := "ledger.transaction.reversed".
Definition TopicHoldCreated : string := "ledger.hold.created".
Definition TopicHoldCaptured : string := "ledger.hold.captured".
Definition TopicHoldReleased : string := "ledger.hold.released".
Definition TopicDiscrepancyDetected : string := "recon.discrepancy.detected".
Definition TopicTenantExpired : string := "identity.tenant.expired".
Definition EnvelopeVersion : Z := 1.

Record EventMoney : Type := mkEventMoney { em_Asset : string; em_Amount : string }.

Definition NewEventMoney (a : Amount) : EventMoney := mkEventMoney (Asset a) (FormatInt (Units a)).

(** [string(p.Direction)]. *)
Definition Direction_string (d : Direction) : string :=
  match d with
  | DirectionDebit => "DEBIT" | DirectionCredit => "CREDIT" | DirectionOther s => s
  end.

Record EventPosting : Type := mkEventPosting {
  ep_AccountID : uuid; ep_Direction : string; ep_Amount : EventMoney }.

Record TransactionPostedEvent : Type := mkTransactionPostedEvent {
  tpe_TransactionID : uuid; tpe_LedgerID : uuid; tpe_IdempotencyKey : string;
  tpe_Description : string; tpe_Postings : list EventPosting; tpe_Metadata : metadata;
  tpe_PostedAt : time }.

Definition NewTransactionPostedEvent (t : Transaction) (postedAt : time) : TransactionPostedEvent :=
  {| tpe_TransactionID := t_ID t;
     tpe_LedgerID := t_LedgerID t;
     tpe_IdempotencyKey := t_IdempotencyKey t;
     tpe_Description := t_Description t;
     tpe_Postings := map (fun p => mkEventPosting (p_AccountID p)
                            (Direction_string (p_Direction p)) (NewEventMoney (p_Amount p)))
                         (t_Postings t);
     tpe_Metadata := t_Metadata t;
     tpe_PostedAt := postedAt |}.

Record TransactionReversedEvent : Type := mkTransactionReversedEvent {
  tre_TransactionID : uuid; tre_ReversalTransactionID : uuid; tre_LedgerID : uuid;
  tre_Reason : string; tre_ReversedAt : time }.

Record HoldCreatedEvent : Type := mkHoldCreatedEvent {
  hce_HoldID : uuid; hce_LedgerID : uuid; hce_AccountID : uuid; hce_IdempotencyKey : string;
  hce_Amount : EventMoney; hce_ExpiresAt : time; hce_CreatedAt : time }.

Record HoldCapturedEvent : Type := mkHoldCapturedEvent {
  hpe_HoldID : uuid; hpe_LedgerID : uuid; hpe_AccountID : uuid;
  hpe_CapturedAmount : EventMoney; hpe_ReleasedAmount : option EventMoney;
  hpe_TransactionID : option uuid; hpe_CapturedAt : time }.

Record HoldReleasedEvent : Type := mkHoldReleasedEvent {
  hre_HoldID : uuid; hre_LedgerID : uuid; hre_AccountID : uuid; hre_Amount : EventMoney;
  hre_Reason : string; hre_ReleasedAt : time }.

(** The payloads carried by an envelope; their JSON encoding is not modelled. *)
Inductive payload : Type :=
| PTransactionPosted (e : TransactionPostedEvent)
| PTransactionReversed (e : TransactionReversedEvent)
| PHoldCreated (e : HoldCreatedEvent)
| PHoldCaptured (e : HoldCapturedEvent)
| PHoldReleased (e : HoldReleasedEvent).

(** [Envelope]; [Data] is the payload before its JSON encoding, of the type [D]
    of the emitting service. *)
Record Envelope (D : Type) : Type := mkEnvelope {
  env_ID : uuid; env_Type : string; env_TenantID : uuid; env_OccurredAt : time;
  env_Version : Z; env_Data : D }.
Arguments mkEnvelope {D} _ _ _ _ _ _.
Arguments env_ID {D} _.
Arguments env_Type {D} _.
Arguments env_TenantID {D} _.
Arguments env_OccurredAt {D} _.
Arguments env_Version {D} _.
Arguments env_Data {D} _.

(** [NewEnvelope]: the only failure is the id generator's. *)
Definition NewEnvelope {D} (topic : string) (tenantID : uuid) (data : D) (now : time)
  (ids : list uuid) : result error (Envelope D * list uuid) :=
  '(id, ids) ← newID ids;
  Ok (mkEnvelope id topic tenantID now EnvelopeVersion data, ids).
