(* ===== verification/Httpx.v ===== *)
(** * Keyset pagination: [libs/go/httpx/httpx.go]

    Cursors over [(created_at, id)], page requests and the window that decides
    whether a next page exists, with the SQL listing every store runs:
    rows strictly beyond the cursor, in key order, at most [LIMIT] of them. *)

From Stdlib Require Import Ascii String ZArith Lia Sorted.
From S2P Require Import Prelude Strconv Errors LedgerDomain.
Local Open Scope Z_scope.

Record Cursor : Type := mkCursor { c_CreatedAt : time; c_ID : uuid }.

#[export] Instance Cursor_eq_dec : EqDecision Cursor.
Proof. solve_decision. Defined.

Definition zero_cursor : Cursor := mkCursor zero_time uuid_Nil.

Definition Cursor_IsZero (c : Cursor) : bool := time_IsZero (c_CreatedAt c) && (c_ID c =? uuid_Nil).

Definition DefaultLimit : Z := 50.
Definition MaxLimit : Z := 200.

Record PageRequest : Type := mkPageRequest { pq_Limit : Z; pq_Cursor : Cursor }.

Definition FetchLimit (p : PageRequest) : Z := pq_Limit p + 1.

(** The errors [ParsePage] writes. *)
Inductive page_error : Type := BadLimit | BadCursor.

(** [ParsePage] on the raw query values; [Atoi] is [ParseInt] on the platform's
    64-bit [int], and the cursor decoder is [DecodeCursor]. *)
Definition ParsePage (decode : string -> option Cursor) (limit cursor : string)
  : result page_error PageRequest :=
  n ← (if decide (limit = ""%string) then Ok DefaultLimit
       else match ParseInt limit with
            | Some n => if n <? 1 then Err BadLimit
                        else Ok (if MaxLimit <? n then MaxLimit else n)
            | None => Err BadLimit
            end);
  match decode cursor with
  | Some c => Ok (mkPageRequest n c)
  | None => Err BadCursor
  end.

(** [Window]: [items[:limit]] panics for a limit beyond the slice, which the
    guard excludes; the cursor is returned unencoded. *)
Definition Window {A} (items : list A) (limit : nat) (keyOf : A -> Cursor)
  : list A * option Cursor :=
  if (length items <=? limit)%nat then (items, None)
  else
    let items := take limit items in
    (items, keyOf <$> last items).

(** ** Ordered listings

    [before x y]: the row with key [x] is listed before the row with key [y]. *)

Definition key_lt (a b : Cursor) : Prop :=
  c_CreatedAt a < c_CreatedAt b \/ (c_CreatedAt a = c_CreatedAt b /\ c_ID a < c_ID b).

#[export] Instance key_lt_dec : RelDecision key_lt.
Proof. intros a b. unfold key_lt. apply _. Defined.

Class KeyOrder (before : Cursor -> Cursor -> Prop) : Type := {
  before_dec :: RelDecision before;
  before_irrefl : forall x, ~ before x x;
  before_trans : forall x y z, before x y -> before y z -> before x z;
  before_total : forall x y, before x y \/ x = y \/ before y x
}.

(** Oldest first (statements) and newest first (every other listing). *)
Definition ascending : Cursor -> Cursor -> Prop := key_lt.
Definition descending (a b : Cursor) : Prop := key_lt b a.

Lemma Cursor_ext a b : c_CreatedAt a = c_CreatedAt b -> c_ID a = c_ID b -> a = b.
Proof. destruct a, b. cbn. by intros -> ->. Qed.

Lemma key_lt_total x y : key_lt x y \/ x = y \/ key_lt y x.
Proof.
  unfold key_lt. destruct (Z.lt_trichotomy (c_CreatedAt x) (c_CreatedAt y)) as [?|[?|?]];
    [lia| |lia].
  destruct (Z.lt_trichotomy (c_ID x) (c_ID y)) as [?|[?|?]]; [lia| |lia].
  right. left. by apply Cursor_ext.
Qed.

#[export] Instance ascending_order : KeyOrder ascending.
Proof.
  split; unfold ascending; [apply _|unfold key_lt; lia|unfold key_lt; lia|].
  apply key_lt_total.
Defined.

#[export] Instance descending_order : KeyOrder descending.
Proof.
  split; unfold descending; [intros a b; apply key_lt_dec|unfold key_lt; lia|unfold key_lt; lia|].
  intros x y. destruct (key_lt_total x y) as [?|[?|?]]; auto.
Defined.

Section Listing.
Context (before : Cursor -> Cursor -> Prop) `{KeyOrder before}.
Context {A : Type} (keyOf : A -> Cursor).

Definition row_le (a b : A) : Prop := ~ before (keyOf b) (keyOf a).

#[export] Instance row_le_dec : RelDecision row_le.
Proof. intros a b. unfold row_le. apply _. Defined.

(** ORDER BY created_at, id in the listing's direction. *)
Definition order_rows (rows : list A) : list A := merge_sort row_le rows.

Definition beyond (c : Cursor) (a : A) : bool := Cursor_IsZero c || bool_decide (before c (keyOf a)).

(** WHERE (cursor IS NULL OR key beyond cursor) ORDER BY key LIMIT limit. *)
Definition list_page (c : Cursor) (limit : nat) (rows : list A) : list A :=
  take limit (filter (fun a => beyond c a = true) (order_rows rows)).

(** A client that follows [next_cursor] until it is null; each step fetches one
    row more than the page. *)
Fixpoint follow (fuel : nat) (c : Cursor) (limit : nat) (rows : list A) : list A :=
  match fuel with
  | O => []
  | S fuel =>
      let '(items, next) := Window (list_page c (S limit) rows) limit keyOf in
      items ++ match next with Some c' => follow fuel c' limit rows | None => [] end
  end.
End Listing.

(** ** Pagination enumerates every row once *)

Section Pagination.
Context (before : Cursor -> Cursor -> Prop) `{KeyOrder before}.
Context {A : Type} (keyOf : A -> Cursor).

Lemma row_le_total : Total (row_le before keyOf).
Proof.
  intros a b. unfold row_le.
  destruct (decide (before (keyOf b) (keyOf a))); [right|by left].
  intros Hab. by eapply before_irrefl, before_trans.
Qed.

Lemma row_le_trans : Transitive (row_le before keyOf).
Proof.
  intros a b c Hab Hbc Hca. unfold row_le in *.
  destruct (before_total (keyOf a) (keyOf b)) as [Hlt|[He|?]]; [| |done].
  - apply Hbc. by eapply before_trans.
  - rewrite <- He in Hbc. done.
Qed.

Lemma order_rows_perm rows : Permutation (order_rows before keyOf rows) rows.
Proof. apply merge_sort_Permutation. Qed.

Lemma order_rows_sorted rows : StronglySorted (row_le before keyOf) (order_rows before keyOf rows).
Proof.
  pose proof row_le_total. pose proof row_le_trans. apply StronglySorted_merge_sort; apply _.
Qed.

(** Distinct keys make the order strict. *)
Lemma order_rows_strict rows :
  NoDup (map keyOf rows) ->
  StronglySorted (fun a b => before (keyOf a) (keyOf b)) (order_rows before keyOf rows).
Proof.
  intros Hnd. pose proof (order_rows_sorted rows) as Hs.
  assert (Hnd' : NoDup (map keyOf (order_rows before keyOf rows))).
  { by rewrite order_rows_perm. }
  revert Hnd'. induction Hs as [|a l Hl IH Ha]; intros Hnd'; [constructor|].
  cbn in Hnd'. apply NoDup_cons in Hnd' as [Hni Hnd'].
  constructor; [by apply IH|]. rewrite Forall_forall in *. intros b Hb.
  specialize (Ha b Hb). unfold row_le in Ha.
  destruct (before_total (keyOf a) (keyOf b)) as [?|[He|?]]; [done| |done].
  exfalso. apply Hni. rewrite He. by apply list_elem_of_In, in_map, list_elem_of_In.
Qed.

Lemma beyond_suffix (l1 l2 : list A) x c :
  c = keyOf x -> Cursor_IsZero c = false ->
  StronglySorted (fun a b => before (keyOf a) (keyOf b)) (l1 ++ x :: l2) ->
  filter (fun a => beyond before keyOf c a = true) (l1 ++ x :: l2) = l2.
Proof.
  intros -> Hz Hs. rewrite filter_app, filter_cons.
  rewrite (list_filter_none _ l1), decide_False.
  - cbn. apply list_filter_id. intros a Ha. unfold beyond. rewrite Hz. apply bool_decide_eq_true.
    clear Hz. induction l1 as [|b l1 IH]; [|apply StronglySorted_inv in Hs as [Hs _]; auto].
    apply StronglySorted_inv in Hs as [_ Hs]. rewrite Forall_forall in Hs. auto.
  - unfold beyond. rewrite Hz. cbn. rewrite bool_decide_eq_true. apply before_irrefl.
  - intros a Ha. unfold beyond. rewrite Hz. cbn. rewrite bool_decide_eq_true. intros Hb.
    apply (before_irrefl (keyOf x)). eapply before_trans; [done|].
    apply list_elem_of_split in Ha as (k1 & k2 & ->). rewrite <- app_assoc in Hs. cbn in Hs.
    clear -Hs. induction k1 as [|b k1 IH]; [|apply StronglySorted_inv in Hs as [Hs _]; auto].
    apply StronglySorted_inv in Hs as [_ Hs]. rewrite Forall_forall in Hs. apply Hs. set_solver.
Qed.

(** One page. [suf] are the rows beyond the cursor, in order. *)
Lemma page_step c limit rows pre suf :
  (1 <= limit)%nat ->
  (forall a, a ∈ rows -> Cursor_IsZero (keyOf a) = false) ->
  StronglySorted (fun a b => before (keyOf a) (keyOf b)) (order_rows before keyOf rows) ->
  order_rows before keyOf rows = pre ++ suf ->
  filter (fun a => beyond before keyOf c a = true) (order_rows before keyOf rows) = suf ->
  (length suf <= limit)%nat /\ Window (list_page before keyOf c (S limit) rows) limit keyOf = (suf, None) \/
  exists l x rest, length l = (limit - 1)%nat /\ suf = l ++ x :: rest /\ x ∈ rows /\
    Window (list_page before keyOf c (S limit) rows) limit keyOf = (l ++ [x], Some (keyOf x)) /\
    order_rows before keyOf rows = (pre ++ l ++ [x]) ++ rest /\
    filter (fun a => beyond before keyOf (keyOf x) a = true) (order_rows before keyOf rows) = rest.
Proof.
  intros Hl Hz Hs Hsplit Hf. unfold list_page. rewrite Hf. unfold Window. rewrite length_take.
  destruct (Nat.leb_spec (S limit `min` length suf) limit) as [Hle|Hgt].
  - left. split; [lia|]. rewrite take_ge; [done|lia].
  - right. rewrite take_take, Nat.min_l by lia.
    assert (Hlast : exists x l, take limit suf = l ++ [x]).
    { destruct (take limit suf) as [|y l _] eqn:E using rev_ind; [|by eauto].
      apply (f_equal length) in E. rewrite length_take in E. cbn in E. lia. }
    destruct Hlast as (x & l & Hx). rewrite Hx, last_snoc. cbn [fmap option_fmap option_map].
    assert (Hsuf : suf = l ++ x :: drop limit suf).
    { rewrite <- (take_drop limit suf) at 1. rewrite Hx, <- app_assoc. done. }
    assert (Hlen : length l = (limit - 1)%nat).
    { apply (f_equal length) in Hx. rewrite length_take, length_app in Hx. cbn in Hx. lia. }
    remember (drop limit suf) as rest eqn:Er. clear Er Hgt Hf Hx.
    assert (Hall : order_rows before keyOf rows = (pre ++ l) ++ x :: rest).
    { rewrite Hsplit, Hsuf. by rewrite <- app_assoc. }
    assert (Hin : x ∈ rows).
    { rewrite <- (order_rows_perm rows), Hall. set_solver. }
    exists l, x, rest. split_and!; [done..| |].
    + by rewrite Hall, <- !app_assoc.
    + rewrite Hall. apply beyond_suffix; [done|by apply Hz|by rewrite <- Hall].
Qed.

Lemma follow_suffix fuel c limit rows pre suf :
  (1 <= limit)%nat ->
  (forall a, a ∈ rows -> Cursor_IsZero (keyOf a) = false) ->
  StronglySorted (fun a b => before (keyOf a) (keyOf b)) (order_rows before keyOf rows) ->
  order_rows before keyOf rows = pre ++ suf ->
  filter (fun a => beyond before keyOf c a = true) (order_rows before keyOf rows) = suf ->
  (length suf < fuel)%nat ->
  follow before keyOf fuel c limit rows = suf.
Proof.
  intros Hl Hz Hs. revert c pre suf. induction fuel as [|fuel IH]; intros c pre suf Hsplit Hf Hlen;
    [lia|].
  cbn [follow].
  destruct (page_step c limit rows pre suf Hl Hz Hs Hsplit Hf)
    as [[_ ->]|(l & x & rest & _ & -> & _ & -> & Hall & Hrest)]; [by rewrite app_nil_r|].
  rewrite (IH (keyOf x) _ rest Hall Hrest); [by rewrite <- app_assoc|].
  rewrite length_app in Hlen. cbn in Hlen. lia.
Qed.
End Pagination.

(** for rows with distinct [(created_at, id)] keys, none of them the zero
    key, following [next_cursor] from the first page with any page size of at
    least one terminates and yields every row exactly once, in the listing's
    order, whatever the page size. *)
Theorem pagination_complete (before : Cursor -> Cursor -> Prop) `{KeyOrder before}
  {A} (keyOf : A -> Cursor) (rows : list A) (limit : nat) :
  (1 <= limit)%nat ->
  NoDup (map keyOf rows) ->
  (forall a, a ∈ rows -> Cursor_IsZero (keyOf a) = false) ->
  follow before keyOf (S (length rows)) zero_cursor limit rows = order_rows before keyOf rows
  /\ Permutation (order_rows before keyOf rows) rows.
Proof.
  intros Hl Hnd Hz. split; [|apply order_rows_perm].
  apply (follow_suffix before keyOf _ _ _ _ [] _ Hl Hz); [by apply order_rows_strict|done| |].
  - by apply list_filter_id.
  - rewrite order_rows_perm. lia.
Qed.

Lemma pagination_complete_witness :
  let rows := [mkCursor 5 1; mkCursor 7 2; mkCursor 5 3]%Z in
  follow descending (fun c => c) 4 zero_cursor 1 rows = [mkCursor 7 2; mkCursor 5 3; mkCursor 5 1]%Z.
Proof.
  intros rows. transitivity (order_rows descending (fun c => c) rows); [|by vm_compute].
  refine (proj1 (pagination_complete descending (fun c => c) rows 1 _ _ _)).
  - lia.
  - cbn. repeat constructor; set_solver.
  - intros a Ha. repeat (apply elem_of_cons in Ha as [->|Ha]; [by vm_compute|]). set_solver.
Defined.

(** [ParsePage] returns a page size between 1 and [MaxLimit] whenever it
    succeeds, so the store is asked for at most [MaxLimit + 1] rows; it rejects
    exactly the unreadable limits and the undecodable cursors. *)
Theorem ParsePage_bounds decode limit cursor :
  match ParsePage decode limit cursor with
  | Ok p => 1 <= pq_Limit p <= MaxLimit /\ 2 <= FetchLimit p <= MaxLimit + 1
            /\ decode cursor = Some (pq_Cursor p)
  | Err BadLimit =>
      limit <> ""%string /\ (forall n, ParseInt limit = Some n -> n < 1)
  | Err BadCursor => decode cursor = None
  end.
Proof.
  unfold ParsePage, FetchLimit, MaxLimit, DefaultLimit. case_decide as Hl.
  - cbn. destruct (decode cursor); cbn; [by split_and!|done].
  - destruct (ParseInt limit) as [n|] eqn:E; [|by split].
    destruct (Z.ltb_spec n 1).
    + cbn. split; [done|]. naive_solver.
    + cbn. destruct (decode cursor); cbn; [|done]. destruct (Z.ltb_spec 200 n); split_and!; done || lia.
Qed.
