(* ===== verification/LedgerDb.v ===== *)
(** * Ledger tables: the [ledger] schema and its database transactions

    The tables of [services/ledger-core/internal/adapters/postgres/migrations]
    with their constraints, row-level security and triggers, and the
    transaction wrapper of [libs/go/pgxutil/pgxutil.go]. Each SQL statement the
    store executes is a function on this state; statements run in a
    transaction that either commits all its effects or none. *)

From Stdlib Require Import Ascii String ZArith Lia.
From S2P Require Import Prelude Strconv Errors Money LedgerDomain LedgerEvents.
Local Open Scope Z_scope.

(** ** Tables *)

Record PostingRow : Type := mkPostingRow {
  pr_ID : uuid; pr_TenantID : uuid; pr_TransactionID : uuid; pr_AccountID : uuid;
  pr_Direction : Direction; pr_Asset : string; pr_Amount : Z; pr_CreatedAt : time }.

Record BalanceRow : Type := mkBalanceRow {
  br_TenantID : uuid; br_PostedDebits : Z; br_PostedCredits : Z;
  br_PendingDebits : Z; br_PendingCredits : Z; br_Held : Z; br_Version : Z }.

(** A row of [holds]; a NULL [request_hash] is the empty list. *)
Record HoldRow : Type := mkHoldRow { hr_Hold : Hold; hr_RequestHash : list Z }.

Record IdemRow : Type := mkIdemRow {
  ik_StatusCode : Z; ik_Response : Transaction; ik_RequestHash : list Z }.

Record OutboxRow : Type := mkOutboxRow {
  ob_TenantID : uuid; ob_Topic : string; ob_Envelope : Envelope payload; ob_PublishedAt : option time }.

(** [transactions] rows hold a [Transaction] without its postings; the outbox
    is in insertion order, which is the order of its serial id. *)
Record DB : Type := mkDB {
  ledgers : gmap uuid Ledger;
  accounts : gmap uuid Account;
  transactions : gmap uuid Transaction;
  postings : list PostingRow;
  account_balances : gmap (uuid * string) BalanceRow;
  holds : gmap uuid HoldRow;
  idempotency_keys : gmap (uuid * string) IdemRow;
  outbox : list OutboxRow }.

Definition empty_db : DB := mkDB ∅ ∅ ∅ [] ∅ ∅ ∅ [].

Definition set_ledgers x db :=
  mkDB x (accounts db) (transactions db) (postings db) (account_balances db) (holds db)
    (idempotency_keys db) (outbox db).
Definition set_accounts x db :=
  mkDB (ledgers db) x (transactions db) (postings db) (account_balances db) (holds db)
    (idempotency_keys db) (outbox db).
Definition set_transactions x db :=
  mkDB (ledgers db) (accounts db) x (postings db) (account_balances db) (holds db)
    (idempotency_keys db) (outbox db).
Definition set_postings x db :=
  mkDB (ledgers db) (accounts db) (transactions db) x (account_balances db) (holds db)
    (idempotency_keys db) (outbox db).
Definition set_account_balances x db :=
  mkDB (ledgers db) (accounts db) (transactions db) (postings db) x (holds db)
    (idempotency_keys db) (outbox db).
Definition set_holds x db :=
  mkDB (ledgers db) (accounts db) (transactions db) (postings db) (account_balances db) x
    (idempotency_keys db) (outbox db).
Definition set_idempotency_keys x db :=
  mkDB (ledgers db) (accounts db) (transactions db) (postings db) (account_balances db) (holds db)
    x (outbox db).
Definition set_outbox x db :=
  mkDB (ledgers db) (accounts db) (transactions db) (postings db) (account_balances db) (holds db)
    (idempotency_keys db) x.

(** ** The transaction monad

    [touched] lists the transactions whose deferred balance check is queued
    for COMMIT; [supply] feeds the id generator and [clock] is the instant of
    the operation. *)

Record TxState : Type := mkTx {
  tx_db : DB; touched : list uuid; supply : list uuid; clock : time }.

Definition Tx (A : Type) : Type := TxState -> result error (A * TxState).

#[export] Instance Tx_ret : MRet Tx := fun A a st => Ok (a, st).
#[export] Instance Tx_bind : MBind Tx := fun A B f m st =>
  match m st with Ok (a, st') => f a st' | Err e => Err e end.

Definition throw {A} (e : error) : Tx A := fun _ => Err e.
Definition get_db : Tx DB := fun st => Ok (tx_db st, st).
Definition get_clock : Tx time := fun st => Ok (clock st, st).
Definition modify (f : DB -> DB) : Tx unit := fun st =>
  Ok (tt, mkTx (f (tx_db st)) (touched st) (supply st) (clock st)).
Definition touch (id : uuid) : Tx unit := fun st =>
  Ok (tt, mkTx (tx_db st) (id :: touched st) (supply st) (clock st)).
Definition fresh : Tx uuid := fun st =>
  '(id, ids) ← newID (supply st);
  Ok (id, mkTx (tx_db st) (touched st) ids (clock st)).
Definition check (b : bool) (e : error) : Tx unit := if b then mret tt else throw e.
Definition lift {A} (m : result error A) : Tx A := fun st =>
  match m with Ok a => Ok (a, st) | Err e => Err e end.

Fixpoint forM_ {A} (l : list A) (f : A -> Tx unit) : Tx unit :=
  match l with
  | [] => mret tt
  | a :: rest => _ ← f a; forM_ rest f
  end.

(** ** Row-level security: queries only see the tenant's rows *)

Definition find_ledger (tenant : uuid) (id : uuid) (db : DB) : option Ledger :=
  l ← ledgers db !! id; if decide (l_TenantID l = tenant) then Some l else None.
Definition find_account (tenant : uuid) (id : uuid) (db : DB) : option Account :=
  a ← accounts db !! id; if decide (a_TenantID a = tenant) then Some a else None.
Definition find_transaction (tenant : uuid) (id : uuid) (db : DB) : option Transaction :=
  t ← transactions db !! id; if decide (t_TenantID t = tenant) then Some t else None.
Definition find_hold (tenant : uuid) (id : uuid) (db : DB) : option Hold :=
  r ← holds db !! id; if decide (h_TenantID (hr_Hold r) = tenant) then Some (hr_Hold r) else None.
Definition find_balance (tenant : uuid) (k : uuid * string) (db : DB) : option BalanceRow :=
  r ← account_balances db !! k; if decide (br_TenantID r = tenant) then Some r else None.

(** ** Inserts with their constraints

    CHECK constraints are evaluated before the unique indexes, foreign keys
    after them; uniqueness and foreign keys ignore row-level security. *)

Definition meta (m : metadata) : gmap string string := default ∅ m.

Definition exists_in {K V} `{Countable K} (P : V -> bool) (m : gmap K V) : bool :=
  existsb (fun kv => P kv.2) (map_to_list m).

Definition insert_ledger (tenant : uuid) (l : Ledger) : Tx unit :=
  db ← get_db;
  _ ← check (bool_decide (l_TenantID l = tenant)) (ErrPg InsufficientPrivilege);
  _ ← check (bool_decide (l_Environment l = "sandbox"%string \/ l_Environment l = "live"%string))
        (ErrPg (CheckViolation "ledgers_environment_check"));
  _ ← check (bool_decide (ledgers db !! l_ID l = None)) (ErrPg (UniqueViolation "ledgers_pkey"));
  _ ← check (negb (exists_in (fun l' => bool_decide (l_TenantID l' = l_TenantID l /\
                                                     l_Name l' = l_Name l)) (ledgers db)))
        (ErrPg (UniqueViolation "ledgers_tenant_name_key"));
  modify (fun db => set_ledgers (<[l_ID l := mkLedger (l_ID l) (l_TenantID l) (l_Name l)
      (l_Description l) (l_Environment l) (Some (meta (l_Metadata l))) (l_CreatedAt l)]>
      (ledgers db)) db).

Definition insert_account (tenant : uuid) (a : Account) : Tx unit :=
  db ← get_db;
  _ ← check (bool_decide (a_TenantID a = tenant)) (ErrPg InsufficientPrivilege);
  _ ← check (AccountType_Valid (a_Type a)) (ErrPg (CheckViolation "accounts_type_check"));
  _ ← check (NormalBalance_Valid (a_NormalBalance a))
        (ErrPg (CheckViolation "accounts_normal_balance_check"));
  _ ← check (bool_decide (a_Status a ∈ ["active"; "frozen"; "closed"]%string))
        (ErrPg (CheckViolation "accounts_status_check"));
  _ ← check (bool_decide (accounts db !! a_ID a = None)) (ErrPg (UniqueViolation "accounts_pkey"));
  _ ← check (negb (exists_in (fun a' => bool_decide (a_TenantID a' = a_TenantID a /\
                      a_LedgerID a' = a_LedgerID a /\ a_Path a' = a_Path a)) (accounts db)))
        (ErrPg (UniqueViolation "accounts_tenant_ledger_path_key"));
  _ ← check (bool_decide (is_Some (ledgers db !! a_LedgerID a)))
        (ErrPg (ForeignKeyViolation "accounts_ledger_id_fkey"));
  modify (fun db => set_accounts (<[a_ID a := mkAccount (a_ID a) (a_TenantID a) (a_LedgerID a)
      (a_Name a) (a_Path a) (a_Type a) (a_NormalBalance a) (a_Status a)
      (Some (meta (a_Metadata a))) (a_CreatedAt a)]> (accounts db)) db).

(** The stored columns of a transaction. *)
Definition transaction_row (t : Transaction) : Transaction :=
  {| t_ID := t_ID t; t_TenantID := t_TenantID t; t_LedgerID := t_LedgerID t;
     t_Reference := t_Reference t; t_Description := t_Description t;
     t_IdempotencyKey := t_IdempotencyKey t; t_Status := t_Status t;
     t_EffectiveAt := t_EffectiveAt t; t_EffectiveAtProvided := false;
     t_PostedAt := t_PostedAt t; t_ReversedByID := t_ReversedByID t;
     t_ReversesID := t_ReversesID t; t_Metadata := Some (meta (t_Metadata t));
     t_Postings := []; t_CreatedAt := t_CreatedAt t |}.

Definition with_postings (t : Transaction) (ps : list Posting) : Transaction :=
  {| t_ID := t_ID t; t_TenantID := t_TenantID t; t_LedgerID := t_LedgerID t;
     t_Reference := t_Reference t; t_Description := t_Description t;
     t_IdempotencyKey := t_IdempotencyKey t; t_Status := t_Status t;
     t_EffectiveAt := t_EffectiveAt t; t_EffectiveAtProvided := t_EffectiveAtProvided t;
     t_PostedAt := t_PostedAt t; t_ReversedByID := t_ReversedByID t;
     t_ReversesID := t_ReversesID t; t_Metadata := t_Metadata t;
     t_Postings := ps; t_CreatedAt := t_CreatedAt t |}.

Definition fk_transaction (o : option uuid) (db : DB) : bool :=
  match o with None => true | Some id => bool_decide (is_Some (transactions db !! id)) end.

Definition insert_transaction_row (tenant : uuid) (t : Transaction) : Tx unit :=
  db ← get_db;
  _ ← check (bool_decide (t_TenantID t = tenant)) (ErrPg InsufficientPrivilege);
  _ ← check (match t_Status t with TransactionStatusOther _ => false | _ => true end)
        (ErrPg (CheckViolation "transactions_status_check"));
  _ ← check (bool_decide (transactions db !! t_ID t = None))
        (ErrPg (UniqueViolation "transactions_pkey"));
  _ ← check (negb (exists_in (fun t' => bool_decide (t_TenantID t' = t_TenantID t /\
                      t_IdempotencyKey t' = t_IdempotencyKey t)) (transactions db)))
        (ErrPg (UniqueViolation "transactions_tenant_idempotency_key"));
  _ ← check (bool_decide (is_Some (ledgers db !! t_LedgerID t)))
        (ErrPg (ForeignKeyViolation "transactions_ledger_id_fkey"));
  _ ← check (fk_transaction (t_ReversedByID t) db)
        (ErrPg (ForeignKeyViolation "transactions_reversed_by_id_fkey"));
  _ ← check (fk_transaction (t_ReversesID t) db)
        (ErrPg (ForeignKeyViolation "transactions_reverses_id_fkey"));
  _ ← modify (fun db => set_transactions (<[t_ID t := transaction_row t]> (transactions db)) db);
  touch (t_ID t).

Definition posting_row (t : Transaction) (p : Posting) : PostingRow :=
  mkPostingRow (p_ID p) (t_TenantID t) (t_ID t) (p_AccountID p) (p_Direction p)
    (Asset (p_Amount p)) (Units (p_Amount p)) (t_CreatedAt t).

Definition insert_posting_row (tenant : uuid) (r : PostingRow) : Tx unit :=
  db ← get_db;
  _ ← check (bool_decide (pr_TenantID r = tenant)) (ErrPg InsufficientPrivilege);
  _ ← check (Direction_Valid (pr_Direction r)) (ErrPg (CheckViolation "postings_direction_check"));
  _ ← check (0 <? pr_Amount r) (ErrPg (CheckViolation "postings_amount_check"));
  _ ← check (negb (existsb (fun r' => pr_ID r' =? pr_ID r) (postings db)))
        (ErrPg (UniqueViolation "postings_pkey"));
  _ ← check (bool_decide (is_Some (transactions db !! pr_TransactionID r)))
        (ErrPg (ForeignKeyViolation "postings_transaction_id_fkey"));
  _ ← check (bool_decide (is_Some (accounts db !! pr_AccountID r)))
        (ErrPg (ForeignKeyViolation "postings_account_id_fkey"));
  _ ← modify (fun db => set_postings (postings db ++ [r]) db);
  touch (pr_TransactionID r).

(** ** Balance rows

    Column deltas of one statement; BIGINT columns that would leave the
    [int64] range raise numeric_value_out_of_range. *)

Record Delta : Type := mkDelta {
  d_posted_debits : Z; d_posted_credits : Z; d_pending_debits : Z; d_pending_credits : Z;
  d_held : Z }.

Definition add_delta (r : BalanceRow) (d : Delta) : BalanceRow :=
  mkBalanceRow (br_TenantID r) (br_PostedDebits r + d_posted_debits d)
    (br_PostedCredits r + d_posted_credits d) (br_PendingDebits r + d_pending_debits d)
    (br_PendingCredits r + d_pending_credits d) (br_Held r + d_held d) (br_Version r + 1).

Definition zero_row (tenant : uuid) : BalanceRow := mkBalanceRow tenant 0 0 0 0 0 0.

Definition row_in_range (r : BalanceRow) : bool :=
  in_int64 (br_PostedDebits r) && in_int64 (br_PostedCredits r) && in_int64 (br_PendingDebits r)
  && in_int64 (br_PendingCredits r) && in_int64 (br_Held r) && in_int64 (br_Version r).

(** INSERT ... ON CONFLICT (account_id, asset) DO UPDATE SET column = column + EXCLUDED. *)
Definition upsert_balance (tenant acct : uuid) (asset : string) (d : Delta) : Tx unit :=
  db ← get_db;
  let old := account_balances db !! (acct, asset) in
  _ ← check (match old with Some r => bool_decide (br_TenantID r = tenant) | None => true end)
        (ErrPg InsufficientPrivilege);
  let r := add_delta (default (zero_row tenant) old) d in
  _ ← check (row_in_range r) (ErrPg NumericOutOfRange);
  _ ← check (match old with Some _ => true | None => bool_decide (is_Some (accounts db !! acct)) end)
        (ErrPg (ForeignKeyViolation "account_balances_account_id_fkey"));
  modify (fun db => set_account_balances (<[(acct, asset) := r]> (account_balances db)) db).

(** UPDATE account_balances ... WHERE account_id AND asset; reports whether a
    row was affected. *)
Definition update_balance (tenant acct : uuid) (asset : string) (d : Delta) : Tx bool :=
  db ← get_db;
  match find_balance tenant (acct, asset) db with
  | None => mret false
  | Some r =>
      _ ← check (row_in_range (add_delta r d)) (ErrPg NumericOutOfRange);
      _ ← modify (fun db =>
            set_account_balances (<[(acct, asset) := add_delta r d]> (account_balances db)) db);
      mret true
  end.

(** ** Triggers *)

(** [transactions_guard]: the only updates let through are draft to posted,
    setting [posted_at], and posted to reversed, setting [reversed_by_id]; the
    statements below change no other column. *)
Definition transactions_guard (old new : Transaction) : bool :=
  (bool_decide (t_Status old = TransactionDraft) && bool_decide (t_Status new = TransactionPosted)
   && bool_decide (t_PostedAt old = None) && bool_decide (t_PostedAt new <> None)
   && bool_decide (t_ReversedByID new = t_ReversedByID old))
  || (bool_decide (t_Status old = TransactionPosted)
      && bool_decide (t_Status new = TransactionReversed)
      && bool_decide (t_ReversedByID old = None) && bool_decide (t_ReversedByID new <> None)
      && bool_decide (t_PostedAt new = t_PostedAt old)).

Definition set_lifecycle (t : Transaction) (status : TransactionStatus) (postedAt : option time)
  (reversedBy : option uuid) : Transaction :=
  {| t_ID := t_ID t; t_TenantID := t_TenantID t; t_LedgerID := t_LedgerID t;
     t_Reference := t_Reference t; t_Description := t_Description t;
     t_IdempotencyKey := t_IdempotencyKey t; t_Status := status;
     t_EffectiveAt := t_EffectiveAt t; t_EffectiveAtProvided := t_EffectiveAtProvided t;
     t_PostedAt := postedAt; t_ReversedByID := reversedBy;
     t_ReversesID := t_ReversesID t; t_Metadata := t_Metadata t;
     t_Postings := t_Postings t; t_CreatedAt := t_CreatedAt t |}.

(** UPDATE transactions ... WHERE id = $1, on the visible row. *)
Definition update_transaction (tenant id : uuid) (f : Transaction -> Transaction) : Tx unit :=
  db ← get_db;
  match find_transaction tenant id db with
  | None => mret tt
  | Some old =>
      _ ← check (transactions_guard old (f old)) (ErrPg RaiseException);
      _ ← check (fk_transaction (t_ReversedByID (f old)) db)
            (ErrPg (ForeignKeyViolation "transactions_reversed_by_id_fkey"));
      _ ← modify (fun db => set_transactions (<[id := f old]> (transactions db)) db);
      touch id
  end.

(** Sum of one side of one asset over posting rows. *)
Definition rows_side (d : Direction) (asset : string) (rows : list PostingRow) : Z :=
  sumZ (fun r => if decide (pr_Direction r = d /\ pr_Asset r = asset) then pr_Amount r else 0) rows.

Definition is_firm (s : TransactionStatus) : bool :=
  match s with TransactionPosted | TransactionReversed => true | _ => false end.

(** [check_transaction_balance]: a firm transaction needs two postings and
    equal sides per asset. SQL sums BIGINT exactly, so nothing wraps. *)
Definition check_transaction_balance (tenant id : uuid) (db : DB) : result error unit :=
  match find_transaction tenant id db with
  | Some t =>
      if is_firm (t_Status t) then
        let rows := filter (fun r => pr_TransactionID r = id /\ pr_TenantID r = tenant)
                      (postings db) in
        if (length rows <? 2)%nat
        then Err (ErrPg (CheckViolation "transaction_min_postings"))
        else if forallb (fun r => rows_side DirectionDebit (pr_Asset r) rows
                                  =? rows_side DirectionCredit (pr_Asset r) rows) rows
             then Ok tt
             else Err (ErrPg (CheckViolation "transaction_balanced"))
      else Ok tt
  | None => Ok tt
  end.

Fixpoint commit_checks (tenant : uuid) (ids : list uuid) (db : DB) : result error unit :=
  match ids with
  | [] => Ok tt
  | id :: rest => _ ← check_transaction_balance tenant id db; commit_checks tenant rest db
  end.

(** [pgxutil.WithTenantTx]: nil tenants are refused; the body runs in one
    transaction; the deferred checks run at COMMIT; any error rolls back. *)
Definition WithTenantTx {A} (tenant : uuid) (fn : Tx A) (ids : list uuid) (now : time) (db : DB)
  : result error (A * DB) :=
  if tenant =? uuid_Nil then Err ErrOther
  else
    '(a, st) ← fn (mkTx db [] ids now);
    _ ← commit_checks tenant (rev (touched st)) (tx_db st);
    Ok (a, tx_db st).
