(* ===== verification/LedgerStore.v ===== *)
(** * Ledger store: [services/ledger-core/internal/adapters/postgres/store.go]

    The write paths and single-row reads of the persistence adapter: each
    method is the sequence of statements the code executes, in its order, with
    its early returns; [WithTenantTx] commits or rolls the sequence back. *)

From Stdlib Require Import Ascii String ZArith Lia.
From S2P Require Import Prelude Strconv Errors Money LedgerDomain LedgerEvents LedgerDb Httpx.
Local Open Scope Z_scope.

(** A store method: consumes generated ids and the current instant, and
    returns its value with the committed state; on [Err] the state is the one
    before the call. *)
Definition Op (A : Type) : Type := list uuid -> time -> DB -> result error (A * DB).

(** ** Shared helpers *)

Definition mapErr (e : error) : error :=
  match e with
  | ErrPg (UniqueViolation _) => ErrConflict
  | ErrPg (ForeignKeyViolation _) => ErrNotFound
  | ErrPg (CheckViolation _) => ErrValidation
  | e => e
  end.

Definition isUniqueViolation (e : error) : bool :=
  match e with ErrPg (UniqueViolation _) => true | _ => false end.

Definition normalizeLimit (limit : Z) : Z :=
  if limit <=? 0 then DefaultLimit + 1
  else if MaxLimit + 1 <? limit then MaxLimit + 1
  else limit.

Definition insertOutbox (tenant : uuid) (topic : string) (tenantID : uuid) (data : payload)
  : Tx unit :=
  st_now ← get_clock;
  id ← fresh;
  _ ← check (bool_decide (tenantID = tenant)) (ErrPg InsufficientPrivilege);
  modify (fun db => set_outbox (outbox db ++
    [mkOutboxRow tenantID topic (mkEnvelope id topic tenantID st_now EnvelopeVersion data) None]) db).

(** ** Ledgers and accounts *)

Definition CreateLedger (l : Ledger) : Op unit := fun ids now db =>
  map_err mapErr (WithTenantTx (l_TenantID l) (insert_ledger (l_TenantID l) l) ids now db).

(** [SELECT 1 FROM ledgers WHERE id = $1] with its not-found return. *)
Definition requireLedger (tenant id : uuid) : Tx unit :=
  db ← get_db;
  check (bool_decide (is_Some (find_ledger tenant id db))) ErrNotFound.

Definition getLedgerTx (tenant id : uuid) : Tx Ledger :=
  db ← get_db;
  match find_ledger tenant id db with Some l => mret l | None => throw ErrNotFound end.

Definition GetLedger (tenant id : uuid) : Op Ledger := WithTenantTx tenant (getLedgerTx tenant id).

Definition CreateAccount (a : Account) : Op unit := fun ids now db =>
  map_err mapErr (WithTenantTx (a_TenantID a)
    (_ ← requireLedger (a_TenantID a) (a_LedgerID a);
     insert_account (a_TenantID a) a) ids now db).

Definition getAccountTx (tenant id : uuid) : Tx Account :=
  db ← get_db;
  match find_account tenant id db with Some a => mret a | None => throw ErrNotFound end.

Definition GetAccount (tenant id : uuid) : Op Account := WithTenantTx tenant (getAccountTx tenant id).

(** ** Balance application *)

Definition debitCredit (p : Posting) : Z * Z :=
  if decide (p_Direction p = DirectionDebit) then (Units (p_Amount p), 0)
  else (0, Units (p_Amount p)).

(** The column deltas of the statements [upsertPostedBalance],
    [upsertPendingBalance] and [movePendingToPosted]. *)
Definition upsertPostedBalance (p : Posting) : Delta :=
  let '(d, c) := debitCredit p in mkDelta d c 0 0 0.
Definition upsertPendingBalance (p : Posting) : Delta :=
  let '(d, c) := debitCredit p in mkDelta 0 0 d c 0.
Definition movePendingToPosted (p : Posting) : Delta :=
  let '(d, c) := debitCredit p in mkDelta d c (- d) (- c) 0.

Definition applyBalances (tenant tenantID : uuid) (ps : list Posting) (stmt : Posting -> Delta)
  : Tx unit :=
  forM_ ps (fun p =>
    _ ← check (bool_decide (tenantID = tenant)) (ErrPg InsufficientPrivilege);
    upsert_balance tenant (p_AccountID p) (Asset (p_Amount p)) (stmt p)).

(** The number of updated rows is not looked at. *)
Definition promoteBalances (tenant : uuid) (ps : list Posting) : Tx unit :=
  forM_ ps (fun p =>
    _ ← update_balance tenant (p_AccountID p) (Asset (p_Amount p)) (movePendingToPosted p);
    mret tt).

(** ** Transactions *)

Definition posting_of_row (r : PostingRow) : Posting :=
  mkPosting (pr_ID r) (pr_AccountID r) (pr_Direction r) (mkAmount (pr_Asset r) (pr_Amount r)).

Definition row_key (r : PostingRow) : Cursor := mkCursor (pr_CreatedAt r) (pr_ID r).

(** Rows of one transaction, ORDER BY created_at, id. *)
Definition loadPostings (tenant id : uuid) (db : DB) : list Posting :=
  map posting_of_row (order_rows ascending row_key
    (filter (fun r => pr_TransactionID r = id /\ pr_TenantID r = tenant) (postings db))).

Definition loadTransactionTx (tenant id : uuid) : Tx Transaction :=
  db ← get_db;
  match find_transaction tenant id db with
  | None => throw ErrNotFound
  | Some t => mret (with_postings t (loadPostings tenant id db))
  end.

Definition insertTransactionTx (tenant : uuid) (t : Transaction) : Tx unit :=
  _ ← insert_transaction_row tenant t;
  forM_ (t_Postings t) (fun p => insert_posting_row tenant (posting_row t p)).

(** Account ids of the postings, each once, in order of first occurrence. *)
Fixpoint distinct_accounts (seen : list uuid) (ps : list Posting) : list uuid :=
  match ps with
  | [] => []
  | p :: rest =>
      if decide (p_AccountID p ∈ seen) then distinct_accounts seen rest
      else p_AccountID p :: distinct_accounts (p_AccountID p :: seen) rest
  end.

Definition checkAccountsInLedger (tenant ledgerID : uuid) (ps : list Posting) : Tx unit :=
  db ← get_db;
  forM_ (distinct_accounts [] ps) (fun id =>
    match find_account tenant id db with
    | None => throw ErrNotFound
    | Some a => check (bool_decide (a_LedgerID a = ledgerID)) ErrValidation
    end).

(** ** Request fingerprints

    The canonical structs the code serialises and digests. The digest of a
    canonical struct (SHA-256 of its JSON) is a parameter; all the model relies
    on is that it is 32 bytes long. *)

Record canonicalPosting : Type := mkCanonicalPosting {
  cp_AccountID : string; cp_Direction : string; cp_Asset : string; cp_Units : Z }.

Record canonicalTransaction : Type := mkCanonicalTransaction {
  ct_LedgerID : string; ct_Reference : string; ct_Description : string; ct_Status : string;
  ct_EffectiveAt : option string; ct_Metadata : gmap string string;
  ct_Postings : list canonicalPosting }.

Record canonicalHold : Type := mkCanonicalHold {
  ch_AccountID : string; ch_Asset : string; ch_Units : Z; ch_ExpiresAt : option string;
  ch_Metadata : gmap string string }.

Record canonicalReversal : Type := mkCanonicalReversal { cr_ReversesID : string; cr_Reason : string }.

Inductive canonical : Type :=
| CanonTransaction (c : canonicalTransaction)
| CanonHold (c : canonicalHold)
| CanonReversal (c : canonicalReversal).

Class Digest : Type := {
  sha256_json : canonical -> list Z;
  sha256_json_length : forall c, length (sha256_json c) = 32%nat
}.

Definition TransactionStatus_string (s : TransactionStatus) : string :=
  match s with
  | TransactionDraft => "draft" | TransactionPosted => "posted"
  | TransactionReversed => "reversed" | TransactionStatusOther s => s
  end.

(** [a < b] on Go strings is bytewise lexicographic order. *)
Definition str_lt (a b : string) : Prop := String.compare a b = Lt.
#[export] Instance str_lt_dec : RelDecision str_lt.
Proof. intros a b. unfold str_lt. apply _. Defined.

(** The comparison passed to [sort.Slice]. *)
Definition cp_less (a b : canonicalPosting) : Prop :=
  if decide (cp_AccountID a <> cp_AccountID b) then str_lt (cp_AccountID a) (cp_AccountID b)
  else if decide (cp_Direction a <> cp_Direction b) then str_lt (cp_Direction a) (cp_Direction b)
  else if decide (cp_Asset a <> cp_Asset b) then str_lt (cp_Asset a) (cp_Asset b)
  else cp_Units a < cp_Units b.

#[export] Instance cp_less_dec : RelDecision cp_less.
Proof. intros a b. unfold cp_less. repeat case_decide; apply _. Defined.

Definition cp_le (a b : canonicalPosting) : Prop := ~ cp_less b a.
#[export] Instance cp_le_dec : RelDecision cp_le.
Proof. intros a b. unfold cp_le. apply _. Defined.

Section Fingerprints.
Context `{Render, Digest}.

Definition canonical_posting (p : Posting) : canonicalPosting :=
  mkCanonicalPosting (uuid_String (p_AccountID p)) (Direction_string (p_Direction p))
    (Asset (p_Amount p)) (Units (p_Amount p)).

(** Elements that compare equal are equal, so any sort gives this list. *)
Definition canonical_transaction (t : Transaction) : canonicalTransaction :=
  {| ct_LedgerID := uuid_String (t_LedgerID t);
     ct_Reference := t_Reference t;
     ct_Description := t_Description t;
     ct_Status := TransactionStatus_string (t_Status t);
     ct_EffectiveAt := if t_EffectiveAtProvided t then Some (rfc3339nano (t_EffectiveAt t)) else None;
     ct_Metadata := meta (t_Metadata t);
     ct_Postings := merge_sort cp_le (map canonical_posting (t_Postings t)) |}.

Definition transactionFingerprint (t : Transaction) : list Z :=
  sha256_json (CanonTransaction (canonical_transaction t)).

Definition canonical_hold (h : Hold) : canonicalHold :=
  {| ch_AccountID := uuid_String (h_AccountID h);
     ch_Asset := Asset (h_Amount h);
     ch_Units := Units (h_Amount h);
     ch_ExpiresAt := if h_ExpiresAtProvided h then Some (rfc3339nano (h_ExpiresAt h)) else None;
     ch_Metadata := meta (h_Metadata h) |}.

Definition holdFingerprint (h : Hold) : list Z := sha256_json (CanonHold (canonical_hold h)).

Definition reverseFingerprint (originalID : uuid) (reason : string) : list Z :=
  sha256_json (CanonReversal (mkCanonicalReversal (uuid_String originalID) reason)).
End Fingerprints.

(** ** Idempotency records *)

(** What survives [json.Marshal] then [json.Unmarshal]: [EffectiveAtProvided]
    has no wire form, and [omitempty] drops an empty metadata map. *)
Definition json_snapshot (t : Transaction) : Transaction :=
  {| t_ID := t_ID t; t_TenantID := t_TenantID t; t_LedgerID := t_LedgerID t;
     t_Reference := t_Reference t; t_Description := t_Description t;
     t_IdempotencyKey := t_IdempotencyKey t; t_Status := t_Status t;
     t_EffectiveAt := t_EffectiveAt t; t_EffectiveAtProvided := false;
     t_PostedAt := t_PostedAt t; t_ReversedByID := t_ReversedByID t;
     t_ReversesID := t_ReversesID t;
     t_Metadata := (m ← t_Metadata t; if decide (m = ∅) then None else Some m);
     t_Postings := t_Postings t; t_CreatedAt := t_CreatedAt t |}.

Definition storeIdempotentResponse (tenant tenantID : uuid) (key : string) (statusCode : Z)
  (t : Transaction) (requestHash : list Z) : Tx unit :=
  db ← get_db;
  _ ← check (bool_decide (tenantID = tenant)) (ErrPg InsufficientPrivilege);
  _ ← check (bool_decide (idempotency_keys db !! (tenantID, key) = None))
        (ErrPg (UniqueViolation "idempotency_keys_pkey"));
  modify (fun db => set_idempotency_keys
    (<[(tenantID, key) := mkIdemRow statusCode (json_snapshot t) requestHash]>
       (idempotency_keys db)) db).

Definition lookupIdempotentTx (tenant : uuid) (key : string) (db : DB)
  : option (Transaction * list Z) :=
  r ← idempotency_keys db !! (tenant, key); Some (ik_Response r, ik_RequestHash r).

(** [len(storedHash) > 0 && !bytes.Equal(storedHash, fingerprint)]. *)
Definition hash_conflict (storedHash fingerprint : list Z) : bool :=
  (0 <? Z.of_nat (length storedHash)) && negb (bool_decide (storedHash = fingerprint)).

(** The lookup retried after losing an insertion race. *)
Definition retry_lookup (tenant : uuid) (key : string) (fingerprint : list Z) (e : error) (db : DB)
  : result error ((Transaction * bool) * DB) :=
  if isUniqueViolation e then
    match lookupIdempotentTx tenant key db with
    | Some (stored, storedHash) =>
        if hash_conflict storedHash fingerprint then Err ErrIdempotencyConflict
        else Ok ((stored, true), db)
    | None => Err (mapErr e)
    end
  else Err (mapErr e).

(** ** Transaction operations

    Under READ COMMITTED another request can commit between the idempotency
    lookup and the insert. [seen] is the committed state the lookup reads; it
    is the current state [db] unless the request races with another one. *)

Section TransactionOps.
Context `{Render, Digest}.

(** Steps 2 to 5 of [CreateTransaction]. *)
Definition createTransactionTx (t : Transaction) (fingerprint : list Z)
  : Tx (Transaction * bool) :=
  let tenant := t_TenantID t in
  _ ← requireLedger tenant (t_LedgerID t);
  _ ← checkAccountsInLedger tenant (t_LedgerID t) (t_Postings t);
  _ ← insertTransactionTx tenant t;
  _ ← (if decide (t_Status t = TransactionPosted) then
         _ ← applyBalances tenant (t_TenantID t) (t_Postings t) upsertPostedBalance;
         let postedAt := default (t_CreatedAt t) (t_PostedAt t) in
         insertOutbox tenant TopicTransactionPosted (t_TenantID t)
           (PTransactionPosted (NewTransactionPostedEvent t postedAt))
       else applyBalances tenant (t_TenantID t) (t_Postings t) upsertPendingBalance);
  _ ← storeIdempotentResponse tenant (t_TenantID t) (t_IdempotencyKey t) 201 t fingerprint;
  mret (t, false).

Definition CreateTransaction (seen : DB) (t : Transaction) : Op (Transaction * bool) :=
  fun ids now db =>
  let fingerprint := transactionFingerprint t in
  let body :=
    match lookupIdempotentTx (t_TenantID t) (t_IdempotencyKey t) seen with
    | Some (stored, storedHash) =>
        if hash_conflict storedHash fingerprint then throw ErrIdempotencyConflict
        else mret (stored, true)
    | None => createTransactionTx t fingerprint
    end in
  match WithTenantTx (t_TenantID t) body ids now db with
  | Ok r => Ok r
  | Err e => retry_lookup (t_TenantID t) (t_IdempotencyKey t) fingerprint e db
  end.

Definition GetTransaction (tenant id : uuid) : Op Transaction :=
  WithTenantTx tenant (loadTransactionTx tenant id).

Definition postTransactionTx (tenant id : uuid) (now : time) : Tx Transaction :=
  t ← loadTransactionTx tenant id;
  match t_Status t with
  | TransactionPosted => mret t
  | TransactionReversed => throw ErrInvalidState
  | _ =>
      _ ← update_transaction tenant id (fun old =>
            set_lifecycle old TransactionPosted (Some now) (t_ReversedByID old));
      _ ← promoteBalances tenant (t_Postings t);
      let t := set_lifecycle t TransactionPosted (Some now) (t_ReversedByID t) in
      _ ← insertOutbox tenant TopicTransactionPosted (t_TenantID t)
            (PTransactionPosted (NewTransactionPostedEvent t now));
      mret t
  end.

Definition PostTransaction (tenant id : uuid) : Op Transaction := fun ids now db =>
  map_err mapErr (WithTenantTx tenant (postTransactionTx tenant id now) ids now db).

Definition map_reverse_err (e : error) : error :=
  match e with ErrAlreadyReversed => ErrInvalidState | ErrNotPosted => ErrInvalidState | e => e end.

(** The id generator threaded through [domain.Reverse]. *)
Definition reverseTx (original : Transaction) (revID : uuid) (now : time) : Tx Transaction :=
  fun st =>
  match Reverse original revID now (supply st) with
  | Ok (rev, ids) => Ok (rev, mkTx (tx_db st) (touched st) ids (clock st))
  | Err e => Err (map_reverse_err e)
  end.

(** The reversal with the key and description the store gives it. *)
Definition label_reversal (rev : Transaction) (key desc : string) : Transaction :=
  {| t_ID := t_ID rev; t_TenantID := t_TenantID rev; t_LedgerID := t_LedgerID rev;
     t_Reference := t_Reference rev; t_Description := desc; t_IdempotencyKey := key;
     t_Status := t_Status rev; t_EffectiveAt := t_EffectiveAt rev;
     t_EffectiveAtProvided := t_EffectiveAtProvided rev; t_PostedAt := t_PostedAt rev;
     t_ReversedByID := t_ReversedByID rev; t_ReversesID := t_ReversesID rev;
     t_Metadata := t_Metadata rev; t_Postings := t_Postings rev;
     t_CreatedAt := t_CreatedAt rev |}.

Definition reversal_description (original : Transaction) (reason : string) : string :=
  ("Reversal of " +:+ t_IdempotencyKey original) +:+
  (if decide (reason = ""%string) then "" else ": " +:+ reason).

Definition reverseTransactionTx (tenant id : uuid) (idempotencyKey reason : string) (now : time)
  (fingerprint : list Z) : Tx (Transaction * bool) :=
  original ← loadTransactionTx tenant id;
  revID ← fresh;
  rev ← reverseTx original revID now;
  let rev := label_reversal rev
    (if decide (idempotencyKey = ""%string) then t_IdempotencyKey rev else idempotencyKey)
    (reversal_description original reason) in
  _ ← insertTransactionTx tenant rev;
  _ ← applyBalances tenant (t_TenantID rev) (t_Postings rev) upsertPostedBalance;
  _ ← update_transaction tenant id (fun old =>
        set_lifecycle old TransactionReversed (t_PostedAt old) (Some (t_ID rev)));
  _ ← storeIdempotentResponse tenant (t_TenantID rev) (t_IdempotencyKey rev) 201 rev fingerprint;
  _ ← insertOutbox tenant TopicTransactionReversed (t_TenantID rev)
        (PTransactionReversed (mkTransactionReversedEvent (t_ID original) (t_ID rev)
           (t_LedgerID original) reason now));
  mret (rev, false).

Definition effective_key (id : uuid) (idempotencyKey : string) : string :=
  if decide (idempotencyKey = ""%string) then ReversalReferencePrefix +:+ uuid_String id
  else idempotencyKey.

Definition ReverseTransaction (seen : DB) (tenant id : uuid) (idempotencyKey reason : string)
  : Op (Transaction * bool) := fun ids now db =>
  let key := effective_key id idempotencyKey in
  let fingerprint := reverseFingerprint id reason in
  let body :=
    match lookupIdempotentTx tenant key seen with
    | Some (stored, storedHash) =>
        if hash_conflict storedHash fingerprint then throw ErrIdempotencyConflict
        else mret (stored, true)
    | None => reverseTransactionTx tenant id idempotencyKey reason now fingerprint
    end in
  match WithTenantTx tenant body ids now db with
  | Ok r => Ok r
  | Err e => retry_lookup tenant key fingerprint e db
  end.

(** ** Holds *)

Definition set_hold_status (h : Hold) (status : HoldStatus) (captured : option uuid) : Hold :=
  {| h_ID := h_ID h; h_TenantID := h_TenantID h; h_LedgerID := h_LedgerID h;
     h_AccountID := h_AccountID h; h_IdempotencyKey := h_IdempotencyKey h;
     h_Amount := h_Amount h; h_Status := status; h_ExpiresAt := h_ExpiresAt h;
     h_ExpiresAtProvided := h_ExpiresAtProvided h; h_CapturedTransactionID := captured;
     h_Metadata := h_Metadata h; h_CreatedAt := h_CreatedAt h |}.

Definition set_hold_ledger (h : Hold) (ledger : uuid) : Hold :=
  {| h_ID := h_ID h; h_TenantID := h_TenantID h; h_LedgerID := ledger;
     h_AccountID := h_AccountID h; h_IdempotencyKey := h_IdempotencyKey h;
     h_Amount := h_Amount h; h_Status := h_Status h; h_ExpiresAt := h_ExpiresAt h;
     h_ExpiresAtProvided := h_ExpiresAtProvided h;
     h_CapturedTransactionID := h_CapturedTransactionID h;
     h_Metadata := h_Metadata h; h_CreatedAt := h_CreatedAt h |}.

(** The stored columns of a new hold. *)
Definition hold_row (h : Hold) (hash : list Z) : HoldRow :=
  mkHoldRow
    {| h_ID := h_ID h; h_TenantID := h_TenantID h; h_LedgerID := h_LedgerID h;
       h_AccountID := h_AccountID h; h_IdempotencyKey := h_IdempotencyKey h;
       h_Amount := h_Amount h; h_Status := h_Status h; h_ExpiresAt := h_ExpiresAt h;
       h_ExpiresAtProvided := false; h_CapturedTransactionID := None;
       h_Metadata := Some (meta (h_Metadata h)); h_CreatedAt := h_CreatedAt h |} hash.

Definition insert_hold_row (tenant : uuid) (h : Hold) (hash : list Z) : Tx unit :=
  db ← get_db;
  _ ← check (bool_decide (h_TenantID h = tenant)) (ErrPg InsufficientPrivilege);
  _ ← check (0 <? Units (h_Amount h)) (ErrPg (CheckViolation "holds_amount_check"));
  _ ← check (bool_decide (holds db !! h_ID h = None)) (ErrPg (UniqueViolation "holds_pkey"));
  _ ← check (negb (exists_in (fun r => bool_decide (h_TenantID (hr_Hold r) = h_TenantID h /\
                      h_IdempotencyKey (hr_Hold r) = h_IdempotencyKey h)) (holds db)))
        (ErrPg (UniqueViolation "holds_tenant_idempotency_key"));
  _ ← check (bool_decide (is_Some (ledgers db !! h_LedgerID h)))
        (ErrPg (ForeignKeyViolation "holds_ledger_id_fkey"));
  _ ← check (bool_decide (is_Some (accounts db !! h_AccountID h)))
        (ErrPg (ForeignKeyViolation "holds_account_id_fkey"));
  modify (fun db => set_holds (<[h_ID h := hold_row h hash]> (holds db)) db).

(** UPDATE holds SET status, captured_transaction_id WHERE id = $1. *)
Definition update_hold (tenant id : uuid) (f : Hold -> Hold) : Tx unit :=
  db ← get_db;
  match find_hold tenant id db, holds db !! id with
  | Some old, Some r =>
      _ ← check (fk_transaction (h_CapturedTransactionID (f old)) db)
            (ErrPg (ForeignKeyViolation "holds_captured_transaction_id_fkey"));
      modify (fun db => set_holds (<[id := mkHoldRow (f old) (hr_RequestHash r)]> (holds db)) db)
  | _, _ => mret tt
  end.

Definition lookupHoldTx (tenant : uuid) (key : string) (db : DB) : option (Hold * list Z) :=
  kv ← List.find (fun kv => bool_decide (h_TenantID (hr_Hold kv.2) = tenant /\
                        h_IdempotencyKey (hr_Hold kv.2) = key)) (map_to_list (holds db));
  Some (hr_Hold kv.2, hr_RequestHash kv.2).

Definition getHoldTx (tenant id : uuid) : Tx Hold :=
  db ← get_db;
  match find_hold tenant id db with Some h => mret h | None => throw ErrNotFound end.

(** The balance of one asset, zero when the row is missing; only the columns
    [Available] reads are scanned. *)
Definition available_balance (tenant : uuid) (h : Hold) (db : DB) : Balance :=
  match find_balance tenant (h_AccountID h, Asset (h_Amount h)) db with
  | Some r => mkBalance (Asset (h_Amount h)) (br_PostedDebits r) (br_PostedCredits r) 0 0 (br_Held r) 0
  | None => mkBalance (Asset (h_Amount h)) 0 0 0 0 0 0
  end.

Definition createHoldTx (h : Hold) (fingerprint : list Z) : Tx (Hold * bool) :=
  let tenant := h_TenantID h in
  account ← getAccountTx tenant (h_AccountID h);
  _ ← check (negb (bool_decide (h_LedgerID h <> uuid_Nil /\ h_LedgerID h <> a_LedgerID account)))
        ErrValidation;
  let h := set_hold_ledger h (a_LedgerID account) in
  db ← get_db;
  let available := Available (available_balance tenant h db) (a_NormalBalance account) in
  _ ← check (negb (available <? Units (h_Amount h))) ErrInsufficientFunds;
  _ ← insert_hold_row tenant h fingerprint;
  _ ← upsert_balance tenant (h_AccountID h) (Asset (h_Amount h))
        (mkDelta 0 0 0 0 (Units (h_Amount h)));
  _ ← insertOutbox tenant TopicHoldCreated (h_TenantID h)
        (PHoldCreated (mkHoldCreatedEvent (h_ID h) (h_LedgerID h) (h_AccountID h)
           (h_IdempotencyKey h) (NewEventMoney (h_Amount h)) (h_ExpiresAt h) (h_CreatedAt h)));
  mret (h, false).

Definition CreateHold (seen : DB) (h : Hold) : Op (Hold * bool) := fun ids now db =>
  let fingerprint := holdFingerprint h in
  let body :=
    match lookupHoldTx (h_TenantID h) (h_IdempotencyKey h) seen with
    | Some (existing, storedHash) =>
        if hash_conflict storedHash fingerprint then throw ErrIdempotencyConflict
        else mret (existing, true)
    | None => createHoldTx h fingerprint
    end in
  match WithTenantTx (h_TenantID h) body ids now db with
  | Ok r => Ok r
  | Err e =>
      if isUniqueViolation e then
        match lookupHoldTx (h_TenantID h) (h_IdempotencyKey h) db with
        | Some (existing, storedHash) =>
            if hash_conflict storedHash fingerprint then Err ErrIdempotencyConflict
            else Ok ((existing, true), db)
        | None => Err (mapErr e)
        end
      else Err (mapErr e)
  end.

Definition releaseHeld (tenant : uuid) (h : Hold) : Tx unit :=
  hit ← update_balance tenant (h_AccountID h) (Asset (h_Amount h))
          (mkDelta 0 0 0 0 (- Units (h_Amount h)));
  check hit ErrOther.

Definition captureHoldTx (tenant id : uuid) (amount : option Amount) (transactionID : option uuid)
  (now : time) : Tx Hold :=
  h ← getHoldTx tenant id;
  _ ← check (bool_decide (h_Status h = HoldActive)) ErrInvalidState;
  captured ← (match amount with
              | Some a =>
                  _ ← check (bool_decide (Asset a = Asset (h_Amount h))) ErrValidation;
                  _ ← check (negb (Units (h_Amount h) <? Units a)) ErrValidation;
                  mret a
              | None => mret (h_Amount h)
              end);
  _ ← (match transactionID with
       | Some tid =>
           db ← get_db;
           check (bool_decide (is_Some (find_transaction tenant tid db))) ErrNotFound
       | None => mret tt
       end);
  _ ← update_hold tenant id (fun old => set_hold_status old HoldCaptured transactionID);
  _ ← releaseHeld tenant h;
  let released :=
    if Units captured <? Units (h_Amount h)
    then Some (NewEventMoney (mkAmount (Asset (h_Amount h))
                 (wrap64 (Units (h_Amount h) - Units captured))))
    else None in
  _ ← insertOutbox tenant TopicHoldCaptured (h_TenantID h)
        (PHoldCaptured (mkHoldCapturedEvent (h_ID h) (h_LedgerID h) (h_AccountID h)
           (NewEventMoney captured) released transactionID now));
  mret (set_hold_status h HoldCaptured transactionID).

Definition CaptureHold (tenant id : uuid) (amount : option Amount) (transactionID : option uuid)
  : Op Hold := fun ids now db =>
  map_err mapErr (WithTenantTx tenant (captureHoldTx tenant id amount transactionID now) ids now db).

Definition releaseHoldTx (tenant id : uuid) (now : time) : Tx Hold :=
  h ← getHoldTx tenant id;
  _ ← check (bool_decide (h_Status h = HoldActive)) ErrInvalidState;
  _ ← update_hold tenant id (fun old =>
        set_hold_status old HoldReleased (h_CapturedTransactionID old));
  _ ← releaseHeld tenant h;
  _ ← insertOutbox tenant TopicHoldReleased (h_TenantID h)
        (PHoldReleased (mkHoldReleasedEvent (h_ID h) (h_LedgerID h) (h_AccountID h)
           (NewEventMoney (h_Amount h)) "released" now));
  mret (set_hold_status h HoldReleased (h_CapturedTransactionID h)).

Definition ReleaseHold (tenant id : uuid) : Op Hold := fun ids now db =>
  map_err mapErr (WithTenantTx tenant (releaseHoldTx tenant id now) ids now db).

Definition GetHold (tenant id : uuid) : Op Hold := WithTenantTx tenant (getHoldTx tenant id).
End TransactionOps.
