(* ===== verification/LedgerFingerprint.v ===== *)
(** * Request fingerprints

    What the canonical form of a creation request identifies: the order of the
    postings does not matter, everything else the request says does. *)

From Stdlib Require Import Ascii String ZArith Lia.
From S2P Require Import Prelude Strconv Errors Money LedgerDomain LedgerEvents LedgerDb Httpx.
From S2P Require Import LedgerStore.
Local Open Scope Z_scope.

(** ** Bytewise string order is a strict total order *)

Lemma ascii_compare_lt_trans a b c :
  Ascii.compare a b = Lt -> Ascii.compare b c = Lt -> Ascii.compare a c = Lt.
Proof. unfold Ascii.compare. rewrite !N.compare_lt_iff. lia. Qed.

Lemma ascii_compare_refl a : Ascii.compare a a = Eq.
Proof. unfold Ascii.compare. apply N.compare_refl. Qed.

Lemma str_lt_trans a b c : str_lt a b -> str_lt b c -> str_lt a c.
Proof.
  unfold str_lt. revert b c. induction a as [|x a IH]; intros [|y b] [|z c]; cbn; try done.
  destruct (Ascii.compare x y) eqn:E1; destruct (Ascii.compare y z) eqn:E2; try done.
  - apply Ascii.compare_eq_iff in E1, E2. subst.
    rewrite ascii_compare_refl. apply IH.
  - apply Ascii.compare_eq_iff in E1. subst. by rewrite E2.
  - apply Ascii.compare_eq_iff in E2. subst. by rewrite E1.
  - by rewrite (ascii_compare_lt_trans _ _ _ E1 E2).
Qed.

Lemma str_lt_irrefl a : ~ str_lt a a.
Proof. unfold str_lt. induction a as [|c a IH]; cbn; [done|]. by rewrite ascii_compare_refl. Qed.

Lemma str_lt_total a b : str_lt a b \/ a = b \/ str_lt b a.
Proof.
  unfold str_lt. destruct (String.compare a b) eqn:E; auto.
  - right. left. by apply String.compare_eq_iff.
  - right. right. by rewrite String.compare_antisym, E.
Qed.

(** ** The sort order of canonical postings is total and antisymmetric *)

Definition cp_tuple_lt (a b : canonicalPosting) : Prop :=
  str_lt (cp_AccountID a) (cp_AccountID b) \/
  (cp_AccountID a = cp_AccountID b /\
    (str_lt (cp_Direction a) (cp_Direction b) \/
     (cp_Direction a = cp_Direction b /\
       (str_lt (cp_Asset a) (cp_Asset b) \/
        (cp_Asset a = cp_Asset b /\ cp_Units a < cp_Units b))))).

Lemma cp_less_spec a b : cp_less a b <-> cp_tuple_lt a b.
Proof.
  unfold cp_less, cp_tuple_lt.
  pose proof (str_lt_irrefl (cp_AccountID a)). pose proof (str_lt_irrefl (cp_Direction a)).
  pose proof (str_lt_irrefl (cp_Asset a)).
  repeat case_decide; naive_solver congruence.
Qed.

Lemma cp_total a b : cp_less a b \/ a = b \/ cp_less b a.
Proof.
  rewrite !cp_less_spec. unfold cp_tuple_lt.
  destruct (str_lt_total (cp_AccountID a) (cp_AccountID b)) as [?|[E1|?]]; [tauto| |tauto].
  rewrite E1.
  destruct (str_lt_total (cp_Direction a) (cp_Direction b)) as [?|[E2|?]]; [tauto| |tauto].
  rewrite E2.
  destruct (str_lt_total (cp_Asset a) (cp_Asset b)) as [?|[E3|?]]; [tauto| |tauto].
  rewrite E3.
  destruct (Z.lt_trichotomy (cp_Units a) (cp_Units b)) as [?|[E4|?]]; [tauto| |tauto].
  right. left. destruct a, b. cbn in *. congruence.
Qed.

Lemma cp_irrefl a : ~ cp_less a a.
Proof.
  rewrite cp_less_spec. unfold cp_tuple_lt. pose proof str_lt_irrefl. naive_solver lia.
Qed.

Lemma cp_trans a b c : cp_less a b -> cp_less b c -> cp_less a c.
Proof.
  rewrite !cp_less_spec. unfold cp_tuple_lt.
  intros [H1|(E1 & [H1|(E1' & [H1|(E1'' & H1)])])] [H2|(E2 & [H2|(E2' & [H2|(E2'' & H2)])])];
    rewrite ?E1, ?E1', ?E1'', <- ?E2, <- ?E2', <- ?E2'' in *; eauto 10 using str_lt_trans.
  do 3 (right; split; [congruence|]). lia.
Qed.

#[export] Instance cp_le_total : Total cp_le.
Proof.
  intros a b. unfold cp_le. destruct (cp_total a b) as [H|[->|H]].
  - left. intros H'. by eapply cp_irrefl, cp_trans.
  - left. apply cp_irrefl.
  - right. intros H'. by eapply cp_irrefl, cp_trans.
Qed.

#[export] Instance cp_le_trans : Transitive cp_le.
Proof.
  intros a b c Hab Hbc Hca. unfold cp_le in *.
  destruct (cp_total a b) as [H|[->|H]]; [|done|done]. apply Hbc. by eapply cp_trans.
Qed.

#[export] Instance cp_le_antisymm : AntiSymm eq cp_le.
Proof. intros a b Hab Hba. unfold cp_le in *. by destruct (cp_total a b) as [?|[?|?]]. Qed.

Lemma sorted_canonical l l' :
  Permutation l l' <-> merge_sort cp_le l = merge_sort cp_le l'.
Proof.
  split.
  - intros Hp. apply (StronglySorted_unique cp_le).
    + apply StronglySorted_merge_sort; apply _.
    + apply StronglySorted_merge_sort; apply _.
    + by rewrite !merge_sort_Permutation.
  - intros E. rewrite <- (merge_sort_Permutation cp_le l), E. apply merge_sort_Permutation.
Qed.

Section Fingerprint.
Context `{Render, Digest}.

(** What a fingerprint identifies. Two creation requests have the same
    canonical form - and so the same fingerprint - exactly when they agree on
    ledger, reference, description, status, metadata (absent and empty being
    the same), on effective_at as the client gave it, and their postings are
    the same up to order; ids and server clocks never matter. *)
Theorem canonical_identifies t1 t2 :
  canonical_transaction t1 = canonical_transaction t2 <->
  uuid_String (t_LedgerID t1) = uuid_String (t_LedgerID t2) /\
  t_Reference t1 = t_Reference t2 /\ t_Description t1 = t_Description t2 /\
  TransactionStatus_string (t_Status t1) = TransactionStatus_string (t_Status t2) /\
  (if t_EffectiveAtProvided t1 then Some (rfc3339nano (t_EffectiveAt t1)) else None)
    = (if t_EffectiveAtProvided t2 then Some (rfc3339nano (t_EffectiveAt t2)) else None) /\
  meta (t_Metadata t1) = meta (t_Metadata t2) /\
  Permutation (map canonical_posting (t_Postings t1)) (map canonical_posting (t_Postings t2)).
Proof.
  rewrite sorted_canonical. unfold canonical_transaction. split.
  - intros [= E1 E2 E3 E4 E5 E6 E7]. by split_and!.
  - by intros (-> & -> & -> & -> & -> & -> & ->).
Qed.
End Fingerprint.
