(* ===== verification/LedgerReports.v ===== *)
(** * Ledger listings and reports: the read paths of [postgres/store.go]

    Listings, trial balance, statement, the balance verifier of migration
    [0006_balance_verifier.sql] and provider account balances. *)

From Stdlib Require Import Ascii String ZArith Lia.
From S2P Require Import Prelude Strconv Errors Money LedgerDomain LedgerEvents LedgerDb Httpx.
From S2P Require Import LedgerStore.
Local Open Scope Z_scope.

(** ** Listings, newest first *)

Record Page : Type := mkPage { pg_Cursor : Cursor; pg_Limit : Z }.

Definition list_rows {A} (keyOf : A -> Cursor) (page : Page) (rows : list A) : list A :=
  list_page descending keyOf (pg_Cursor page) (Z.to_nat (normalizeLimit (pg_Limit page))) rows.

(** [$1 IS NULL OR column = $1]. *)
Definition opt_filter {A} `{EqDecision A} (o : option A) (x : A) : bool :=
  match o with None => true | Some y => bool_decide (x = y) end.

Definition values {K V} `{Countable K} (m : gmap K V) : list V := map snd (map_to_list m).

Definition ledger_key (l : Ledger) : Cursor := mkCursor (l_CreatedAt l) (l_ID l).
Definition account_key (a : Account) : Cursor := mkCursor (a_CreatedAt a) (a_ID a).
Definition transaction_key (t : Transaction) : Cursor := mkCursor (t_CreatedAt t) (t_ID t).
Definition entry_key (e : Entry) : Cursor := mkCursor (e_CreatedAt e) (e_ID e).

Definition visible_ledgers (tenant : uuid) (db : DB) : list Ledger :=
  filter (fun l => l_TenantID l = tenant) (values (ledgers db)).
Definition visible_accounts (tenant : uuid) (db : DB) : list Account :=
  filter (fun a => a_TenantID a = tenant) (values (accounts db)).
Definition visible_transactions (tenant : uuid) (db : DB) : list Transaction :=
  filter (fun t => t_TenantID t = tenant) (values (transactions db)).
Definition visible_postings (tenant : uuid) (db : DB) : list PostingRow :=
  filter (fun r => pr_TenantID r = tenant) (postings db).
Definition visible_balances (tenant : uuid) (db : DB) : list ((uuid * string) * BalanceRow) :=
  filter (fun kr => br_TenantID kr.2 = tenant) (map_to_list (account_balances db)).

Definition ListLedgers (tenant : uuid) (page : Page) : Op (list Ledger) :=
  WithTenantTx tenant
    (db ← get_db; mret (list_rows ledger_key page (visible_ledgers tenant db))).

Record AccountFilter : Type := mkAccountFilter {
  af_LedgerID : option uuid; af_Type : option AccountType }.

Definition ListAccounts (tenant : uuid) (f : AccountFilter) (page : Page) : Op (list Account) :=
  WithTenantTx tenant
    (db ← get_db;
     mret (list_rows account_key page
       (filter (fun a => opt_filter (af_LedgerID f) (a_LedgerID a) = true /\
                         opt_filter (af_Type f) (a_Type a) = true) (visible_accounts tenant db)))).

Record TransactionFilter : Type := mkTransactionFilter {
  tf_LedgerID : option uuid; tf_Status : option TransactionStatus }.

Definition ListTransactions (tenant : uuid) (f : TransactionFilter) (page : Page)
  : Op (list Transaction) :=
  WithTenantTx tenant
    (db ← get_db;
     mret (map (fun t => with_postings t (loadPostings tenant (t_ID t) db))
       (list_rows transaction_key page
         (filter (fun t => opt_filter (tf_LedgerID f) (t_LedgerID t) = true /\
                           opt_filter (tf_Status f) (t_Status t) = true)
            (visible_transactions tenant db))))).

Definition entry_of_row (r : PostingRow) : Entry :=
  mkEntry (pr_ID r) (pr_TransactionID r) (pr_AccountID r) (pr_Direction r)
    (mkAmount (pr_Asset r) (pr_Amount r)) (pr_CreatedAt r).

Definition ListEntries (tenant accountID : uuid) (asset : string) (page : Page) : Op (list Entry) :=
  WithTenantTx tenant
    (_ ← getAccountTx tenant accountID;
     db ← get_db;
     mret (map entry_of_row
       (list_rows row_key page
         (filter (fun r => pr_AccountID r = accountID /\ (asset = ""%string \/ pr_Asset r = asset))
            (visible_postings tenant db))))).

(** Text columns are ordered bytewise. *)
Definition str_le (a b : string) : Prop := ~ str_lt b a.
#[export] Instance str_le_dec : RelDecision str_le.
Proof. intros a b. unfold str_le. apply _. Defined.

Definition balance_of_row (asset : string) (r : BalanceRow) : Balance :=
  mkBalance asset (br_PostedDebits r) (br_PostedCredits r) (br_PendingDebits r)
    (br_PendingCredits r) (br_Held r) (br_Version r).

Definition balance_le (a b : Balance) : Prop := str_le (b_Asset a) (b_Asset b).
#[export] Instance balance_le_dec : RelDecision balance_le.
Proof. intros a b. unfold balance_le. apply _. Defined.

Definition GetBalances (tenant accountID : uuid) : Op (Account * list Balance) :=
  WithTenantTx tenant
    (account ← getAccountTx tenant accountID;
     db ← get_db;
     mret (account, merge_sort balance_le
       (map (fun kr => balance_of_row kr.1.2 kr.2)
         (filter (fun kr => kr.1.1 = accountID) (visible_balances tenant db))))).

(** ** Joins *)

(** postings JOIN transactions, under the tenant's visibility. *)
Definition joined_postings (tenant : uuid) (db : DB) : list (PostingRow * Transaction) :=
  omap (fun r => t ← find_transaction tenant (pr_TransactionID r) db; Some (r, t))
    (visible_postings tenant db).

Definition account_in_ledger (tenant ledgerID acct : uuid) (db : DB) : option Account :=
  a ← find_account tenant acct db; if decide (a_LedgerID a = ledgerID) then Some a else None.

(** SUM(amount) FILTER (WHERE direction AND condition) of a group; exact in
    SQL. *)
Definition group_sum (k : uuid * string) (d : Direction) (cond : Transaction -> bool)
  (rows : list (PostingRow * Transaction)) : Z :=
  sumZ (fun rt => if decide (pr_AccountID rt.1 = k.1 /\ pr_Asset rt.1 = k.2 /\ pr_Direction rt.1 = d)
                  then (if cond rt.2 then pr_Amount rt.1 else 0) else 0) rows.

(** Scanning a numeric into an [int64] fails outside its range. *)
Definition scan_int64 (z : Z) (e : error) : Tx Z := _ ← check (in_int64 z) e; mret z.

Fixpoint mapM_ {A B} (f : A -> Tx B) (l : list A) : Tx (list B) :=
  match l with
  | [] => mret []
  | a :: rest => b ← f a; bs ← mapM_ f rest; mret (b :: bs)
  end.

(** GROUP BY: the distinct keys, in order of first occurrence. *)
Fixpoint group_keys {K} `{EqDecision K} (l : list K) : list K :=
  match l with
  | [] => []
  | k :: rest => k :: filter (fun k' => k' <> k) (group_keys rest)
  end.

(** ** Trial balance *)

Definition tb_path_le (a b : string * TrialBalanceRow) : Prop :=
  str_lt a.1 b.1 \/ (a.1 = b.1 /\ str_le (tbr_Asset a.2) (tbr_Asset b.2)).
#[export] Instance tb_path_le_dec : RelDecision tb_path_le.
Proof. intros a b. unfold tb_path_le. apply _. Defined.

(** FROM account_balances b JOIN accounts a WHERE a.ledger_id = $1. *)
Definition trial_rows_current (tenant ledgerID : uuid) (db : DB) : list (string * TrialBalanceRow) :=
  omap (fun kr =>
    a ← account_in_ledger tenant ledgerID kr.1.1 db;
    Some (a_Path a, mkTrialBalanceRow kr.1.1 (a_Name a) (a_Type a) kr.1.2
                      (br_PostedDebits kr.2) (br_PostedCredits kr.2)))
    (visible_balances tenant db).

Definition firm_as_of (asOf : time) (t : Transaction) : bool :=
  is_firm (t_Status t) && (t_EffectiveAt t <=? asOf).

(** The groups of the historical query: (account, asset) with a posting of a
    transaction that is firm and effective by [asOf]. *)
Definition trial_rows_as_of (tenant ledgerID : uuid) (asOf : time) (db : DB)
  : list (string * TrialBalanceRow) :=
  let rows := joined_postings tenant db in
  let firm := filter (fun rt => firm_as_of asOf rt.2 = true) rows in
  omap (fun k : uuid * string =>
    a ← account_in_ledger tenant ledgerID k.1 db;
    Some (a_Path a, mkTrialBalanceRow k.1 (a_Name a) (a_Type a) k.2
                      (group_sum k DirectionDebit (firm_as_of asOf) rows)
                      (group_sum k DirectionCredit (firm_as_of asOf) rows)))
    (group_keys (map (fun rt => (pr_AccountID rt.1, pr_Asset rt.1)) firm)).

(** The per-asset totals accumulated by the scanning loop: wrapping sums, in
    order of first occurrence. *)
Fixpoint add_total (r : TrialBalanceRow) (totals : list TrialBalanceTotal)
  : list TrialBalanceTotal :=
  match totals with
  | [] => [mkTrialBalanceTotal (tbr_Asset r) (tbr_Debits r) (tbr_Credits r) false]
  | t :: rest =>
      if decide (tbt_Asset t = tbr_Asset r)
      then mkTrialBalanceTotal (tbt_Asset t) (wrap64 (tbt_Debits t + tbr_Debits r))
             (wrap64 (tbt_Credits t + tbr_Credits r)) (tbt_Balanced t) :: rest
      else t :: add_total r rest
  end.

Definition close_total (t : TrialBalanceTotal) : TrialBalanceTotal :=
  mkTrialBalanceTotal (tbt_Asset t) (tbt_Debits t) (tbt_Credits t) (tbt_Debits t =? tbt_Credits t).

Definition trial_totals (rows : list TrialBalanceRow) : list TrialBalanceTotal :=
  map close_total (fold_left (fun acc r => add_total r acc) rows []).

Definition scan_trial_row (r : TrialBalanceRow) : Tx TrialBalanceRow :=
  _ ← scan_int64 (tbr_Debits r) ErrOther;
  _ ← scan_int64 (tbr_Credits r) ErrOther;
  mret r.

Definition TrialBalance_ (tenant ledgerID : uuid) (asOf : option time) : Op TrialBalance :=
  fun ids now db =>
  WithTenantTx tenant
    (_ ← requireLedger tenant ledgerID;
     db ← get_db;
     let rows := match asOf with
                 | None => trial_rows_current tenant ledgerID db
                 | Some t => trial_rows_as_of tenant ledgerID t db
                 end in
     rows ← mapM_ scan_trial_row (map snd (merge_sort tb_path_le rows));
     mret (mkTrialBalance ledgerID (default now asOf) rows (trial_totals rows))) ids now db.

(** ** Statement *)

(** CASE WHEN direction = 'DEBIT' THEN amount ELSE -amount END. *)
Definition signed_amount (r : PostingRow) : Z :=
  if decide (pr_Direction r = DirectionDebit) then pr_Amount r else - pr_Amount r.

(** Firm postings of one account whose transaction satisfies [cond]. *)
Definition statement_postings (tenant accountID : uuid) (cond : time -> bool) (db : DB)
  : list (PostingRow * Transaction) :=
  filter (fun rt => pr_AccountID rt.1 = accountID /\ is_firm (t_Status rt.2) = true /\
                    cond (t_EffectiveAt rt.2) = true) (joined_postings tenant db).

Definition asset_raw (asset : string) (rows : list (PostingRow * Transaction)) : Z :=
  sumZ (fun rt => if decide (pr_Asset rt.1 = asset) then signed_amount rt.1 else 0) rows.

(** GROUP BY asset, scanned into a [map[string]int64]. *)
Definition statementRawSums (tenant accountID : uuid) (cond : time -> bool)
  : Tx (gmap string Z) :=
  db ← get_db;
  let rows := statement_postings tenant accountID cond db in
  kvs ← mapM_ (fun asset => raw ← scan_int64 (asset_raw asset rows) ErrOther; mret (asset, raw))
          (group_keys (map (fun rt => pr_Asset rt.1) rows));
  mret (list_to_map kvs).

Definition statement_key (rt : PostingRow * Transaction) : Cursor :=
  mkCursor (t_EffectiveAt rt.2) (pr_ID rt.1).

(** SUM(...) OVER (PARTITION BY asset ORDER BY effective_at, id): the frame is
    every row of the partition up to the current one. *)
Definition running_raw (period : list (PostingRow * Transaction)) (rt : PostingRow * Transaction) : Z :=
  asset_raw (pr_Asset rt.1)
    (filter (fun rt' => ~ key_lt (statement_key rt) (statement_key rt')) period).

Definition statement_entry (nb : NormalBalance) (openingRaw : gmap string Z)
  (period : list (PostingRow * Transaction)) (rt : PostingRow * Transaction) : Tx StatementEntry :=
  runningRaw ← scan_int64 (running_raw period rt) ErrOther;
  mret (mkStatementEntry (pr_ID rt.1) (pr_TransactionID rt.1) (t_Reference rt.2)
    (pr_Direction rt.1) (mkAmount (pr_Asset rt.1) (pr_Amount rt.1)) (t_EffectiveAt rt.2)
    (RunningBalance nb (default 0 (openingRaw !! pr_Asset rt.1)) runningRaw)).

Definition Statement_ (tenant accountID : uuid) (from to : time) (page : Page) : Op Statement :=
  WithTenantTx tenant
    (account ← getAccountTx tenant accountID;
     let nb := a_NormalBalance account in
     openingRaw ← statementRawSums tenant accountID (fun t => t <? from);
     periodRaw ← statementRawSums tenant accountID (fun t => (from <=? t) && (t <=? to));
     let names := merge_sort str_le (elements (dom openingRaw ∪ dom periodRaw)) in
     let opening := map (fun a => mkAssetBalance a (SignRaw nb (default 0 (openingRaw !! a)))) names in
     let closing := map (fun a => mkAssetBalance a
           (RunningBalance nb (default 0 (openingRaw !! a)) (default 0 (periodRaw !! a)))) names in
     db ← get_db;
     let period := statement_postings tenant accountID (fun t => (from <=? t) && (t <=? to)) db in
     entries ← mapM_ (statement_entry nb openingRaw period)
       (list_page ascending statement_key (pg_Cursor page)
          (Z.to_nat (normalizeLimit (pg_Limit page))) period);
     mret (mkStatement account from to opening closing entries)).

(** ** Balance verifier *)

Definition is_draft (t : Transaction) : bool := bool_decide (t_Status t = TransactionDraft).
Definition is_firm_tx (t : Transaction) : bool := is_firm (t_Status t).

(** One output row of [verify_account_balances], recomputed against stored. *)
Definition verify_row (tenant : uuid) (db : DB) (k : uuid * string) : BalanceDiscrepancy :=
  let rows := joined_postings tenant db in
  let stored := default (zero_row tenant) (find_balance tenant k db) in
  mkBalanceDiscrepancy k.1 k.2
    (group_sum k DirectionDebit is_firm_tx rows) (br_PostedDebits stored)
    (group_sum k DirectionCredit is_firm_tx rows) (br_PostedCredits stored)
    (group_sum k DirectionDebit is_draft rows) (br_PendingDebits stored)
    (group_sum k DirectionCredit is_draft rows) (br_PendingCredits stored).

Definition drifts (d : BalanceDiscrepancy) : bool :=
  negb ((bd_ComputedPostedDebits d =? bd_StoredPostedDebits d)
     && (bd_ComputedPostedCredits d =? bd_StoredPostedCredits d)
     && (bd_ComputedPendingDebits d =? bd_StoredPendingDebits d)
     && (bd_ComputedPendingCredits d =? bd_StoredPendingCredits d)).

Definition key_of_discrepancy_le (a b : BalanceDiscrepancy) : Prop :=
  bd_AccountID a < bd_AccountID b \/
  (bd_AccountID a = bd_AccountID b /\ str_le (bd_Asset a) (bd_Asset b)).
#[export] Instance key_of_discrepancy_le_dec : RelDecision key_of_discrepancy_le.
Proof. intros a b. unfold key_of_discrepancy_le. apply _. Defined.

(** Keys of the full outer join of [recomputed] and [stored]. *)
Definition verify_keys (tenant ledgerID : uuid) (db : DB) : list (uuid * string) :=
  filter (fun k : uuid * string => is_Some (account_in_ledger tenant ledgerID k.1 db))
    (group_keys (map (fun rt => (pr_AccountID rt.1, pr_Asset rt.1)) (joined_postings tenant db)
                 ++ map fst (visible_balances tenant db))).

Definition verify_account_balances (tenant ledgerID : uuid) (db : DB) : list BalanceDiscrepancy :=
  merge_sort key_of_discrepancy_le
    (filter (fun d => drifts d = true) (map (verify_row tenant db) (verify_keys tenant ledgerID db))).

(** The function's result columns are BIGINT. *)
Definition scan_discrepancy (d : BalanceDiscrepancy) : Tx BalanceDiscrepancy :=
  _ ← check (in_int64 (bd_ComputedPostedDebits d) && in_int64 (bd_ComputedPostedCredits d)
             && in_int64 (bd_ComputedPendingDebits d) && in_int64 (bd_ComputedPendingCredits d))
        (ErrPg NumericOutOfRange);
  mret d.

Definition VerifyBalances (tenant ledgerID : uuid) : Op (list BalanceDiscrepancy) :=
  WithTenantTx tenant
    (_ ← requireLedger tenant ledgerID;
     db ← get_db;
     mapM_ scan_discrepancy (verify_account_balances tenant ledgerID db)).

(** ** Provider account balances *)

Definition pab_le (a b : ProviderAccountBalance) : Prop :=
  str_lt (pab_Path a) (pab_Path b) \/ (pab_Path a = pab_Path b /\ str_le (pab_Asset a) (pab_Asset b)).
#[export] Instance pab_le_dec : RelDecision pab_le.
Proof. intros a b. unfold pab_le. apply _. Defined.

Definition ProviderAccountBalances (tenant : uuid) : Op (list ProviderAccountBalance) :=
  WithTenantTx tenant
    (db ← get_db;
     mret (merge_sort pab_le
       (omap (fun kr =>
          a ← find_account tenant kr.1.1 db;
          if decide (a_Type a = AccountAsset \/ a_Type a = AccountLiability)
          then Some (mkProviderAccountBalance (a_ID a) (a_Path a) (a_Type a) (a_Metadata a)
                       kr.1.2 (br_PostedDebits kr.2) (br_PostedCredits kr.2))
          else None) (visible_balances tenant db)))).
