(* ===== verification/LedgerService.v ===== *)
(** * Ledger application service: [services/ledger-core/internal/app]

    The persistence port of [ports.go] as a type class, the use cases of
    [service.go] written against it, and its PostgreSQL implementation. *)

From Stdlib Require Import Ascii String ZArith Lia.
From S2P Require Import Prelude Strconv Errors Money LedgerDomain LedgerEvents LedgerDb Httpx.
From S2P Require Import LedgerStore LedgerReports.
Local Open Scope Z_scope.

(** ** The persistence port *)

(** A call on a store with states [S]: generated ids, current instant, state
    before; an error leaves the state as it was. *)
Definition Call (S A : Type) : Type := list uuid -> time -> S -> result error (A * S).

Class Store (S : Type) : Type := {
  st_CreateLedger : Ledger -> Call S unit;
  st_GetLedger : uuid -> uuid -> Call S Ledger;
  st_ListLedgers : uuid -> Page -> Call S (list Ledger);
  st_CreateAccount : Account -> Call S unit;
  st_GetAccount : uuid -> uuid -> Call S Account;
  st_ListAccounts : uuid -> AccountFilter -> Page -> Call S (list Account);
  st_GetBalances : uuid -> uuid -> Call S (Account * list Balance);
  st_ListEntries : uuid -> uuid -> string -> Page -> Call S (list Entry);
  st_CreateTransaction : Transaction -> Call S (Transaction * bool);
  st_GetTransaction : uuid -> uuid -> Call S Transaction;
  st_ListTransactions : uuid -> TransactionFilter -> Page -> Call S (list Transaction);
  st_PostTransaction : uuid -> uuid -> Call S Transaction;
  st_ReverseTransaction : uuid -> uuid -> string -> string -> Call S (Transaction * bool);
  st_CreateHold : Hold -> Call S (Hold * bool);
  st_CaptureHold : uuid -> uuid -> option Amount -> option uuid -> Call S Hold;
  st_ReleaseHold : uuid -> uuid -> Call S Hold;
  st_GetHold : uuid -> uuid -> Call S Hold;
  st_TrialBalance : uuid -> uuid -> option time -> Call S TrialBalance;
  st_Statement : uuid -> uuid -> time -> time -> Page -> Call S Statement;
  st_ProviderAccountBalances : uuid -> Call S (list ProviderAccountBalance);
  st_VerifyBalances : uuid -> uuid -> Call S (list BalanceDiscrepancy)
}.

(** ** Inputs *)

Definition DefaultHoldTTL : Z := 7 * 24 * 3600 * 1000000.
Definition StatementDefaultPeriod : Z := 30 * 24 * 3600 * 1000000.

Record CreateLedgerInput : Type := mkCreateLedgerInput {
  cl_Name : string; cl_Description : string; cl_Environment : string; cl_Metadata : metadata }.

Record CreateAccountInput : Type := mkCreateAccountInput {
  ca_LedgerID : uuid; ca_Name : string; ca_Type : AccountType; ca_NormalBalance : NormalBalance;
  ca_Metadata : metadata }.

Record PostingInput : Type := mkPostingInput {
  pi_AccountID : uuid; pi_Direction : Direction; pi_Amount : Amount }.

(** The empty status string is [None]. *)
Record CreateTransactionInput : Type := mkCreateTransactionInput {
  ci_LedgerID : uuid; ci_IdempotencyKey : string; ci_Reference : string; ci_Description : string;
  ci_Status : option TransactionStatus; ci_EffectiveAt : option time; ci_Metadata : metadata;
  ci_Postings : list PostingInput }.

Record ReverseTransactionInput : Type := mkReverseTransactionInput {
  ri_IdempotencyKey : string; ri_Reason : string }.

Record CreateHoldInput : Type := mkCreateHoldInput {
  hi_AccountID : uuid; hi_LedgerID : uuid; hi_IdempotencyKey : string; hi_Amount : Amount;
  hi_ExpiresAt : option time; hi_Metadata : metadata }.

Record CaptureHoldInput : Type := mkCaptureHoldInput {
  ki_Amount : option Amount; ki_TransactionID : option uuid }.

(** [s == "" || len(s) > 255]. *)
Definition bad_name (s : string) : bool :=
  bool_decide (s = ""%string) || (255 <? Z.of_nat (String.length s)).

(** The loop that gives every submitted leg an id. *)
Fixpoint make_postings (ps : list PostingInput) (ids : list uuid)
  : result error (list Posting * list uuid) :=
  match ps with
  | [] => Ok ([], ids)
  | p :: rest =>
      '(id, ids) ← newID ids;
      '(rest, ids) ← make_postings rest ids;
      Ok (mkPosting id (pi_AccountID p) (pi_Direction p) (pi_Amount p) :: rest, ids)
  end.

(** ** Use cases *)

Section Service.
Context {S : Type} `{Store S}.

Definition svc_CreateLedger (tenantID : uuid) (input : CreateLedgerInput) : Call S Ledger :=
  fun ids now st =>
  if bad_name (cl_Name input) then Err ErrValidation
  else
    '(id, ids) ← newID ids;
    let l := mkLedger id tenantID (cl_Name input) (cl_Description input) (cl_Environment input)
               (cl_Metadata input) now in
    '(_, st) ← st_CreateLedger l ids now st;
    Ok (l, st).

Definition svc_CreateAccount (tenantID : uuid) (input : CreateAccountInput) : Call S Account :=
  fun ids now st =>
  if bad_name (ca_Name input) then Err ErrValidation
  else if negb (AccountType_Valid (ca_Type input)) then Err ErrValidation
  else if negb (NormalBalance_Valid (ca_NormalBalance input)) then Err ErrValidation
  else if ca_LedgerID input =? uuid_Nil then Err ErrValidation
  else
    '(id, ids) ← newID ids;
    let a := mkAccount id tenantID (ca_LedgerID input) (ca_Name input) (ca_Name input)
               (ca_Type input) (ca_NormalBalance input) "active" (ca_Metadata input) now in
    '(_, st) ← st_CreateAccount a ids now st;
    Ok (a, st).

Definition svc_ListEntries (tenantID accountID : uuid) (asset : string) (page : Page)
  : Call S (list Entry) := fun ids now st =>
  if decide (asset = ""%string) then st_ListEntries tenantID accountID asset page ids now st
  else match ValidateAssetCode asset with
       | Err _ => Err ErrValidation
       | Ok _ => st_ListEntries tenantID accountID asset page ids now st
       end.

Definition new_transaction (tenantID id : uuid) (now : time) (input : CreateTransactionInput)
  (status : TransactionStatus) (ps : list Posting) : Transaction :=
  {| t_ID := id; t_TenantID := tenantID; t_LedgerID := ci_LedgerID input;
     t_Reference := ci_Reference input; t_Description := ci_Description input;
     t_IdempotencyKey := ci_IdempotencyKey input; t_Status := status;
     t_EffectiveAt := default now (ci_EffectiveAt input);
     t_EffectiveAtProvided := match ci_EffectiveAt input with Some _ => true | None => false end;
     t_PostedAt := if decide (status = TransactionPosted) then Some now else None;
     t_ReversedByID := None; t_ReversesID := None; t_Metadata := ci_Metadata input;
     t_Postings := ps; t_CreatedAt := now |}.

Definition svc_CreateTransaction (tenantID : uuid) (input : CreateTransactionInput)
  : Call S (Transaction * bool) := fun ids now st =>
  if bad_name (ci_IdempotencyKey input) then Err ErrValidation
  else if ci_LedgerID input =? uuid_Nil then Err ErrValidation
  else
    let status := default TransactionPosted (ci_Status input) in
    if negb (bool_decide (status = TransactionDraft \/ status = TransactionPosted))
    then Err ErrValidation
    else if 1000 <? Z.of_nat (length (ci_Postings input)) then Err ErrValidation
    else
      '(id, ids) ← newID ids;
      '(ps, ids) ← make_postings (ci_Postings input) ids;
      let t := new_transaction tenantID id now input status ps in
      _ ← ValidateBalanced (t_Postings t);
      st_CreateTransaction t ids now st.

Definition svc_PostTransaction (tenantID id : uuid) : Call S Transaction :=
  st_PostTransaction tenantID id.

Definition svc_ReverseTransaction (tenantID id : uuid) (input : ReverseTransactionInput)
  : Call S (Transaction * bool) := fun ids now st =>
  if 255 <? Z.of_nat (String.length (ri_IdempotencyKey input)) then Err ErrValidation
  else if 1024 <? Z.of_nat (String.length (ri_Reason input)) then Err ErrValidation
  else st_ReverseTransaction tenantID id (ri_IdempotencyKey input) (ri_Reason input) ids now st.

Definition svc_CreateHold (tenantID : uuid) (input : CreateHoldInput) : Call S (Hold * bool) :=
  fun ids now st =>
  if bad_name (hi_IdempotencyKey input) then Err ErrValidation
  else if hi_AccountID input =? uuid_Nil then Err ErrValidation
  else if negb (is_ok (ValidateAssetCode (Asset (hi_Amount input)))) then Err ErrValidation
  else if Units (hi_Amount input) <=? 0 then Err ErrValidation
  else if (match hi_ExpiresAt input with Some e => negb (now <? e) | None => false end)
  then Err ErrValidation
  else
    '(id, ids) ← newID ids;
    let h := {| h_ID := id; h_TenantID := tenantID; h_LedgerID := hi_LedgerID input;
                h_AccountID := hi_AccountID input; h_IdempotencyKey := hi_IdempotencyKey input;
                h_Amount := hi_Amount input; h_Status := HoldActive;
                h_ExpiresAt := default (now + DefaultHoldTTL) (hi_ExpiresAt input);
                h_ExpiresAtProvided := match hi_ExpiresAt input with Some _ => true | None => false end;
                h_CapturedTransactionID := None; h_Metadata := hi_Metadata input;
                h_CreatedAt := now |} in
    st_CreateHold h ids now st.

Definition svc_CaptureHold (tenantID id : uuid) (input : CaptureHoldInput) : Call S Hold :=
  fun ids now st =>
  if (match ki_Amount input with
      | Some a => negb (is_ok (ValidateAssetCode (Asset a))) || (Units a <=? 0)
      | None => false
      end) then Err ErrValidation
  else st_CaptureHold tenantID id (ki_Amount input) (ki_TransactionID input) ids now st.

Definition svc_ReleaseHold (tenantID id : uuid) : Call S Hold := st_ReleaseHold tenantID id.

Definition svc_TrialBalance (tenantID ledgerID : uuid) (asOf : option time) : Call S TrialBalance :=
  st_TrialBalance tenantID ledgerID asOf.

Definition svc_VerifyBalances (tenantID ledgerID : uuid) : Call S (list BalanceDiscrepancy) :=
  fun ids now st =>
  if ledgerID =? uuid_Nil then Err ErrValidation
  else st_VerifyBalances tenantID ledgerID ids now st.

Definition svc_Statement (tenantID accountID : uuid) (from to : time) (page : Page)
  : Call S Statement := fun ids now st =>
  if accountID =? uuid_Nil then Err ErrValidation
  else
    let to := if time_IsZero to then now else to in
    let from := if time_IsZero from then to - StatementDefaultPeriod else from in
    if to <? from then Err ErrValidation
    else st_Statement tenantID accountID from to page ids now st.

(** One iteration of the loop of [ProviderPositions] over [nets], [providers]
    and [order]. *)
Definition position_step
  (acc : gmap (string * string) ProviderAssetPosition * gmap string (list string) * list string)
  (r : ProviderAccountBalance) :=
  let '(nets, providers, order) := acc in
  match ProviderOf (pab_Path r) (pab_Metadata r) with
  | None => acc
  | Some provider =>
      let k := (provider, pab_Asset r) in
      let '(pos, providers, order) :=
        match nets !! k with
        | Some pos => (pos, providers, order)
        | None =>
            (mkProviderAssetPosition (pab_Asset r) 0 [],
             <[provider := default [] (providers !! provider) ++ [pab_Asset r]]> providers,
             match providers !! provider with Some _ => order | None => order ++ [provider] end)
        end in
      (<[k := mkProviderAssetPosition (pap_Asset pos)
                (wrap64 (pap_Net pos + wrap64 (pab_PostedDebits r - pab_PostedCredits r)))
                (pap_Accounts pos ++ [pab_AccountID r])]> nets, providers, order)
  end.

Definition positions_of (rows : list ProviderAccountBalance) : list ProviderPosition :=
  let '(nets, providers, order) := fold_left position_step rows (∅, ∅, []) in
  map (fun provider =>
    mkProviderPosition provider
      (omap (fun asset => nets !! (provider, asset))
         (merge_sort str_le (default [] (providers !! provider)))))
    (merge_sort str_le order).

Definition svc_ProviderPositions (tenantID : uuid) : Call S (list ProviderPosition) :=
  fun ids now st =>
  '(rows, st) ← st_ProviderAccountBalances tenantID ids now st;
  Ok (positions_of rows, st).
End Service.

(** ** The PostgreSQL store

    [seen] is the committed state the idempotency lookups read when a request
    races with another one; [None] for a request that does not race. *)

Section PgStore.
Context `{Render, Digest}.

Definition pgStore (seen : option DB) : Store DB := {|
  st_CreateLedger := CreateLedger;
  st_GetLedger := GetLedger;
  st_ListLedgers := ListLedgers;
  st_CreateAccount := CreateAccount;
  st_GetAccount := GetAccount;
  st_ListAccounts := ListAccounts;
  st_GetBalances := GetBalances;
  st_ListEntries := ListEntries;
  st_CreateTransaction := fun t ids now db => CreateTransaction (default db seen) t ids now db;
  st_GetTransaction := GetTransaction;
  st_ListTransactions := ListTransactions;
  st_PostTransaction := PostTransaction;
  st_ReverseTransaction := fun tenant id key reason ids now db =>
    ReverseTransaction (default db seen) tenant id key reason ids now db;
  st_CreateHold := fun h ids now db => CreateHold (default db seen) h ids now db;
  st_CaptureHold := CaptureHold;
  st_ReleaseHold := ReleaseHold;
  st_GetHold := GetHold;
  st_TrialBalance := TrialBalance_;
  st_Statement := Statement_;
  st_ProviderAccountBalances := ProviderAccountBalances;
  st_VerifyBalances := VerifyBalances
|}.

(** ** Requests

    The state-changing requests of the service and their execution. *)

Inductive request : Type :=
| ReqCreateLedger (input : CreateLedgerInput)
| ReqCreateAccount (input : CreateAccountInput)
| ReqCreateTransaction (input : CreateTransactionInput)
| ReqPostTransaction (id : uuid)
| ReqReverseTransaction (id : uuid) (input : ReverseTransactionInput)
| ReqCreateHold (input : CreateHoldInput)
| ReqCaptureHold (id : uuid) (input : CaptureHoldInput)
| ReqReleaseHold (id : uuid).

Inductive response : Type :=
| RespLedger (l : Ledger) | RespAccount (a : Account)
| RespTransaction (t : Transaction) (replayed : bool)
| RespHold (h : Hold) (replayed : bool).

Definition exec (seen : option DB) (tenant : uuid) (r : request) : Call DB response :=
  fun ids now db =>
  let store := pgStore seen in
  match r with
  | ReqCreateLedger i => '(l, db) ← svc_CreateLedger tenant i ids now db; Ok (RespLedger l, db)
  | ReqCreateAccount i => '(a, db) ← svc_CreateAccount tenant i ids now db; Ok (RespAccount a, db)
  | ReqCreateTransaction i =>
      '((t, b), db) ← svc_CreateTransaction tenant i ids now db; Ok (RespTransaction t b, db)
  | ReqPostTransaction id =>
      '(t, db) ← svc_PostTransaction tenant id ids now db; Ok (RespTransaction t false, db)
  | ReqReverseTransaction id i =>
      '((t, b), db) ← svc_ReverseTransaction tenant id i ids now db; Ok (RespTransaction t b, db)
  | ReqCreateHold i => '((h, b), db) ← svc_CreateHold tenant i ids now db; Ok (RespHold h b, db)
  | ReqCaptureHold id i =>
      '(h, db) ← svc_CaptureHold tenant id i ids now db; Ok (RespHold h false, db)
  | ReqReleaseHold id =>
      '(h, db) ← svc_ReleaseHold tenant id ids now db; Ok (RespHold h false, db)
  end.

(** Amounts are [int64] values. *)
Definition request_wf (r : request) : Prop :=
  match r with
  | ReqCreateTransaction i => Forall (fun p => amount_wf (pi_Amount p)) (ci_Postings i)
  | ReqCreateHold i => amount_wf (hi_Amount i)
  | ReqCaptureHold _ i => match ki_Amount i with Some a => amount_wf a | None => True end
  | _ => True
  end.

(** A history of the service: the committed states, newest first. A request
    may have read any earlier committed state in its idempotency lookup. *)
Inductive history : list DB -> Prop :=
| history_init : history [empty_db]
| history_step db past seen tenant r ids now resp db' :
    history (db :: past) ->
    seen = None \/ (exists s, seen = Some s /\ s ∈ db :: past) ->
    request_wf r ->
    exec seen tenant r ids now db = Ok (resp, db') ->
    history (db' :: db :: past).
End PgStore.
