(* ===== verification/LedgerSpec.v ===== *)
(** * The ledger, abstractly

    Inversion lemmas for the transaction monad and for the statements of
    [LedgerDb], from a successful run to the conditions it passed and the state
    it left ([inv_tx] decomposes a successful program); then the abstract ledger
    that the database refines. *)

From Stdlib Require Import Ascii String ZArith Lia.
From S2P Require Import Prelude Strconv Errors Money LedgerDomain LedgerEvents LedgerDb Httpx LedgerStore.
Local Open Scope Z_scope.

(** ** The monad *)

Lemma tx_bind_ok {A B} (m : Tx A) (f : A -> Tx B) st r :
  (m ≫= f) st = Ok r <-> exists a st1, m st = Ok (a, st1) /\ f a st1 = Ok r.
Proof.
  unfold mbind, Tx_bind. destruct (m st) as [[a st1]|e]; [|naive_solver].
  split; [eauto|]. by intros (a' & st1' & [= <- <-] & H).
Qed.

Lemma tx_ret_ok {A} (a b : A) st st' :
  (mret a : Tx A) st = Ok (b, st') <-> b = a /\ st' = st.
Proof. unfold mret, Tx_ret. naive_solver. Qed.

Lemma throw_ok {A} e st r : (throw e : Tx A) st = Ok r <-> False.
Proof. by unfold throw. Qed.

Lemma get_db_ok st db st' : get_db st = Ok (db, st') <-> db = tx_db st /\ st' = st.
Proof. unfold get_db. naive_solver. Qed.

Lemma get_clock_ok st t st' : get_clock st = Ok (t, st') <-> t = clock st /\ st' = st.
Proof. unfold get_clock. naive_solver. Qed.

Lemma check_ok b e st u st' : check b e st = Ok (u, st') <-> b = true /\ st' = st.
Proof. destruct b, u; unfold check, mret, Tx_ret, throw; naive_solver. Qed.

(** States that differ only in their database. *)
Definition with_db (db : DB) (st : TxState) : TxState := mkTx db (touched st) (supply st) (clock st).

Lemma modify_ok f st u st' : modify f st = Ok (u, st') <-> st' = with_db (f (tx_db st)) st.
Proof. destruct u. unfold modify, with_db. naive_solver. Qed.

Lemma touch_ok id st u st' :
  touch id st = Ok (u, st') <-> st' = mkTx (tx_db st) (id :: touched st) (supply st) (clock st).
Proof. destruct u. unfold touch. naive_solver. Qed.

Lemma fresh_ok st id st' :
  fresh st = Ok (id, st') -> st' = mkTx (tx_db st) (touched st) (supply st') (clock st)
                             /\ supply st = id :: supply st'.
Proof.
  unfold fresh, newID. destruct (supply st) as [|i ids]; cbn; [done|].
  by intros [= <- <-].
Qed.

Lemma bool_decide_true P `{Decision P} : bool_decide P = true <-> P.
Proof. apply bool_decide_eq_true. Qed.

(** Takes a successful run apart; the remaining hypothesis about a statement
    without a lemma here keeps its name. *)
Ltac inv_tx_with n H :=
  cbv zeta in H;
  lazymatch type of H with
  | (mbind _ _) _ = Ok _ =>
      apply tx_bind_ok in H;
      let a := fresh "x" in let st := fresh "st" in let H1 := fresh "Hs" in
      destruct H as (a & st & H1 & H); inv_tx_with n H1; inv_tx_with n H
  | mret _ _ = Ok _ => apply tx_ret_ok in H; destruct H as [? ?]; subst
  | throw _ _ = Ok _ => apply throw_ok in H; destruct H
  | get_db _ = Ok _ => apply get_db_ok in H; destruct H as [? ?]; subst
  | get_clock _ = Ok _ => apply get_clock_ok in H; destruct H as [? ?]; subst
  | check _ _ _ = Ok _ => apply check_ok in H; destruct H as [H ?]; subst;
                          rewrite ?bool_decide_true in H
  | modify _ _ = Ok _ => apply modify_ok in H; subst
  | touch _ _ = Ok _ => apply touch_ok in H; subst
  | _ => idtac
  end.
Ltac inv_tx H := inv_tx_with tt H.

(** ** Loops *)

Lemma forM_ok {A} (f : A -> Tx unit) (P : list A -> TxState -> Prop) l st u st' :
  (forall a done st st' u, P done st -> f a st = Ok (u, st') -> P (done ++ [a]) st') ->
  P [] st -> forM_ l f st = Ok (u, st') -> P l st'.
Proof.
  intros Hstep. enough (H : forall done st, P done st -> forM_ l f st = Ok (u, st') -> P (done ++ l) st')
    by apply (H []).
  induction l as [|a l IH]; intros dn s HP Hr; cbn [forM_] in Hr.
  - inv_tx Hr. by rewrite app_nil_r.
  - apply tx_bind_ok in Hr as (x & s1 & H1 & H2). rewrite (cons_middle a dn l), app_assoc.
    eapply IH; eauto.
Qed.

(** A loop whose steps leave the state alone. *)
Lemma forM_pure {A} (f : A -> Tx unit) (Q : A -> Prop) l st u st' :
  (forall a st st' u, f a st = Ok (u, st') -> st' = st /\ Q a) ->
  forM_ l f st = Ok (u, st') -> st' = st /\ Forall Q l.
Proof.
  intros Hf. apply (forM_ok f (fun l s => s = st /\ Forall Q l)); [|by split].
  intros a dn s s' v [-> HF] H. destruct (Hf _ _ _ _ H) as [-> ?]. split; [done|].
  apply Forall_app. split; [done|]. by constructor.
Qed.

(** ** Uniqueness tests *)

Lemma exists_in_false {K V} `{Countable K} (P : V -> bool) (m : gmap K V) :
  exists_in P m = false <-> forall k v, m !! k = Some v -> P v = false.
Proof.
  unfold exists_in. rewrite <- not_true_iff_false, existsb_exists. split.
  - intros Hn k v Hk. apply not_true_iff_false. intros HP. apply Hn. exists (k, v). split; [|done].
    by apply list_elem_of_In, elem_of_map_to_list.
  - intros Hall ([k v] & Hin & HP). apply list_elem_of_In, elem_of_map_to_list in Hin.
    cbn in HP. by rewrite (Hall k v Hin) in HP.
Qed.

(** ** Visibility *)

Lemma find_transaction_some tenant id db t :
  find_transaction tenant id db = Some t <-> transactions db !! id = Some t /\ t_TenantID t = tenant.
Proof.
  unfold find_transaction. destruct (transactions db !! id) as [t'|]; cbn; [|naive_solver].
  case_decide; naive_solver.
Qed.

Lemma find_account_some tenant id db a :
  find_account tenant id db = Some a <-> accounts db !! id = Some a /\ a_TenantID a = tenant.
Proof.
  unfold find_account. destruct (accounts db !! id) as [t'|]; cbn; [|naive_solver].
  case_decide; naive_solver.
Qed.

Lemma find_ledger_some tenant id db l :
  find_ledger tenant id db = Some l <-> ledgers db !! id = Some l /\ l_TenantID l = tenant.
Proof.
  unfold find_ledger. destruct (ledgers db !! id) as [t'|]; cbn; [|naive_solver].
  case_decide; naive_solver.
Qed.

Lemma find_hold_some tenant id db h :
  find_hold tenant id db = Some h <->
  exists r, holds db !! id = Some r /\ hr_Hold r = h /\ h_TenantID h = tenant.
Proof.
  unfold find_hold. destruct (holds db !! id) as [r|]; cbn; [|naive_solver].
  case_decide; naive_solver.
Qed.

Lemma find_balance_some tenant k db r :
  find_balance tenant k db = Some r <-> account_balances db !! k = Some r /\ br_TenantID r = tenant.
Proof.
  unfold find_balance. destruct (account_balances db !! k) as [r'|]; cbn; [|naive_solver].
  case_decide; naive_solver.
Qed.

(** ** Abstract specification of the ledger's state changes

    What a committed request may do to the tables, as a relation between two
    database states that mentions no statement, monad or error: a new ledger or
    account, a recorded transaction, a draft posted, a transaction reversed, a
    hold opened or closed. The store refines it (file [LedgerRefine]); the
    invariants are proved on it (file [LedgerInv]). *)

(** ** Balance rows *)

Abbreviation balances := (gmap (uuid * string) BalanceRow) (only parsing).

(** A sequence of column deltas applied to balance rows of one tenant; a
    missing row starts at zero. *)
Inductive bal_steps (accts : gmap uuid Account) (tenant : uuid)
  : balances -> list ((uuid * string) * Delta) -> balances -> Prop :=
| bs_nil m : bal_steps accts tenant m [] m
| bs_cons m k d l m' :
    (forall r, m !! k = Some r -> br_TenantID r = tenant) ->
    (exists a, accts !! k.1 = Some a /\ a_TenantID a = tenant) ->
    row_in_range (add_delta (default (zero_row tenant) (m !! k)) d) = true ->
    bal_steps accts tenant (<[k := add_delta (default (zero_row tenant) (m !! k)) d]> m) l m' ->
    bal_steps accts tenant m ((k, d) :: l) m'.

Definition pkey (p : Posting) : uuid * string := (p_AccountID p, Asset (p_Amount p)).

Definition posting_deltas (stmt : Posting -> Delta) (ps : list Posting)
  : list ((uuid * string) * Delta) := map (fun p => (pkey p, stmt p)) ps.

(** ** Recording a transaction *)

(** The legs are well formed: int64 amounts, the double-entry condition, and
    accounts of the same tenant and ledger. *)
Definition legs_ok (db : DB) (t : Transaction) : Prop :=
  postings_wf (t_Postings t) /\
  (2 <= length (t_Postings t))%nat /\ Forall posting_ok (t_Postings t) /\ balanced (t_Postings t) /\
  Forall (fun p => exists a, accounts db !! p_AccountID p = Some a /\
            a_TenantID a = t_TenantID t /\ a_LedgerID a = t_LedgerID t) (t_Postings t).

(** Ids and the idempotency key are new. *)
Definition tx_fresh (db : DB) (t : Transaction) : Prop :=
  transactions db !! t_ID t = None /\
  NoDup (map p_ID (t_Postings t)) /\
  Forall (fun p => forall r, r ∈ postings db -> pr_ID r <> p_ID p) (t_Postings t) /\
  idempotency_keys db !! (t_TenantID t, t_IdempotencyKey t) = None /\
  (forall id t', transactions db !! id = Some t' ->
     ~ (t_TenantID t' = t_TenantID t /\ t_IdempotencyKey t' = t_IdempotencyKey t)).

(** The tables after inserting [t] with its postings, new balances [m], the
    idempotency record and the outbox rows [evs]. *)
Definition record_tx (t : Transaction) (m : balances) (hash : list Z) (evs : list OutboxRow) (db : DB)
  : DB :=
  mkDB (ledgers db) (accounts db) (<[t_ID t := transaction_row t]> (transactions db))
    (postings db ++ map (posting_row t) (t_Postings t)) m (holds db)
    (<[(t_TenantID t, t_IdempotencyKey t) := mkIdemRow 201 (json_snapshot t) hash]>
       (idempotency_keys db))
    (outbox db ++ evs).

Definition event (tenant : uuid) (topic : string) (data : payload) (r : OutboxRow) : Prop :=
  exists id now, r = mkOutboxRow tenant topic
    (mkEnvelope id topic tenant now EnvelopeVersion data) None.

(** The event of a closed hold. *)
Definition close_event (h : Hold) (status : HoldStatus) (captured : option uuid) (topic : string)
  (data : payload) : Prop :=
  (status = HoldCaptured /\ topic = TopicHoldCaptured /\ exists amount rest now,
     data = PHoldCaptured (mkHoldCapturedEvent (h_ID h) (h_LedgerID h) (h_AccountID h) amount rest
              captured now)) \/
  (status = HoldReleased /\ topic = TopicHoldReleased /\ exists now,
     data = PHoldReleased (mkHoldReleasedEvent (h_ID h) (h_LedgerID h) (h_AccountID h)
              (NewEventMoney (h_Amount h)) "released" now)).

(** ** State changes *)

Inductive change (tenant : uuid) (db : DB) : DB -> Prop :=
| ch_ledger l :
    l_TenantID l = tenant -> ledgers db !! l_ID l = None ->
    change tenant db (set_ledgers (<[l_ID l := l]> (ledgers db)) db)
| ch_account a l :
    a_TenantID a = tenant -> accounts db !! a_ID a = None ->
    ledgers db !! a_LedgerID a = Some l -> l_TenantID l = tenant ->
    NormalBalance_Valid (a_NormalBalance a) = true ->
    change tenant db (set_accounts (<[a_ID a := a]> (accounts db)) db)
| ch_draft t l m hash :
    t_TenantID t = tenant -> t_Status t = TransactionDraft -> t_PostedAt t = None ->
    t_ReversedByID t = None -> t_ReversesID t = None ->
    ledgers db !! t_LedgerID t = Some l -> l_TenantID l = tenant ->
    legs_ok db t -> tx_fresh db t ->
    bal_steps (accounts db) tenant (account_balances db)
      (posting_deltas upsertPendingBalance (t_Postings t)) m ->
    length hash = 32%nat ->
    change tenant db (record_tx t m hash [] db)
| ch_posted t l m hash ev at_ :
    t_TenantID t = tenant -> t_Status t = TransactionPosted -> t_PostedAt t = Some at_ ->
    t_ReversedByID t = None -> t_ReversesID t = None ->
    ledgers db !! t_LedgerID t = Some l -> l_TenantID l = tenant ->
    legs_ok db t -> tx_fresh db t ->
    bal_steps (accounts db) tenant (account_balances db)
      (posting_deltas upsertPostedBalance (t_Postings t)) m ->
    length hash = 32%nat ->
    event tenant TopicTransactionPosted (PTransactionPosted (NewTransactionPostedEvent t at_)) ev ->
    change tenant db (record_tx t m hash [ev] db)
| ch_post id t m now ev :
    transactions db !! id = Some t -> t_TenantID t = tenant -> t_Status t = TransactionDraft ->
    bal_steps (accounts db) tenant (account_balances db)
      (posting_deltas movePendingToPosted (loadPostings tenant id db)) m ->
    event tenant TopicTransactionPosted
      (PTransactionPosted (NewTransactionPostedEvent
         (set_lifecycle (with_postings t (loadPostings tenant id db)) TransactionPosted (Some now)
            (t_ReversedByID t)) now)) ev ->
    change tenant db
      (set_outbox (outbox db ++ [ev]) (set_account_balances m
         (set_transactions (<[id := set_lifecycle t TransactionPosted (Some now) (t_ReversedByID t)]>
            (transactions db)) db)))
| ch_reverse id t rev m hash reason now ev :
    transactions db !! id = Some t -> t_TenantID t = tenant -> t_Status t = TransactionPosted ->
    t_ReversedByID t = None ->
    t_TenantID rev = tenant -> t_LedgerID rev = t_LedgerID t -> t_Status rev = TransactionPosted ->
    t_PostedAt rev = Some now -> t_ReversedByID rev = None -> t_ReversesID rev = Some id ->
    mirrors (loadPostings tenant id db) (t_Postings rev) ->
    tx_fresh db rev ->
    bal_steps (accounts db) tenant (account_balances db)
      (posting_deltas upsertPostedBalance (t_Postings rev)) m ->
    length hash = 32%nat ->
    event tenant TopicTransactionReversed
      (PTransactionReversed (mkTransactionReversedEvent id (t_ID rev) (t_LedgerID t) reason now)) ev ->
    change tenant db
      (let db1 := record_tx rev m hash [ev] db in
       set_transactions (<[id := set_lifecycle t TransactionReversed (t_PostedAt t) (Some (t_ID rev))]>
         (transactions db1)) db1)
| ch_hold h a m hash ev :
    h_TenantID h = tenant -> h_Status h = HoldActive -> holds db !! h_ID h = None ->
    accounts db !! h_AccountID h = Some a -> a_TenantID a = tenant -> h_LedgerID h = a_LedgerID a ->
    0 < Units (h_Amount h) <= max_int64 ->
    Units (h_Amount h) <= Available (available_balance tenant h db) (a_NormalBalance a) ->
    (forall id r, holds db !! id = Some r ->
       ~ (h_TenantID (hr_Hold r) = tenant /\ h_IdempotencyKey (hr_Hold r) = h_IdempotencyKey h)) ->
    bal_steps (accounts db) tenant (account_balances db)
      [((h_AccountID h, Asset (h_Amount h)), mkDelta 0 0 0 0 (Units (h_Amount h)))] m ->
    length hash = 32%nat ->
    event tenant TopicHoldCreated
      (PHoldCreated (mkHoldCreatedEvent (h_ID h) (h_LedgerID h) (h_AccountID h)
         (h_IdempotencyKey h) (NewEventMoney (h_Amount h)) (h_ExpiresAt h) (h_CreatedAt h))) ev ->
    change tenant db
      (set_outbox (outbox db ++ [ev]) (set_account_balances m
         (set_holds (<[h_ID h := hold_row h hash]> (holds db)) db)))
| ch_close_hold id r status captured m topic data ev :
    holds db !! id = Some r -> h_TenantID (hr_Hold r) = tenant -> h_Status (hr_Hold r) = HoldActive ->
    status = HoldCaptured \/ status = HoldReleased ->
    (forall tid, captured = Some tid -> exists t, transactions db !! tid = Some t /\ t_TenantID t = tenant) ->
    bal_steps (accounts db) tenant (account_balances db)
      [((h_AccountID (hr_Hold r), Asset (h_Amount (hr_Hold r))),
        mkDelta 0 0 0 0 (- Units (h_Amount (hr_Hold r))))] m ->
    close_event (hr_Hold r) status captured topic data ->
    event tenant topic data ev ->
    change tenant db
      (set_outbox (outbox db ++ [ev]) (set_account_balances m
         (set_holds (<[id := mkHoldRow (set_hold_status (hr_Hold r) status captured)
                              (hr_RequestHash r)]> (holds db)) db))).
