(* ===== verification/LedgerInv.v ===== *)
(** * Invariants of the ledger's tables

    Proved on the abstract state changes of [LedgerSpec]: nothing recorded is
    lost or altered, every reference resolves within its tenant, every
    transaction balances, and stored balances equal the sums recomputed from
    postings and active holds. *)

From Stdlib Require Import Ascii String ZArith Lia.
From S2P Require Import Prelude Strconv Errors Money LedgerDomain LedgerEvents LedgerDb Httpx.
From S2P Require Import LedgerStore LedgerSpec.
Local Open Scope Z_scope.

(** ** Monotonicity: the tables only grow *)

(** A transaction keeps every column but its lifecycle ones, which only move
    forward: draft to posted, posted to reversed. *)
Inductive tx_evolves (t : Transaction) : Transaction -> Prop :=
| te_same : tx_evolves t t
| te_post now :
    t_Status t = TransactionDraft ->
    tx_evolves t (set_lifecycle t TransactionPosted (Some now) (t_ReversedByID t))
| te_reverse rid :
    t_Status t = TransactionPosted -> t_ReversedByID t = None ->
    tx_evolves t (set_lifecycle t TransactionReversed (t_PostedAt t) (Some rid)).

Inductive hold_evolves (h : HoldRow) : HoldRow -> Prop :=
| he_same : hold_evolves h h
| he_close status captured :
    h_Status (hr_Hold h) = HoldActive -> status = HoldCaptured \/ status = HoldReleased ->
    hold_evolves h (mkHoldRow (set_hold_status (hr_Hold h) status captured) (hr_RequestHash h)).

Record grows (db db' : DB) : Prop := {
  gr_ledgers : ledgers db ⊆ ledgers db';
  gr_accounts : accounts db ⊆ accounts db';
  gr_transactions id t : transactions db !! id = Some t ->
    exists t', transactions db' !! id = Some t' /\ tx_evolves t t';
  gr_postings : exists new, postings db' = postings db ++ new;
  gr_holds id h : holds db !! id = Some h -> exists h', holds db' !! id = Some h' /\ hold_evolves h h';
  gr_keys : idempotency_keys db ⊆ idempotency_keys db';
  gr_outbox : exists new, outbox db' = outbox db ++ new
}.

Lemma grows_refl db : grows db db.
Proof.
  split; try reflexivity; eauto using te_same, he_same.
  all: exists []; by rewrite app_nil_r.
Qed.

Lemma change_grows tenant db db' : change tenant db db' -> grows db db'.
Proof.
  assert (Hnil : forall A (l : list A), exists new, l = l ++ new)
    by (intros; exists []; by rewrite app_nil_r).
  destruct 1 as [l Ht Hf|a l Ht Hf|t l m hash ??????? Hl Hfr|t l m hash ev at_ ??????? Hl Hfr
                |id t m now ev Hid|id t rev m hash reason now ev Hid ?????????? Hfr|h a m hash ev ?? Hf
                |id r status captured m topic data ev Hid].
  - split; cbn; eauto using te_same, he_same. by apply insert_subseteq.
  - split; cbn; eauto using te_same, he_same. by apply insert_subseteq.
  - destruct Hfr as (Hn & _ & _ & Hk & _). split; cbn; eauto using te_same, he_same.
    + intros id t' Hid. exists t'. rewrite lookup_insert_ne by congruence. eauto using te_same.
    + by apply insert_subseteq.
  - destruct Hfr as (Hn & _ & _ & Hk & _). split; cbn; eauto using te_same, he_same.
    + intros id t' Hid. exists t'. rewrite lookup_insert_ne by congruence. eauto using te_same.
    + by apply insert_subseteq.
  - split; cbn; eauto using te_same, he_same.
    intros id' t' Hid'. destruct (decide (id = id')) as [->|Hne].
    + rewrite lookup_insert_eq. eexists; split; [done|]. assert (t' = t) as -> by congruence.
      by constructor.
    + rewrite lookup_insert_ne by done. eauto using te_same.
  - destruct Hfr as (Hn & _ & _ & Hk & _). split; cbn; eauto using te_same, he_same.
    + intros id' t' Hid'. destruct (decide (id = id')) as [->|Hne].
      * rewrite lookup_insert_eq. eexists; split; [done|]. assert (t' = t) as -> by congruence.
        by constructor.
      * rewrite lookup_insert_ne by done. rewrite lookup_insert_ne by congruence.
        eauto using te_same.
    + by apply insert_subseteq.
  - split; cbn; eauto using te_same, he_same.
    intros id' h' Hid'. exists h'. rewrite lookup_insert_ne by congruence. eauto using he_same.
  - split; cbn; eauto using te_same, he_same.
    intros id' h' Hid'. destruct (decide (id = id')) as [->|Hne].
    + rewrite lookup_insert_eq. eexists; split; [done|]. assert (h' = r) as -> by congruence.
      by constructor.
    + rewrite lookup_insert_ne by done. eauto using he_same.
Qed.

(** ** Well-formed tables *)

Definition rows_of (db : DB) (id : uuid) : list PostingRow :=
  filter (fun r => pr_TransactionID r = id) (postings db).

(** The double-entry condition on posting rows. *)
Definition rows_balanced (rows : list PostingRow) : Prop :=
  forall asset, rows_side DirectionDebit asset rows = rows_side DirectionCredit asset rows.

Definition ledger_wf (id : uuid) (l : Ledger) : Prop := l_ID l = id.

Definition account_wf (db : DB) (id : uuid) (a : Account) : Prop :=
  a_ID a = id /\ NormalBalance_Valid (a_NormalBalance a) = true /\
  exists l, ledgers db !! a_LedgerID a = Some l /\ l_TenantID l = a_TenantID a.

(** Lifecycle columns agree with the status. *)
Definition lifecycle_wf (t : Transaction) : Prop :=
  match t_Status t with
  | TransactionDraft => t_PostedAt t = None /\ t_ReversedByID t = None /\ t_ReversesID t = None
  | TransactionPosted => t_PostedAt t <> None /\ t_ReversedByID t = None
  | TransactionReversed => t_PostedAt t <> None /\ t_ReversedByID t <> None
  | TransactionStatusOther _ => False
  end.

Definition transaction_wf (db : DB) (id : uuid) (t : Transaction) : Prop :=
  t_ID t = id /\ t_Postings t = [] /\ lifecycle_wf t /\
  (exists l, ledgers db !! t_LedgerID t = Some l /\ l_TenantID l = t_TenantID t) /\
  (2 <= length (rows_of db id))%nat /\ rows_balanced (rows_of db id).

Definition posting_wf (db : DB) (r : PostingRow) : Prop :=
  0 < pr_Amount r <= max_int64 /\ Direction_Valid (pr_Direction r) = true /\
  (exists t, transactions db !! pr_TransactionID r = Some t /\ t_TenantID t = pr_TenantID r /\
     pr_CreatedAt r = t_CreatedAt t /\
     exists a, accounts db !! pr_AccountID r = Some a /\ a_TenantID a = pr_TenantID r /\
       a_LedgerID a = t_LedgerID t).

Definition hold_wf (db : DB) (id : uuid) (h : HoldRow) : Prop :=
  h_ID (hr_Hold h) = id /\ 0 < Units (h_Amount (hr_Hold h)) <= max_int64 /\
  exists a, accounts db !! h_AccountID (hr_Hold h) = Some a /\
    a_TenantID a = h_TenantID (hr_Hold h) /\ a_LedgerID a = h_LedgerID (hr_Hold h).

Definition balance_wf (db : DB) (k : uuid * string) (r : BalanceRow) : Prop :=
  row_in_range r = true /\ exists a, accounts db !! k.1 = Some a /\ a_TenantID a = br_TenantID r.

Record wf (db : DB) : Prop := {
  wf_ledgers id l : ledgers db !! id = Some l -> ledger_wf id l;
  wf_accounts id a : accounts db !! id = Some a -> account_wf db id a;
  wf_transactions id t : transactions db !! id = Some t -> transaction_wf db id t;
  wf_postings r : r ∈ postings db -> posting_wf db r;
  wf_posting_ids : NoDup (map pr_ID (postings db));
  wf_holds id h : holds db !! id = Some h -> hold_wf db id h;
  wf_balances k r : account_balances db !! k = Some r -> balance_wf db k r
}.

Lemma wf_empty : wf empty_db.
Proof.
  split; cbn; try (intros ? ?; rewrite lookup_empty; done); [set_solver|constructor].
Qed.

(** *** What survives growth *)

Lemma tx_evolves_eqs t t' :
  tx_evolves t t' ->
  t_ID t' = t_ID t /\ t_TenantID t' = t_TenantID t /\ t_LedgerID t' = t_LedgerID t /\
  t_IdempotencyKey t' = t_IdempotencyKey t /\ t_EffectiveAt t' = t_EffectiveAt t /\
  t_ReversesID t' = t_ReversesID t /\ t_Postings t' = t_Postings t /\
  t_CreatedAt t' = t_CreatedAt t /\ t_Reference t' = t_Reference t /\
  t_Description t' = t_Description t /\ t_Metadata t' = t_Metadata t.
Proof. by destruct 1. Qed.

Lemma account_wf_grows db db' id a : grows db db' -> account_wf db id a -> account_wf db' id a.
Proof.
  intros G (? & ? & l & Hl & ?). split_and!; [done|done|]. exists l. split; [|done].
  by apply (lookup_weaken _ _ _ _ Hl), gr_ledgers.
Qed.

Lemma posting_wf_grows db db' r : grows db db' -> posting_wf db r -> posting_wf db' r.
Proof.
  intros G (? & ? & t & Ht & ? & ? & a & Ha & ? & ?). split_and!; [lia|lia|done|].
  destruct (gr_transactions _ _ G _ _ Ht) as (t' & Ht' & E).
  pose proof (tx_evolves_eqs _ _ E). exists t'. split_and!; [done|naive_solver congruence..|].
  exists a. split_and!; [|done|naive_solver congruence].
  by apply (lookup_weaken _ _ _ _ Ha), gr_accounts.
Qed.

Lemma hold_wf_grows db db' id h h' :
  grows db db' -> hold_wf db id h -> hold_evolves h h' -> hold_wf db' id h'.
Proof.
  intros G (? & ? & a & Ha & ? & ?) E.
  assert (Ha' : accounts db' !! h_AccountID (hr_Hold h) = Some a)
    by by apply (lookup_weaken _ _ _ _ Ha), gr_accounts.
  destruct E; unfold hold_wf; cbn; eauto 10.
Qed.

Lemma lifecycle_evolves t t' : lifecycle_wf t -> tx_evolves t t' -> lifecycle_wf t'.
Proof.
  intros H [|now Hs|rid Hs Hr]; [done| |]; unfold lifecycle_wf in *; rewrite Hs in H; cbn; naive_solver.
Qed.

(** A transaction whose rows are untouched stays well formed. *)
Lemma transaction_wf_grows db db' id t t' :
  grows db db' -> rows_of db' id = rows_of db id ->
  transaction_wf db id t -> tx_evolves t t' -> transaction_wf db' id t'.
Proof.
  intros G Hrows (Hid & Hp & Hlc & (l & Hl & ?) & Hlen & Hbal) E.
  pose proof (tx_evolves_eqs _ _ E) as (Eid & Eten & Eled & _ & _ & _ & Epo & _).
  split_and!; [congruence|congruence|by eapply lifecycle_evolves| |congruence|congruence].
  exists l. rewrite Eled, Eten. split; [|done]. by apply (lookup_weaken _ _ _ _ Hl), gr_ledgers.
Qed.

(** *** Balance rows *)

Lemma bal_steps_wf accts tenant m l m' :
  bal_steps accts tenant m l m' ->
  forall k r, m' !! k = Some r ->
    m !! k = Some r \/
    (br_TenantID r = tenant /\ row_in_range r = true /\
     exists a, accts !! k.1 = Some a /\ a_TenantID a = tenant).
Proof.
  induction 1 as [m|m k d l m' Ht Ha Hr _ IH]; [by left|]. intros k' r Hk'.
  destruct (IH k' r Hk') as [Hin|?]; [|by right].
  destruct (decide (k = k')) as [->|Hne]; [|rewrite lookup_insert_ne in Hin by done; by left].
  rewrite lookup_insert_eq in Hin. injection Hin as <-. right. split_and!; [|done|done].
  cbn. destruct (m !! k') as [r0|] eqn:E; cbn; [by apply Ht|done].
Qed.

Lemma balances_wf_steps db db' tenant l :
  grows db db' ->
  bal_steps (accounts db) tenant (account_balances db) l (account_balances db') ->
  (forall k r, account_balances db !! k = Some r -> balance_wf db k r) ->
  forall k r, account_balances db' !! k = Some r -> balance_wf db' k r.
Proof.
  intros G Hs Hwf k r Hk. destruct (bal_steps_wf _ _ _ _ _ Hs k r Hk) as [Hin|(Ht & Hr & a & Ha & ?)].
  - destruct (Hwf _ _ Hin) as (? & a & Ha & ?). split; [done|]. exists a. split; [|done].
    by apply (lookup_weaken _ _ _ _ Ha), gr_accounts.
  - split; [done|]. exists a. split; [|congruence]. by apply (lookup_weaken _ _ _ _ Ha), gr_accounts.
Qed.

(** *** Every state change keeps the tables well formed *)

Lemma wf_step db db' tenant steps :
  wf db -> grows db db' ->
  (forall id l, ledgers db' !! id = Some l -> ledgers db !! id = Some l \/ ledger_wf id l) ->
  (forall id a, accounts db' !! id = Some a -> accounts db !! id = Some a \/ account_wf db' id a) ->
  (forall id t, transactions db' !! id = Some t ->
     (is_Some (transactions db !! id) /\ rows_of db' id = rows_of db id) \/ transaction_wf db' id t) ->
  (forall r, r ∈ postings db' -> r ∈ postings db \/ posting_wf db' r) ->
  NoDup (map pr_ID (postings db')) ->
  (forall id h, holds db' !! id = Some h -> is_Some (holds db !! id) \/ hold_wf db' id h) ->
  bal_steps (accounts db) tenant (account_balances db) steps (account_balances db') ->
  wf db'.
Proof.
  intros W G HL HA HT HP HN HH HB. split.
  - intros id l H. destruct (HL _ _ H); [by eapply wf_ledgers|done].
  - intros id a H. destruct (HA _ _ H); [by eapply account_wf_grows, wf_accounts|done].
  - intros id t H. destruct (HT _ _ H) as [[[t0 H0] Hr]|]; [|done].
    destruct (gr_transactions _ _ G _ _ H0) as (t' & Ht' & E). assert (t' = t) as -> by congruence.
    eapply transaction_wf_grows; [done|done|by eapply wf_transactions|done].
  - intros r H. destruct (HP _ H); [by eapply posting_wf_grows, wf_postings|done].
  - done.
  - intros id h H. destruct (HH _ _ H) as [[h0 H0]|]; [|done].
    destruct (gr_holds _ _ G _ _ H0) as (h' & Hh' & E). assert (h' = h) as -> by congruence.
    eapply hold_wf_grows; [done|by eapply wf_holds|done].
  - eapply balances_wf_steps; [done|done|by apply wf_balances].
Qed.

(** The legs of a new transaction. *)
Definition leg_wf (db : DB) (t : Transaction) (p : Posting) : Prop :=
  0 < Units (p_Amount p) <= max_int64 /\ Direction_Valid (p_Direction p) = true /\
  exists a, accounts db !! p_AccountID p = Some a /\ a_TenantID a = t_TenantID t /\
    a_LedgerID a = t_LedgerID t.

Definition legs_wf (db : DB) (t : Transaction) : Prop :=
  (2 <= length (t_Postings t))%nat /\ balanced (t_Postings t) /\ Forall (leg_wf db t) (t_Postings t).

Lemma legs_ok_wf db t : legs_ok db t -> legs_wf db t.
Proof.
  intros (Hw & Hlen & Hok & Hbal & Hacc). split_and!; [done|done|].
  unfold postings_wf in Hw. rewrite Forall_forall in *. intros p Hp.
  specialize (Hw p Hp). apply in_int64_spec in Hw.
  destruct (Hok p Hp) as (_ & ? & ?). split_and!; [lia|lia|done|]. by apply Hacc.
Qed.

Lemma rows_side_postings d asset t ps :
  rows_side d asset (map (posting_row t) ps) = side_sum d asset ps.
Proof. unfold rows_side, side_sum. by rewrite sumZ_map. Qed.

Lemma rows_of_nil db id : wf db -> transactions db !! id = None -> rows_of db id = [].
Proof.
  intros W Hn. apply list_filter_none. intros r Hr E.
  destruct (wf_postings _ W r Hr) as (_ & _ & t & Ht & _). congruence.
Qed.

Lemma filter_rows_new t id ps :
  filter (fun r => pr_TransactionID r = id) (map (posting_row t) ps)
  = if decide (t_ID t = id) then map (posting_row t) ps else [].
Proof.
  case_decide as E.
  - apply list_filter_id. intros r (p & <- & _)%list_elem_of_In%in_map_iff. done.
  - apply list_filter_none. intros r (p & <- & _)%list_elem_of_In%in_map_iff. done.
Qed.

Lemma rows_of_record db db' t id :
  wf db -> transactions db !! t_ID t = None ->
  postings db' = postings db ++ map (posting_row t) (t_Postings t) ->
  rows_of db' id = if decide (t_ID t = id) then map (posting_row t) (t_Postings t) else rows_of db id.
Proof.
  intros W Hn Hp. unfold rows_of. rewrite Hp, filter_app, filter_rows_new.
  case_decide as E; [|by rewrite app_nil_r].
  subst. change (filter _ (postings db)) with (rows_of db (t_ID t)). by rewrite rows_of_nil.
Qed.

Lemma posting_ids_record db t :
  wf db -> tx_fresh db t ->
  NoDup (map pr_ID (postings db ++ map (posting_row t) (t_Postings t))).
Proof.
  intros W (_ & Hnd & Hf & _). rewrite map_app, map_map. cbn. apply NoDup_app.
  split_and!; [by apply wf_posting_ids| |done].
  intros id (r & <- & Hr)%list_elem_of_In%in_map_iff Hin.
  apply list_elem_of_In, in_map_iff in Hin as (p & Hp & Hin).
  rewrite Forall_forall in Hf. apply list_elem_of_In in Hin, Hr. by apply (Hf p Hin r Hr).
Qed.

(** Recording a transaction, possibly while another one evolves. *)
Lemma wf_record db db' t tenant steps :
  wf db -> grows db db' -> legs_wf db t -> tx_fresh db t ->
  t_Status t = TransactionPosted /\ t_PostedAt t <> None \/
    t_Status t = TransactionDraft /\ t_PostedAt t = None /\ t_ReversesID t = None ->
  t_ReversedByID t = None ->
  (exists l, ledgers db !! t_LedgerID t = Some l /\ l_TenantID l = t_TenantID t) ->
  ledgers db' = ledgers db -> accounts db' = accounts db -> holds db' = holds db ->
  postings db' = postings db ++ map (posting_row t) (t_Postings t) ->
  transactions db' !! t_ID t = Some (transaction_row t) ->
  (forall id, id <> t_ID t -> is_Some (transactions db' !! id) -> is_Some (transactions db !! id)) ->
  bal_steps (accounts db) tenant (account_balances db) steps (account_balances db') ->
  wf db'.
Proof.
  intros W G (Hlen & Hbal & Hlegs) Hf Hs Hrb Hl EL EA EH EP ET HT HB.
  pose proof (fun id => rows_of_record db db' t id W (proj1 Hf) EP) as Hrows.
  eapply wf_step; [done|done| | | | | | |done].
  - intros id l H. left. congruence.
  - intros id a H. left. congruence.
  - intros id t' H. specialize (Hrows id). destruct (decide (t_ID t = id)) as [<-|Hne].
    + right. assert (t' = transaction_row t) as -> by congruence. clear H. unfold transaction_wf.
      rewrite Hrows, length_map, EL. cbn. split_and!; [done|done| |done|done|].
      * unfold lifecycle_wf. cbn. by destruct Hs as [[-> ?]|(-> & ? & ?)].
      * intros asset. rewrite !rows_side_postings. apply Hbal.
    + left. split; [|done]. apply HT; [done|by eexists].
  - intros r Hr. rewrite EP in Hr. apply elem_of_app in Hr as [Hr|Hr]; [by left|]. right.
    apply list_elem_of_In, in_map_iff in Hr as (p & <- & Hp).
    rewrite Forall_forall in Hlegs. apply list_elem_of_In, Hlegs in Hp as (? & ? & a & Ha & ? & ?).
    unfold posting_wf. cbn. split_and!; [lia|lia|done|]. exists (transaction_row t). cbn.
    split_and!; [done..|]. exists a. rewrite EA. done.
  - rewrite EP. by apply posting_ids_record.
  - intros id h H. left. rewrite EH in H. by eexists.
Qed.

(** *** Loaded postings *)

Lemma loadPostings_perm db tenant id t :
  wf db -> transactions db !! id = Some t -> t_TenantID t = tenant ->
  Permutation (loadPostings tenant id db) (map posting_of_row (rows_of db id)).
Proof.
  intros W Ht <-. unfold loadPostings. apply Permutation_map. rewrite order_rows_perm.
  rewrite list_filter_and; [done|]. intros r Hr E.
  destruct (wf_postings _ W r Hr) as (_ & _ & t' & Ht' & ? & _). congruence.
Qed.

Lemma side_sum_rows d asset rows :
  side_sum d asset (map posting_of_row rows) = rows_side d asset rows.
Proof. unfold side_sum, rows_side. by rewrite sumZ_map. Qed.

(** The postings of a recorded transaction satisfy the leg conditions. *)
Lemma loaded_legs db tenant id t :
  wf db -> transactions db !! id = Some t -> t_TenantID t = tenant ->
  (2 <= length (loadPostings tenant id db))%nat /\ balanced (loadPostings tenant id db) /\
  Forall (leg_wf db t) (loadPostings tenant id db).
Proof.
  intros W Ht Hten. pose proof (loadPostings_perm db tenant id t W Ht Hten) as Hp.
  destruct (wf_transactions _ W _ _ Ht) as (Hid & _ & _ & _ & Hlen & Hbal). split_and!.
  - by rewrite Hp, length_map.
  - intros asset. rewrite Hp, !side_sum_rows. apply Hbal.
  - rewrite Hp. apply Forall_forall. intros p (r & <- & Hr)%list_elem_of_In%in_map_iff.
    apply list_elem_of_In, list_elem_of_filter in Hr as [E Hr].
    destruct (wf_postings _ W r Hr) as (? & ? & t' & Ht' & ? & ? & a & ? & ? & ?).
    assert (t' = t) as -> by congruence. unfold leg_wf. cbn.
    split_and!; [lia|lia|done|]. exists a. split_and!; congruence.
Qed.

Lemma reversal_legs db tenant id t rev :
  wf db -> transactions db !! id = Some t -> t_TenantID t = tenant ->
  t_TenantID rev = tenant -> t_LedgerID rev = t_LedgerID t ->
  mirrors (loadPostings tenant id db) (t_Postings rev) ->
  legs_wf db rev.
Proof.
  intros W Ht Hten Hrt Hrl Hm. destruct (loaded_legs _ _ _ _ W Ht Hten) as (Hlen & Hbal & Hlegs).
  assert (Hv : Forall (fun p => Direction_Valid (p_Direction p) = true) (loadPostings tenant id db)).
  { eapply Forall_impl; [exact Hlegs|]. by intros p (_ & ? & _). }
  split_and!; [|by eapply mirrors_balanced|].
  - apply (f_equal length) in Hm. rewrite !length_map in Hm. lia.
  - apply mirrors_Forall2 in Hm. clear Hlen Hbal.
    induction Hm as [|p q ps qs (Ha & Hd & Ham) _ IH]; [constructor|].
    apply Forall_cons in Hlegs as [(? & ? & a & ? & ? & ?) Hlegs], Hv as [Hp Hv].
    constructor; [|by apply IH]. unfold leg_wf. rewrite Ha, Hd, Ham, Hrt, Hrl.
    split_and!; [lia|lia|by destruct (p_Direction p)|]. exists a. split_and!; congruence.
Qed.

Lemma set_lifecycle_eqs t s pa rb :
  t_ID (set_lifecycle t s pa rb) = t_ID t /\ t_TenantID (set_lifecycle t s pa rb) = t_TenantID t.
Proof. done. Qed.

Lemma wf_change tenant db db' : change tenant db db' -> wf db -> wf db'.
Proof.
  intros C W. pose proof (change_grows _ _ _ C) as G.
  destruct C as [l Ht Hf|a l Ht Hf Hl Hlt Hnb|t l m hash Ht Hs Hpa Hrb Hrv Hl Hlt Hlegs Hfr HB
                |t l m hash ev at_ Ht Hs Hpa Hrb Hrv Hl Hlt Hlegs Hfr HB
                |id t m now ev Hid Ht Hs HB
                |id t rev m hash reason now ev Hid Ht Hs Hrb Hrt Hrl Hrs Hrp Hrr Hri Hm Hfr HB
                |h a m hash ev Ht Hs Hf Ha Hat Hal Hu Hav Hk HB
                |id r status captured m topic data ev Hid Ht Hs Hst Hc HB].
  - eapply (wf_step db _ tenant []); cbn; eauto using wf_posting_ids; [|constructor].
    intros id l'. rewrite lookup_insert_Some. intros [[<- <-]|[_ ?]]; [by right|by left].
  - eapply (wf_step db _ tenant []); cbn; eauto using wf_posting_ids; [|constructor].
    intros id a'. rewrite lookup_insert_Some. intros [[<- <-]|[_ ?]]; [right|by left].
    split_and!; [done|done|]. exists l. split; [done|congruence].
  - eapply (wf_record db _ t); eauto using legs_ok_wf; cbn; eauto.
    + exists l. split; [done|congruence].
    + by rewrite lookup_insert_eq.
    + intros id Hne [x Hx]. rewrite lookup_insert_ne in Hx by done. by eexists.
  - eapply (wf_record db _ t); eauto using legs_ok_wf; cbn; eauto.
    + left. split; [done|congruence].
    + exists l. split; [done|congruence].
    + by rewrite lookup_insert_eq.
    + intros id Hne [x Hx]. rewrite lookup_insert_ne in Hx by done. by eexists.
  - eapply (wf_step db); cbn; eauto using wf_posting_ids.
    intros id' t'. rewrite lookup_insert_Some. intros [[<- _]|[_ ?]]; left; by eauto.
  - assert (Hne : t_ID rev <> id) by (intros E; destruct Hfr; congruence).
    eapply (wf_record db _ rev); eauto using reversal_legs; cbn; eauto.
    + left. split; [done|congruence].
    + destruct (wf_transactions _ W _ _ Hid) as (_ & _ & _ & (l & ? & ?) & _).
      exists l. split; congruence.
    + rewrite lookup_insert_ne by done. by rewrite lookup_insert_eq.
    + intros id' Hne' [x Hx]. destruct (decide (id = id')) as [<-|]; [by eauto|].
      rewrite !lookup_insert_ne in Hx by done. by eexists.
  - eapply (wf_step db); cbn; eauto using wf_posting_ids.
    intros id' h'. rewrite lookup_insert_Some. intros [[<- <-]|[_ ?]]; [right|by eauto].
    split_and!; cbn; [done|lia|lia|]. exists a. split_and!; congruence.
  - eapply (wf_step db); cbn; eauto using wf_posting_ids.
    intros id' h'. rewrite lookup_insert_Some. intros [[<- _]|[_ ?]]; left; by eauto.
Qed.
