(* ===== verification/LedgerBalance.v ===== *)
(** * Stored balances equal recomputed ones

    The running columns of [account_balances] against the sums over postings
    and active holds they stand for. *)

From Stdlib Require Import Ascii String ZArith Lia.
From S2P Require Import Prelude Strconv Errors Money LedgerDomain LedgerEvents LedgerDb Httpx.
From S2P Require Import LedgerStore LedgerSpec LedgerInv.
Local Open Scope Z_scope.

(** ** Columns *)

Inductive column : Type := PostedDebits | PostedCredits | PendingDebits | PendingCredits | Held.

#[export] Instance column_eq_dec : EqDecision column.
Proof. solve_decision. Defined.

Definition col (c : column) (r : BalanceRow) : Z :=
  match c with
  | PostedDebits => br_PostedDebits r | PostedCredits => br_PostedCredits r
  | PendingDebits => br_PendingDebits r | PendingCredits => br_PendingCredits r
  | Held => br_Held r
  end.

Definition dcol (c : column) (d : Delta) : Z :=
  match c with
  | PostedDebits => d_posted_debits d | PostedCredits => d_posted_credits d
  | PendingDebits => d_pending_debits d | PendingCredits => d_pending_credits d
  | Held => d_held d
  end.

(** A stored column, zero when the row is missing. *)
Definition stored (c : column) (m : balances) (k : uuid * string) : Z :=
  match m !! k with Some r => col c r | None => 0 end.

Lemma col_add_delta c r d : col c (add_delta r d) = col c r + dcol c d.
Proof. by destruct c. Qed.

Lemma bal_steps_stored accts tenant m l m' c k :
  bal_steps accts tenant m l m' ->
  stored c m' k = stored c m k + sumZ (fun kd => if decide (kd.1 = k) then dcol c kd.2 else 0) l.
Proof.
  induction 1 as [m|m k' d l m' _ _ _ _ IH]; cbn; [lia|]. rewrite IH. unfold stored.
  case_decide as E.
  - subst k'. rewrite lookup_insert_eq, col_add_delta. destruct (m !! k); cbn; [lia|].
    destruct c; cbn; lia.
  - rewrite lookup_insert_ne by done. lia.
Qed.

(** ** Recomputed columns *)

(** Does a posting of a transaction in status [s] count in column [c]? *)
Definition counts (c : column) (s : TransactionStatus) (d : Direction) : bool :=
  match c with
  | PostedDebits => is_firm s && bool_decide (d = DirectionDebit)
  | PostedCredits => is_firm s && bool_decide (d = DirectionCredit)
  | PendingDebits => bool_decide (s = TransactionDraft) && bool_decide (d = DirectionDebit)
  | PendingCredits => bool_decide (s = TransactionDraft) && bool_decide (d = DirectionCredit)
  | Held => false
  end.

Definition contrib (c : column) (k : uuid * string) (s : TransactionStatus) (p : Posting) : Z :=
  if decide (pkey p = k) then (if counts c s (p_Direction p) then Units (p_Amount p) else 0) else 0.

Definition status_of (db : DB) (id : uuid) : TransactionStatus :=
  match transactions db !! id with Some t => t_Status t | None => TransactionStatusOther "" end.

Definition posted_sum (db : DB) (c : column) (k : uuid * string) : Z :=
  sumZ (fun r => contrib c k (status_of db (pr_TransactionID r)) (posting_of_row r)) (postings db).

Definition hold_contrib (k : uuid * string) (r : HoldRow) : Z :=
  if decide (h_Status (hr_Hold r) = HoldActive /\
             (h_AccountID (hr_Hold r), Asset (h_Amount (hr_Hold r))) = k)
  then Units (h_Amount (hr_Hold r)) else 0.

Definition held_sum (db : DB) (k : uuid * string) : Z :=
  sumZ (fun kr => hold_contrib k kr.2) (map_to_list (holds db)).

Definition computed (db : DB) (c : column) (k : uuid * string) : Z :=
  match c with Held => held_sum db k | _ => posted_sum db c k end.

Definition consistent (db : DB) : Prop :=
  forall c k, stored c (account_balances db) k = computed db c k.

Lemma posted_sum_held db k : posted_sum db Held k = 0.
Proof. apply sumZ_zero. intros r _. unfold contrib. cbn. by case_decide. Qed.

(** ** How the recomputed sums change *)

Lemma status_of_evolves db t id :
  status_of (set_transactions (<[id := t]> (transactions db)) db) id = t_Status t.
Proof. unfold status_of. cbn. by rewrite lookup_insert_eq. Qed.

(** New rows belong to the new transaction; the statuses that old rows count
    under are unchanged. *)
Lemma posted_sum_record db db' t c k :
  wf db -> postings db' = postings db ++ map (posting_row t) (t_Postings t) ->
  status_of db' (t_ID t) = t_Status t ->
  (forall id d, is_Some (transactions db !! id) ->
     counts c (status_of db' id) d = counts c (status_of db id) d) ->
  posted_sum db' c k = posted_sum db c k + sumZ (contrib c k (t_Status t)) (t_Postings t).
Proof.
  intros W EP ES Hold. unfold posted_sum. rewrite EP, sumZ_app, sumZ_map. f_equal.
  - apply sumZ_ext. intros r Hr. destruct (wf_postings _ W r Hr) as (_ & _ & t0 & Ht0 & _).
    unfold contrib. cbn. rewrite Hold by eauto. done.
  - apply sumZ_ext. intros p _. cbn. rewrite ES. unfold contrib, pkey, posting_of_row. cbn.
    by destruct (p_Amount p).
Qed.

(** One transaction changes status; its rows move between columns. *)
Lemma posted_sum_status db db' id c k s s' :
  postings db' = postings db -> status_of db id = s -> status_of db' id = s' ->
  (forall id', id' <> id -> status_of db' id' = status_of db id') ->
  posted_sum db' c k = posted_sum db c k
    + sumZ (fun p => contrib c k s' p - contrib c k s p) (map posting_of_row (rows_of db id)).
Proof.
  intros EP Es Es' Hne. unfold posted_sum, rows_of. rewrite EP, sumZ_map, sumZ_filter, <- sumZ_add.
  apply sumZ_ext. intros r _. case_decide as E; [rewrite E, Es, Es'; lia|].
  rewrite Hne by done. lia.
Qed.

(** The deltas a statement applies are the contributions of the postings. *)
Lemma deltas_sum c k stmt (f : Posting -> Z) ps :
  (forall p, p ∈ ps -> (if decide (pkey p = k) then dcol c (stmt p) else 0) = f p) ->
  sumZ (fun kd => if decide (kd.1 = k) then dcol c kd.2 else 0) (posting_deltas stmt ps) = sumZ f ps.
Proof. intros H. unfold posting_deltas. rewrite sumZ_map. apply sumZ_ext. apply H. Qed.

Lemma posted_delta c k p :
  Direction_Valid (p_Direction p) = true ->
  (if decide (pkey p = k) then dcol c (upsertPostedBalance p) else 0)
  = contrib c k TransactionPosted p.
Proof.
  intros Hd. unfold contrib, upsertPostedBalance, debitCredit. case_decide; [|done].
  destruct (p_Direction p); [..|done]; by destruct c.
Qed.

Lemma pending_delta c k p :
  Direction_Valid (p_Direction p) = true ->
  (if decide (pkey p = k) then dcol c (upsertPendingBalance p) else 0)
  = contrib c k TransactionDraft p.
Proof.
  intros Hd. unfold contrib, upsertPendingBalance, debitCredit. case_decide; [|done].
  destruct (p_Direction p); [..|done]; by destruct c.
Qed.

Lemma moved_delta c k p :
  Direction_Valid (p_Direction p) = true ->
  (if decide (pkey p = k) then dcol c (movePendingToPosted p) else 0)
  = contrib c k TransactionPosted p - contrib c k TransactionDraft p.
Proof.
  intros Hd. unfold contrib, movePendingToPosted, debitCredit. case_decide; [|done].
  destruct (p_Direction p); [..|done]; case_decide; try done; destruct c; cbn;
    unfold bool_decide; repeat case_decide; done || lia.
Qed.

Lemma legs_valid db t p : legs_wf db t -> p ∈ t_Postings t -> Direction_Valid (p_Direction p) = true.
Proof. intros (_ & _ & H) Hp. rewrite Forall_forall in H. by destruct (H p Hp) as (_ & ? & _). Qed.

(** ** Holds *)

Lemma held_sum_insert db db' id r k :
  holds db' = <[id := r]> (holds db) ->
  held_sum db' k = held_sum db k + hold_contrib k r
                   - match holds db !! id with Some r0 => hold_contrib k r0 | None => 0 end.
Proof.
  intros E. unfold held_sum. rewrite E, <- insert_delete_eq.
  set (f := fun kr : uuid * HoldRow => hold_contrib k kr.2).
  assert (Hi : forall v, sumZ f (map_to_list (<[id := v]> (delete id (holds db))))
                         = hold_contrib k v + sumZ f (map_to_list (delete id (holds db)))).
  { intros v. by rewrite map_to_list_insert by apply lookup_delete_eq. }
  rewrite Hi. destruct (holds db !! id) as [r0|] eqn:H0.
  - specialize (Hi r0). rewrite insert_delete_id in Hi by done. lia.
  - rewrite delete_id by done. lia.
Qed.

(** ** Every state change keeps stored and recomputed columns equal *)

Definition held_col (db : DB) (c : column) (k : uuid * string) : Z :=
  match c with Held => held_sum db k | _ => 0 end.

Lemma computed_split db c k : computed db c k = posted_sum db c k + held_col db c k.
Proof. destruct c; unfold computed, held_col; rewrite ?posted_sum_held; lia. Qed.

Lemma consistent_step db db' tenant steps :
  consistent db ->
  bal_steps (accounts db) tenant (account_balances db) steps (account_balances db') ->
  (forall c k, posted_sum db' c k + held_col db' c k = posted_sum db c k + held_col db c k +
     sumZ (fun kd => if decide (kd.1 = k) then dcol c kd.2 else 0) steps) ->
  consistent db'.
Proof.
  intros C HB Hsum c k. rewrite (bal_steps_stored _ _ _ _ _ c k HB), C, !computed_split, Hsum. lia.
Qed.

Lemma held_col_eq db db' c k : holds db' = holds db -> held_col db' c k = held_col db c k.
Proof. intros E. destruct c; cbn; [done..|]. unfold held_sum. by rewrite E. Qed.

Lemma posted_sum_eq db db' c k :
  postings db' = postings db -> transactions db' = transactions db ->
  posted_sum db' c k = posted_sum db c k.
Proof. intros EP ET. unfold posted_sum, status_of. by rewrite EP, ET. Qed.

Lemma consistent_record db db' t tenant s stmt :
  wf db -> consistent db -> legs_wf db t -> t_Status t = s ->
  postings db' = postings db ++ map (posting_row t) (t_Postings t) ->
  transactions db' !! t_ID t = Some (transaction_row t) ->
  (forall c id d, is_Some (transactions db !! id) ->
     counts c (status_of db' id) d = counts c (status_of db id) d) ->
  holds db' = holds db ->
  (forall c k p, Direction_Valid (p_Direction p) = true ->
     (if decide (pkey p = k) then dcol c (stmt p) else 0) = contrib c k s p) ->
  bal_steps (accounts db) tenant (account_balances db) (posting_deltas stmt (t_Postings t))
    (account_balances db') ->
  consistent db'.
Proof.
  intros W C Hl <- EP ET Hc EH Hd HB. eapply consistent_step; [done|done|]. intros c k.
  rewrite (deltas_sum c k stmt (contrib c k (t_Status t)))
    by (intros p Hp; apply Hd; by eapply legs_valid).
  rewrite (posted_sum_record db db' t) by (done || (by apply Hc) || by (unfold status_of; rewrite ET)).
  rewrite (held_col_eq db db') by done. lia.
Qed.

Lemma consistent_hold db db' tenant id r steps :
  consistent db -> holds db' = <[id := r]> (holds db) ->
  postings db' = postings db -> transactions db' = transactions db ->
  bal_steps (accounts db) tenant (account_balances db) steps (account_balances db') ->
  (forall c k, sumZ (fun kd => if decide (kd.1 = k) then dcol c kd.2 else 0) steps
     = match c with
       | Held => hold_contrib k r
                 - match holds db !! id with Some r0 => hold_contrib k r0 | None => 0 end
       | _ => 0 end) ->
  consistent db'.
Proof.
  intros C EH EP ET HB Hs. eapply consistent_step; [done|done|]. intros c k.
  rewrite (posted_sum_eq db db') by done. rewrite Hs.
  destruct c; cbn [held_col]; [lia..|]. rewrite (held_sum_insert db db' id r) by done. lia.
Qed.

Lemma consistent_change tenant db db' :
  change tenant db db' -> wf db -> consistent db -> consistent db'.
Proof.
  intros Ch W C.
  destruct Ch as [l Ht Hf|a l Ht Hf Hl Hlt Hnb|t l m hash Ht Hs Hpa Hrb Hrv Hl Hlt Hlegs Hfr HB
                |t l m hash ev at_ Ht Hs Hpa Hrb Hrv Hl Hlt Hlegs Hfr HB
                |id t m now ev Hid Ht Hs HB
                |id t rev m hash reason now ev Hid Ht Hs Hrb Hrt Hrl Hrs Hrp Hrr Hri Hm Hfr HB
                |h a m hash ev Ht Hs Hf Ha Hat Hal Hu Hav Hk HB
                |id r status captured m topic data ev Hid Ht Hs Hst Hc HB].
  - exact C.
  - exact C.
  - eapply (consistent_record db _ t); eauto using legs_ok_wf, pending_delta; cbn.
    + by rewrite lookup_insert_eq.
    + intros c id d [t0 Ht0]. unfold status_of. cbn. destruct Hfr. by rewrite lookup_insert_ne by congruence.
  - eapply (consistent_record db _ t); eauto using legs_ok_wf, posted_delta; cbn.
    + by rewrite lookup_insert_eq.
    + intros c id d [t0 Ht0]. unfold status_of. cbn. destruct Hfr. by rewrite lookup_insert_ne by congruence.
  - eapply consistent_step; [done|exact HB|]. intros c k. rewrite (held_col_eq db) by done.
    rewrite (posted_sum_status db _ id c k TransactionDraft TransactionPosted).
    + destruct (loaded_legs _ _ _ _ W Hid Ht) as (_ & _ & Hlegs). rewrite Forall_forall in Hlegs.
      rewrite (deltas_sum c k movePendingToPosted
        (fun p => contrib c k TransactionPosted p - contrib c k TransactionDraft p))
        by (intros p Hp; apply moved_delta; by destruct (Hlegs p Hp) as (_ & ? & _)).
      rewrite (loadPostings_perm _ _ _ _ W Hid Ht). lia.
    + done.
    + unfold status_of. by rewrite Hid.
    + unfold status_of. cbn. by rewrite lookup_insert_eq.
    + intros id' Hne. unfold status_of. cbn. by rewrite lookup_insert_ne.
  - assert (Hne : t_ID rev <> id) by (intros E; destruct Hfr; congruence).
    eapply (consistent_record db _ rev); eauto using reversal_legs, posted_delta; cbn.
    + rewrite lookup_insert_ne by done. by rewrite lookup_insert_eq.
    + intros c id' d [t0 Ht0]. unfold status_of. cbn. destruct (decide (id = id')) as [<-|].
      * rewrite lookup_insert_eq, Hid. cbn. rewrite Hs. by destruct c.
      * rewrite !lookup_insert_ne by (destruct Hfr; congruence). done.
  - eapply (consistent_hold db); eauto; [done..|]. intros c k. cbn. rewrite Hf.
    unfold hold_contrib. cbn. rewrite Hs. repeat case_decide; destruct c; cbn; naive_solver lia.
  - eapply (consistent_hold db); eauto; [done..|]. intros c k. cbn. rewrite Hid.
    unfold hold_contrib. cbn. rewrite Hs.
    destruct Hst as [-> | ->]; repeat case_decide; destruct c; cbn; naive_solver lia.
Qed.
