(* ===== verification/LedgerLinks.v ===== *)
(** * Reversals, idempotency records and outbox events

    Invariants that relate tables: a reversal and its original point at each
    other and cancel out, every transaction has exactly one idempotency record
    and the other way around, and the outbox holds exactly one event per
    lifecycle transition. *)

From Stdlib Require Import Ascii String ZArith Lia.
From S2P Require Import Prelude Strconv Errors Money LedgerDomain LedgerEvents LedgerDb Httpx.
From S2P Require Import LedgerStore LedgerSpec LedgerInv LedgerBalance.
Local Open Scope Z_scope.

(** ** Rows of recorded transactions never change *)

Lemma rows_of_change tenant db db' id :
  change tenant db db' -> wf db -> is_Some (transactions db !! id) -> rows_of db' id = rows_of db id.
Proof.
  intros C W [t0 H0]. destruct C as [| |t l m hash ???????? Hfr|t l m hash ev at_ ???????? Hfr| |
    id' t rev m hash reason now ev ??????????? Hfr| |]; try done.
  all: destruct Hfr as (Hn & _).
  - rewrite (rows_of_record db _ t) by done. by rewrite decide_False by congruence.
  - rewrite (rows_of_record db _ t) by done. by rewrite decide_False by congruence.
  - rewrite (rows_of_record db _ rev) by done. by rewrite decide_False by congruence.
Qed.

(** ** Net effect of a set of rows on one account and asset *)

Definition net (k : uuid * string) (ps : list Posting) : Z :=
  sumZ (fun p => if decide (pkey p = k)
                 then (if decide (p_Direction p = DirectionDebit) then Units (p_Amount p)
                       else - Units (p_Amount p)) else 0) ps.

Definition rows_net (k : uuid * string) (rows : list PostingRow) : Z := net k (map posting_of_row rows).

Arguments net : simpl never.
Arguments rows_net : simpl never.

#[export] Instance net_perm k : Proper (Permutation ==> eq) (net k).
Proof. intros l l' H. unfold net. by rewrite H. Qed.

Lemma mirrors_net ps rev k :
  mirrors ps rev -> Forall (fun p => Direction_Valid (p_Direction p) = true) ps ->
  net k rev = - net k ps.
Proof.
  intros H%mirrors_Forall2 Hv. unfold net. rewrite <- sumZ_opp.
  induction H as [|p q ps rev (Ha & Hd & Ham) H IH]; [done|].
  apply Forall_cons in Hv as [Hp Hv]. cbn. rewrite IH by done. f_equal.
  unfold pkey. rewrite Ha, Hd, Ham. revert Hp.
  destruct (p_Direction p); cbn; intros; repeat case_decide; naive_solver lia.
Qed.

Lemma rows_net_new k t : rows_net k (map (posting_row t) (t_Postings t)) = net k (t_Postings t).
Proof.
  unfold rows_net, net. rewrite map_map, sumZ_map. apply sumZ_ext. intros p _.
  unfold pkey. cbn. by destruct (p_Amount p).
Qed.

(** ** Reversals *)

Definition cancels (db : DB) (id rid : uuid) : Prop :=
  forall k, rows_net k (rows_of db rid) = - rows_net k (rows_of db id).

Definition reversals_ok (db : DB) : Prop :=
  forall id t, transactions db !! id = Some t ->
    (forall rid, t_ReversedByID t = Some rid ->
       exists rev, transactions db !! rid = Some rev /\ t_ReversesID rev = Some id /\
         t_TenantID rev = t_TenantID t /\ t_LedgerID rev = t_LedgerID t /\ cancels db id rid) /\
    (forall oid, t_ReversesID t = Some oid ->
       exists o, transactions db !! oid = Some o /\ t_ReversedByID o = Some id).

(** A transaction of the new state is new, the one whose lifecycle moved, or
    unchanged; links of unchanged ones survive. *)
Lemma links_grow db db' tenant id t t' :
  change tenant db db' -> wf db -> reversals_ok db ->
  transactions db !! id = Some t -> transactions db' !! id = Some t' ->
  (t_ReversedByID t' = t_ReversedByID t \/ t_ReversedByID t' = None) ->
  (forall rid, t_ReversedByID t' = Some rid ->
     exists rev, transactions db' !! rid = Some rev /\ t_ReversesID rev = Some id /\
       t_TenantID rev = t_TenantID t' /\ t_LedgerID rev = t_LedgerID t' /\ cancels db' id rid) /\
  (forall oid, t_ReversesID t' = Some oid ->
     exists o, transactions db' !! oid = Some o /\ t_ReversedByID o = Some id).
Proof.
  intros C W R Ht Ht' Hrb. pose proof (change_grows _ _ _ C) as G.
  destruct (gr_transactions _ _ G _ _ Ht) as (t1 & Ht1 & E). assert (t1 = t') as -> by congruence.
  pose proof (tx_evolves_eqs _ _ E) as (_ & Eten & Eled & _ & _ & Erev & _).
  destruct (R _ _ Ht) as [R1 R2]. split.
  - intros rid Hr. destruct (R1 rid) as (rev & Hrev & ? & ? & ? & Hc);
      [destruct Hrb; congruence|].
    destruct (gr_transactions _ _ G _ _ Hrev) as (rev' & Hrev' & E').
    pose proof (tx_evolves_eqs _ _ E') as (_ & ? & ? & _ & _ & ? & _).
    exists rev'. split_and!; [done|congruence..|]. intros k.
    rewrite !(rows_of_change _ _ _ _ C W) by eauto. apply Hc.
  - intros oid Ho. destruct (R2 oid) as (o & Hoid & Hrid); [congruence|].
    destruct (gr_transactions _ _ G _ _ Hoid) as (o' & Ho' & E'). exists o'. split; [done|].
    destruct E' as [|now Hs|rid Hs Hn]; cbn; [done|done|congruence].
Qed.

Lemma reversals_change tenant db db' :
  change tenant db db' -> wf db -> reversals_ok db -> reversals_ok db'.
Proof.
  intros C W R id t' Ht'. pose proof C as C0.
  destruct C as [| |t l m hash Ht Hs Hpa Hrb Hrv Hl Hlt Hlegs Hfr HB
                |t l m hash ev at_ Ht Hs Hpa Hrb Hrv Hl Hlt Hlegs Hfr HB
                |id0 t m now ev Hid Ht Hs HB
                |id0 t rev m hash reason now ev Hid Ht Hs Hrb Hrt Hrl Hrs Hrp Hrr Hri Hm Hfr HB
                | |]; cbn in Ht'.
  - eapply links_grow; eauto.
  - eapply links_grow; eauto.
  - apply lookup_insert_Some in Ht' as [[<- <-]|[Hne Ht']].
    + cbn. rewrite Hrb, Hrv. by split.
    + eapply links_grow; eauto. cbn. by rewrite lookup_insert_ne.
  - apply lookup_insert_Some in Ht' as [[<- <-]|[Hne Ht']].
    + cbn. rewrite Hrb, Hrv. by split.
    + eapply links_grow; eauto. cbn. by rewrite lookup_insert_ne.
  - apply lookup_insert_Some in Ht' as [[<- <-]|[Hne Ht']].
    + eapply links_grow; eauto. cbn. by rewrite lookup_insert_eq.
    + eapply links_grow; eauto. cbn. by rewrite lookup_insert_ne.
  - assert (Hne : t_ID rev <> id0) by (intros E; destruct Hfr; congruence).
    destruct (R _ _ Hid) as [_ R2].
    pose proof (rows_of_change _ _ _ id0 C0 W (ex_intro _ _ Hid)) as Erows.
    match type of C0 with change _ _ ?d =>
      pose proof (rows_of_record db d rev (t_ID rev) W (proj1 Hfr) eq_refl) as Enew end.
    rewrite decide_True in Enew by done. cbn in Erows, Enew.
    apply lookup_insert_Some in Ht' as [[<- <-]|[Hne' Ht']]; cbn.
    + split.
      * intros rid [= <-]. exists (transaction_row rev). cbn.
        rewrite lookup_insert_ne, lookup_insert_eq by done.
        split_and!; [done|done|congruence|done|]. intros k.
        cbn. rewrite Erows, Enew, rows_net_new.
        destruct (loaded_legs _ _ _ _ W Hid Ht) as (_ & _ & Hlegs).
        rewrite (mirrors_net _ _ k Hm); [by rewrite (loadPostings_perm _ _ _ _ W Hid Ht)|].
        eapply Forall_impl; [exact Hlegs|]. by intros p (_ & ? & _).
      * intros oid Ho. destruct (R2 oid Ho) as (o & Hoid & Hrid).
        destruct (decide (oid = id0)) as [->|].
        -- congruence.
        -- exists o. split; [|done]. rewrite !lookup_insert_ne by (destruct Hfr; congruence). done.
    + apply lookup_insert_Some in Ht' as [[<- <-]|[Hne'' Ht']]; cbn.
      * rewrite Hrr, Hri. split; [done|]. intros oid [= <-].
        eexists. rewrite lookup_insert_eq. by split.
      * refine (links_grow db _ tenant id t' t' C0 W R Ht' _ (or_introl eq_refl)).
        cbn. by rewrite !lookup_insert_ne.
  - eapply links_grow; eauto.
  - eapply links_grow; eauto.
Qed.

(** ** Idempotency records *)

Definition keys_ok (db : DB) : Prop :=
  (forall id t, transactions db !! id = Some t ->
     exists row, idempotency_keys db !! (t_TenantID t, t_IdempotencyKey t) = Some row /\
       t_ID (ik_Response row) = id) /\
  (forall tenant key row, idempotency_keys db !! (tenant, key) = Some row ->
     length (ik_RequestHash row) = 32%nat /\
     exists t, transactions db !! t_ID (ik_Response row) = Some t /\
       t_TenantID t = tenant /\ t_IdempotencyKey t = key).

Lemma keys_record db db' t hash :
  keys_ok db -> tx_fresh db t -> length hash = 32%nat ->
  idempotency_keys db' = <[(t_TenantID t, t_IdempotencyKey t) := mkIdemRow 201 (json_snapshot t) hash]>
                           (idempotency_keys db) ->
  transactions db' !! t_ID t = Some (transaction_row t) ->
  (forall id t', id <> t_ID t -> transactions db' !! id = Some t' ->
     exists t0, transactions db !! id = Some t0 /\
       t_TenantID t' = t_TenantID t0 /\ t_IdempotencyKey t' = t_IdempotencyKey t0) ->
  (forall id t0, transactions db !! id = Some t0 -> exists t', transactions db' !! id = Some t' /\
     t_TenantID t' = t_TenantID t0 /\ t_IdempotencyKey t' = t_IdempotencyKey t0) ->
  keys_ok db'.
Proof.
  intros [K1 K2] (Hn & _ & _ & Hk & Hu) Hlen EI Hnew Hback Hfwd. split.
  - intros id t' Ht'. rewrite EI. destruct (decide (id = t_ID t)) as [->|Hne].
    + assert (t' = transaction_row t) as -> by congruence. cbn. rewrite lookup_insert_eq. by eexists.
    + destruct (Hback _ _ Hne Ht') as (t0 & Ht0 & Et & Ek). destruct (K1 _ _ Ht0) as (row & Hrow & ?).
      exists row. split; [|done]. rewrite Et, Ek, lookup_insert_ne; [done|].
      intros [= E1 E2]. by apply (Hu _ _ Ht0).
  - intros tenant key row. rewrite EI, lookup_insert_Some. intros [[[= <- <-] <-]|[Hne Hrow]].
    + split; [done|]. exists (transaction_row t). cbn. by rewrite Hnew.
    + destruct (K2 _ _ _ Hrow) as (? & t0 & Ht0 & Et & Ek). split; [done|].
      destruct (Hfwd _ _ Ht0) as (t' & Ht' & E1 & E2). exists t'. split_and!; [done|congruence..].
Qed.

Lemma keys_same db db' :
  keys_ok db -> idempotency_keys db' = idempotency_keys db ->
  (forall id t', transactions db' !! id = Some t' -> exists t0, transactions db !! id = Some t0 /\
     t_TenantID t' = t_TenantID t0 /\ t_IdempotencyKey t' = t_IdempotencyKey t0) ->
  (forall id t0, transactions db !! id = Some t0 -> exists t', transactions db' !! id = Some t' /\
     t_TenantID t' = t_TenantID t0 /\ t_IdempotencyKey t' = t_IdempotencyKey t0) ->
  keys_ok db'.
Proof.
  intros [K1 K2] EI Hback Hfwd. split.
  - intros id t' Ht'. destruct (Hback _ _ Ht') as (t0 & Ht0 & -> & ->). rewrite EI. by apply K1.
  - intros tenant key row. rewrite EI. intros Hrow.
    destruct (K2 _ _ _ Hrow) as (? & t0 & Ht0 & Et & Ek). split; [done|].
    destruct (Hfwd _ _ Ht0) as (t' & Ht' & E1 & E2). exists t'. split_and!; [done|congruence..].
Qed.

Lemma keys_change tenant db db' : change tenant db db' -> keys_ok db -> keys_ok db'.
Proof.
  intros C K. pose proof (change_grows _ _ _ C) as G.
  assert (Hfwd : forall id t0, transactions db !! id = Some t0 -> exists t',
    transactions db' !! id = Some t' /\ t_TenantID t' = t_TenantID t0 /\
    t_IdempotencyKey t' = t_IdempotencyKey t0).
  { intros id t0 H0. destruct (gr_transactions _ _ G _ _ H0) as (t' & Ht' & E).
    pose proof (tx_evolves_eqs _ _ E). exists t'. naive_solver. }
  destruct C as [| |t l m hash Ht Hs Hpa Hrb Hrv Hl Hlt Hlegs Hfr HB
                |t l m hash ev at_ Ht Hs Hpa Hrb Hrv Hl Hlt Hlegs Hfr HB
                |id0 t m now ev Hid Ht Hs HB
                |id0 t rev m hash reason now ev Hid Ht Hs Hrb Hrt Hrl Hrs Hrp Hrr Hri Hm Hfr HB
                | |].
  - apply (keys_same db); eauto.
  - apply (keys_same db); eauto.
  - eapply (keys_record db _ t); eauto; cbn; [by rewrite lookup_insert_eq|].
    intros id t' Hne. rewrite lookup_insert_ne by done. eauto.
  - eapply (keys_record db _ t); eauto; cbn; [by rewrite lookup_insert_eq|].
    intros id t' Hne. rewrite lookup_insert_ne by done. eauto.
  - apply (keys_same db); eauto. intros id t'. cbn. rewrite lookup_insert_Some.
    intros [[<- <-]|[_ ?]]; eauto.
  - assert (Hne : t_ID rev <> id0) by (intros E; destruct Hfr; congruence).
    eapply (keys_record db _ rev); eauto; cbn.
    + rewrite lookup_insert_ne by done. by rewrite lookup_insert_eq.
    + intros id t' Hne'. rewrite lookup_insert_Some. intros [[<- <-]|[_ Hin]]; [by eauto|].
      rewrite lookup_insert_ne in Hin by done. eauto.
  - apply (keys_same db); eauto.
  - apply (keys_same db); eauto.
Qed.

(** Two holds never share a tenant and key. *)
Definition hold_keys_ok (db : DB) : Prop :=
  forall id id' r r', holds db !! id = Some r -> holds db !! id' = Some r' ->
    h_TenantID (hr_Hold r) = h_TenantID (hr_Hold r') ->
    h_IdempotencyKey (hr_Hold r) = h_IdempotencyKey (hr_Hold r') -> id = id'.

Lemma hold_keys_change tenant db db' : change tenant db db' -> hold_keys_ok db -> hold_keys_ok db'.
Proof.
  intros C K. destruct C as [| | | | | |h a m hash ev Ht Hs Hf Ha Hat Hal Hu Hav Hk
                            |id0 r0 status captured m topic data ev Hid]; try exact K.
  all: intros id id' r r'; cbn; rewrite !lookup_insert_Some.
  - intros [[<- <-]|[? Ho1]] [[<- <-]|[? Ho2]] E1 E2; cbn in *; [done| | |by eapply K].
    + exfalso. eapply Hk; [exact Ho2|]. split; congruence.
    + exfalso. eapply Hk; [exact Ho1|]. split; congruence.
  - intros [[<- <-]|[? Ho1]] [[<- <-]|[? Ho2]] E1 E2; cbn in *; [done|by eapply K..].
Qed.

(** ** Captures *)

(** The transaction a hold was captured by belongs to its tenant. *)
Definition captures_ok (db : DB) : Prop :=
  forall id r tid, holds db !! id = Some r -> h_CapturedTransactionID (hr_Hold r) = Some tid ->
    exists t, transactions db !! tid = Some t /\ t_TenantID t = h_TenantID (hr_Hold r).

Lemma captures_change tenant db db' : change tenant db db' -> captures_ok db -> captures_ok db'.
Proof.
  intros C K. pose proof (change_grows _ _ _ C) as G.
  assert (Hold : forall id r tid, holds db !! id = Some r -> h_CapturedTransactionID (hr_Hold r) = Some tid ->
            exists t, transactions db' !! tid = Some t /\ t_TenantID t = h_TenantID (hr_Hold r)).
  { intros id r tid Hr Hc. destruct (K _ _ _ Hr Hc) as (t & Ht & E).
    destruct (gr_transactions _ _ G _ _ Ht) as (t' & Ht' & Ev). exists t'. split; [done|].
    by destruct (tx_evolves_eqs _ _ Ev) as (_ & -> & _). }
  destruct C as [| | | | | |h a m hash ev|id0 r0 status captured m topic data ev Hid Hten Hact Hst Hcap];
    try exact Hold; intros id r tid; cbn; rewrite lookup_insert_Some.
  - intros [[<- <-]|[_ Hr]]; [done|by eapply Hold].
  - intros [[<- <-]|[_ Hr]]; [|by eapply Hold]. cbn. intros Hc. destruct (Hcap _ Hc) as (t & Ht & E).
    exists t. split; [done|congruence].
Qed.

(** ** Outbox events *)

Definition is_posted_event (id : uuid) (r : OutboxRow) : bool :=
  match env_Data (ob_Envelope r) with
  | PTransactionPosted e => tpe_TransactionID e =? id | _ => false end.

Definition is_reversed_event (id : uuid) (r : OutboxRow) : bool :=
  match env_Data (ob_Envelope r) with
  | PTransactionReversed e => tre_TransactionID e =? id | _ => false end.

Definition count_events (f : OutboxRow -> bool) (rows : list OutboxRow) : Z :=
  sumZ (fun r => if f r then 1 else 0) rows.

Arguments count_events : simpl never.

(** A firm transaction that is not itself a reversal was announced once; a
    reversed one had its reversal announced once. *)
Definition expected_posted (db : DB) (id : uuid) : Z :=
  match transactions db !! id with
  | Some t => if is_firm (t_Status t) && bool_decide (t_ReversesID t = None) then 1 else 0
  | None => 0
  end.

Definition expected_reversed (db : DB) (id : uuid) : Z :=
  match transactions db !! id with
  | Some t => if decide (t_Status t = TransactionReversed) then 1 else 0
  | None => 0
  end.

Definition events_ok (db : DB) : Prop :=
  forall id, count_events (is_posted_event id) (outbox db) = expected_posted db id /\
             count_events (is_reversed_event id) (outbox db) = expected_reversed db id.

Lemma count_events_snoc f rows r : count_events f (rows ++ [r]) = count_events f rows + (if f r then 1 else 0).
Proof. unfold count_events. rewrite sumZ_app. cbn. lia. Qed.

Lemma events_step db db' ev :
  events_ok db -> outbox db' = outbox db ++ [ev] ->
  (forall id, expected_posted db' id = expected_posted db id + (if is_posted_event id ev then 1 else 0)) ->
  (forall id, expected_reversed db' id
              = expected_reversed db id + (if is_reversed_event id ev then 1 else 0)) ->
  events_ok db'.
Proof.
  intros E EO H1 H2 id. destruct (E id) as [E1 E2].
  rewrite EO, !count_events_snoc, H1, H2, E1, E2. done.
Qed.

Lemma events_change tenant db db' : change tenant db db' -> wf db -> events_ok db -> events_ok db'.
Proof.
  intros C W E.
  destruct C as [| |t l m hash Ht Hs Hpa Hrb Hrv Hl Hlt Hlegs Hfr HB
                |t l m hash ev at_ Ht Hs Hpa Hrb Hrv Hl Hlt Hlegs Hfr HB Hlen Hev
                |id0 t m now ev Hid Ht Hs HB Hev
                |id0 t rev m hash reason now ev Hid Ht Hs Hrb Hrt Hrl Hrs Hrp Hrr Hri Hm Hfr HB Hlen Hev
                |h a m hash ev Ht Hs Hf Ha Hat Hal Hu Hav Hk HB Hlen Hev
                |id0 r status captured m topic data ev Hid Ht Hs Hst Hc HB Hcl Hev].
  - exact E.
  - exact E.
  - intros id. destruct (E id) as [E1 E2]. cbn. rewrite app_nil_r, E1, E2.
    unfold expected_posted, expected_reversed. cbn. destruct Hfr as [Hn _].
    destruct (decide (t_ID t = id)) as [<-|Hne].
    + rewrite lookup_insert_eq, Hn. cbn. rewrite Hs. by cbn.
    + by rewrite lookup_insert_ne.
  - destruct Hev as (eid & enow & ->). eapply events_step; [done|done| |]; intros id;
      unfold expected_posted, expected_reversed; cbn; destruct Hfr as [Hn _];
      (destruct (decide (t_ID t = id)) as [<-|Hne];
        [rewrite lookup_insert_eq, Hn; cbn; rewrite Hs; cbn
        |rewrite lookup_insert_ne by done]).
    + rewrite Hrv, bool_decide_eq_true_2, Z.eqb_refl by done. done.
    + rewrite (proj2 (Z.eqb_neq _ _)) by done. lia.
    + done.
    + lia.
  - destruct (wf_transactions _ W _ _ Hid) as (Eid & _ & Hlc & _).
    unfold lifecycle_wf in Hlc. rewrite Hs in Hlc. destruct Hlc as (_ & _ & Hrv).
    destruct Hev as (eid & enow & ->). eapply events_step; [done|done| |]; intros id;
      unfold expected_posted, expected_reversed; cbn; rewrite ?Eid;
      (destruct (decide (id0 = id)) as [<-|Hne];
        [rewrite lookup_insert_eq, Hid; cbn; rewrite Hs; cbn
        |rewrite lookup_insert_ne by done]).
    + rewrite Hrv, bool_decide_eq_true_2, Z.eqb_refl by done. done.
    + rewrite (proj2 (Z.eqb_neq _ _)) by done. lia.
    + done.
    + lia.
  - assert (Hne0 : t_ID rev <> id0) by (intros Heq; destruct Hfr; congruence).
    destruct Hfr as [Hn _]. destruct Hev as (eid & enow & ->).
    eapply events_step; [done|done| |]; intros id; unfold expected_posted, expected_reversed; cbn;
      (destruct (decide (id0 = id)) as [<-|Hne];
        [rewrite lookup_insert_eq, Hid; cbn; rewrite Hs; cbn
        |rewrite lookup_insert_ne by done; destruct (decide (t_ID rev = id)) as [<-|Hne'];
          [rewrite lookup_insert_eq, Hn; cbn; rewrite Hrs; cbn|rewrite lookup_insert_ne by done]]).
    + lia.
    + by rewrite Hri.
    + lia.
    + by rewrite Z.eqb_refl.
    + by rewrite (proj2 (Z.eqb_neq _ _)).
    + rewrite (proj2 (Z.eqb_neq _ _)) by done. lia.
  - destruct Hev as (eid & enow & ->). eapply events_step; [done|done| |]; intros id; symmetry; apply Z.add_0_r.
  - destruct Hev as (eid & enow & ->). destruct Hcl as [(_ & _ & ? & ? & ? & ->)|(_ & _ & ? & ->)].
    all: eapply events_step; [done|done| |]; intros id; symmetry; apply Z.add_0_r.
Qed.

(** The events of a transaction carry its tenant. *)
Definition event_owners_ok (db : DB) : Prop :=
  forall r id, r ∈ outbox db -> is_posted_event id r || is_reversed_event id r = true ->
    exists t, transactions db !! id = Some t /\ t_TenantID t = ob_TenantID r.

Lemma event_owners_step db db' ev :
  event_owners_ok db -> grows db db' -> outbox db' = outbox db ++ ev ->
  Forall (fun r => forall id, is_posted_event id r || is_reversed_event id r = true ->
    exists t, transactions db' !! id = Some t /\ t_TenantID t = ob_TenantID r) ev ->
  event_owners_ok db'.
Proof.
  intros K G EO HE r id. rewrite EO. intros [Hr|Hr]%elem_of_app Hev.
  - destruct (K _ _ Hr Hev) as (t & Ht & E). destruct (gr_transactions _ _ G _ _ Ht) as (t' & Ht' & Ev).
    exists t'. split; [done|]. by destruct (tx_evolves_eqs _ _ Ev) as (_ & -> & _).
  - rewrite Forall_forall in HE. by apply HE.
Qed.

Lemma event_owners_change tenant db db' : change tenant db db' -> wf db -> event_owners_ok db -> event_owners_ok db'.
Proof.
  intros C W K. pose proof (change_grows _ _ _ C) as G. revert G.
  destruct C as [|a l|t l m hash|t l m hash ev at_ Ht ?????????? (eid & en & ->)|id t m now ev Hid Ht ?? (eid & en & ->)
    |id t rev m hash reason now ev Hid Ht ???????????? (eid & en & ->)|h a m hash ev ??????????? (eid & en & ->)
    |id r status captured m topic data ev ?????? Hcl (eid & en & ->)]; intros G.
  1,2: exact K.
  - eapply event_owners_step; [done|done|done|constructor].
  - eapply event_owners_step; [done|done|done|]. repeat constructor. intros id. cbn.
    rewrite orb_false_r, Z.eqb_eq. intros <-. exists (transaction_row t). by rewrite lookup_insert_eq.
  - eapply event_owners_step; [done|done|done|]. repeat constructor. intros id'. cbn.
    rewrite orb_false_r, Z.eqb_eq. pose proof (wf_transactions _ W _ _ Hid) as (-> & _). intros <-.
    eexists. by rewrite lookup_insert_eq.
  - eapply event_owners_step; [done|done|done|]. repeat constructor. intros id'. cbn.
    rewrite Z.eqb_eq. intros <-. eexists. by rewrite lookup_insert_eq.
  - eapply event_owners_step; [done|done|done|]. by repeat constructor.
  - eapply event_owners_step; [done|done|done|]. repeat constructor. intros id'. cbn.
    destruct Hcl as [(_ & _ & ? & ? & ? & ->)|(_ & _ & ? & ->)]; done.
Qed.
