(* ===== verification/LedgerRefine.v ===== *)
(** * The store refines the abstract state changes

    Every committed call of the store, and so every successful request of the
    service, is one step of [LedgerSpec.change] or leaves the tables alone. *)

From Stdlib Require Import Ascii String ZArith Lia.
From S2P Require Import Prelude Strconv Errors Money LedgerDomain LedgerEvents LedgerDb Httpx.
From S2P Require Import LedgerStore LedgerReports LedgerService LedgerSpec LedgerInv.
From S2P Require Import LedgerBalance LedgerLinks.
Local Open Scope Z_scope.

(** ** The invariant *)

Record Inv (db : DB) : Prop := {
  inv_wf : wf db;
  inv_consistent : consistent db;
  inv_reversals : reversals_ok db;
  inv_keys : keys_ok db;
  inv_hold_keys : hold_keys_ok db;
  inv_events : events_ok db;
  inv_captures : captures_ok db;
  inv_owners : event_owners_ok db
}.

Lemma Inv_empty : Inv empty_db.
Proof.
  split; [apply wf_empty| | | | | | |].
  - intros c k. destruct c; reflexivity.
  - intros id t. cbn. by rewrite lookup_empty.
  - split; intros *; cbn; by rewrite lookup_empty.
  - intros id id' r r'. cbn. by rewrite lookup_empty.
  - intros id. unfold expected_posted, expected_reversed. cbn. by rewrite lookup_empty.
  - intros id r tid. cbn. by rewrite lookup_empty.
  - intros r id. cbn. by intros ?%elem_of_nil.
Qed.

Lemma Inv_change tenant db db' : change tenant db db' -> Inv db -> Inv db'.
Proof.
  intros C []. split; eauto using wf_change, consistent_change, reversals_change, keys_change,
    hold_keys_change, events_change, captures_change, event_owners_change.
Qed.

(** ** Statements *)

Lemma upsert_balance_ok tenant acct asset d st u st' a :
  accounts (tx_db st) !! acct = Some a /\ a_TenantID a = tenant ->
  upsert_balance tenant acct asset d st = Ok (u, st') ->
  exists m, bal_steps (accounts (tx_db st)) tenant (account_balances (tx_db st)) [((acct, asset), d)] m /\
    st' = with_db (set_account_balances m (tx_db st)) st.
Proof.
  intros Ha H. unfold upsert_balance in H. inv_tx H.
  eexists. split; [|reflexivity].
  econstructor; [|by exists a|done|constructor].
  intros r Hr. rewrite Hr in Hs. by rewrite bool_decide_true in Hs.
Qed.

Lemma bal_steps_app accts tenant m l m1 l' m2 :
  bal_steps accts tenant m l m1 -> bal_steps accts tenant m1 l' m2 ->
  bal_steps accts tenant m (l ++ l') m2.
Proof. induction 1; cbn; [done|]. intros. econstructor; eauto. Qed.

Definition own_accounts (db : DB) (tenant : uuid) (ps : list Posting) : Prop :=
  Forall (fun p => exists a, accounts db !! p_AccountID p = Some a /\ a_TenantID a = tenant) ps.

Lemma applyBalances_ok tenant tid ps stmt st u st' :
  own_accounts (tx_db st) tenant ps ->
  applyBalances tenant tid ps stmt st = Ok (u, st') ->
  exists m, bal_steps (accounts (tx_db st)) tenant (account_balances (tx_db st))
              (posting_deltas stmt ps) m /\
    st' = with_db (set_account_balances m (tx_db st)) st.
Proof.
  unfold applyBalances. revert st. induction ps as [|p ps IH]; intros st Hown H; cbn in H.
  - apply tx_ret_ok in H as [_ ->]. eexists. split; [constructor|]. by destruct st as [[] ? ? ?].
  - apply Forall_cons in Hown as [(a & Ha & Hat) Hown].
    apply tx_bind_ok in H as (x & st1 & H1 & H2).
    apply tx_bind_ok in H1 as (y & st0 & Hc & H1). apply check_ok in Hc as [_ ->].
    destruct (upsert_balance_ok _ _ _ _ _ _ _ a (conj Ha Hat) H1) as (m1 & Hs1 & ->).
    destruct (IH (with_db (set_account_balances m1 (tx_db st)) st) Hown H2) as (m2 & Hs2 & ->).
    exists m2. split; [|done]. cbn. exact (bal_steps_app _ _ _ [_] _ _ _ Hs1 Hs2).
Qed.

Lemma update_balance_ok tenant acct asset d st hit st' a :
  accounts (tx_db st) !! acct = Some a /\ a_TenantID a = tenant ->
  update_balance tenant acct asset d st = Ok (hit, st') ->
  (hit = false /\ find_balance tenant (acct, asset) (tx_db st) = None /\ st' = st) \/
  (hit = true /\ is_Some (find_balance tenant (acct, asset) (tx_db st)) /\
   exists m, bal_steps (accounts (tx_db st)) tenant (account_balances (tx_db st))
               [((acct, asset), d)] m /\
     st' = with_db (set_account_balances m (tx_db st)) st).
Proof.
  intros Ha H. unfold update_balance in H. apply tx_bind_ok in H as (db & st1 & Hd & H).
  apply get_db_ok in Hd as [-> ->].
  destruct (find_balance tenant (acct, asset) (tx_db st)) as [r|] eqn:E; inv_tx H; [right|by left].
  split_and!; [done|by eexists|]. destruct (proj1 (find_balance_some _ _ _ _) E) as [Em Er].
  clear E; rename Em into E.
  eexists. split; [|unfold with_db; reflexivity].
  change (add_delta r d) with (add_delta (default (zero_row tenant) (Some r)) d). rewrite <- E.
  econstructor; [|by exists a| |constructor]; rewrite E; [by intros ? [= <-]|done].
Qed.

Lemma bal_steps_dom accts tenant m l m' k :
  bal_steps accts tenant m l m' ->
  (exists r, m !! k = Some r /\ br_TenantID r = tenant) ->
  exists r, m' !! k = Some r /\ br_TenantID r = tenant.
Proof.
  induction 1 as [m|m k' d l m' Ht Ha Hr _ IH]; [done|]. intros (r & Hk & Hten). apply IH.
  destruct (decide (k' = k)) as [->|Hne].
  - rewrite lookup_insert_eq, Hk. eexists. by split.
  - rewrite lookup_insert_ne by done. by eexists.
Qed.

Lemma promoteBalances_ok tenant ps st u st' :
  own_accounts (tx_db st) tenant ps ->
  Forall (fun p => exists r, account_balances (tx_db st) !! pkey p = Some r /\ br_TenantID r = tenant) ps ->
  promoteBalances tenant ps st = Ok (u, st') ->
  exists m, bal_steps (accounts (tx_db st)) tenant (account_balances (tx_db st))
              (posting_deltas movePendingToPosted ps) m /\
    st' = with_db (set_account_balances m (tx_db st)) st.
Proof.
  unfold promoteBalances. revert st. induction ps as [|p ps IH]; intros st Hown Hrows H; cbn in H.
  - apply tx_ret_ok in H as [_ ->]. eexists. split; [constructor|]. by destruct st as [[] ? ? ?].
  - apply Forall_cons in Hown as [(a & Ha & Hat) Hown], Hrows as [(r & Hr & Hrt) Hrows].
    apply tx_bind_ok in H as (x & st1 & H1 & H2).
    apply tx_bind_ok in H1 as (hit & st0 & H1 & Hret). apply tx_ret_ok in Hret as [_ ->].
    destruct (update_balance_ok _ _ _ _ _ _ _ a (conj Ha Hat) H1) as [(_ & Hnone & _)|(_ & _ & m1 & Hs1 & ->)].
    { exfalso. apply eq_None_not_Some in Hnone. apply Hnone. exists r. by apply find_balance_some. }
    destruct (IH (with_db (set_account_balances m1 (tx_db st)) st)) as (m2 & Hs2 & ->);
      [exact Hown| |exact H2|].
    + eapply Forall_impl; [exact Hrows|]. cbn. intros q. by apply (bal_steps_dom _ _ _ _ _ _ Hs1).
    + exists m2. split; [|done]. exact (bal_steps_app _ _ _ [_] _ _ _ Hs1 Hs2).
Qed.

Lemma insertOutbox_ok tenant topic tid data st u st' :
  insertOutbox tenant topic tid data st = Ok (u, st') ->
  exists ev, event tenant topic data ev /\ tx_db st' = set_outbox (outbox (tx_db st) ++ [ev]) (tx_db st).
Proof.
  intros H. unfold insertOutbox in H.
  apply tx_bind_ok in H as (now & st1 & Hc & H). apply get_clock_ok in Hc as [-> ->].
  apply tx_bind_ok in H as (id & st2 & Hf & H). apply fresh_ok in Hf as [Hst2 _].
  inv_tx H. rewrite Hst2. eexists. split; [|reflexivity]. unfold event. eauto.
Qed.

Lemma insert_postings_ok tenant t ps st u st' :
  forM_ ps (fun p => insert_posting_row tenant (posting_row t p)) st = Ok (u, st') ->
  NoDup (map p_ID ps) /\
  Forall (fun p => forall r, r ∈ postings (tx_db st) -> pr_ID r <> p_ID p) ps /\
  tx_db st' = set_postings (postings (tx_db st) ++ map (posting_row t) ps) (tx_db st).
Proof.
  revert st. induction ps as [|p ps IH]; intros st H; cbn [forM_] in H.
  - apply tx_ret_ok in H as [_ ->]. split_and!; [constructor|constructor|].
    rewrite app_nil_r. by destruct (tx_db st).
  - apply tx_bind_ok in H as (x & st1 & H1 & H2). unfold insert_posting_row in H1. inv_tx H1.
    destruct (IH _ H2) as (Hnd & Hf & ->). cbn in *. split_and!.
    + constructor; [|done]. intros (q & Hq & Hin)%list_elem_of_In%in_map_iff.
      rewrite Forall_forall in Hf. apply list_elem_of_In in Hin.
      apply (Hf q Hin (posting_row t p)); [set_solver|]. done.
    + constructor; [|eapply Forall_impl; [exact Hf|]; cbn; set_solver].
      intros r Hr E. match goal with H : negb (existsb _ _) = true |- _ =>
        apply negb_true_iff in H; rewrite <- not_true_iff_false in H; apply H end.
      apply existsb_exists. exists r. split; [by apply list_elem_of_In|]. by apply Z.eqb_eq.
    + unfold set_postings. cbn. by rewrite <- app_assoc.
Qed.

Lemma insertTransactionTx_ok tenant t st u st' :
  insertTransactionTx tenant t st = Ok (u, st') ->
  t_TenantID t = tenant /\
  transactions (tx_db st) !! t_ID t = None /\
  (forall id t', transactions (tx_db st) !! id = Some t' ->
     ~ (t_TenantID t' = t_TenantID t /\ t_IdempotencyKey t' = t_IdempotencyKey t)) /\
  NoDup (map p_ID (t_Postings t)) /\
  Forall (fun p => forall r, r ∈ postings (tx_db st) -> pr_ID r <> p_ID p) (t_Postings t) /\
  tx_db st' = set_postings (postings (tx_db st) ++ map (posting_row t) (t_Postings t))
                (set_transactions (<[t_ID t := transaction_row t]> (transactions (tx_db st))) (tx_db st)).
Proof.
  intros H. unfold insertTransactionTx in H. apply tx_bind_ok in H as (x & st1 & H1 & H2).
  destruct (insert_postings_ok _ _ _ _ _ _ H2) as (Hnd & Hf & ->). clear H2.
  unfold insert_transaction_row in H1. inv_tx H1. cbn in *. split_and!; try done.
  intros id t' Ht' Hcl.
  match goal with H : negb (exists_in _ _) = true |- _ =>
    apply negb_true_iff in H; rewrite exists_in_false in H; specialize (H _ _ Ht') end.
  cbn in *. by apply bool_decide_eq_false in Hs1 || naive_solver.
Qed.

(** ** Operations *)

Lemma WithTenantTx_ok {A} tenant (fn : Tx A) ids now db a db' :
  WithTenantTx tenant fn ids now db = Ok (a, db') ->
  tenant <> uuid_Nil /\
  exists st, fn (mkTx db [] ids now) = Ok (a, st) /\ db' = tx_db st.
Proof.
  unfold WithTenantTx. destruct (Z.eqb_spec tenant uuid_Nil); [done|].
  intros ([a' st] & H & H')%bind_ok. apply bind_ok in H' as (? & _ & [= <- <-]). eauto.
Qed.

Lemma map_err_ok {E F A} (f : E -> F) (r : result E A) a : map_err f r = Ok a <-> r = Ok a.
Proof. destruct r; cbn; naive_solver. Qed.

Lemma CreateLedger_ok l ids now db u db' :
  CreateLedger l ids now db = Ok (u, db') -> change (l_TenantID l) db db'.
Proof.
  unfold CreateLedger. rewrite map_err_ok. intros (_ & st & H & ->)%WithTenantTx_ok.
  unfold insert_ledger in H. inv_tx H. cbn.
  match goal with |- change _ _ (set_ledgers (<[_ := ?l']> _) _) =>
    exact (ch_ledger (l_TenantID l) db l' eq_refl ltac:(done)) end.
Qed.

Lemma requireLedger_ok tenant id st u st' :
  requireLedger tenant id st = Ok (u, st') ->
  st' = st /\ exists l, ledgers (tx_db st) !! id = Some l /\ l_TenantID l = tenant.
Proof.
  intros H. unfold requireLedger in H. inv_tx H. split; [done|]. destruct H as [l Hl].
  exists l. by apply find_ledger_some.
Qed.

Lemma CreateAccount_ok a ids now db u db' :
  CreateAccount a ids now db = Ok (u, db') -> change (a_TenantID a) db db'.
Proof.
  unfold CreateAccount. rewrite map_err_ok. intros (_ & st & H & ->)%WithTenantTx_ok.
  apply tx_bind_ok in H as (x & st1 & H1 & H).
  apply requireLedger_ok in H1 as (-> & l & Hl & Hlt).
  unfold insert_account in H. inv_tx H. cbn in *.
  match goal with |- change _ _ (set_accounts (<[_ := ?a']> _) _) =>
    refine (ch_account (a_TenantID a) db a' l eq_refl _ Hl Hlt _); done end.
Qed.

Lemma checkAccounts_ok tenant lid ps st u st' :
  checkAccountsInLedger tenant lid ps st = Ok (u, st') ->
  st' = st /\
  Forall (fun p => exists a, accounts (tx_db st) !! p_AccountID p = Some a /\
            a_TenantID a = tenant /\ a_LedgerID a = lid) ps.
Proof.
  intros H. unfold checkAccountsInLedger in H. apply tx_bind_ok in H as (db & st1 & Hd & H).
  apply get_db_ok in Hd as [-> ->].
  apply (forM_pure _ (fun id => exists a, accounts (tx_db st) !! id = Some a /\
            a_TenantID a = tenant /\ a_LedgerID a = lid)) in H as [-> HF].
  - split; [done|]. apply Forall_forall. intros p Hp. rewrite Forall_forall in HF. apply HF.
    clear HF. enough (forall seen, p_AccountID p ∉ seen -> p_AccountID p ∈ distinct_accounts seen ps)
      by (by apply H, not_elem_of_nil).
    intros seen. revert seen. induction ps as [|q ps IH]; intros seen Hs; [set_solver|]. cbn.
    apply elem_of_cons in Hp as [->|Hp]; [rewrite decide_False by done; set_solver|].
    destruct (decide (p_AccountID q = p_AccountID p)) as [E|E];
      [rewrite E, decide_False by done; set_solver|].
    case_decide; [by apply IH|]. apply elem_of_cons. right. apply IH; [done|set_solver].
  - intros id s s' v Hf. destruct (find_account tenant id (tx_db st)) as [a|] eqn:Ef; [|done].
    apply check_ok in Hf as [Hl ->]. split; [done|]. apply find_account_some in Ef as [? ?].
    rewrite bool_decide_true in Hl. eauto.
Qed.

(** What the service hands to [CreateTransaction]. *)
Definition new_tx_ok (t : Transaction) : Prop :=
  postings_wf (t_Postings t) /\ ValidateBalanced (t_Postings t) = Ok tt /\
  t_ReversedByID t = None /\ t_ReversesID t = None /\
  (t_Status t = TransactionDraft /\ t_PostedAt t = None \/
   t_Status t = TransactionPosted /\ exists at_, t_PostedAt t = Some at_).

Section Refinement.
Context `{Render, Digest}.

Lemma storeIdempotentResponse_ok tenant tid key code t hash st u st' :
  storeIdempotentResponse tenant tid key code t hash st = Ok (u, st') ->
  tid = tenant /\ idempotency_keys (tx_db st) !! (tid, key) = None /\
  tx_db st' = set_idempotency_keys (<[(tid, key) := mkIdemRow code (json_snapshot t) hash]>
                (idempotency_keys (tx_db st))) (tx_db st).
Proof. intros H1. unfold storeIdempotentResponse in H1. by inv_tx H1. Qed.

Lemma own_of_ledger db tenant lid ps :
  Forall (fun p => exists a, accounts db !! p_AccountID p = Some a /\
            a_TenantID a = tenant /\ a_LedgerID a = lid) ps ->
  own_accounts db tenant ps.
Proof. intros HF. eapply Forall_impl; [exact HF|]. naive_solver. Qed.

(** What recording a new transaction does to the balances and the outbox: a
    posted one moves the posted columns and is announced, a draft moves the
    pending ones. *)
Definition recorded_as (db : DB) (t : Transaction) (m : balances) (evs : list OutboxRow) : Prop :=
  if decide (t_Status t = TransactionPosted) then
    bal_steps (accounts db) (t_TenantID t) (account_balances db) (posting_deltas upsertPostedBalance (t_Postings t)) m /\
    exists at_ ev, t_PostedAt t = Some at_ /\ evs = [ev] /\
      event (t_TenantID t) TopicTransactionPosted (PTransactionPosted (NewTransactionPostedEvent t at_)) ev
  else
    bal_steps (accounts db) (t_TenantID t) (account_balances db) (posting_deltas upsertPendingBalance (t_Postings t)) m /\
    evs = [].

Lemma createTransactionTx_ok t fp ids now db r st :
  new_tx_ok t -> length fp = 32%nat ->
  createTransactionTx t fp (mkTx db [] ids now) = Ok (r, st) ->
  r = (t, false) /\ change (t_TenantID t) db (tx_db st) /\
  tx_fresh db t /\ exists m evs, tx_db st = record_tx t m fp evs db /\ recorded_as db t m evs.
Proof.
  intros (Hwf & Hvb & Hrb & Hrv & Hst) Hlen Hrun. unfold createTransactionTx in Hrun. cbv zeta in Hrun.
  apply tx_bind_ok in Hrun as (x1 & st1 & H1 & Hrun).
  apply requireLedger_ok in H1 as (-> & l & Hl & Hlt). cbn in Hl.
  apply tx_bind_ok in Hrun as (x2 & st2 & H2 & Hrun). apply checkAccounts_ok in H2 as (-> & Hacc).
  apply tx_bind_ok in Hrun as (x3 & st3 & H3 & Hrun).
  apply insertTransactionTx_ok in H3 as (_ & Hn & Hk & Hnd & Hf & E3). cbn in Hacc, Hn, Hk, Hf, E3.
  apply (ValidateBalanced_ok _ Hwf) in Hvb as (Hlen2 & Hok & _ & Hbal).
  assert (Hlegs : legs_ok db t) by done.
  assert (Hown : own_accounts (tx_db st3) (t_TenantID t) (t_Postings t))
    by (rewrite E3; by eapply own_of_ledger).
  apply tx_bind_ok in Hrun as (x4 & st4 & H4 & Hrun).
  apply tx_bind_ok in Hrun as (x5 & st5 & H5 & Hrun). apply tx_ret_ok in Hrun as [-> ->].
  apply storeIdempotentResponse_ok in H5 as (_ & Hik & E5). split; [done|].
  case_decide as Hs.
  - apply tx_bind_ok in H4 as (x6 & st6 & H6 & H7).
    apply applyBalances_ok in H6 as (m & Hm & ->); [|done].
    apply insertOutbox_ok in H7 as (ev & Hev & E7). cbn in E7. rewrite E3 in Hm, E7.
    rewrite E7 in E5, Hik. cbn in E5, Hik, Hm.
    destruct Hst as [[? _]|[_ [at_ Hat]]]; [congruence|]. rewrite Hat in Hev.
    assert (E : tx_db st5 = record_tx t m fp [ev] db) by exact E5.
    assert (Hfresh : tx_fresh db t) by done. split; [rewrite E; by eapply ch_posted|].
    split; [done|]. exists m, [ev]. split; [done|]. unfold recorded_as. rewrite decide_True by done.
    split; [done|]. by exists at_, ev.
  - apply applyBalances_ok in H4 as (m & Hm & ->); [|done]. cbn in E5, Hik. rewrite E3 in Hm, E5, Hik.
    cbn in E5, Hik, Hm. destruct Hst as [[? ?]|[? _]]; [|congruence].
    assert (E : tx_db st5 = record_tx t m fp [] db).
    { rewrite E5. unfold record_tx, set_idempotency_keys. cbn. by rewrite app_nil_r. }
    assert (Hfresh : tx_fresh db t) by done. split; [rewrite E; by eapply ch_draft|].
    split; [done|]. exists m, []. split; [done|]. unfold recorded_as. by rewrite decide_False.
Qed.

(** A replay serves a stored response whose fingerprint does not differ. *)
Definition replays (src : DB) (tenant : uuid) (key : string) (fp : list Z) (t : Transaction) : Prop :=
  exists hash, lookupIdempotentTx tenant key src = Some (t, hash) /\ hash_conflict hash fp = false.

Lemma retry_lookup_ok tenant key fp e db r db' :
  retry_lookup tenant key fp e db = Ok (r, db') ->
  db' = db /\ r.2 = true /\ replays db tenant key fp r.1.
Proof.
  unfold retry_lookup, replays. destruct (isUniqueViolation e); [|done].
  destruct (lookupIdempotentTx tenant key db) as [[t h]|]; [|done].
  destruct (hash_conflict h fp) eqn:E; [done|]. intros [= <- <-]. cbn. eauto.
Qed.

Lemma fingerprint_length t : length (transactionFingerprint t) = 32%nat.
Proof. apply sha256_json_length. Qed.

Lemma CreateTransaction_ok seen t ids now db t' replayed db' :
  new_tx_ok t -> CreateTransaction seen t ids now db = Ok ((t', replayed), db') ->
  (replayed = true /\ db' = db /\ exists src, (src = seen \/ src = db) /\
     replays src (t_TenantID t) (t_IdempotencyKey t) (transactionFingerprint t) t') \/
  (replayed = false /\ t' = t /\ change (t_TenantID t) db db' /\
   lookupIdempotentTx (t_TenantID t) (t_IdempotencyKey t) seen = None /\
   tx_fresh db t /\ exists m evs, db' = record_tx t m (transactionFingerprint t) evs db /\ recorded_as db t m evs).
Proof.
  intros Hok Hrun. unfold CreateTransaction in Hrun. cbv zeta in Hrun.
  destruct (WithTenantTx _ _ ids now db) as [[r1 db1]|e] eqn:E.
  - injection Hrun as -> ->. apply WithTenantTx_ok in E as (_ & st & Hbody & ->).
    destruct (lookupIdempotentTx _ _ seen) as [[stored h]|] eqn:Hl.
    + destruct (hash_conflict h _) eqn:Hc; [by apply throw_ok in Hbody|].
      apply tx_ret_ok in Hbody as [[= -> ->] ->]. left. cbn. unfold replays. eauto 10.
    + apply createTransactionTx_ok in Hbody as ([= -> ->] & Hch & Hnone & m & evs & Em & Hrec);
        [|done|apply fingerprint_length].
      right. split_and!; eauto.
  - apply retry_lookup_ok in Hrun as (-> & ? & ?). left. eauto 10.
Qed.

Lemma loadTransactionTx_ok tenant id st t st' :
  loadTransactionTx tenant id st = Ok (t, st') ->
  st' = st /\ exists t0, transactions (tx_db st) !! id = Some t0 /\ t_TenantID t0 = tenant /\
    t = with_postings t0 (loadPostings tenant id (tx_db st)).
Proof.
  intros Hrun. unfold loadTransactionTx in Hrun. apply tx_bind_ok in Hrun as (db & st1 & Hd & Hrun).
  apply get_db_ok in Hd as [-> ->].
  destruct (find_transaction tenant id (tx_db st)) as [t0|] eqn:E; [|done].
  apply tx_ret_ok in Hrun as [-> ->]. apply find_transaction_some in E as [? ?]. eauto 10.
Qed.

Lemma update_transaction_ok tenant id f st u st' t :
  transactions (tx_db st) !! id = Some t -> t_TenantID t = tenant ->
  update_transaction tenant id f st = Ok (u, st') ->
  transactions_guard t (f t) = true /\
  tx_db st' = set_transactions (<[id := f t]> (transactions (tx_db st))) (tx_db st).
Proof.
  intros Ht Hten Hrun. unfold update_transaction in Hrun.
  apply tx_bind_ok in Hrun as (db & st1 & Hd & Hrun). apply get_db_ok in Hd as [-> ->].
  rewrite (proj2 (find_transaction_some tenant id (tx_db st) t)) in Hrun by done.
  clear Hten. inv_tx Hrun. done.
Qed.

(** Balance rows exist for every leg of a recorded draft. *)
Lemma draft_rows db id t p :
  Inv db -> transactions db !! id = Some t -> t_Status t = TransactionDraft ->
  p ∈ loadPostings (t_TenantID t) id db ->
  exists r, account_balances db !! pkey p = Some r /\ br_TenantID r = t_TenantID t.
Proof.
  intros I Ht Hs Hp. destruct (loaded_legs _ _ _ _ (inv_wf _ I) Ht eq_refl) as (_ & _ & Hlegs).
  rewrite Forall_forall in Hlegs. destruct (Hlegs p Hp) as (Hu & Hd & a & Ha & Hat & _).
  assert (Hrow : exists r, r ∈ postings db /\ posting_of_row r = p /\ pr_TransactionID r = id).
  { rewrite (loadPostings_perm _ _ _ _ (inv_wf _ I) Ht eq_refl) in Hp.
    apply list_elem_of_In, in_map_iff in Hp as (r & <- & Hr).
    apply list_elem_of_In, list_elem_of_filter in Hr as [? ?]. eauto. }
  destruct Hrow as (r0 & Hr0 & Hr0p & Hr0t).
  destruct (account_balances db !! pkey p) as [r|] eqn:Er.
  - exists r. split; [done|]. destruct (wf_balances _ (inv_wf _ I) _ _ Er) as (_ & a' & Ha' & ?).
    cbn in Ha'. congruence.
  - exfalso.
    set (c := match p_Direction p with DirectionDebit => PendingDebits | _ => PendingCredits end).
    pose proof (inv_consistent _ I c (pkey p)) as Hc. unfold stored in Hc. rewrite Er in Hc.
    assert (Hpos : 0 < posted_sum db c (pkey p)).
    { unfold posted_sum.
      set (f := fun r => contrib c (pkey p) (status_of db (pr_TransactionID r)) (posting_of_row r)).
      apply (Z.lt_le_trans _ (f r0)); [|apply sumZ_elem; [|done]]; unfold f.
      - rewrite Hr0p, Hr0t. unfold contrib, status_of. rewrite Ht, Hs, decide_True by done.
        unfold c. revert Hd.
        destruct (p_Direction p); intros; cbn [counts];
          rewrite ?bool_decide_eq_true_2 by done; cbn; lia || done.
      - intros r Hr. destruct (wf_postings _ (inv_wf _ I) r Hr) as (? & _ & _).
        unfold contrib. cbn. case_decide; [|done]. case_match; lia. }
    destruct c eqn:Ec; unfold computed in Hc; try lia. unfold c in Ec. by destruct (p_Direction p).
Qed.

Lemma PostTransaction_ok tenant id ids now db t' db' :
  Inv db -> PostTransaction tenant id ids now db = Ok (t', db') ->
  exists t, transactions db !! id = Some t /\ t_TenantID t = tenant /\
    ((t_Status t = TransactionPosted /\ db' = db /\
      t' = with_postings t (loadPostings tenant id db)) \/
     (t_Status t = TransactionDraft /\ change tenant db db' /\
      transactions db' = <[id := set_lifecycle t TransactionPosted (Some now) (t_ReversedByID t)]>
                           (transactions db) /\
      t' = set_lifecycle (with_postings t (loadPostings tenant id db)) TransactionPosted (Some now)
             (t_ReversedByID t))).
Proof.
  intros I Hrun. unfold PostTransaction in Hrun. rewrite map_err_ok in Hrun.
  apply WithTenantTx_ok in Hrun as (_ & st & Hrun & ->). unfold postTransactionTx in Hrun.
  apply tx_bind_ok in Hrun as (t1 & st1 & Hload & Hrun).
  apply loadTransactionTx_ok in Hload as (-> & t & Ht & Hten & ->). cbn in Ht, Hten, Hrun.
  exists t. split; [done|]. split; [done|].
  destruct (wf_transactions _ (inv_wf _ I) _ _ Ht) as (_ & _ & Hlc & _). unfold lifecycle_wf in Hlc.
  destruct (t_Status t) eqn:Hs; [|by apply tx_ret_ok in Hrun as [-> ->]; left|done|done]. right.
  apply tx_bind_ok in Hrun as (x2 & st2 & H2 & Hrun).
  apply (update_transaction_ok _ _ _ _ _ _ t) in H2 as [_ E2]; [|done|done]. cbn in E2.
  apply tx_bind_ok in Hrun as (x3 & st3 & H3 & Hrun).
  destruct (loaded_legs _ _ _ _ (inv_wf _ I) Ht Hten) as (_ & _ & Hlegs).
  apply promoteBalances_ok in H3 as (m & Hm & ->).
  2: { rewrite E2. eapply Forall_impl; [exact Hlegs|]. intros p (_ & _ & a & ? & ? & _).
       exists a. cbn. split; congruence. }
  2: { rewrite E2. apply Forall_forall. intros p Hp. cbn. rewrite <- Hten in Hp |- *.
       by eapply draft_rows. }
  apply tx_bind_ok in Hrun as (x4 & st4 & H4 & Hrun). apply tx_ret_ok in Hrun as [-> ->].
  apply insertOutbox_ok in H4 as (ev & Hev & E4). cbn in E4. rewrite E2 in Hm, E4. cbn in Hm, E4.
  split; [done|]. rewrite E4. split; [|done].
  by eapply (ch_post tenant db id t m now ev).
Qed.

(** *** Reversal *)

Lemma ReverseTransaction_ok seen tenant id key reason ids now db t' replayed db' :
  Inv db -> ReverseTransaction seen tenant id key reason ids now db = Ok ((t', replayed), db') ->
  (replayed = true /\ db' = db /\ exists src, (src = seen \/ src = db) /\
     replays src tenant (effective_key id key) (reverseFingerprint id reason) t') \/
  (replayed = false /\ change tenant db db' /\
   exists t, transactions db !! id = Some t /\ t_TenantID t = tenant /\
     t_Status t = TransactionPosted /\
     t_ReversesID t' = Some id /\ t_IdempotencyKey t' = effective_key id key /\
     transactions db' !! id
       = Some (set_lifecycle t TransactionReversed (t_PostedAt t) (Some (t_ID t'))) /\
     transactions db' !! t_ID t' = Some (transaction_row t') /\
     mirrors (loadPostings tenant id db) (t_Postings t') /\
     idempotency_keys db' = <[(tenant, effective_key id key) :=
         mkIdemRow 201 (json_snapshot t') (reverseFingerprint id reason)]> (idempotency_keys db)).
Proof.
  intros I Hrun. unfold ReverseTransaction in Hrun. cbv zeta in Hrun.
  destruct (WithTenantTx _ _ ids now db) as [[r1 db1]|e] eqn:E;
    [|apply retry_lookup_ok in Hrun as (-> & ? & ?); left; eauto 10].
  injection Hrun as -> ->. apply WithTenantTx_ok in E as (_ & st & Hrun & ->).
  destruct (lookupIdempotentTx _ _ seen) as [[stored_ h]|] eqn:Hl.
  { destruct (hash_conflict h _) eqn:Hc; [by apply throw_ok in Hrun|].
    apply tx_ret_ok in Hrun as [[= -> ->] ->]. left. cbn. unfold replays. eauto 10. }
  clear Hl. right. unfold reverseTransactionTx in Hrun. cbv zeta in Hrun.
  apply tx_bind_ok in Hrun as (o & st1 & H1 & Hrun).
  apply loadTransactionTx_ok in H1 as (-> & t & Ht & Hten & ->). cbn in Ht.
  apply tx_bind_ok in Hrun as (rid & st2 & H2 & Hrun). apply fresh_ok in H2 as [E2 _].
  apply tx_bind_ok in Hrun as (rev0 & st3 & H3 & Hrun). unfold reverseTx in H3.
  destruct (Reverse _ rid now (supply st2)) as [[rev1 ids']|] eqn:Er; [|done].
  injection H3 as -> <-. apply Reverse_ok in Er as (Hs & Hrb & Er & Hm & _). cbn in Hs, Hrb, Hm.
  destruct (wf_transactions _ (inv_wf _ I) _ _ Ht) as (Hid & _ & _ & (l & Hl & Hlt) & _).
  set (rev := label_reversal rev0 _ _) in Hrun.
  assert (Hfields : t_TenantID rev = tenant /\ t_LedgerID rev = t_LedgerID t /\
    t_Status rev = TransactionPosted /\ t_PostedAt rev = Some now /\ t_ReversedByID rev = None /\
    t_ReversesID rev = Some id /\ t_IdempotencyKey rev = effective_key id key /\
    mirrors (loadPostings tenant id db) (t_Postings rev)).
  { unfold rev. cbn. rewrite Er. cbn. unfold effective_key. rewrite Hid.
    by split_and!; try case_decide. }
  destruct Hfields as (F1 & F2 & F3 & F4 & F5 & F6 & F7 & F8). clearbody rev. clear Er Hm rev0.
  apply tx_bind_ok in Hrun as (x4 & st4 & H4 & Hrun).
  apply insertTransactionTx_ok in H4 as (_ & Hn & Hk & Hnd & Hf & E4). cbn in Hn, Hk, Hf, E4.
  rewrite E2 in Hn, Hk, Hf, E4. cbn in Hn, Hk, Hf, E4.
  destruct (reversal_legs _ _ _ _ _ (inv_wf _ I) Ht Hten F1 F2 F8) as (_ & _ & Hlegs).
  apply tx_bind_ok in Hrun as (x5 & st5 & H5 & Hrun). apply applyBalances_ok in H5 as (m & Hm & ->).
  2: { rewrite E4. eapply Forall_impl; [exact Hlegs|]. intros p (_ & _ & a & ? & ? & _).
       exists a. cbn. split; congruence. }
  assert (Hne : id <> t_ID rev) by congruence.
  apply tx_bind_ok in Hrun as (x6 & st6 & H6 & Hrun).
  apply (update_transaction_ok _ _ _ _ _ _ t) in H6 as [_ E6]; [|cbn; rewrite E4; cbn|done].
  2: by rewrite lookup_insert_ne.
  apply tx_bind_ok in Hrun as (x7 & st7 & H7 & Hrun).
  apply storeIdempotentResponse_ok in H7 as (_ & Hik & E7).
  apply tx_bind_ok in Hrun as (x8 & st8 & H8 & Hrun). apply tx_ret_ok in Hrun as [[= -> ->] ->].
  apply insertOutbox_ok in H8 as (ev & Hev & E8).
  cbn in E6. rewrite E4 in Hm, E6. cbn in Hm, E6. rewrite E6 in Hik, E7. cbn in Hik, E7.
  rewrite E7 in E8. cbn in E8. cbn in Hev. rewrite Hid in Hev. rewrite F1, F7 in Hik, E8.
  split; [done|].
  assert (E : tx_db st8 = (let db1 := record_tx rev m (reverseFingerprint id reason) [ev] db in
       set_transactions (<[id := set_lifecycle t TransactionReversed (t_PostedAt t) (Some (t_ID rev))]>
         (transactions db1)) db1)).
  { rewrite E8. unfold record_tx. cbn. by rewrite F1, F7. }
  rewrite E. split.
  - eapply (ch_reverse tenant db id t rev m _ reason now ev); try done.
    + split_and!; try done. by rewrite F1, F7.
    + apply sha256_json_length.
  - exists t. cbn. rewrite lookup_insert_eq, lookup_insert_ne, lookup_insert_eq, F1, F7 by done.
    split_and!; done.
Qed.
(** *** Holds *)

Lemma lookupHoldTx_some tenant key db h hash :
  lookupHoldTx tenant key db = Some (h, hash) ->
  exists id r, holds db !! id = Some r /\ hr_Hold r = h /\ hr_RequestHash r = hash /\
    h_TenantID h = tenant /\ h_IdempotencyKey h = key.
Proof.
  unfold lookupHoldTx. destruct (List.find _ _) as [[id r]|] eqn:E; cbn; [|done].
  intros [= <- <-]. apply find_some in E as [Hin Hk]. apply list_elem_of_In, elem_of_map_to_list in Hin.
  cbn in Hk. apply bool_decide_true in Hk as [? ?]. eauto 10.
Qed.

Definition new_hold_ok (h : Hold) : Prop :=
  h_Status h = HoldActive /\ Units (h_Amount h) <= max_int64.

Lemma createHoldTx_ok h fp ids now db r st :
  new_hold_ok h -> length fp = 32%nat ->
  createHoldTx h fp (mkTx db [] ids now) = Ok (r, st) ->
  change (h_TenantID h) db (tx_db st) /\
  exists a, accounts db !! h_AccountID h = Some a /\ a_TenantID a = h_TenantID h /\
    r = (set_hold_ledger h (a_LedgerID a), false) /\
    Units (h_Amount h) <= Available (available_balance (h_TenantID h) h db) (a_NormalBalance a) /\
    holds (tx_db st) = <[h_ID h := hold_row (set_hold_ledger h (a_LedgerID a)) fp]> (holds db) /\
    holds db !! h_ID h = None /\
    postings (tx_db st) = postings db /\ transactions (tx_db st) = transactions db.
Proof.
  intros [Hs Hmax] Hlen Hrun. unfold createHoldTx in Hrun. cbv zeta in Hrun.
  apply tx_bind_ok in Hrun as (a1 & st1 & H1 & Hrun). unfold getAccountTx in H1.
  apply tx_bind_ok in H1 as (d1 & s1 & Hd & H1). apply get_db_ok in Hd as [-> ->]. cbn in H1.
  destruct (find_account _ _ db) as [a|] eqn:Ea; [|done]. apply tx_ret_ok in H1 as [-> ->].
  apply find_account_some in Ea as [Ha Hat].
  apply tx_bind_ok in Hrun as (x2 & st2 & H2 & Hrun). apply check_ok in H2 as [_ ->].
  apply tx_bind_ok in Hrun as (d3 & st3 & H3 & Hrun). apply get_db_ok in H3 as [-> ->].
  apply tx_bind_ok in Hrun as (x4 & st4 & H4 & Hrun). apply check_ok in H4 as [Hav ->]. cbn in Hav.
  apply negb_true_iff, Z.ltb_ge in Hav.
  set (h' := set_hold_ledger h (a_LedgerID a)) in *.
  apply tx_bind_ok in Hrun as (x5 & st5 & H5 & Hrun). unfold insert_hold_row in H5. inv_tx H5.
  apply tx_bind_ok in Hrun as (u6 & s6 & Hup & Hrun).
  apply (upsert_balance_ok _ _ _ _ _ _ _ a) in Hup as (m & Hm & ->); [|by split].
  apply tx_bind_ok in Hrun as (u7 & s7 & Hout & Hrun). apply tx_ret_ok in Hrun as [-> ->].
  apply insertOutbox_ok in Hout as (ev & Hev & E7). cbn in *. rewrite E7. split.
  - eapply (ch_hold (h_TenantID h) db h' a m fp ev); cbn; try done.
    + split; [|done]. by apply Z.ltb_lt.
    + intros id r Hr Hcl. match goal with H : negb (exists_in _ _) = true |- _ =>
        apply negb_true_iff in H; rewrite exists_in_false in H; specialize (H _ _ Hr) end.
      cbn in *. by case_bool_decide.
  - exists a. by split_and!.
Qed.

Lemma holdFingerprint_length h : length (holdFingerprint h) = 32%nat.
Proof. apply sha256_json_length. Qed.

Definition hold_replays (src : DB) (h : Hold) (t : Hold) : Prop :=
  exists hash, lookupHoldTx (h_TenantID h) (h_IdempotencyKey h) src = Some (t, hash) /\
    hash_conflict hash (holdFingerprint h) = false.

Lemma CreateHold_ok seen h ids now db h' replayed db' :
  new_hold_ok h -> CreateHold seen h ids now db = Ok ((h', replayed), db') ->
  (replayed = true /\ db' = db /\ exists src, (src = seen \/ src = db) /\ hold_replays src h h') \/
  (replayed = false /\ change (h_TenantID h) db db' /\
   exists a, accounts db !! h_AccountID h = Some a /\ a_TenantID a = h_TenantID h /\
     h' = set_hold_ledger h (a_LedgerID a) /\
     Units (h_Amount h) <= Available (available_balance (h_TenantID h) h db) (a_NormalBalance a) /\
     holds db' = <[h_ID h := hold_row h' (holdFingerprint h)]> (holds db) /\
   holds db !! h_ID h = None /\ postings db' = postings db /\ transactions db' = transactions db).
Proof.
  intros Hok Hrun. unfold CreateHold in Hrun. cbv zeta in Hrun. unfold hold_replays.
  destruct (WithTenantTx _ _ ids now db) as [[r1 db1]|e] eqn:E.
  - injection Hrun as -> ->. apply WithTenantTx_ok in E as (_ & st & Hbody & ->).
    destruct (lookupHoldTx _ _ seen) as [[stored_ h0]|] eqn:Hl.
    + destruct (hash_conflict h0 _) eqn:Hc; [by apply throw_ok in Hbody|].
      apply tx_ret_ok in Hbody as [[= -> ->] ->]. left. cbn. eauto 10.
    + apply createHoldTx_ok in Hbody as (Hch & a & Ha & Hat & [= -> ->] & Hav & Hh & Hn & HP & HT);
        [|done|apply holdFingerprint_length].
      right. split_and!; [done|done|]. exists a. by split_and!.
  - destruct (isUniqueViolation e); [|done].
    destruct (lookupHoldTx _ _ db) as [[stored_ h0]|] eqn:Hl; [|done].
    destruct (hash_conflict h0 _) eqn:Hc; [done|]. injection Hrun as <- <- <-. left. eauto 10.
Qed.

Lemma getHoldTx_ok tenant id st h st' :
  getHoldTx tenant id st = Ok (h, st') ->
  st' = st /\ exists r, holds (tx_db st) !! id = Some r /\ hr_Hold r = h /\ h_TenantID h = tenant.
Proof.
  intros Hrun. unfold getHoldTx in Hrun. apply tx_bind_ok in Hrun as (db & st1 & Hd & Hrun).
  apply get_db_ok in Hd as [-> ->].
  destruct (find_hold tenant id (tx_db st)) as [h0|] eqn:E; [|done].
  apply tx_ret_ok in Hrun as [-> ->]. split; [done|]. by apply find_hold_some.
Qed.

Lemma update_hold_ok tenant id f st u st' r :
  holds (tx_db st) !! id = Some r -> h_TenantID (hr_Hold r) = tenant ->
  update_hold tenant id f st = Ok (u, st') ->
  fk_transaction (h_CapturedTransactionID (f (hr_Hold r))) (tx_db st) = true /\
  tx_db st' = set_holds (<[id := mkHoldRow (f (hr_Hold r)) (hr_RequestHash r)]> (holds (tx_db st)))
                (tx_db st).
Proof.
  intros Hr Hten Hrun. unfold update_hold in Hrun.
  apply tx_bind_ok in Hrun as (db & st1 & Hd & Hrun). apply get_db_ok in Hd as [-> ->].
  rewrite (proj2 (find_hold_some tenant id (tx_db st) (hr_Hold r))), Hr in Hrun by eauto.
  clear Hten. inv_tx Hrun. done.
Qed.

Lemma releaseHeld_ok tenant h st u st' a :
  accounts (tx_db st) !! h_AccountID h = Some a /\ a_TenantID a = tenant ->
  releaseHeld tenant h st = Ok (u, st') ->
  exists m, bal_steps (accounts (tx_db st)) tenant (account_balances (tx_db st))
      [((h_AccountID h, Asset (h_Amount h)), mkDelta 0 0 0 0 (- Units (h_Amount h)))] m /\
    st' = with_db (set_account_balances m (tx_db st)) st.
Proof.
  intros Ha Hrun. unfold releaseHeld in Hrun. apply tx_bind_ok in Hrun as (hit & st1 & H1 & Hrun).
  apply check_ok in Hrun as [-> ->].
  by destruct (update_balance_ok _ _ _ _ _ _ _ a Ha H1) as [(? & _)|(_ & _ & ?)].
Qed.

(** The tables after closing the hold [id]. *)
Definition hold_closed (tenant id : uuid) (r : HoldRow) (h' : Hold) (topic : string) (data : payload) (db db' : DB) : Prop :=
  exists m ev, event tenant topic data ev /\
    db' = set_outbox (outbox db ++ [ev]) (set_account_balances m
            (set_holds (<[id := mkHoldRow h' (hr_RequestHash r)]> (holds db)) db)).

(** Both ways to close a hold end in the same statements. *)
Lemma close_hold_ok tenant id r db status captured topic data st1 st2 st3 st4 u1 u2 u3 :
  Inv db -> holds db !! id = Some r -> h_TenantID (hr_Hold r) = tenant ->
  h_Status (hr_Hold r) = HoldActive -> status = HoldCaptured \/ status = HoldReleased ->
  tx_db st1 = db ->
  (forall tid, captured = Some tid -> exists t, transactions db !! tid = Some t /\ t_TenantID t = tenant) ->
  update_hold tenant id (fun old => set_hold_status old status
     (if decide (status = HoldCaptured) then captured else h_CapturedTransactionID old)) st1
    = Ok (u1, st2) ->
  releaseHeld tenant (hr_Hold r) st2 = Ok (u2, st3) ->
  insertOutbox tenant topic tenant data st3 = Ok (u3, st4) ->
  close_event (hr_Hold r) status
    (if decide (status = HoldCaptured) then captured else h_CapturedTransactionID (hr_Hold r))
    topic data ->
  change tenant db (tx_db st4) /\
  hold_closed tenant id r (set_hold_status (hr_Hold r) status
      (if decide (status = HoldCaptured) then captured else h_CapturedTransactionID (hr_Hold r)))
    topic data db (tx_db st4).
Proof.
  intros I Hr Hten Hact Hst E1 Hcap H1 H2 H3 Hcl.
  destruct (wf_holds _ (inv_wf _ I) _ _ Hr) as (_ & _ & a & Ha & Hat & _). subst db.
  apply (update_hold_ok _ _ _ _ _ _ r Hr Hten) in H1 as [Hfk E2]. cbn in Hfk.
  apply (releaseHeld_ok _ _ _ _ _ a) in H2 as (m & Hm & ->);
    [|rewrite E2; cbn; split; congruence].
  apply insertOutbox_ok in H3 as (ev & Hev & E4). cbn in E4. rewrite E2 in Hm, E4. cbn in Hm, E4.
  rewrite E4. split; [|by exists m, ev]. eapply ch_close_hold; try done.
  intros tid Htid. case_decide; [by apply Hcap|].
  destruct (inv_captures _ I _ _ _ Hr Htid) as (t & Ht & E). exists t. split; [done|congruence].
Qed.

Lemma CaptureHold_ok tenant id amount tid ids now db h' db' :
  Inv db -> CaptureHold tenant id amount tid ids now db = Ok (h', db') ->
  exists r, holds db !! id = Some r /\ h_TenantID (hr_Hold r) = tenant /\
    h_Status (hr_Hold r) = HoldActive /\ h' = set_hold_status (hr_Hold r) HoldCaptured tid /\
    change tenant db db' /\
    let captured := default (h_Amount (hr_Hold r)) amount in
    Asset captured = Asset (h_Amount (hr_Hold r)) /\ Units captured <= Units (h_Amount (hr_Hold r)) /\
    hold_closed tenant id r h' TopicHoldCaptured
      (PHoldCaptured (mkHoldCapturedEvent (h_ID (hr_Hold r)) (h_LedgerID (hr_Hold r)) (h_AccountID (hr_Hold r))
         (NewEventMoney captured)
         (if Units captured <? Units (h_Amount (hr_Hold r))
          then Some (NewEventMoney (mkAmount (Asset (h_Amount (hr_Hold r)))
                       (wrap64 (Units (h_Amount (hr_Hold r)) - Units captured))))
          else None) tid now)) db db'.
Proof.
  intros I Hrun. unfold CaptureHold in Hrun. rewrite map_err_ok in Hrun.
  apply WithTenantTx_ok in Hrun as (_ & st & Hrun & ->). unfold captureHoldTx in Hrun.
  apply tx_bind_ok in Hrun as (h & st1 & H1 & Hrun).
  apply getHoldTx_ok in H1 as (-> & r & Hr & <- & Hten). cbn in Hr.
  apply tx_bind_ok in Hrun as (x2 & st2 & H2 & Hrun). apply check_ok in H2 as [Hact ->].
  apply bool_decide_true in Hact.
  apply tx_bind_ok in Hrun as (cap & st3 & H3 & Hrun).
  assert (st3 = mkTx db [] ids now /\ cap = default (h_Amount (hr_Hold r)) amount /\
    Asset cap = Asset (h_Amount (hr_Hold r)) /\ Units cap <= Units (h_Amount (hr_Hold r))) as (-> & -> & Hasset & Hle).
  { destruct amount; [|by apply tx_ret_ok in H3 as [-> ->]].
    apply tx_bind_ok in H3 as (? & ? & Hc1 & H3). apply check_ok in Hc1 as [E1%bool_decide_true ->].
    apply tx_bind_ok in H3 as (? & ? & Hc2 & H3). apply check_ok in Hc2 as [E2%negb_true_iff%Z.ltb_ge ->].
    by apply tx_ret_ok in H3 as [-> ->]. }
  apply tx_bind_ok in Hrun as (x4 & st4 & H4 & Hrun).
  assert (st4 = mkTx db [] ids now /\ forall tx, tid = Some tx ->
            exists t, transactions db !! tx = Some t /\ t_TenantID t = tenant) as [-> Hcap].
  { destruct tid as [tx|]; [|by apply tx_ret_ok in H4 as [_ ->]].
    apply tx_bind_ok in H4 as (? & ? & Hd & H4). apply get_db_ok in Hd as [-> ->].
    apply check_ok in H4 as [Hf ->]. split; [done|]. intros tx' [= <-].
    apply bool_decide_true in Hf as [t Hf]. apply find_transaction_some in Hf. naive_solver. }
  apply tx_bind_ok in Hrun as (x5 & st5 & H5 & Hrun).
  apply tx_bind_ok in Hrun as (x6 & st6 & H6 & Hrun). cbv zeta in Hrun.
  apply tx_bind_ok in Hrun as (x7 & st7 & H7 & Hrun). apply tx_ret_ok in Hrun as [-> ->].
  rewrite Hten in H7.
  destruct (close_hold_ok tenant id r db HoldCaptured tid _ _ (mkTx db [] ids now) _ _ _ _ _ _ I Hr Hten Hact
    (or_introl eq_refl) eq_refl Hcap H5 H6 H7) as (Hch & Hcl); [left; eauto 10|].
  exists r. cbn zeta. by split_and!.
Qed.

Lemma ReleaseHold_ok tenant id ids now db h' db' :
  Inv db -> ReleaseHold tenant id ids now db = Ok (h', db') ->
  exists r, holds db !! id = Some r /\ h_TenantID (hr_Hold r) = tenant /\
    h_Status (hr_Hold r) = HoldActive /\
    h' = set_hold_status (hr_Hold r) HoldReleased (h_CapturedTransactionID (hr_Hold r)) /\
    change tenant db db' /\
    hold_closed tenant id r h' TopicHoldReleased
      (PHoldReleased (mkHoldReleasedEvent (h_ID (hr_Hold r)) (h_LedgerID (hr_Hold r)) (h_AccountID (hr_Hold r))
         (NewEventMoney (h_Amount (hr_Hold r))) "released" now)) db db'.
Proof.
  intros I Hrun. unfold ReleaseHold in Hrun. rewrite map_err_ok in Hrun.
  apply WithTenantTx_ok in Hrun as (_ & st & Hrun & ->). unfold releaseHoldTx in Hrun.
  apply tx_bind_ok in Hrun as (h & st1 & H1 & Hrun).
  apply getHoldTx_ok in H1 as (-> & r & Hr & <- & Hten). cbn in Hr.
  apply tx_bind_ok in Hrun as (x2 & st2 & H2 & Hrun). apply check_ok in H2 as [Hact ->].
  apply bool_decide_true in Hact.
  apply tx_bind_ok in Hrun as (x5 & st5 & H5 & Hrun).
  apply tx_bind_ok in Hrun as (x6 & st6 & H6 & Hrun).
  apply tx_bind_ok in Hrun as (x7 & st7 & H7 & Hrun). apply tx_ret_ok in Hrun as [-> ->].
  rewrite Hten in H7.
  destruct (close_hold_ok tenant id r db HoldReleased None _ _ (mkTx db [] ids now) _ _ _ _ _ _ I Hr Hten Hact
    (or_intror eq_refl) eq_refl ltac:(done) H5 H6 H7) as (Hch & Hcl); [right; eauto 10|].
  exists r. by split_and!.
Qed.
End Refinement.

(** ** Requests *)

Lemma make_postings_ok input ids ps ids' :
  make_postings input ids = Ok (ps, ids') ->
  Forall2 (fun i p => p_AccountID p = pi_AccountID i /\ p_Direction p = pi_Direction i /\
                      p_Amount p = pi_Amount i) input ps /\ ids = map p_ID ps ++ ids'.
Proof.
  revert ids ps. induction input as [|i input IH]; intros ids ps; cbn [make_postings].
  - intros [= <- <-]. split; [constructor|done].
  - unfold newID. destruct ids as [|id ids]; [done|]. cbn.
    destruct (make_postings input ids) as [[rest ids1]|] eqn:E; [|done]. cbn. intros [= <- <-].
    destruct (IH _ _ E) as [Hm ->]. split; [|done]. by constructor.
Qed.

Lemma make_postings_wf input ids ps ids' :
  Forall (fun p => amount_wf (pi_Amount p)) input ->
  make_postings input ids = Ok (ps, ids') -> postings_wf ps.
Proof.
  intros Hwf [Hm _]%make_postings_ok. unfold postings_wf.
  induction Hm as [|i p input ps (_ & _ & Ha) _ IH]; [constructor|].
  apply Forall_cons in Hwf as [? Hwf]. constructor; [by rewrite Ha|by apply IH].
Qed.

Section Requests.
Context `{Render, Digest}.

(** The transaction a creation request asks for, field by field; its ids are
    drawn from the generator, one for it and one for each posting. *)
Record requested (tenant : uuid) (i : CreateTransactionInput) (ids : list uuid) (now : time) (t : Transaction) : Prop := {
  rq_tenant : t_TenantID t = tenant;
  rq_ledger : t_LedgerID t = ci_LedgerID i;
  rq_key : t_IdempotencyKey t = ci_IdempotencyKey i;
  rq_reference : t_Reference t = ci_Reference i;
  rq_description : t_Description t = ci_Description i;
  rq_metadata : t_Metadata t = ci_Metadata i;
  rq_status : t_Status t = match ci_Status i with Some s => s | None => TransactionPosted end;
  rq_lifecycle : t_Status t = TransactionPosted /\ t_PostedAt t = Some now \/
                 t_Status t = TransactionDraft /\ t_PostedAt t = None;
  rq_effective : t_EffectiveAt t = match ci_EffectiveAt i with Some at_ => at_ | None => now end;
  rq_created : t_CreatedAt t = now;
  rq_unreversed : t_ReversedByID t = None /\ t_ReversesID t = None;
  rq_postings : Forall2 (fun leg p => p_AccountID p = pi_AccountID leg /\ p_Direction p = pi_Direction leg /\
                            p_Amount p = pi_Amount leg) (ci_Postings i) (t_Postings t);
  rq_ids : exists rest, ids = t_ID t :: map p_ID (t_Postings t) ++ rest
}.

Lemma svc_CreateTransaction_requested seen tenant i ids now db r db' :
  request_wf (ReqCreateTransaction i) ->
  svc_CreateTransaction (H := pgStore seen) tenant i ids now db = Ok (r, db') ->
  exists t ids', new_tx_ok t /\ requested tenant i ids now t /\
    CreateTransaction (default db seen) t ids' now db = Ok (r, db').
Proof.
  intros Hwf Hrun. unfold svc_CreateTransaction in Hrun.
  destruct (bad_name _); [done|]. destruct (_ =? _); [done|]. cbv zeta in Hrun.
  destruct (negb _) eqn:Hst; [done|]. apply negb_false_iff, bool_decide_true in Hst.
  destruct (1000 <? _); [done|].
  apply bind_ok in Hrun as ([id ids1] & H1 & Hrun). apply bind_ok in Hrun as ([ps ids2] & H2 & Hrun).
  apply bind_ok in Hrun as ([] & Hvb & Hrun). cbn in Hvb.
  exists (new_transaction tenant id now i (default TransactionPosted (ci_Status i)) ps), ids2.
  split_and!; [| |exact Hrun].
  - unfold new_tx_ok. cbn. split_and!; [by eapply make_postings_wf|done|done|done|].
    destruct Hst as [-> | ->]; [left|right]; cbn; eauto.
  - pose proof (make_postings_ok _ _ _ _ H2) as [Hps ->]. unfold newID in H1. destruct ids as [|id0 ids0]; [done|].
    injection H1 as <- ->. split; cbn; try done.
    + destruct Hst as [-> | ->]; [right|left]; by cbn.
    + by exists ids2.
Qed.

Lemma svc_CreateTransaction_ok seen tenant i ids now db r db' :
  request_wf (ReqCreateTransaction i) ->
  svc_CreateTransaction (H := pgStore seen) tenant i ids now db = Ok (r, db') ->
  exists t ids', new_tx_ok t /\ t_TenantID t = tenant /\ t_IdempotencyKey t = ci_IdempotencyKey i /\
    CreateTransaction (default db seen) t ids' now db = Ok (r, db').
Proof.
  intros Hwf (t & ids' & Hok & Hrq & Hrun)%svc_CreateTransaction_requested; [|done].
  exists t, ids'. split_and!; [done|apply Hrq|apply Hrq|done].
Qed.

Lemma svc_CreateHold_ok seen tenant i ids now db r db' :
  request_wf (ReqCreateHold i) ->
  svc_CreateHold (H := pgStore seen) tenant i ids now db = Ok (r, db') ->
  exists h ids', new_hold_ok h /\ h_TenantID h = tenant /\ h_IdempotencyKey h = hi_IdempotencyKey i /\
    h_Amount h = hi_Amount i /\ 0 < Units (h_Amount h) /\ h_AccountID h = hi_AccountID i /\
    CreateHold (default db seen) h ids' now db = Ok (r, db').
Proof.
  intros Hwf Hrun. unfold svc_CreateHold in Hrun.
  do 3 pass_guard Hrun. destruct (Z.leb_spec (Units (hi_Amount i)) 0); [done|]. pass_guard Hrun.
  apply bind_ok in Hrun as ([id ids1] & H2 & Hrun). cbv zeta in Hrun.
  refine (ex_intro _ _ (ex_intro _ ids1 (conj _ (conj _ (conj _ (conj _ (conj _ (conj _ Hrun))))))));
    cbn; try done.
  split; [done|]. cbn. cbn in Hwf. apply in_int64_spec in Hwf. lia.
Qed.

Lemma exec_change seen tenant r ids now db resp db' :
  Inv db -> request_wf r -> exec seen tenant r ids now db = Ok (resp, db') ->
  db' = db \/ change tenant db db'.
Proof.
  intros I Hwf Hrun. destruct r as [i|i|i|id|id i|i|id i|id]; cbn [exec] in Hrun.
  - apply bind_ok in Hrun as ([l d] & H1 & [= _ <-]). right. unfold svc_CreateLedger in H1.
    destruct (bad_name _); [done|]. apply bind_ok in H1 as ([id ids'] & _ & H1).
    apply bind_ok in H1 as ([u d'] & H1 & [= _ <-]). exact (CreateLedger_ok _ _ _ _ _ _ H1).
  - apply bind_ok in Hrun as ([a d] & H1 & [= _ <-]). right. unfold svc_CreateAccount in H1.
    destruct (bad_name _); [done|]. destruct (negb _); [done|]. destruct (negb _); [done|].
    destruct (_ =? _); [done|]. apply bind_ok in H1 as ([id ids'] & _ & H1).
    apply bind_ok in H1 as ([u d'] & H1 & [= _ <-]). exact (CreateAccount_ok _ _ _ _ _ _ H1).
  - apply bind_ok in Hrun as ([[t b] d] & H1 & [= _ <-]).
    apply svc_CreateTransaction_ok in H1 as (t0 & ids' & Hok & <- & _ & H1); [|done].
    apply CreateTransaction_ok in H1 as [(_ & -> & _)|(_ & _ & Hc & _)]; auto.
  - apply bind_ok in Hrun as ([t d] & H1 & [= _ <-]).
    apply PostTransaction_ok in H1 as (t0 & _ & _ & [(_ & -> & _)|(_ & Hc & _)]); auto.
  - apply bind_ok in Hrun as ([[t b] d] & H1 & [= _ <-]). unfold svc_ReverseTransaction in H1.
    destruct (255 <? _); [done|]. destruct (1024 <? _); [done|].
    apply ReverseTransaction_ok in H1 as [(_ & -> & _)|(_ & Hc & _)]; auto.
  - apply bind_ok in Hrun as ([[h b] d] & H1 & [= _ <-]).
    apply svc_CreateHold_ok in H1 as (h0 & ids' & Hok & <- & _ & _ & _ & _ & H1); [|done].
    apply CreateHold_ok in H1 as [(_ & -> & _)|(_ & Hc & _)]; auto.
  - apply bind_ok in Hrun as ([h d] & H1 & [= _ <-]). unfold svc_CaptureHold in H1.
    pass_guard H1.
    apply CaptureHold_ok in H1 as (r & _ & _ & _ & _ & Hc & _); auto.
  - apply bind_ok in Hrun as ([h d] & H1 & [= _ <-]).
    apply ReleaseHold_ok in H1 as (r & _ & _ & _ & _ & Hc & _); auto.
Qed.
(** C4: refinement. From any state that satisfies the invariants, a successful
    request - whatever committed state its idempotency lookup happened to read -
    is one abstract state change of its tenant or leaves every table exactly as
    it was, and the invariants hold again. *)
Theorem exec_refines seen tenant r ids now db resp db' :
  Inv db -> request_wf r -> exec seen tenant r ids now db = Ok (resp, db') ->
  (db' = db \/ change tenant db db') /\ Inv db'.
Proof.
  intros I Hwf Hrun. pose proof (exec_change _ _ _ _ _ _ _ _ I Hwf Hrun) as Hc. split; [done|].
  destruct Hc as [-> | Hc]; [done|by eapply Inv_change].
Qed.
End Requests.
