(* ===== verification/LedgerTheorems.v ===== *)
(** * Theorems about every history of the ledger service

    The invariants of [LedgerInv], [LedgerBalance] and [LedgerLinks] read as
    statements about the service: what holds in every reachable state and what
    each use case does. *)

From Stdlib Require Import Ascii String ZArith Lia.
From S2P Require Import Prelude Strconv Errors Money LedgerDomain LedgerEvents LedgerDb Httpx.
From S2P Require Import LedgerStore LedgerReports LedgerService LedgerSpec LedgerInv.
From S2P Require Import LedgerBalance LedgerLinks LedgerRefine.
Local Open Scope Z_scope.

(** ** Histories *)

Section Histories.
Context `{Render, Digest}.

Lemma history_Inv hs : history hs -> Forall Inv hs.
Proof.
  induction 1 as [|db past seen tenant r ids now resp db' _ IH _ Hwf Hrun].
  - constructor; [apply Inv_empty|constructor].
  - constructor; [|done]. apply Forall_cons in IH as [I _].
    destruct (exec_change _ _ _ _ _ _ _ _ I Hwf Hrun) as [-> | Hc]; [done|by eapply Inv_change].
Qed.

Lemma history_elem hs db : history hs -> db ∈ hs -> Inv db.
Proof. intros Hh. apply history_Inv in Hh. rewrite Forall_forall in Hh. apply Hh. Qed.

(** Requests run one after the other from an empty database; a failing one
    changes nothing. *)
Record call : Type := mkCall {
  k_tenant : uuid; k_request : request; k_ids : list uuid; k_now : time }.

Fixpoint run (calls : list call) (hs : list DB) : list DB :=
  match calls, hs with
  | c :: rest, db :: _ =>
      match exec None (k_tenant c) (k_request c) (k_ids c) (k_now c) db with
      | Ok (_, db') => run rest (db' :: hs)
      | Err _ => run rest hs
      end
  | _, _ => hs
  end.

Lemma run_history calls hs :
  Forall (fun c => request_wf (k_request c)) calls -> history hs -> history (run calls hs).
Proof.
  intros Hwf. revert hs. induction Hwf as [|c calls Hc _ IH]; intros hs Hh; [done|].
  cbn. destruct hs as [|db past]; [done|].
  destruct (exec _ _ _ _ _ db) as [[resp db']|e] eqn:E; apply IH; [|done].
  eapply history_step; eauto.
Qed.

Definition last_db (hs : list DB) : DB := match hs with db :: _ => db | [] => empty_db end.

Lemma last_db_elem hs : history hs -> last_db hs ∈ hs.
Proof. destruct 1; cbn; set_solver. Qed.
End Histories.

(** ** Sums over joined postings *)

Lemma joined_sum tenant db (f : PostingRow * Transaction -> Z) :
  sumZ f (joined_postings tenant db)
  = sumZ (fun r => if decide (pr_TenantID r = tenant)
                   then match find_transaction tenant (pr_TransactionID r) db with
                        | Some t => f (r, t) | None => 0 end else 0) (postings db).
Proof.
  unfold joined_postings, visible_postings. rewrite sumZ_omap, sumZ_filter. apply sumZ_ext.
  intros r _. case_decide; [|done]. by destruct (find_transaction _ _ _).
Qed.

(** The postings of a tenant's account are all visible to the tenant. *)
Lemma group_sum_all db tenant k a d cond :
  wf db -> accounts db !! k.1 = Some a -> a_TenantID a = tenant ->
  group_sum k d cond (joined_postings tenant db)
  = sumZ (fun r => if decide (pr_AccountID r = k.1 /\ pr_Asset r = k.2 /\ pr_Direction r = d)
                   then match transactions db !! pr_TransactionID r with
                        | Some t => if cond t then pr_Amount r else 0 | None => 0 end else 0)
      (postings db).
Proof.
  intros W Ha <-. unfold group_sum. rewrite joined_sum. apply sumZ_ext. intros r Hr.
  destruct (wf_postings _ W r Hr) as (_ & _ & t & Ht & Htt & _ & a' & Ha' & Hat' & _). cbn.
  rewrite Ht. destruct (decide (pr_TenantID r = a_TenantID a)) as [Et|Et].
  - rewrite (proj2 (find_transaction_some _ _ db t)) by (split; congruence). done.
  - rewrite decide_False; [done|]. intros (Ek & _). rewrite Ek in Ha'. congruence.
Qed.

Lemma group_sum_computed db tenant k a c d cond :
  wf db -> accounts db !! k.1 = Some a -> a_TenantID a = tenant ->
  (forall t d', counts c (t_Status t) d' = cond t && bool_decide (d' = d)) ->
  group_sum k d cond (joined_postings tenant db) = posted_sum db c k.
Proof.
  intros W Ha Hat Hc. rewrite (group_sum_all db tenant k a) by done.
  unfold posted_sum. apply sumZ_ext. intros r Hr.
  destruct (wf_postings _ W r Hr) as (_ & _ & t & Ht & _).
  unfold contrib, status_of, pkey. cbn. rewrite Ht, Hc. destruct k as [acct asset]. cbn.
  destruct (decide (pr_Direction r = d)) as [Ed|Ed].
  - rewrite bool_decide_eq_true_2, andb_true_r by done.
    repeat case_decide; naive_solver.
  - rewrite bool_decide_eq_false_2, andb_false_r by done.
    repeat case_decide; naive_solver.
Qed.

Lemma mapM_ok {A B} (f : A -> Tx B) l st :
  (forall a, a ∈ l -> exists b, f a st = Ok (b, st)) ->
  exists bs, mapM_ f l st = Ok (bs, st) /\ Forall2 (fun a b => f a st = Ok (b, st)) l bs.
Proof.
  induction l as [|a l IH]; intros Hf; cbn.
  - exists []. split; [done|constructor].
  - destruct (Hf a ltac:(set_solver)) as [b Hb]. destruct IH as (bs & Hbs & HF); [set_solver|].
    exists (b :: bs). split; [|by constructor]. unfold mbind, Tx_bind. by rewrite Hb, Hbs.
Qed.

Section Reports.
Context `{Render, Digest}.

(** A single-statement transaction that does not write. *)
Lemma WithTenantTx_read {A} tenant (fn : Tx A) ids now db a :
  tenant <> uuid_Nil -> fn (mkTx db [] ids now) = Ok (a, mkTx db [] ids now) ->
  WithTenantTx tenant fn ids now db = Ok (a, db).
Proof.
  intros Hn Hf. unfold WithTenantTx. rewrite (proj2 (Z.eqb_neq _ _)) by done. by rewrite Hf.
Qed.

Lemma verify_none db tenant ledgerID :
  Inv db -> verify_account_balances tenant ledgerID db = [].
Proof.
  intros I. unfold verify_account_balances. rewrite list_filter_none; [done|].
  intros d (k & <- & Hk)%list_elem_of_In%in_map_iff. apply list_elem_of_In in Hk.
  unfold verify_keys in Hk. apply list_elem_of_filter in Hk as [[a Ha] _].
  unfold account_in_ledger in Ha. destruct (find_account tenant k.1 db) as [a'|] eqn:Ea; [|done].
  apply find_account_some in Ea as [Ea Eat].
  assert (Hst : forall c, col c (default (zero_row tenant) (find_balance tenant k db))
                          = posted_sum db c k + held_col db c k).
  { intros c. rewrite <- computed_split, <- (inv_consistent _ I). unfold stored, find_balance.
    destruct (account_balances db !! k) as [r|] eqn:Er; cbn; [|by destruct c].
    destruct (wf_balances _ (inv_wf _ I) _ _ Er) as (_ & a1 & Ha1 & Hrt).
    rewrite decide_True by congruence. done. }
  pose proof (Hst PostedDebits) as H1. pose proof (Hst PostedCredits) as H2.
  pose proof (Hst PendingDebits) as H3. pose proof (Hst PendingCredits) as H4. cbn in H1, H2, H3, H4.
  unfold drifts, verify_row. cbn.
  rewrite (group_sum_computed db tenant k a' PostedDebits), (group_sum_computed db tenant k a' PostedCredits),
    (group_sum_computed db tenant k a' PendingDebits), (group_sum_computed db tenant k a' PendingCredits)
    by (done || apply (inv_wf _ I)).
  rewrite H1, H2, H3, H4, !Z.add_0_r, !Z.eqb_refl. done.
Qed.

(** in every reachable state the balance verifier, asked about any ledger
    the tenant owns, answers and reports no discrepancy: the stored posted and
    pending columns of every account equal the sums over its postings. *)
Theorem verify_balances_empty hs db tenant ledgerID l ids now :
  history hs -> db ∈ hs -> tenant <> uuid_Nil -> find_ledger tenant ledgerID db = Some l ->
  VerifyBalances tenant ledgerID ids now db = Ok ([], db).
Proof.
  intros Hh Hin Hn Hl. apply WithTenantTx_read; [done|].
  unfold requireLedger, mbind, Tx_bind, get_db, check. cbn. rewrite Hl.
  rewrite bool_decide_eq_true_2 by eauto. cbn. rewrite verify_none; [done|by eapply history_elem].
Qed.
End Reports.
