(* ===== verification/LedgerTrial.v ===== *)
(** * The trial balance always balances

    Per asset, the debits of a ledger's accounts equal their credits, now and
    at any past instant, because every transaction balances and lives in one
    ledger. *)

From Stdlib Require Import Ascii String ZArith Lia.
From S2P Require Import Prelude Strconv Errors Money LedgerDomain LedgerEvents LedgerDb Httpx.
From S2P Require Import LedgerStore LedgerReports LedgerService LedgerSpec LedgerInv.
From S2P Require Import LedgerBalance LedgerLinks LedgerRefine LedgerTheorems.
Local Open Scope Z_scope.

(** ** Totals *)

Definition asset_sum (f : TrialBalanceRow -> Z) (asset : string) (rows : list TrialBalanceRow) : Z :=
  sumZ (fun r => if decide (tbr_Asset r = asset) then f r else 0) rows.

Lemma asset_sum_snoc f asset rows r :
  asset_sum f asset (rows ++ [r])
  = asset_sum f asset rows + (if decide (tbr_Asset r = asset) then f r else 0).
Proof. unfold asset_sum. rewrite sumZ_app. cbn. lia. Qed.

Definition row_fits (r : TrialBalanceRow) : Prop :=
  in_int64 (tbr_Debits r) = true /\ in_int64 (tbr_Credits r) = true.

Definition totals_ok (rows : list TrialBalanceRow) (acc : list TrialBalanceTotal) : Prop :=
  (forall t, t ∈ acc ->
     tbt_Debits t = wrap64 (asset_sum tbr_Debits (tbt_Asset t) rows) /\
     tbt_Credits t = wrap64 (asset_sum tbr_Credits (tbt_Asset t) rows)) /\
  (forall r, r ∈ rows -> tbr_Asset r ∈ map tbt_Asset acc).

Lemma add_total_elem r acc t :
  NoDup (map tbt_Asset acc) -> t ∈ add_total r acc ->
  (tbt_Asset t <> tbr_Asset r /\ t ∈ acc) \/
  (tbt_Asset t = tbr_Asset r /\
   ((exists t0, t0 ∈ acc /\ tbt_Asset t0 = tbr_Asset r /\
       tbt_Debits t = wrap64 (tbt_Debits t0 + tbr_Debits r) /\
       tbt_Credits t = wrap64 (tbt_Credits t0 + tbr_Credits r)) \/
    ((tbr_Asset r ∉ map tbt_Asset acc) /\ tbt_Debits t = tbr_Debits r /\
       tbt_Credits t = tbr_Credits r))).
Proof.
  induction acc as [|t0 acc IH]; cbn; intros Hnd.
  - intros ->%list_elem_of_singleton. right. cbn. split; [done|]. right.
    split_and!; [apply not_elem_of_nil|done|done].
  - apply NoDup_cons in Hnd as [Hn Hnd]. case_decide as E.
    + intros [->|Hin]%elem_of_cons.
      * right. cbn. split; [done|]. left. exists t0. split_and!; [set_solver|done..].
      * left. split; [|set_solver]. intros Et. apply Hn. rewrite E, <- Et.
        by apply list_elem_of_In, in_map, list_elem_of_In.
    + intros [->|Hin]%elem_of_cons; [left; split; [done|set_solver]|].
      destruct (IH Hnd Hin) as [[? ?]|(? & [(t1 & ? & ? & ?)|(? & ? & ?)])].
      * left. set_solver.
      * right. split; [done|]. left. exists t1. set_solver.
      * right. split; [done|]. right. set_solver.
Qed.

Lemma add_total_assets r acc asset :
  asset ∈ map tbt_Asset (add_total r acc) <-> asset ∈ map tbt_Asset acc \/ asset = tbr_Asset r.
Proof.
  induction acc as [|t acc IH]; cbn; [set_solver|]. case_decide as E; cbn.
  - rewrite !elem_of_cons. rewrite E. set_solver.
  - rewrite !elem_of_cons, IH. tauto.
Qed.

Lemma add_total_nodup r acc : NoDup (map tbt_Asset acc) -> NoDup (map tbt_Asset (add_total r acc)).
Proof.
  induction acc as [|t acc IH]; cbn; intros Hnd; [repeat constructor; set_solver|].
  apply NoDup_cons in Hnd as [Hn Hnd]. case_decide as E; cbn; [by constructor|].
  constructor; [|by apply IH]. rewrite add_total_assets. naive_solver.
Qed.

Lemma fold_totals rows :
  Forall row_fits rows ->
  let acc := fold_left (fun acc r => add_total r acc) rows [] in
  totals_ok rows acc /\ NoDup (map tbt_Asset acc).
Proof.
  induction rows as [|r rows IH] using rev_ind; intros Hf; cbn.
  { split; [split; set_solver|constructor]. }
  apply Forall_app in Hf as [Hf Hr]. apply Forall_singleton in Hr as [Hd Hc].
  apply in_int64_spec in Hd, Hc. destruct (IH Hf) as [[Hsum Hall] Hnd]. clear IH.
  rewrite fold_left_app. cbn. set (acc := fold_left _ rows []) in *.
  split; [split|by apply add_total_nodup].
  - intros t Ht. rewrite !asset_sum_snoc.
    destruct (add_total_elem _ _ _ Hnd Ht) as [[Hne Hin]|[He Hcase]].
    + rewrite !decide_False, !Z.add_0_r by congruence. by apply Hsum.
    + rewrite He, !decide_True by done.
      destruct Hcase as [(t0 & Hin & He0 & -> & ->)|(Hni & -> & ->)].
      * destruct (Hsum t0 Hin) as [-> ->]. rewrite He0, !wrap64_add_l. done.
      * assert (Hz : forall f, asset_sum f (tbr_Asset r) rows = 0).
        { intros f. apply sumZ_zero. intros r' Hr'. rewrite decide_False; [done|].
          intros E. apply Hni. rewrite <- E. by apply Hall. }
        rewrite !Hz. cbn [Z.add]. by rewrite !wrap64_id by lia.
  - intros r' [Hr'|Hr']%elem_of_app; rewrite add_total_assets; [left; by apply Hall|].
    apply list_elem_of_singleton in Hr' as ->. by right.
Qed.

Lemma trial_totals_ok rows t :
  Forall row_fits rows -> t ∈ trial_totals rows ->
  tbt_Debits t = wrap64 (asset_sum tbr_Debits (tbt_Asset t) rows) /\
  tbt_Credits t = wrap64 (asset_sum tbr_Credits (tbt_Asset t) rows) /\
  tbt_Balanced t = (tbt_Debits t =? tbt_Credits t).
Proof.
  intros Hf Hin. unfold trial_totals in Hin. apply list_elem_of_In, in_map_iff in Hin as (t0 & <- & Hin).
  destruct (fold_totals rows Hf) as [[Hsum _] _]. apply list_elem_of_In, Hsum in Hin as [? ?]. by split_and!.
Qed.

(** ** Groups *)

Lemma group_keys_elem {K} `{EqDecision K} (l : list K) k : k ∈ group_keys l <-> k ∈ l.
Proof.
  induction l as [|k' l IH]; cbn; [done|].
  rewrite !elem_of_cons, list_elem_of_filter, IH. destruct (decide (k = k')); naive_solver.
Qed.

Lemma group_keys_nodup {K} `{EqDecision K} (l : list K) : NoDup (group_keys l).
Proof.
  induction l as [|k l IH]; cbn; constructor; [|by apply NoDup_filter].
  rewrite list_elem_of_filter. naive_solver.
Qed.

Section Trial.
Context (db : DB) (tenant ledgerID : uuid).
Hypothesis I : Inv db.

Definition in_ledger (acct : uuid) : bool := bool_decide (is_Some (account_in_ledger tenant ledgerID acct db)).

(** Amount of a posting on one side of one asset of the ledger, when its
    transaction satisfies [cond]. *)
Definition ledger_amount (d : Direction) (asset : string) (cond : Transaction -> bool) (r : PostingRow) : Z :=
  if decide (in_ledger (pr_AccountID r) = true /\ pr_Asset r = asset /\ pr_Direction r = d)
  then match transactions db !! pr_TransactionID r with
       | Some t => if cond t then pr_Amount r else 0 | None => 0 end
  else 0.

Lemma in_ledger_account acct :
  in_ledger acct = true <->
  exists a, accounts db !! acct = Some a /\ a_TenantID a = tenant /\ a_LedgerID a = ledgerID.
Proof.
  unfold in_ledger, account_in_ledger. rewrite bool_decide_eq_true.
  destruct (find_account tenant acct db) as [a|] eqn:E; cbn.
  - apply find_account_some in E as [Ha Ht]. case_decide as El.
    + split; [|by eauto]. intros _. eauto.
    + split; [by intros []|]. intros (a' & Ha' & _ & ?). congruence.
  - split; [by intros []|]. intros (a' & Ha' & Ht & _). exfalso.
    apply eq_None_not_Some in E. apply E. exists a'. by apply find_account_some.
Qed.

(** A transaction's postings are all in its ledger or all outside it, and
    balance. *)
Lemma ledger_side_equal asset cond :
  sumZ (ledger_amount DirectionDebit asset cond) (postings db)
  = sumZ (ledger_amount DirectionCredit asset cond) (postings db).
Proof.
  pose proof (inv_wf _ I) as W.
  set (ids := map fst (map_to_list (transactions db))).
  assert (Hnd : NoDup ids) by apply NoDup_fst_map_to_list.
  assert (Hin : forall r, r ∈ postings db -> pr_TransactionID r ∈ ids).
  { intros r Hr. destruct (wf_postings _ W r Hr) as (_ & _ & t & Ht & _).
    apply list_elem_of_In, in_map_iff. exists (pr_TransactionID r, t).
    split; [done|]. by apply list_elem_of_In, elem_of_map_to_list. }
  rewrite !(sumZ_group pr_TransactionID (ledger_amount _ _ _) _ ids) by auto.
  apply sumZ_ext. intros id Hid. apply list_elem_of_In, in_map_iff in Hid as ([i t] & <- & Hid).
  apply list_elem_of_In, elem_of_map_to_list in Hid. cbn.
  destruct (wf_transactions _ W _ _ Hid) as (_ & _ & _ & _ & _ & Hbal).
  rewrite <- !(sumZ_filter (fun r => pr_TransactionID r = i)). fold (rows_of db i).
  specialize (Hbal asset). unfold rows_side in Hbal.
  set (inl := bool_decide (t_TenantID t = tenant /\ t_LedgerID t = ledgerID)).
  assert (Heq : forall d, sumZ (ledger_amount d asset cond) (rows_of db i)
     = if inl && cond t
       then sumZ (fun r => if decide (pr_Direction r = d /\ pr_Asset r = asset) then pr_Amount r else 0)
              (rows_of db i)
       else 0).
  { intros d. destruct (inl && cond t) eqn:E.
    - apply andb_true_iff in E as [E1 E2]. apply bool_decide_eq_true in E1 as [Et El].
      apply sumZ_ext. intros r [Ei Hr]%list_elem_of_filter. unfold ledger_amount. rewrite Ei, Hid, E2.
      destruct (wf_postings _ W r Hr) as (_ & _ & t' & Ht' & ? & _ & a & Ha & ? & ?).
      assert (t' = t) as -> by congruence.
      assert (in_ledger (pr_AccountID r) = true)
        by (apply in_ledger_account; exists a; split_and!; congruence).
      repeat case_decide; naive_solver.
    - apply sumZ_zero. intros r [Ei Hr]%list_elem_of_filter. unfold ledger_amount. rewrite Ei, Hid.
      case_decide as Hc; [|done]. destruct Hc as [Hl _]. apply in_ledger_account in Hl as (a & Ha & Hat & Hal).
      destruct (wf_postings _ W r Hr) as (_ & _ & t' & Ht' & ? & _ & a' & Ha' & ? & ?).
      assert (t' = t) as -> by congruence.
      assert (inl = true) as Hinl by (apply bool_decide_eq_true; split; congruence).
      rewrite Hinl in E. cbn in E. by rewrite E. }
  rewrite !Heq. by destruct (inl && cond t).
Qed.

(** Total over a set of keys that covers every counted posting. *)
Lemma keys_total d asset cond (ks : list (uuid * string)) :
  NoDup ks ->
  (forall r t, r ∈ postings db -> in_ledger (pr_AccountID r) = true ->
     transactions db !! pr_TransactionID r = Some t -> cond t = true ->
     (pr_AccountID r, pr_Asset r) ∈ ks) ->
  sumZ (fun k : uuid * string => if decide (in_ledger k.1 = true /\ k.2 = asset)
                 then group_sum k d cond (joined_postings tenant db) else 0) ks
  = sumZ (ledger_amount d asset cond) (postings db).
Proof.
  pose proof (inv_wf _ I) as W. intros Hnd Hcov.
  rewrite (sumZ_group (fun r => (pr_AccountID r, pr_Asset r)) _ _ ks Hnd).
  - apply sumZ_ext. intros [acct x] _. cbn. case_decide as Hc.
    + destruct Hc as [Hl <-]. apply in_ledger_account in Hl as Ha. destruct Ha as (a & Ha & Hat & _).
      rewrite (group_sum_all db tenant (acct, x) a) by done. cbn. apply sumZ_ext. intros r _.
      unfold ledger_amount.
      destruct (decide ((pr_AccountID r, pr_Asset r) = (acct, x))) as [[= -> ->]|Hne].
      * repeat case_decide; naive_solver.
      * rewrite decide_False by naive_solver. done.
    + symmetry. apply sumZ_zero. intros r _. case_decide as Hk; [|done]. injection Hk as <- <-.
      unfold ledger_amount. rewrite decide_False by naive_solver. done.
  - intros r Hr Hne. unfold ledger_amount in Hne. case_decide as Hc; [|done].
    destruct (transactions db !! pr_TransactionID r) as [t|] eqn:Ht; [|done].
    destruct (cond t) eqn:Hct; [|done]. eapply Hcov; [done|by apply Hc|done|done].
Qed.
End Trial.

(** ** The report *)

Lemma row_in_range_col r c : row_in_range r = true -> in_int64 (col c r) = true.
Proof. unfold row_in_range. rewrite !andb_true_iff. intros. destruct c; cbn; tauto. Qed.

Lemma firm_group_sum db tenant k a :
  wf db -> accounts db !! k.1 = Some a -> a_TenantID a = tenant ->
  group_sum k DirectionDebit is_firm_tx (joined_postings tenant db) = posted_sum db PostedDebits k /\
  group_sum k DirectionCredit is_firm_tx (joined_postings tenant db) = posted_sum db PostedCredits k.
Proof. intros W Ha Ht. by split; eapply group_sum_computed. Qed.

Lemma group_sum_mono db tenant k d (cond cond' : Transaction -> bool) :
  wf db -> (forall t, cond t = true -> cond' t = true) ->
  0 <= group_sum k d cond (joined_postings tenant db)
    <= group_sum k d cond' (joined_postings tenant db).
Proof.
  intros W Himp. unfold group_sum. rewrite !joined_sum.
  assert (Hpos : forall r, r ∈ postings db -> 0 < pr_Amount r)
    by (intros r Hr; by destruct (wf_postings _ W r Hr) as [[? _] _]).
  split.
  - apply sumZ_nonneg. intros r Hr. specialize (Hpos r Hr). repeat case_match; cbn in *; lia.
  - apply Z.le_0_sub. rewrite <- sumZ_sub. apply sumZ_nonneg. intros r Hr. specialize (Hpos r Hr).
    case_decide; [|lia]. destruct (find_transaction _ _ _) as [t|]; [|lia]. cbn.
    case_decide; [|lia]. destruct (cond t) eqn:E; [rewrite (Himp _ E); lia|]. case_match; lia.
Qed.

Lemma stored_in_range db c k : Inv db -> in_int64 (stored c (account_balances db) k) = true.
Proof.
  intros I. unfold stored. destruct (account_balances db !! k) as [r|] eqn:E; [|done].
  destruct (wf_balances _ (inv_wf _ I) _ _ E) as [Hr _]. by apply row_in_range_col.
Qed.

Lemma firm_group_fits db tenant k a d cond :
  Inv db -> accounts db !! k.1 = Some a -> a_TenantID a = tenant ->
  d = DirectionDebit \/ d = DirectionCredit -> (forall t, cond t = true -> is_firm_tx t = true) ->
  in_int64 (group_sum k d cond (joined_postings tenant db)) = true.
Proof.
  intros I Ha Ht Hd Himp. destruct (firm_group_sum db tenant k a (inv_wf _ I) Ha Ht) as [E1 E2].
  pose proof (group_sum_mono db tenant k d cond is_firm_tx (inv_wf _ I) Himp) as Hm.
  assert (Hr : in_int64 (group_sum k d is_firm_tx (joined_postings tenant db)) = true).
  { destruct Hd as [-> | ->]; rewrite ?E1, ?E2.
    - change (in_int64 (computed db PostedDebits k) = true).
      rewrite <- (inv_consistent _ I). by apply stored_in_range.
    - change (in_int64 (computed db PostedCredits k) = true).
      rewrite <- (inv_consistent _ I). by apply stored_in_range. }
  apply in_int64_spec in Hr. apply in_int64_spec. unfold64. lia.
Qed.

Lemma mapM_scan rows st :
  Forall row_fits rows -> mapM_ scan_trial_row rows st = Ok (rows, st).
Proof.
  induction 1 as [|r rows [Hd Hc] _ IH]; [done|]. cbn [mapM_].
  assert (Hs : scan_trial_row r st = Ok (r, st)).
  { unfold scan_trial_row, scan_int64, mbind, Tx_bind, check. by rewrite Hd, Hc. }
  unfold mbind, Tx_bind. by rewrite Hs, IH.
Qed.

(** Rows whose sides agree per asset give balanced totals. *)
Lemma totals_balanced rows :
  Forall row_fits rows ->
  (forall asset, asset_sum tbr_Debits asset rows = asset_sum tbr_Credits asset rows) ->
  Forall (fun t => tbt_Balanced t = true /\ tbt_Debits t = tbt_Credits t) (trial_totals rows).
Proof.
  intros Hf Heq. apply Forall_forall. intros t Ht.
  destruct (trial_totals_ok rows t Hf Ht) as (-> & Ec & ->). rewrite Ec, Heq.
  split; [apply Z.eqb_refl|done].
Qed.

(** A firm posting's balance row exists. *)
Lemma firm_row db r t :
  Inv db -> r ∈ postings db -> transactions db !! pr_TransactionID r = Some t -> is_firm_tx t = true ->
  exists br, account_balances db !! (pr_AccountID r, pr_Asset r) = Some br /\
    exists a, accounts db !! pr_AccountID r = Some a /\ a_TenantID a = br_TenantID br.
Proof.
  intros I Hr Ht Hfirm. pose proof (inv_wf _ I) as W.
  destruct (account_balances db !! (pr_AccountID r, pr_Asset r)) as [br|] eqn:E.
  - exists br. split; [done|]. by destruct (wf_balances _ W _ _ E) as (_ & ?).
  - exfalso. destruct (wf_postings _ W r Hr) as (? & Hd & _).
    set (c := match pr_Direction r with DirectionDebit => PostedDebits | _ => PostedCredits end).
    pose proof (inv_consistent _ I c (pr_AccountID r, pr_Asset r)) as Hc.
    unfold stored in Hc. rewrite E, computed_split in Hc.
    assert (Hh : held_col db c (pr_AccountID r, pr_Asset r) = 0) by (unfold c; by destruct (pr_Direction r)).
    set (f := fun r' => contrib c (pr_AccountID r, pr_Asset r) (status_of db (pr_TransactionID r'))
                          (posting_of_row r')).
    assert (Hpos : f r <= posted_sum db c (pr_AccountID r, pr_Asset r)).
    { apply (sumZ_elem f); [|done]. intros r' Hr'. destruct (wf_postings _ W r' Hr') as (? & _ & _).
      unfold f, contrib. cbn. repeat case_match; lia. }
    unfold f, contrib, status_of, pkey, c, is_firm_tx in *. cbn in Hpos. rewrite Ht, decide_True in Hpos by done.
    revert Hd Hpos. destruct (pr_Direction r); intros; cbn [counts] in Hpos;
      rewrite ?Hfirm, ?bool_decide_eq_true_2 in Hpos by done; cbn in *; lia || done.
Qed.

Lemma trial_rows_current_ok db tenant ledgerID :
  Inv db ->
  let rows := map snd (trial_rows_current tenant ledgerID db) in
  Forall row_fits rows /\
  forall asset, asset_sum tbr_Debits asset rows = asset_sum tbr_Credits asset rows.
Proof.
  intros I. pose proof (inv_wf _ I) as W. cbn zeta.
  assert (Hvis : forall kr, kr ∈ visible_balances tenant db ->
    account_balances db !! kr.1 = Some kr.2 /\ exists a, accounts db !! kr.1.1 = Some a /\ a_TenantID a = tenant).
  { intros [k r] [Ht Hin]%list_elem_of_filter. apply elem_of_map_to_list in Hin. cbn in *.
    split; [done|]. destruct (wf_balances _ W _ _ Hin) as (_ & a & Ha & ?). exists a. split; congruence. }
  split.
  - apply Forall_forall. intros r (pr & <- & Hin)%list_elem_of_In%in_map_iff.
    apply list_elem_of_In, list_elem_of_omap in Hin as (kr & Hkr & Hs).
    destruct (Hvis _ Hkr) as [Hb _]. destruct (account_in_ledger _ _ _ _); [|done].
    injection Hs as <-. cbn. destruct (wf_balances _ W _ _ Hb) as [Hr _].
    split; [exact (row_in_range_col _ PostedDebits Hr)|exact (row_in_range_col _ PostedCredits Hr)].
  - intros asset. set (ks := map fst (visible_balances tenant db)).
    assert (Hnd : NoDup ks).
    { unfold ks, visible_balances. 
      eapply sublist_NoDup; [exact (NoDup_fst_map_to_list (account_balances db))|].
      apply (fmap_sublist fst), sublist_filter. }
    assert (Hcov : forall r t, r ∈ postings db -> in_ledger db tenant ledgerID (pr_AccountID r) = true ->
      transactions db !! pr_TransactionID r = Some t -> is_firm_tx t = true ->
      (pr_AccountID r, pr_Asset r) ∈ ks).
    { intros r t Hr Hl Ht Hfirm. apply in_ledger_account in Hl as (a & Ha & Hat & _).
      destruct (firm_row db r t I Hr Ht Hfirm) as (br & Hbr & a' & Ha' & Hbt).
      apply list_elem_of_In, in_map_iff. exists (pr_AccountID r, pr_Asset r, br). split; [done|].
      apply list_elem_of_In, list_elem_of_filter. split; [cbn; congruence|].
      by apply elem_of_map_to_list. }
    assert (Hsum : forall d f, (forall kr a, kr ∈ visible_balances tenant db ->
          accounts db !! kr.1.1 = Some a -> a_TenantID a = tenant ->
          f (mkTrialBalanceRow kr.1.1 (a_Name a) (a_Type a) kr.1.2 (br_PostedDebits kr.2)
               (br_PostedCredits kr.2)) = group_sum kr.1 d is_firm_tx (joined_postings tenant db)) ->
      asset_sum f asset (map snd (trial_rows_current tenant ledgerID db))
      = sumZ (ledger_amount db tenant ledgerID d asset is_firm_tx) (postings db)).
    { intros d f Hf. rewrite <- (keys_total db tenant ledgerID I d asset is_firm_tx ks Hnd Hcov).
      unfold asset_sum, trial_rows_current, ks. rewrite !sumZ_map, sumZ_omap. apply sumZ_ext.
      intros kr Hkr. destruct (Hvis _ Hkr) as (_ & a & Ha & Hat). unfold in_ledger.
      destruct (account_in_ledger tenant ledgerID kr.1.1 db) as [a'|] eqn:Ea; cbn.
      - assert (a' = a) as ->.
        { unfold account_in_ledger, find_account in Ea. rewrite Ha in Ea. cbn in Ea.
          rewrite decide_True in Ea by done. cbn in Ea. case_decide; congruence. }
        destruct (decide (kr.1.2 = asset)) as [He|He].
        + rewrite decide_True by done. by apply Hf.
        + by rewrite decide_False by naive_solver.
      - rewrite decide_False; [done|]. by intros [? _]. }
    rewrite (Hsum DirectionDebit), (Hsum DirectionCredit); [by apply ledger_side_equal| |];
      intros kr a Hkr Ha Hat; cbn; destruct (Hvis _ Hkr) as (Hb & _);
      destruct (firm_group_sum db tenant kr.1 a W Ha Hat) as [E1 E2]; rewrite ?E1, ?E2.
    + change (br_PostedCredits kr.2 = computed db PostedCredits kr.1).
      rewrite <- (inv_consistent _ I). unfold stored. by rewrite Hb.
    + change (br_PostedDebits kr.2 = computed db PostedDebits kr.1).
      rewrite <- (inv_consistent _ I). unfold stored. by rewrite Hb.
Qed.

Lemma firm_as_of_firm asOf t : firm_as_of asOf t = true -> is_firm_tx t = true.
Proof. unfold firm_as_of, is_firm_tx. by intros [? _]%andb_true_iff. Qed.

Lemma account_in_ledger_some db tenant ledgerID acct a :
  account_in_ledger tenant ledgerID acct db = Some a -> accounts db !! acct = Some a /\ a_TenantID a = tenant.
Proof.
  unfold account_in_ledger. destruct (find_account tenant acct db) as [a'|] eqn:E; cbn; [|done].
  case_decide; [|done]. intros [= ->]. by apply find_account_some.
Qed.

Lemma trial_rows_as_of_ok db tenant ledgerID asOf :
  Inv db ->
  let rows := map snd (trial_rows_as_of tenant ledgerID asOf db) in
  Forall row_fits rows /\
  forall asset, asset_sum tbr_Debits asset rows = asset_sum tbr_Credits asset rows.
Proof.
  intros I. pose proof (inv_wf _ I) as W. cbn zeta. unfold trial_rows_as_of.
  set (ks := group_keys _). split.
  - apply Forall_forall. intros r (pr & <- & Hin)%list_elem_of_In%in_map_iff.
    apply list_elem_of_In, list_elem_of_omap in Hin as (k & _ & Hs).
    destruct (account_in_ledger tenant ledgerID k.1 db) as [a|] eqn:Ea; [|done].
    injection Hs as <-. apply account_in_ledger_some in Ea as [Ha Hat].
    split; (apply (firm_group_fits db tenant k a); [done..|auto|exact (firm_as_of_firm asOf)]).
  - intros asset.
    assert (Hcov : forall r t, r ∈ postings db -> in_ledger db tenant ledgerID (pr_AccountID r) = true ->
      transactions db !! pr_TransactionID r = Some t -> firm_as_of asOf t = true ->
      (pr_AccountID r, pr_Asset r) ∈ ks).
    { intros r t Hr Hl Ht Hfirm. apply group_keys_elem, list_elem_of_In, in_map_iff.
      exists (r, t). split; [done|]. apply list_elem_of_In, list_elem_of_filter. split; [done|].
      apply in_ledger_account in Hl as (a & Ha & Hat & _).
      destruct (wf_postings _ W r Hr) as (_ & _ & t' & Ht' & ? & _ & a' & Ha' & ? & _).
      apply list_elem_of_omap. exists r. split.
      - apply list_elem_of_filter. split; [congruence|done].
      - rewrite (proj2 (find_transaction_some _ _ db t)) by (split; congruence). done. }
    assert (Hsum : forall d f, (forall k a, f (mkTrialBalanceRow k.1 (a_Name a) (a_Type a) k.2
               (group_sum k DirectionDebit (firm_as_of asOf) (joined_postings tenant db))
               (group_sum k DirectionCredit (firm_as_of asOf) (joined_postings tenant db)))
             = group_sum k d (firm_as_of asOf) (joined_postings tenant db)) ->
      asset_sum f asset (map snd (omap (fun k : uuid * string =>
        a ← account_in_ledger tenant ledgerID k.1 db;
        Some (a_Path a, mkTrialBalanceRow k.1 (a_Name a) (a_Type a) k.2
               (group_sum k DirectionDebit (firm_as_of asOf) (joined_postings tenant db))
               (group_sum k DirectionCredit (firm_as_of asOf) (joined_postings tenant db)))) ks))
      = sumZ (ledger_amount db tenant ledgerID d asset (firm_as_of asOf)) (postings db)).
    { intros d f Hf.
      rewrite <- (keys_total db tenant ledgerID I d asset _ ks (group_keys_nodup _) Hcov).
      unfold asset_sum. rewrite sumZ_map, sumZ_omap. apply sumZ_ext. intros k _. unfold in_ledger.
      destruct (account_in_ledger tenant ledgerID k.1 db) as [a|] eqn:Ea; cbn.
      - destruct (decide (k.2 = asset)) as [He|He].
        + rewrite decide_True by done. by apply Hf.
        + by rewrite decide_False by naive_solver.
      - rewrite decide_False; [done|]. by intros [? _]. }
    rewrite (Hsum DirectionDebit), (Hsum DirectionCredit) by done. by apply ledger_side_equal.
Qed.

Section TrialBalanceTheorem.
Context `{Render, Digest}.

#[local] Instance asset_sum_perm f asset : Proper (Permutation ==> eq) (asset_sum f asset).
Proof. intros l l' E. unfold asset_sum. by rewrite E. Qed.

(** C5: in every reachable state the trial balance of any ledger the tenant
    owns - current, or as of any instant - is produced, and in each of its
    per-asset totals debits equal credits and the balanced flag is set. *)
Theorem trial_balance_balanced hs db tenant ledgerID l asOf ids now :
  history hs -> db ∈ hs -> tenant <> uuid_Nil -> find_ledger tenant ledgerID db = Some l ->
  exists tb, TrialBalance_ tenant ledgerID asOf ids now db = Ok (tb, db) /\
    Forall (fun t => tbt_Balanced t = true /\ tbt_Debits t = tbt_Credits t) (tb_Totals tb).
Proof.
  intros Hh Hin Hn Hl. pose proof (history_elem _ _ Hh Hin) as I.
  set (rows0 := match asOf with
                | None => trial_rows_current tenant ledgerID db
                | Some t => trial_rows_as_of tenant ledgerID t db end).
  assert (Hok : Forall row_fits (map snd rows0) /\
    forall asset, asset_sum tbr_Debits asset (map snd rows0) = asset_sum tbr_Credits asset (map snd rows0))
    by (destruct asOf; [by apply trial_rows_as_of_ok|by apply trial_rows_current_ok]).
  set (rows := map snd (merge_sort tb_path_le rows0)).
  assert (Hp : Permutation rows (map snd rows0)) by (apply Permutation_map, merge_sort_Permutation).
  destruct Hok as [Hfit Hsum].
  assert (Hfit' : Forall row_fits rows) by by rewrite Hp.
  eexists. split; [apply WithTenantTx_read; [done|]|].
  - unfold requireLedger, mbind, Tx_bind, get_db, check. cbn. rewrite Hl.
    rewrite bool_decide_eq_true_2 by eauto. cbn. fold rows0 rows. rewrite (mapM_scan rows) by done.
    reflexivity.
  - cbn. apply totals_balanced; [done|]. intros asset. rewrite !Hp. apply Hsum.
Qed.
End TrialBalanceTheorem.
