(* ===== verification/LedgerGuarantees.v ===== *)
(** * What the ledger service guarantees its callers

    Append-only history, idempotent creation under retries and races, once-only
    reversals and hold closings, exactly-once events, tenant isolation. *)

From Stdlib Require Import Ascii String ZArith Lia.
From S2P Require Import Prelude Strconv Errors Money LedgerDomain LedgerEvents LedgerDb Httpx.
From S2P Require Import LedgerStore LedgerReports LedgerService LedgerSpec LedgerInv.
From S2P Require Import LedgerBalance LedgerLinks LedgerRefine LedgerTheorems.
Local Open Scope Z_scope.

(** ** Append-only *)

Definition status_rank (s : TransactionStatus) : Z :=
  match s with TransactionDraft => 0 | TransactionPosted => 1 | _ => 2 end.

(** Every column but the lifecycle ones is kept; the status never goes back;
    [posted_at] and [reversed_by_id] are written once. *)
Definition tx_forward (t t' : Transaction) : Prop :=
  t' = set_lifecycle t (t_Status t') (t_PostedAt t') (t_ReversedByID t') /\
  status_rank (t_Status t) <= status_rank (t_Status t') /\
  (t_PostedAt t <> None -> t_PostedAt t' = t_PostedAt t) /\
  (t_ReversedByID t <> None -> t_ReversedByID t' = t_ReversedByID t).

(** A hold keeps every column but its status and captured transaction, and
    those are final once it is no longer active. *)
Definition hold_forward (h h' : HoldRow) : Prop :=
  h' = mkHoldRow (set_hold_status (hr_Hold h) (h_Status (hr_Hold h'))
                    (h_CapturedTransactionID (hr_Hold h'))) (hr_RequestHash h) /\
  (h_Status (hr_Hold h) <> HoldActive -> h' = h).

Record persists (db db' : DB) : Prop := {
  pe_ledgers : ledgers db ⊆ ledgers db';
  pe_accounts : accounts db ⊆ accounts db';
  pe_transactions id t : transactions db !! id = Some t ->
    exists t', transactions db' !! id = Some t' /\ tx_forward t t';
  pe_postings : exists new, postings db' = postings db ++ new;
  pe_rows id : is_Some (transactions db !! id) -> rows_of db' id = rows_of db id;
  pe_holds id h : holds db !! id = Some h -> exists h', holds db' !! id = Some h' /\ hold_forward h h';
  pe_keys : idempotency_keys db ⊆ idempotency_keys db';
  pe_outbox : exists new, outbox db' = outbox db ++ new
}.

Lemma tx_forward_refl t : tx_forward t t.
Proof. split_and!; [by destruct t|lia|done|done]. Qed.

Lemma hold_forward_refl h : hold_forward h h.
Proof. split; [by destruct h as [[]]|done]. Qed.

Lemma tx_forward_trans t1 t2 t3 : tx_forward t1 t2 -> tx_forward t2 t3 -> tx_forward t1 t3.
Proof.
  intros (E1 & R1 & P1 & B1) (E2 & R2 & P2 & B2). split_and!; [|lia| |].
  - rewrite E2 at 1. rewrite E1 at 1. done.
  - intros Hp. rewrite P2; [by apply P1|]. by rewrite P1.
  - intros Hb. rewrite B2; [by apply B1|]. by rewrite B1.
Qed.

Lemma hold_forward_trans h1 h2 h3 : hold_forward h1 h2 -> hold_forward h2 h3 -> hold_forward h1 h3.
Proof.
  intros [E1 S1] [E2 S2]. split.
  - rewrite E2 at 1. rewrite E1 at 1 2. done.
  - intros Hs. rewrite S2; [by apply S1|]. by rewrite S1.
Qed.

Lemma persists_refl db : persists db db.
Proof.
  split; try reflexivity; eauto using tx_forward_refl, hold_forward_refl.
  all: exists []; by rewrite app_nil_r.
Qed.

Lemma persists_trans db1 db2 db3 : persists db1 db2 -> persists db2 db3 -> persists db1 db3.
Proof.
  intros P1 P2. split.
  - transitivity (ledgers db2); [apply P1|apply P2].
  - transitivity (accounts db2); [apply P1|apply P2].
  - intros id t Ht. destruct (pe_transactions _ _ P1 _ _ Ht) as (t2 & Ht2 & F2).
    destruct (pe_transactions _ _ P2 _ _ Ht2) as (t3 & Ht3 & F3). eauto using tx_forward_trans.
  - destruct (pe_postings _ _ P1) as [n1 E1], (pe_postings _ _ P2) as [n2 E2].
    exists (n1 ++ n2). by rewrite E2, E1, app_assoc.
  - intros id [t Ht]. destruct (pe_transactions _ _ P1 _ _ Ht) as (t2 & Ht2 & _).
    rewrite (pe_rows _ _ P2), (pe_rows _ _ P1) by eauto. done.
  - intros id h Hh. destruct (pe_holds _ _ P1 _ _ Hh) as (h2 & Hh2 & F2).
    destruct (pe_holds _ _ P2 _ _ Hh2) as (h3 & Hh3 & F3). eauto using hold_forward_trans.
  - transitivity (idempotency_keys db2); [apply P1|apply P2].
  - destruct (pe_outbox _ _ P1) as [n1 E1], (pe_outbox _ _ P2) as [n2 E2].
    exists (n1 ++ n2). by rewrite E2, E1, app_assoc.
Qed.

Lemma persists_change tenant db db' : change tenant db db' -> wf db -> persists db db'.
Proof.
  intros C W. pose proof (change_grows _ _ _ C) as G. split; try apply G.
  - intros id t Ht. destruct (gr_transactions _ _ G _ _ Ht) as (t' & Ht' & E). exists t'.
    split; [done|]. destruct (wf_transactions _ W _ _ Ht) as (_ & _ & Hlc & _).
    unfold lifecycle_wf in Hlc.
    destruct E as [|now Hs|rid Hs Hr]; [apply tx_forward_refl| |]; rewrite Hs in Hlc;
      split_and!; cbn; rewrite ?Hs; cbn; naive_solver lia.
  - intros id Hid. by eapply rows_of_change.
  - intros id h Hh. destruct (gr_holds _ _ G _ _ Hh) as (h' & Hh' & E). exists h'.
    split; [done|]. destruct E as [|s c Hs _]; [apply hold_forward_refl|]. by split.
Qed.

Section Guarantees.
Context `{Render, Digest}.

Lemma exec_persists seen tenant r ids now db resp db' :
  Inv db -> request_wf r -> exec seen tenant r ids now db = Ok (resp, db') -> persists db db'.
Proof.
  intros I Hwf Hrun. destruct (exec_change _ _ _ _ _ _ _ _ I Hwf Hrun) as [-> | Hc].
  - apply persists_refl.
  - eapply persists_change; [done|apply inv_wf, I].
Qed.

Lemma history_pop x h :
  history (x :: h) -> h <> [] ->
  exists db past seen tenant r ids now resp,
    h = db :: past /\ history (db :: past) /\
    (seen = None \/ exists s, seen = Some s /\ s ∈ db :: past) /\
    request_wf r /\ exec seen tenant r ids now db = Ok (resp, x).
Proof. inversion 1; subst; [done|]. intros _. eauto 20. Qed.

Lemma history_tail newer db older : history (newer ++ db :: older) -> history (db :: older).
Proof.
  induction newer as [|x newer IH]; [done|]. cbn. intros Hh. apply IH.
  destruct (history_pop _ _ Hh) as (db0 & past & ? & ? & ? & ? & ? & ? & E & Hh' & _).
  - by destruct newer.
  - by rewrite E.
Qed.

Lemma later_persists newer db older db' :
  history (newer ++ db :: older) -> db' ∈ newer ++ [db] -> persists db db'.
Proof.
  intros Hh. revert db'. induction newer as [|x newer IH]; cbn in *; intros db'.
  - intros ->%list_elem_of_singleton. apply persists_refl.
  - destruct (history_pop _ _ Hh) as (db0 & past & seen & tenant & r & ids & now & resp & E & Hh' & _ & Hwf & Hrun);
      [by destruct newer|].
    rewrite E in IH. intros [->|Hin]%elem_of_cons; [|by apply IH].
    assert (Hin0 : db0 ∈ newer ++ [db]) by (destruct newer; cbn in *; injection E as -> _; set_solver).
    eapply persists_trans; [by apply IH|]. eapply exec_persists; eauto.
    eapply history_elem; [exact Hh'|set_solver].
Qed.

(** *** Earlier states of a history *)

Lemma history_earlier db past s :
  history (db :: past) -> s ∈ db :: past -> persists s db.
Proof.
  intros Hh Hin. apply list_elem_of_split in Hin as (newer & older & E). rewrite E in Hh.
  apply (later_persists newer s older db Hh).
  destruct newer; cbn in E; injection E as -> _; set_solver.
Qed.
(** C6: append-only. From any reachable state to any later one, ledgers,
    accounts, postings, idempotency records and outbox events are never lost
    or altered; a transaction changes at most its lifecycle columns and only
    forward, and its set of postings never changes; a closed hold never
    changes again. *)
Theorem append_only newer db older db' :
  history (newer ++ db :: older) -> db' ∈ newer ++ [db] -> persists db db'.
Proof. apply later_persists. Qed.
End Guarantees.

(** ** Idempotent creation *)

Lemma vb_run_ext ps ps' st :
  map (fun p => (p_Direction p, p_Amount p)) ps = map (fun p => (p_Direction p, p_Amount p)) ps' ->
  vb_run st ps = vb_run st ps'.
Proof.
  revert ps' st. induction ps as [|p ps IH]; intros [|p' ps'] st; cbn [map]; try done.
  intros [= Hd Ha Hps]. cbn [vb_run].
  assert (E : vb_step st p = vb_step st p') by (destruct st; unfold vb_step; by rewrite Hd, Ha).
  rewrite E. destruct (vb_step st p'); cbn; [by apply IH|done].
Qed.

Lemma ValidateBalanced_ext ps ps' :
  map (fun p => (p_Direction p, p_Amount p)) ps = map (fun p => (p_Direction p, p_Amount p)) ps' ->
  ValidateBalanced ps = ValidateBalanced ps'.
Proof.
  intros E. unfold ValidateBalanced. rewrite (vb_run_ext ps ps') by done.
  apply (f_equal length) in E. rewrite !length_map in E. by rewrite E.
Qed.

Lemma make_postings_total input ids :
  (length input <= length ids)%nat -> exists ps ids', make_postings input ids = Ok (ps, ids').
Proof.
  revert ids. induction input as [|i input IH]; intros ids Hlen; cbn; [by eauto|].
  destruct ids as [|id ids]; cbn in Hlen; [lia|]. cbn.
  destruct (IH ids ltac:(lia)) as (ps & ids' & ->). cbn. by eauto.
Qed.

(** Legs made from the same input differ only in their ids. *)
Lemma make_postings_same input ids ps ids1 ids' ps' ids1' :
  make_postings input ids = Ok (ps, ids1) -> make_postings input ids' = Ok (ps', ids1') ->
  map (fun p => (p_AccountID p, p_Direction p, p_Amount p)) ps
  = map (fun p => (p_AccountID p, p_Direction p, p_Amount p)) ps'.
Proof.
  intros [H1 _]%make_postings_ok [H2 _]%make_postings_ok. revert ps' H2.
  induction H1 as [|i p input ps (Ha & Hd & Hm) _ IH]; intros ps' H2; inversion H2 as [|? p' ? ? (Ha' & Hd' & Hm') H2']; subst; [done|].
  cbn. by rewrite Ha, Hd, Hm, Ha', Hd', Hm', (IH _ H2').
Qed.

Section Idempotency.
Context `{Render, Digest}.

(** The key's record in a state decides the outcome of the lookup. *)
Lemma lookup_record tenant key db row :
  idempotency_keys db !! (tenant, key) = Some row ->
  lookupIdempotentTx tenant key db = Some (ik_Response row, ik_RequestHash row).
Proof. intros Hr. unfold lookupIdempotentTx. by rewrite Hr. Qed.

Lemma lookup_record_inv tenant key db t hash :
  lookupIdempotentTx tenant key db = Some (t, hash) ->
  exists row, idempotency_keys db !! (tenant, key) = Some row /\ t = ik_Response row /\
    hash = ik_RequestHash row.
Proof.
  unfold lookupIdempotentTx. destruct (idempotency_keys db !! (tenant, key)) as [row|]; [|done].
  intros [= <- <-]. eauto.
Qed.

Lemma fingerprint_inputs tenant i id id' now now' status ids ids' ps ps' ids1 ids1' :
  make_postings (ci_Postings i) ids = Ok (ps, ids1) ->
  make_postings (ci_Postings i) ids' = Ok (ps', ids1') ->
  transactionFingerprint (new_transaction tenant id now i status ps)
  = transactionFingerprint (new_transaction tenant id' now' i status ps').
Proof.
  intros H1 H2. pose proof (make_postings_same _ _ _ _ _ _ _ H1 H2) as E.
  unfold transactionFingerprint. do 2 f_equal. unfold canonical_transaction. cbn. f_equal.
  - by destruct (ci_EffectiveAt i).
  - f_equal. unfold canonical_posting.
    assert (E2 : forall l : list Posting, map (fun p => mkCanonicalPosting (uuid_String (p_AccountID p))
       (Direction_string (p_Direction p)) (Asset (p_Amount p)) (Units (p_Amount p))) l
      = map (fun '(a, d, m) => mkCanonicalPosting (uuid_String a) (Direction_string d) (Asset m) (Units m))
          (map (fun p => (p_AccountID p, p_Direction p, p_Amount p)) l))
      by (intros l; by rewrite map_map).
    by rewrite !E2, E.
Qed.

Lemma hash_conflict_same h : hash_conflict h h = false.
Proof. unfold hash_conflict. by rewrite bool_decide_eq_true_2, andb_false_r. Qed.

(** The tables after recording [t], and no other change. *)
Record create_effect (tenant : uuid) (i : CreateTransactionInput) (now : time) (t : Transaction) (db db' : DB) : Prop := {
  ce_unused id t' : transactions db !! id = Some t' ->
    ~ (t_TenantID t' = tenant /\ t_IdempotencyKey t' = ci_IdempotencyKey i);
  ce_new : transactions db !! t_ID t = None;
  ce_transactions : transactions db' = <[t_ID t := transaction_row t]> (transactions db);
  ce_postings : postings db' = postings db ++ map (posting_row t) (t_Postings t);
  ce_keys : idempotency_keys db' = <[(tenant, ci_IdempotencyKey i)
              := mkIdemRow 201 (json_snapshot t) (transactionFingerprint t)]> (idempotency_keys db);
  ce_posted : t_Status t = TransactionPosted ->
    bal_steps (accounts db) tenant (account_balances db)
      (posting_deltas upsertPostedBalance (t_Postings t)) (account_balances db') /\
    exists ev, outbox db' = outbox db ++ [ev] /\
      event tenant TopicTransactionPosted (PTransactionPosted (NewTransactionPostedEvent t now)) ev;
  ce_draft : t_Status t = TransactionDraft ->
    bal_steps (accounts db) tenant (account_balances db)
      (posting_deltas upsertPendingBalance (t_Postings t)) (account_balances db') /\
    outbox db' = outbox db;
  ce_frame : ledgers db' = ledgers db /\ accounts db' = accounts db /\ holds db' = holds db
}.

Lemma exec_create seen tenant i ids now db t db' :
  request_wf (ReqCreateTransaction i) ->
  exec seen tenant (ReqCreateTransaction i) ids now db = Ok (RespTransaction t false, db') ->
  requested tenant i ids now t /\ create_effect tenant i now t db db'.
Proof.
  intros Hwf Hrun. cbn [exec] in Hrun. apply bind_ok in Hrun as ([[t0 b] d] & H1 & [= -> -> <-]).
  apply svc_CreateTransaction_requested in H1 as (t1 & ids' & Hok & Hrq & H1); [|done].
  apply CreateTransaction_ok in H1 as [(? & _)|(_ & -> & _ & _ & Hf & m & evs & -> & Hrec)]; [done| |done].
  split; [done|]. destruct Hf as (Hnew & _ & _ & _ & Hkey). unfold recorded_as in Hrec.
  destruct Hrq as [Ht _ Hk _ _ _ _ Hl _ _ _ _ _]. rewrite Ht, Hk in Hkey. rewrite Ht in Hrec.
  split; cbn [record_tx ledgers accounts transactions postings account_balances holds idempotency_keys outbox]; try done.
  - by rewrite Ht, Hk.
  - intros Hs. rewrite decide_True in Hrec by done. destruct Hrec as (HB & at_ & ev & Hat & -> & Hev). split; [done|].
    exists ev. split; [done|]. destruct Hl as [[_ E]|[E _]]; congruence.
  - intros Hs. rewrite decide_False in Hrec by congruence. destruct Hrec as (HB & ->). by rewrite app_nil_r.
Qed.

Lemma create_row seen tenant i ids now db t db' :
  request_wf (ReqCreateTransaction i) ->
  exec seen tenant (ReqCreateTransaction i) ids now db = Ok (RespTransaction t false, db') ->
  idempotency_keys db' !! (tenant, ci_IdempotencyKey i)
    = Some (mkIdemRow 201 (json_snapshot t) (transactionFingerprint t)).
Proof. intros Hwf [_ C]%exec_create; [|done]. rewrite (ce_keys _ _ _ _ _ _ C). apply lookup_insert_eq. Qed.

(** The validation that precedes the store call, and what it hands over. *)
Lemma svc_CreateTransaction_retry seen seen' tenant i ids ids' now now' db db2 t b db' :
  request_wf (ReqCreateTransaction i) ->
  svc_CreateTransaction (H := pgStore seen) tenant i ids now db = Ok ((t, b), db') ->
  (S (length (ci_Postings i)) <= length ids')%nat ->
  exists t1 t2 rest rest2,
    CreateTransaction (default db seen) t1 rest now db = Ok ((t, b), db') /\
    svc_CreateTransaction (H := pgStore seen') tenant i ids' now' db2
      = CreateTransaction (default db2 seen') t2 rest2 now' db2 /\
    new_tx_ok t1 /\ new_tx_ok t2 /\
    transactionFingerprint t2 = transactionFingerprint t1 /\
    t_TenantID t1 = tenant /\ t_IdempotencyKey t1 = ci_IdempotencyKey i /\
    t_TenantID t2 = tenant /\ t_IdempotencyKey t2 = ci_IdempotencyKey i.
Proof.
  intros Hwf Hrun Hlen. unfold svc_CreateTransaction in Hrun |- *.
  destruct (bad_name _); [done|]. destruct (_ =? _); [done|]. cbv zeta in Hrun |- *.
  destruct (negb _) eqn:Hst; [done|]. apply negb_false_iff, bool_decide_true in Hst.
  destruct (1000 <? _); [done|].
  apply bind_ok in Hrun as ([id ids1] & H1 & Hrun). apply bind_ok in Hrun as ([ps ids2] & H2 & Hrun).
  apply bind_ok in Hrun as ([] & Hvb & Hrun). cbn in Hvb.
  destruct ids' as [|id' ids1']; [cbn in Hlen; lia|]. cbn in Hlen.
  destruct (make_postings_total (ci_Postings i) ids1' ltac:(lia)) as (ps' & ids2' & H2').
  assert (Hvb' : ValidateBalanced ps' = Ok tt).
  { rewrite <- Hvb. apply ValidateBalanced_ext. symmetry.
    pose proof (make_postings_same _ _ _ _ _ _ _ H2 H2') as E.
    apply (f_equal (map (fun x : uuid * Direction * Amount => (x.1.2, x.2)))) in E.
    by rewrite !map_map in E. }
  exists (new_transaction tenant id now i (default TransactionPosted (ci_Status i)) ps),
    (new_transaction tenant id' now' i (default TransactionPosted (ci_Status i)) ps'), ids2, ids2'.
  assert (Hok : forall id now ps, postings_wf ps -> ValidateBalanced ps = Ok tt ->
    new_tx_ok (new_transaction tenant id now i (default TransactionPosted (ci_Status i)) ps)).
  { intros id0 now0 ps0 Hw Hv. unfold new_tx_ok. cbn.
    split_and!; [done..|]. destruct Hst as [-> | ->]; [left|right]; cbn; eauto. }
  split_and!; try done.
  - cbn. rewrite H2'. cbn. by rewrite Hvb'.
  - apply Hok; [by eapply make_postings_wf|done].
  - apply Hok; [by eapply make_postings_wf|done].
  - by eapply fingerprint_inputs.
Qed.

Lemma WithTenantTx_replay tenant ids now db {A} (a : A) :
  tenant <> uuid_Nil -> WithTenantTx tenant (mret a) ids now db = Ok (a, db).
Proof. intros Hn. by apply WithTenantTx_read. Qed.

Lemma CreateTransaction_replay db t ids now row :
  t_TenantID t <> uuid_Nil ->
  idempotency_keys db !! (t_TenantID t, t_IdempotencyKey t) = Some row ->
  ik_RequestHash row = transactionFingerprint t ->
  CreateTransaction db t ids now db = Ok ((ik_Response row, true), db).
Proof.
  intros Hn Hr Hh. unfold CreateTransaction. rewrite (lookup_record _ _ _ _ Hr), Hh, hash_conflict_same.
  cbv zeta. by rewrite WithTenantTx_replay.
Qed.

(** C7: recording. A creation that answers with a new transaction [t] answers
    what was asked: [t] has the fields and postings of the request, the status
    asked for, and ids drawn from the generator. Its key was unused by every
    recorded transaction of the tenant. The tables gain exactly its row, its
    postings, the snapshot of the answer with the request's fingerprint under the
    key, and, when it is posted, one event describing it; the balances move by its
    postings, in the posted or the pending columns; nothing else changes. *)
Theorem create_records seen tenant i ids now db t db' :
  request_wf (ReqCreateTransaction i) ->
  exec seen tenant (ReqCreateTransaction i) ids now db = Ok (RespTransaction t false, db') ->
  requested tenant i ids now t /\
  (forall id t', transactions db !! id = Some t' ->
     ~ (t_TenantID t' = tenant /\ t_IdempotencyKey t' = ci_IdempotencyKey i)) /\
  transactions db !! t_ID t = None /\
  transactions db' = <[t_ID t := transaction_row t]> (transactions db) /\
  postings db' = postings db ++ map (posting_row t) (t_Postings t) /\
  idempotency_keys db' = <[(tenant, ci_IdempotencyKey i)
     := mkIdemRow 201 (json_snapshot t) (transactionFingerprint t)]> (idempotency_keys db) /\
  (t_Status t = TransactionPosted ->
     bal_steps (accounts db) tenant (account_balances db)
       (posting_deltas upsertPostedBalance (t_Postings t)) (account_balances db') /\
     exists ev, outbox db' = outbox db ++ [ev] /\
       event tenant TopicTransactionPosted (PTransactionPosted (NewTransactionPostedEvent t now)) ev) /\
  (t_Status t = TransactionDraft ->
     bal_steps (accounts db) tenant (account_balances db)
       (posting_deltas upsertPendingBalance (t_Postings t)) (account_balances db') /\
     outbox db' = outbox db) /\
  ledgers db' = ledgers db /\ accounts db' = accounts db /\ holds db' = holds db.
Proof. intros Hwf [Hrq [C1 C2 C3 C4 C5 C6 C7 (C8 & C9 & C10)]]%exec_create; [|done]. by split_and!. Qed.

(** retries. Once a creation has answered with a new transaction, repeating
    the very same request in any later state, at any later time and with any
    generated ids, answers with the recorded transaction marked as a replay and
    changes nothing. *)
Theorem retry_replays seen tenant i ids now db0 t db1 newer older db2 ids' now' :
  tenant <> uuid_Nil -> Inv db0 -> request_wf (ReqCreateTransaction i) ->
  exec seen tenant (ReqCreateTransaction i) ids now db0 = Ok (RespTransaction t false, db1) ->
  history (newer ++ db1 :: older) -> db2 ∈ newer ++ [db1] ->
  (S (length (ci_Postings i)) <= length ids')%nat ->
  exec None tenant (ReqCreateTransaction i) ids' now' db2
    = Ok (RespTransaction (json_snapshot t) true, db2).
Proof.
  intros Hn I Hwf Hrun Hh Hin Hlen.
  pose proof (create_row _ _ _ _ _ _ _ _ Hwf Hrun) as Hrow.
  pose proof (lookup_weaken _ _ _ _ Hrow (pe_keys _ _ (later_persists _ _ _ _ Hh Hin))) as Hrow2.
  cbn [exec] in Hrun |- *. apply bind_ok in Hrun as ([[t0 b] d] & H1 & [= -> -> ->]).
  destruct (svc_CreateTransaction_retry seen None tenant i ids ids' now now' db0 db2 _ _ _ Hwf H1 Hlen)
    as (t1 & t2 & rest & rest2 & E1 & -> & Hok & _ & Hfp & _ & _ & Ht2 & Hk2).
  apply CreateTransaction_ok in E1 as [(? & _)|(_ & -> & _)]; [done| |done].
  rewrite <- Ht2, <- Hk2 in Hrow2. cbn [default].
  rewrite (CreateTransaction_replay db2 t2 _ _ _ ltac:(congruence) Hrow2) by done. done.
Qed.

(** one transaction per key, even under races. When a key is already
    recorded, a creation under it - whatever its payload, and whichever earlier
    committed state its lookup read - never writes: it fails, or answers with
    the recorded response, and that only if the fingerprints agree. *)
Theorem key_wins_race db past seen tenant i ids now resp db' row :
  history (db :: past) ->
  seen = None \/ (exists s, seen = Some s /\ s ∈ db :: past) ->
  request_wf (ReqCreateTransaction i) ->
  idempotency_keys db !! (tenant, ci_IdempotencyKey i) = Some row ->
  exec seen tenant (ReqCreateTransaction i) ids now db = Ok (resp, db') ->
  db' = db /\ resp = RespTransaction (ik_Response row) true /\
  exists t, t_TenantID t = tenant /\ t_IdempotencyKey t = ci_IdempotencyKey i /\
    ik_RequestHash row = transactionFingerprint t.
Proof.
  intros Hh Hseen Hwf Hrow Hrun.
  assert (I : Inv db) by (eapply history_elem; [exact Hh|set_solver]).
  cbn [exec] in Hrun. apply bind_ok in Hrun as ([[t0 b] d] & H1 & [= <- <-]).
  apply svc_CreateTransaction_ok in H1 as (t & ids' & Hok & Ht & Hk & H1); [|done].
  rewrite <- Ht, <- Hk in Hrow.
  apply CreateTransaction_ok in H1 as [(-> & -> & src & Hsrc & hash & Hl & Hc)|(_ & _ & _ & _ & Hf & _)];
    [| |done].
  - assert (Hle : persists src db).
    { destruct Hsrc as [-> | ->]; [|apply persists_refl].
      destruct Hseen as [-> | (s & -> & Hs)]; [apply persists_refl|by eapply history_earlier]. }
    apply lookup_record_inv in Hl as (row' & Hr' & -> & ->).
    pose proof (lookup_weaken _ _ _ _ Hr' (pe_keys _ _ Hle)) as Hr2.
    assert (row' = row) as -> by congruence. split_and!; [done|done|]. exists t. split_and!; try done.
    unfold hash_conflict in Hc. destruct (proj2 (inv_keys _ I) _ _ _ Hrow) as [Hlen _].
    rewrite Hlen in Hc. cbn in Hc. apply negb_false_iff, bool_decide_true in Hc. done.
  - destruct Hf as (_ & _ & _ & Hnone & _). congruence.
Qed.
End Idempotency.

(** ** Reversals *)

Section Reversals.
Context `{Render, Digest}.

(** C16: a transaction is reversed at most once, and its reversal cancels it. In
    every reachable state two transactions that reverse the same one are the
    same; the one they reverse is marked reversed by it; the two live in the
    same tenant and ledger; and on every account and asset their net effects
    add up to zero. *)
Theorem reversal_unique_and_cancels hs db id r1 r2 t1 t2 :
  history hs -> db ∈ hs ->
  transactions db !! r1 = Some t1 -> transactions db !! r2 = Some t2 ->
  t_ReversesID t1 = Some id -> t_ReversesID t2 = Some id ->
  r1 = r2 /\
  exists o, transactions db !! id = Some o /\ t_Status o = TransactionReversed /\
    t_ReversedByID o = Some r1 /\ t_TenantID t1 = t_TenantID o /\ t_LedgerID t1 = t_LedgerID o /\
    forall k, rows_net k (rows_of db r1) + rows_net k (rows_of db id) = 0.
Proof.
  intros Hh Hin H1 H2 R1 R2. pose proof (history_elem _ _ Hh Hin) as I.
  destruct (inv_reversals _ I _ _ H1) as [_ B1]. destruct (inv_reversals _ I _ _ H2) as [_ B2].
  destruct (B1 _ R1) as (o & Ho & Hr1). destruct (B2 _ R2) as (o' & Ho' & Hr2).
  assert (o' = o) as -> by congruence. split; [congruence|]. exists o. split; [done|].
  destruct (inv_reversals _ I _ _ Ho) as [F _]. destruct (F _ Hr1) as (t & Ht & _ & Et & El & Hc).
  assert (t = t1) as -> by congruence.
  destruct (wf_transactions _ (inv_wf _ I) _ _ Ho) as (_ & _ & Hlc & _).
  split_and!; try done.
  - unfold lifecycle_wf in Hlc. destruct (t_Status o); [| |done|done]; naive_solver congruence.
  - intros k. rewrite (Hc k). lia.
Qed.

(** posting a draft twice is posting it once. [PostTransaction] of a visible
    transaction never fails with a wrong state unless it was reversed; on a
    draft it moves to posted exactly the pending amounts; on a posted one it
    returns the recorded transaction and changes nothing. *)
Theorem post_transaction_branches db tenant id ids now :
  Inv db -> tenant <> uuid_Nil ->
  match find_transaction tenant id db with
  | None => PostTransaction tenant id ids now db = Err ErrNotFound
  | Some t =>
      match t_Status t with
      | TransactionPosted =>
          PostTransaction tenant id ids now db
            = Ok (with_postings t (loadPostings tenant id db), db)
      | TransactionReversed => PostTransaction tenant id ids now db = Err ErrInvalidState
      | _ => forall t' db', PostTransaction tenant id ids now db = Ok (t', db') ->
          t_Status t' = TransactionPosted /\ t_PostedAt t' = Some now /\
          (forall ids' now', PostTransaction tenant id ids' now' db'
             = Ok (with_postings (set_lifecycle t TransactionPosted (Some now) (t_ReversedByID t))
                     (loadPostings tenant id db'), db'))
      end
  end.
Proof.
  intros I Hn. unfold PostTransaction.
  destruct (find_transaction tenant id db) as [t|] eqn:E.
  - assert (Hload : forall ids now d t0, find_transaction tenant id d = Some t0 ->
      loadTransactionTx tenant id (mkTx d [] ids now)
      = Ok (with_postings t0 (loadPostings tenant id d), mkTx d [] ids now)).
    { intros i n d t0 Hd. unfold loadTransactionTx, mbind, Tx_bind, get_db. cbn. by rewrite Hd. }
    assert (Hposted : forall ids now d t0, find_transaction tenant id d = Some t0 ->
      t_Status t0 = TransactionPosted -> PostTransaction tenant id ids now d
        = Ok (with_postings t0 (loadPostings tenant id d), d)).
    { intros i n d t0 Hd Hs. unfold PostTransaction. erewrite WithTenantTx_read; [done|done|].
      unfold postTransactionTx, mbind, Tx_bind. rewrite (Hload _ _ _ _ Hd). cbn. by rewrite Hs. }
    assert (Hdraft : t_Status t = TransactionDraft ->
      forall t' db', PostTransaction tenant id ids now db = Ok (t', db') ->
          t_Status t' = TransactionPosted /\ t_PostedAt t' = Some now /\
          (forall ids' now', PostTransaction tenant id ids' now' db'
             = Ok (with_postings (set_lifecycle t TransactionPosted (Some now) (t_ReversedByID t))
                     (loadPostings tenant id db'), db'))).
    { intros Hs t' db' Hrun. apply (PostTransaction_ok _ _ _ _ _ _ _ I) in Hrun
        as (t0 & Ht0 & Hten & Hcase).
      apply find_transaction_some in E as [Et _]. assert (t0 = t) as -> by congruence.
      destruct Hcase as [(? & _)|(_ & _ & Htx & ->)]; [congruence|]. split_and!; [done|done|].
      intros ids' now'. apply Hposted; [|done]. apply find_transaction_some. rewrite Htx.
      by rewrite lookup_insert_eq. }
    destruct (t_Status t) eqn:Hs; [by apply Hdraft|by apply Hposted| |].
    + unfold WithTenantTx. rewrite (proj2 (Z.eqb_neq _ _)) by done.
      unfold postTransactionTx, mbind, Tx_bind. rewrite (Hload _ _ _ _ E). cbn. by rewrite Hs.
    + exfalso. apply find_transaction_some in E as [Et _].
      destruct (wf_transactions _ (inv_wf _ I) _ _ Et) as (_ & _ & Hlc & _).
      unfold lifecycle_wf in Hlc. by rewrite Hs in Hlc.
  - unfold WithTenantTx. rewrite (proj2 (Z.eqb_neq _ _)) by done.
    unfold postTransactionTx, loadTransactionTx, mbind, Tx_bind, get_db. cbn. by rewrite E.
Qed.
End Reversals.

(** ** Holds *)

Section HoldGuarantees.
Context `{Render, Digest}.

(** Available funds of an account in one asset, unwrapped. *)
Definition available_funds (db : DB) (a : Account) (asset : string) : Z :=
  let k := (a_ID a, asset) in
  let m := account_balances db in
  match a_NormalBalance a with
  | NormalDebit => stored PostedDebits m k - stored PostedCredits m k - stored Held m k
  | _ => stored PostedCredits m k - stored PostedDebits m k - stored Held m k
  end.

Lemma stored_nonneg db c k : Inv db -> 0 <= stored c (account_balances db) k.
Proof.
  intros I. rewrite (inv_consistent _ I). unfold computed.
  assert (Hp : 0 <= posted_sum db c k).
  { apply sumZ_nonneg. intros r Hr. destruct (wf_postings _ (inv_wf _ I) r Hr) as (? & _ & _).
    unfold contrib. cbn. repeat case_match; lia. }
  destruct c; [exact Hp..|]. apply sumZ_nonneg. intros [id r] Hin%elem_of_map_to_list.
  destruct (wf_holds _ (inv_wf _ I) _ _ Hin) as (_ & ? & _). unfold hold_contrib. cbn.
  case_decide; lia.
Qed.

Lemma stored_max db c k : Inv db -> stored c (account_balances db) k <= max_int64.
Proof.
  intros I. unfold stored. destruct (account_balances db !! k) as [r|] eqn:E; [|by vm_compute].
  destruct (wf_balances _ (inv_wf _ I) _ _ E) as [Hr _]. unfold row_in_range in Hr.
  rewrite !andb_true_iff, !in_int64_spec in Hr. destruct c; cbn; tauto.
Qed.

(** The posted column that funds an account, and the holds it covers: a hold is
    taken from what is posted there and that column never decreases, so the
    subtractions of [Available] never wrap around. *)
Definition funding (a : Account) : column :=
  match a_NormalBalance a with NormalDebit => PostedDebits | _ => PostedCredits end.

Definition covered (db : DB) : Prop := forall id a asset, accounts db !! id = Some a ->
  stored Held (account_balances db) (id, asset) <= stored (funding a) (account_balances db) (id, asset).

Lemma Available_funds db a asset tenant h :
  Inv db -> covered db -> accounts db !! h_AccountID h = Some a -> a_TenantID a = tenant ->
  Asset (h_Amount h) = asset ->
  Available (available_balance tenant h db) (a_NormalBalance a) = available_funds db a asset.
Proof.
  intros I Hcov Ha Hat <-. pose proof (inv_wf _ I) as W. specialize (Hcov _ _ (Asset (h_Amount h)) Ha).
  destruct (wf_accounts _ W _ _ Ha) as (Hid & _ & _).
  pose proof (fun c => stored_nonneg db c (h_AccountID h, Asset (h_Amount h)) I) as N.
  pose proof (fun c => stored_max db c (h_AccountID h, Asset (h_Amount h)) I) as M.
  unfold available_funds, available_balance. rewrite Hid in *. cbn zeta.
  assert (Hb : find_balance tenant (h_AccountID h, Asset (h_Amount h)) db
               = account_balances db !! (h_AccountID h, Asset (h_Amount h))).
  { unfold find_balance. destruct (account_balances db !! _) as [r|] eqn:Er; [|done]. cbn.
    destruct (wf_balances _ W _ _ Er) as (_ & a' & Ha' & ?). cbn in Ha'.
    rewrite decide_True by congruence. done. }
  rewrite Hb. unfold Available, PostedNet.
  assert (Hw : forall x y z, 0 <= x <= max_int64 -> 0 <= y <= max_int64 -> 0 <= z <= x ->
    wrap64 (wrap64 (x - y) - z) = x - y - z).
  { intros x y z Hx Hy Hz. unfold max_int64 in *. rewrite (wrap64_id (x - y)) by (unfold64; lia).
    apply wrap64_id. unfold64; lia. }
  pose proof (N PostedDebits). pose proof (N PostedCredits). pose proof (N Held).
  pose proof (M PostedDebits). pose proof (M PostedCredits). unfold stored, funding in *.
  destruct (account_balances db !! (h_AccountID h, Asset (h_Amount h))) as [r|]; cbn in *;
    destruct (a_NormalBalance a); cbn in *; apply Hw; lia.
Qed.

(** Deltas that take no funds and reserve none keep holds covered. *)
Lemma covered_steps accts tenant m l m' c k :
  bal_steps accts tenant m l m' -> Forall (fun kd => dcol Held kd.2 <= 0 /\ 0 <= dcol c kd.2) l ->
  stored Held m k <= stored c m k -> stored Held m' k <= stored c m' k.
Proof.
  intros HB HF Hle. rewrite !(bal_steps_stored _ _ _ _ _ _ _ HB). clear HB.
  enough (sumZ (fun kd => if decide (kd.1 = k) then dcol Held kd.2 else 0) l
          <= sumZ (fun kd => if decide (kd.1 = k) then dcol c kd.2 else 0) l) by lia.
  clear Hle. induction HF as [|[k' d] l [H1 H2] _ IH]; cbn in *; [lia|]. case_decide; lia.
Qed.

Lemma posting_deltas_safe stmt c (ps : list Posting) :
  (forall p, 0 <= Units (p_Amount p) -> dcol Held (stmt p) = 0 /\ 0 <= dcol c (stmt p)) ->
  Forall (fun p => 0 <= Units (p_Amount p)) ps ->
  Forall (fun kd : (uuid * string) * Delta => dcol Held kd.2 <= 0 /\ 0 <= dcol c kd.2) (posting_deltas stmt ps).
Proof.
  intros Hs HF. unfold posting_deltas. apply Forall_map. eapply Forall_impl; [exact HF|].
  intros p Hp. destruct (Hs p Hp) as [E1 E2]. split; [|exact E2]. change (dcol Held (stmt p) <= 0). lia.
Qed.

Lemma posted_safe a p : 0 <= Units (p_Amount p) ->
  dcol Held (upsertPostedBalance p) = 0 /\ 0 <= dcol (funding a) (upsertPostedBalance p).
Proof.
  intros Hp. unfold upsertPostedBalance, debitCredit, funding. split; [by case_decide|].
  destruct (a_NormalBalance a); case_decide; cbn; lia.
Qed.

Lemma pending_safe a p : 0 <= Units (p_Amount p) ->
  dcol Held (upsertPendingBalance p) = 0 /\ 0 <= dcol (funding a) (upsertPendingBalance p).
Proof.
  intros Hp. unfold upsertPendingBalance, debitCredit, funding. split; [by case_decide|].
  destruct (a_NormalBalance a); case_decide; cbn; lia.
Qed.

Lemma moved_safe a p : 0 <= Units (p_Amount p) ->
  dcol Held (movePendingToPosted p) = 0 /\ 0 <= dcol (funding a) (movePendingToPosted p).
Proof.
  intros Hp. unfold movePendingToPosted, debitCredit, funding. split; [by case_decide|].
  destruct (a_NormalBalance a); case_decide; cbn; lia.
Qed.

Lemma legs_units db t ps : Forall (leg_wf db t) ps -> Forall (fun p => 0 <= Units (p_Amount p)) ps.
Proof. intros HF. eapply Forall_impl; [exact HF|]. intros p (Hp & _). lia. Qed.

Lemma covered_by db db' tenant l :
  covered db -> accounts db' = accounts db ->
  bal_steps (accounts db) tenant (account_balances db) l (account_balances db') ->
  (forall a, Forall (fun kd => dcol Held kd.2 <= 0 /\ 0 <= dcol (funding a) kd.2) l) -> covered db'.
Proof.
  intros C Ea HB HF id a asset Ha. rewrite Ea in Ha. eapply covered_steps; [exact HB|apply HF|by apply C].
Qed.

Lemma covered_change tenant db db' : Inv db -> change tenant db db' -> covered db -> covered db'.
Proof.
  intros I Ch C. pose proof (inv_wf _ I) as W.
  destruct Ch as [l Ht Hf|a l Ht Hf Hl Hlt Hnb|t l m hash Ht Hs Hpa Hrb Hrv Hl Hlt Hlegs Hfr HB
                |t l m hash ev at_ Ht Hs Hpa Hrb Hrv Hl Hlt Hlegs Hfr HB
                |id t m now ev Hid Ht Hs HB
                |id t rev m hash reason now ev Hid Ht Hs Hrb Hrt Hrl Hrs Hrp Hrr Hri Hm Hfr HB
                |h a m hash ev Ht Hs Hf Ha Hat Hal Hu Hav Hk HB
                |id r status captured m topic data ev Hid Ht Hs Hst Hc HB].
  - exact C.
  - intros id a' asset Ha'. cbn in Ha' |- *. apply lookup_insert_Some in Ha' as [[<- <-]|[_ Ha']]; [|by apply C].
    assert (En : account_balances db !! (a_ID a, asset) = None).
    { destruct (account_balances db !! _) as [r|] eqn:E; [|done].
      destruct (wf_balances _ W _ _ E) as (_ & a0 & Ha0 & _). cbn in Ha0. congruence. }
    unfold stored. rewrite En. lia.
  - eapply covered_by; [exact C|done|exact HB|]. intros a. apply posting_deltas_safe; [apply pending_safe|].
    by apply legs_ok_wf in Hlegs as (_ & _ & ?%legs_units).
  - eapply covered_by; [exact C|done|exact HB|]. intros a. apply posting_deltas_safe; [apply posted_safe|].
    by apply legs_ok_wf in Hlegs as (_ & _ & ?%legs_units).
  - eapply covered_by; [exact C|done|exact HB|]. intros a. apply posting_deltas_safe; [apply moved_safe|].
    by destruct (loaded_legs _ _ _ _ W Hid Ht) as (_ & _ & ?%legs_units).
  - eapply covered_by; [exact C|done|exact HB|]. intros a. apply posting_deltas_safe; [apply posted_safe|].
    by destruct (reversal_legs _ _ _ _ _ W Hid Ht Hrt Hrl Hm) as (_ & _ & ?%legs_units).
  - rewrite (Available_funds db a (Asset (h_Amount h)) tenant h) in Hav by done.
    destruct (wf_accounts _ W _ _ Ha) as (Hida & _ & _). unfold available_funds in Hav. rewrite Hida in Hav.
    cbn zeta in Hav. intros id a' asset Ha'. cbn in Ha' |- *. rewrite !(bal_steps_stored _ _ _ _ _ _ _ HB).
    specialize (C _ _ asset Ha'). cbn [sumZ map foldr fst snd dcol d_held].
    pose proof (stored_nonneg db PostedDebits (id, asset) I). pose proof (stored_nonneg db PostedCredits (id, asset) I).
    destruct (decide (h_AccountID h = id)) as [<-|Hne].
    + assert (a' = a) as -> by congruence. unfold funding in *.
      destruct (decide (asset = Asset (h_Amount h))) as [->|Hne].
      * rewrite !decide_True by done. destruct (a_NormalBalance a); cbn -[stored] in *; lia.
      * rewrite !decide_False by congruence. destruct (a_NormalBalance a); cbn -[stored] in *; lia.
    + rewrite !decide_False by congruence. lia.
  - destruct (wf_holds _ W _ _ Hid) as (_ & Hu & _).
    eapply covered_by; [exact C|done|exact HB|]. intros a. constructor; [|constructor].
    unfold funding. destruct (a_NormalBalance a); cbn; lia.
Qed.

Lemma history_covered hs : history hs -> Forall covered hs.
Proof.
  induction 1 as [|db past seen tenant r ids now resp db' Hh IH _ Hwf Hrun].
  - constructor; [|constructor]. intros id a asset Ha. cbn in Ha. by rewrite lookup_empty in Ha.
  - constructor; [|done]. apply Forall_cons in IH as [C _].
    assert (I : Inv db) by (eapply history_elem; [exact Hh|by left]).
    destruct (exec_change _ _ _ _ _ _ _ _ I Hwf Hrun) as [-> | Hc]; [done|by eapply covered_change].
Qed.

(** C17: reserving funds. When a new hold is created in a reachable state, the
    account could afford it: the funds available before, posted net minus active
    holds, cover the amount; they are the number the service compared with, no
    64-bit operation having wrapped around; the funds available afterwards are
    lower by exactly the amount, so no hold drives them below zero. *)
Theorem create_hold_affordable hs seen tenant i ids now db h db' :
  history hs -> db ∈ hs -> request_wf (ReqCreateHold i) ->
  exec seen tenant (ReqCreateHold i) ids now db = Ok (RespHold h false, db') ->
  exists a, accounts db !! hi_AccountID i = Some a /\ a_TenantID a = tenant /\
    Available (available_balance tenant h db) (a_NormalBalance a) = available_funds db a (Asset (hi_Amount i)) /\
    0 < Units (hi_Amount i) <= available_funds db a (Asset (hi_Amount i)) /\
    available_funds db' a (Asset (hi_Amount i))
      = available_funds db a (Asset (hi_Amount i)) - Units (hi_Amount i) /\
    0 <= available_funds db' a (Asset (hi_Amount i)).
Proof.
  intros Hh0 Hin Hwf Hrun. pose proof (history_elem _ _ Hh0 Hin) as I.
  pose proof (history_covered _ Hh0) as Hcov. rewrite Forall_forall in Hcov. specialize (Hcov _ Hin).
  cbn [exec] in Hrun. apply bind_ok in Hrun as ([[h0 b] d] & H1 & [= -> -> <-]).
  apply svc_CreateHold_ok in H1 as (h1 & ids' & Hok & Ht & _ & Ham & Hpos & Hac & H1); [|done].
  destruct (CreateHold_ok _ _ _ _ _ _ _ _ Hok H1) as [(? & _)|(_ & Hc & a & Ha & Hat & Eh & Hav & Hh & Hn & HP & HT)];
    [done|]. pose proof (Inv_change _ _ _ Hc I) as I'.
  rewrite (Available_funds db a (Asset (hi_Amount i)) _ h1) in Hav by (done || congruence). rewrite Ham in Hav.
  exists a. rewrite <- Hac. split; [done|]. split; [congruence|].
  split; [rewrite Eh; apply Available_funds; cbn; done || congruence|]. split; [rewrite <- Ham; split; [done|congruence]|].
  assert (Hcols : forall c, stored c (account_balances d) (a_ID a, Asset (hi_Amount i))
    = stored c (account_balances db) (a_ID a, Asset (hi_Amount i))
      + (match c with Held => Units (hi_Amount i) | _ => 0 end)).
  { intros c. destruct (wf_accounts _ (inv_wf _ I) _ _ Ha) as (Hid & _ & _).
    rewrite (inv_consistent _ I), (inv_consistent _ I'), !computed_split.
    rewrite (posted_sum_eq db d) by done. destruct c; cbn [held_col]; try lia.
    rewrite (held_sum_insert db d _ _ _ Hh), Hn, Eh. unfold hold_contrib. cbn.
    rewrite decide_True; [rewrite Ham; lia|]. split; [apply Hok|]. by rewrite Ham, Hid. }
  unfold available_funds in *. cbn zeta in *. rewrite !Hcols.
  destruct (a_NormalBalance a); lia.
Qed.

(** Closing a hold only touches the held column, by exactly its amount. *)
Lemma close_held db db' tenant id r h' :
  Inv db -> change tenant db db' -> holds db !! id = Some r -> h_Status (hr_Hold r) = HoldActive ->
  holds db' = <[id := mkHoldRow h' (hr_RequestHash r)]> (holds db) -> h_Status h' <> HoldActive ->
  postings db' = postings db -> transactions db' = transactions db ->
  forall c k, stored c (account_balances db') k
    = stored c (account_balances db) k
      - (if decide (c = Held /\ k = (h_AccountID (hr_Hold r), Asset (h_Amount (hr_Hold r))))
         then Units (h_Amount (hr_Hold r)) else 0).
Proof.
  intros I Hc Hr Hs Hh Hs' HP HT c k. pose proof (Inv_change _ _ _ Hc I) as I'.
  rewrite (inv_consistent _ I), (inv_consistent _ I'), !computed_split, (posted_sum_eq db db') by done.
  destruct (decide (c = Held)) as [->|Hne].
  - cbn [held_col]. rewrite (held_sum_insert db db' _ _ k Hh), Hr. unfold hold_contrib. cbn. rewrite Hs.
    rewrite (decide_False (P := h_Status h' = HoldActive /\ _)) by naive_solver.
    repeat case_decide; naive_solver lia.
  - rewrite decide_False by naive_solver. destruct c; cbn [held_col]; lia || done.
Qed.

(** How a hold is closed: captured with an input, or released. *)
Definition close_request (id : uuid) (how : option CaptureHoldInput) : request :=
  match how with Some input => ReqCaptureHold id input | None => ReqReleaseHold id end.

(** What closing the hold [h] answers and announces. A capture takes the amount
    asked for, by default the whole hold, and names the remainder it gives back
    when it is not all; a release gives back the whole amount. *)
Definition closed_as (h : Hold) (now : time) (how : option CaptureHoldInput) (h' : Hold) (topic : string) (data : payload)
  : Prop :=
  match how with
  | Some input =>
      let captured := default (h_Amount h) (ki_Amount input) in
      h' = set_hold_status h HoldCaptured (ki_TransactionID input) /\
      Asset captured = Asset (h_Amount h) /\ 0 < Units captured <= Units (h_Amount h) /\
      topic = TopicHoldCaptured /\
      data = PHoldCaptured (mkHoldCapturedEvent (h_ID h) (h_LedgerID h) (h_AccountID h)
               (mkEventMoney (Asset (h_Amount h)) (FormatInt (Units captured)))
               (if decide (Units captured = Units (h_Amount h)) then None
                else Some (mkEventMoney (Asset (h_Amount h)) (FormatInt (Units (h_Amount h) - Units captured))))
               (ki_TransactionID input) now)
  | None =>
      h' = set_hold_status h HoldReleased (h_CapturedTransactionID h) /\
      topic = TopicHoldReleased /\
      data = PHoldReleased (mkHoldReleasedEvent (h_ID h) (h_LedgerID h) (h_AccountID h)
               (mkEventMoney (Asset (h_Amount h)) (FormatInt (Units (h_Amount h)))) "released" now)
  end.

Lemma exec_close seen tenant id how ids now db h' db' :
  Inv db -> exec seen tenant (close_request id how) ids now db = Ok (RespHold h' false, db') ->
  exists r topic data, holds db !! id = Some r /\ h_TenantID (hr_Hold r) = tenant /\
    h_Status (hr_Hold r) = HoldActive /\ change tenant db db' /\
    closed_as (hr_Hold r) now how h' topic data /\ hold_closed tenant id r h' topic data db db'.
Proof.
  intros I Hrun. destruct how as [input|]; cbn [close_request exec] in Hrun;
    apply bind_ok in Hrun as ([h0 d] & Hrun & [= -> <-]).
  - unfold svc_CaptureHold in Hrun.
    assert (Hpos : match ki_Amount input with Some a => 0 < Units a | None => True end).
    { destruct (ki_Amount input) as [a|]; [|done]. destruct (negb _ || _) eqn:E; [done|].
      by apply orb_false_iff in E as [_ E%Z.leb_gt]. }
    pass_guard Hrun.
    apply (CaptureHold_ok _ _ _ _ _ _ _ _ _ I) in Hrun as (r & Hr & Ht & Hs & -> & Hc & Has & Hle & Hcl).
    destruct (wf_holds _ (inv_wf _ I) _ _ Hr) as (_ & Hu & _).
    exists r, TopicHoldCaptured. eexists. split_and!; [done..| |exact Hcl]. cbn [closed_as].
    split_and!; [done..| |done|done|].
    + destruct (ki_Amount input); cbn; lia.
    + f_equal. unfold NewEventMoney. rewrite Has. cbn [Asset Units]. f_equal. rewrite wrap64_id.
      * destruct (Z.ltb_spec (Units (default (h_Amount (hr_Hold r)) (ki_Amount input))) (Units (h_Amount (hr_Hold r))));
          case_decide; try done; lia.
      * unfold max_int64 in Hu. assert (0 < Units (default (h_Amount (hr_Hold r)) (ki_Amount input)))
          by (destruct (ki_Amount input); cbn; lia). unfold64; lia.
  - apply (ReleaseHold_ok _ _ _ _ _ _ _ I) in Hrun as (r & Hr & Ht & Hs & -> & Hc & Hcl).
    exists r, TopicHoldReleased. eexists. by split_and!.
Qed.

(** C18: closing a hold. Capturing or releasing a hold needs it to be active and
    leaves it in its final state, captured with the transaction named or
    released; it frees exactly the reserved amount, whatever part was captured,
    and moves no posted or pending money; and it appends one event, which carries
    the captured amount, at most the hold, and the remainder when there is one,
    or the whole amount released. No other row of any table changes. *)
Theorem close_hold_frees seen db tenant id how ids now h' db' :
  Inv db -> exec seen tenant (close_request id how) ids now db = Ok (RespHold h' false, db') ->
  exists r topic data ev, holds db !! id = Some r /\ h_TenantID (hr_Hold r) = tenant /\
    h_Status (hr_Hold r) = HoldActive /\ h_Status h' <> HoldActive /\
    closed_as (hr_Hold r) now how h' topic data /\
    holds db' = <[id := mkHoldRow h' (hr_RequestHash r)]> (holds db) /\
    event tenant topic data ev /\ outbox db' = outbox db ++ [ev] /\
    (forall c k, stored c (account_balances db') k
      = stored c (account_balances db) k
        - (if decide (c = Held /\ k = (h_AccountID (hr_Hold r), Asset (h_Amount (hr_Hold r))))
           then Units (h_Amount (hr_Hold r)) else 0)) /\
    ledgers db' = ledgers db /\ accounts db' = accounts db /\ transactions db' = transactions db /\
    postings db' = postings db /\ idempotency_keys db' = idempotency_keys db.
Proof.
  intros I Hrun. apply (exec_close _ _ _ _ _ _ _ _ _ I) in Hrun
    as (r & topic & data & Hr & Ht & Hs & Hc & Has & m & ev & Hev & E).
  assert (Hs' : h_Status h' <> HoldActive)
    by (destruct how; [destruct Has as (-> & _)|destruct Has as (-> & _)]; done).
  exists r, topic, data, ev. split_and!; try done; try (by rewrite E).
  eapply close_held; try done; by rewrite E.
Qed.

Lemma closed_hold_rejected db tenant id h :
  tenant <> uuid_Nil -> find_hold tenant id db = Some h -> h_Status h <> HoldActive ->
  (forall amount tid ids now, CaptureHold tenant id amount tid ids now db = Err ErrInvalidState) /\
  (forall ids now, ReleaseHold tenant id ids now db = Err ErrInvalidState).
Proof.
  intros Hn Hf Hs. split; intros *; unfold CaptureHold, ReleaseHold, WithTenantTx;
    rewrite (proj2 (Z.eqb_neq _ _)) by done;
    unfold captureHoldTx, releaseHoldTx, getHoldTx, mbind, Tx_bind, get_db; cbn; rewrite Hf; cbn;
    by rewrite bool_decide_eq_false_2.
Qed.

(** a hold is closed at most once. Once a tenant's hold is no longer active,
    in that state and in every later one any capture or release of it is
    refused with an invalid-state error and changes nothing. *)
Theorem hold_closes_once newer db older db2 tenant id h :
  history (newer ++ db :: older) -> db2 ∈ newer ++ [db] -> tenant <> uuid_Nil ->
  find_hold tenant id db = Some h -> h_Status h <> HoldActive ->
  find_hold tenant id db2 = Some h /\
  (forall amount tid ids now, CaptureHold tenant id amount tid ids now db2 = Err ErrInvalidState) /\
  (forall ids now, ReleaseHold tenant id ids now db2 = Err ErrInvalidState).
Proof.
  intros Hh Hin Hn Hf Hs. apply find_hold_some in Hf as (r & Hr & <- & Ht).
  destruct (pe_holds _ _ (later_persists _ _ _ _ Hh Hin) _ _ Hr) as (r' & Hr' & _ & Hfin).
  specialize (Hfin Hs). subst r'.
  assert (Hf2 : find_hold tenant id db2 = Some (hr_Hold r)) by (apply find_hold_some; eauto).
  split; [done|]. by eapply closed_hold_rejected.
Qed.
End HoldGuarantees.

(** ** Double entry and events *)

Section Ledgerwide.
Context `{Render, Digest}.

(** C1: double entry. In every reachable state every transaction, draft or
    firm, has at least two postings; for each asset its debits equal its
    credits; its lifecycle columns agree with its status; and its postings are
    positive and hit accounts of its own tenant and ledger. *)
Theorem double_entry hs db id t :
  history hs -> db ∈ hs -> transactions db !! id = Some t ->
  (2 <= length (rows_of db id))%nat /\ rows_balanced (rows_of db id) /\ lifecycle_wf t /\
  Forall (fun r => 0 < pr_Amount r <= max_int64 /\ Direction_Valid (pr_Direction r) = true /\
    exists a, accounts db !! pr_AccountID r = Some a /\ a_TenantID a = t_TenantID t /\
      a_LedgerID a = t_LedgerID t) (rows_of db id).
Proof.
  intros Hh Hin Ht. pose proof (inv_wf _ (history_elem _ _ Hh Hin)) as W.
  destruct (wf_transactions _ W _ _ Ht) as (_ & _ & Hlc & _ & Hlen & Hbal). split_and!; try done.
  apply Forall_forall. intros r [<- Hr]%list_elem_of_filter.
  destruct (wf_postings _ W r Hr) as (? & ? & t' & Ht' & ? & _ & a & ? & ? & ?).
  assert (t' = t) as -> by congruence. split_and!; [lia|lia|done|]. exists a. split_and!; congruence.
Qed.

(** C22: exactly-once events. In every reachable state the outbox holds, for each
    transaction id, exactly one posted event if the transaction has been posted
    and is not itself a reversal, and none otherwise: a draft, an unknown id and a
    reversal, which is a posted transaction too, have none; and exactly one
    reversed event if it has been reversed, and none otherwise. *)
Theorem events_exactly_once hs db id :
  history hs -> db ∈ hs ->
  count_events (is_posted_event id) (outbox db)
    = (match transactions db !! id with
       | Some t => if is_firm (t_Status t) && bool_decide (t_ReversesID t = None) then 1 else 0
       | None => 0 end) /\
  count_events (is_reversed_event id) (outbox db)
    = (match transactions db !! id with
       | Some t => if decide (t_Status t = TransactionReversed) then 1 else 0
       | None => 0 end).
Proof. intros Hh Hin. apply (inv_events _ (history_elem _ _ Hh Hin)). Qed.

(** C3: the held column of every account and asset is the total of its active
    holds, and the posted and pending columns the totals of its firm and draft
    postings, in every reachable state. *)
Theorem balances_consistent hs db k :
  history hs -> db ∈ hs ->
  stored Held (account_balances db) k = held_sum db k /\
  (forall c, c <> Held -> stored c (account_balances db) k = posted_sum db c k).
Proof.
  intros Hh Hin. pose proof (inv_consistent _ (history_elem _ _ Hh Hin)) as C.
  split; [apply (C Held)|]. intros c Hc. rewrite (C c). by destruct c.
Qed.
End Ledgerwide.

(** ** Tenant isolation *)

(** Everything row-level security lets a tenant see. *)
Record View : Type := mkView {
  v_ledgers : gmap uuid Ledger; v_accounts : gmap uuid Account;
  v_transactions : gmap uuid Transaction; v_postings : list PostingRow;
  v_balances : gmap (uuid * string) BalanceRow; v_holds : gmap uuid HoldRow;
  v_keys : gmap (uuid * string) IdemRow; v_outbox : list OutboxRow }.

Definition view (tenant : uuid) (db : DB) : View := {|
  v_ledgers := filter (fun kv => l_TenantID kv.2 = tenant) (ledgers db);
  v_accounts := filter (fun kv => a_TenantID kv.2 = tenant) (accounts db);
  v_transactions := filter (fun kv => t_TenantID kv.2 = tenant) (transactions db);
  v_postings := filter (fun r => pr_TenantID r = tenant) (postings db);
  v_balances := filter (fun kv => br_TenantID kv.2 = tenant) (account_balances db);
  v_holds := filter (fun kv => h_TenantID (hr_Hold kv.2) = tenant) (holds db);
  v_keys := filter (fun kv => kv.1.1 = tenant) (idempotency_keys db);
  v_outbox := filter (fun r => ob_TenantID r = tenant) (outbox db) |}.

Lemma filter_insert_hidden {K V} `{Countable K} (P : K * V -> Prop) `{!forall x, Decision (P x)}
  (m : gmap K V) k v :
  ~ P (k, v) -> (forall v0, m !! k = Some v0 -> ~ P (k, v0)) -> filter P (<[k := v]> m) = filter P m.
Proof. intros H1 H2. by apply map_filter_insert_not'. Qed.

Lemma bal_steps_hidden accts tenant m l m' other :
  other <> tenant -> bal_steps accts tenant m l m' ->
  filter (fun kv : (uuid * string) * BalanceRow => br_TenantID kv.2 = other) m'
  = filter (fun kv => br_TenantID kv.2 = other) m.
Proof.
  intros Hne. induction 1 as [|m k d l m' Ht _ _ _ IH]; [done|]. rewrite IH.
  apply filter_insert_hidden; cbn.
  - destruct (m !! k) as [r|] eqn:E; cbn; [rewrite (Ht _ eq_refl)|]; congruence.
  - intros r Hr. rewrite (Ht _ Hr). congruence.
Qed.

Lemma rows_hidden t other ps :
  t_TenantID t <> other ->
  filter (fun r => pr_TenantID r = other) (map (posting_row t) ps) = [].
Proof.
  intros Hne. apply list_filter_none. intros r (p & <- & _)%list_elem_of_In%in_map_iff. done.
Qed.

Lemma event_hidden tenant topic data ev other :
  event tenant topic data ev -> other <> tenant -> filter (fun r => ob_TenantID r = other) [ev] = [].
Proof.
  intros (id & now & ->) Hne. rewrite filter_cons, decide_False; [done|]. cbn. congruence.
Qed.

Lemma record_hidden db t m hash evs other tenant :
  t_TenantID t = tenant -> other <> tenant -> tx_fresh db t ->
  filter (fun kv : (uuid * string) * BalanceRow => br_TenantID kv.2 = other) m
    = filter (fun kv => br_TenantID kv.2 = other) (account_balances db) ->
  filter (fun r => ob_TenantID r = other) evs = [] ->
  view other (record_tx t m hash evs db) = view other db.
Proof.
  intros Ht Hne (Hn & _ & _ & Hk & _) Hm He. unfold view, record_tx. cbn. f_equal; [|..|].
  - apply filter_insert_hidden; cbn; congruence.
  - rewrite filter_app, rows_hidden by congruence. by rewrite app_nil_r.
  - done.
  - apply filter_insert_hidden; cbn; congruence.
  - by rewrite filter_app, He, app_nil_r.
Qed.

Lemma change_hidden tenant db db' other :
  other <> tenant -> change tenant db db' -> view other db' = view other db.
Proof.
  intros Hne C.
  destruct C as [l Ht Hf|a l Ht Hf Hl Hlt Hnb|t l m hash Ht Hs Hpa Hrb Hrv Hl Hlt Hlegs Hfr HB
                |t l m hash ev at_ Ht Hs Hpa Hrb Hrv Hl Hlt Hlegs Hfr HB Hlen Hev
                |id t m now ev Hid Ht Hs HB Hev
                |id t rev m hash reason now ev Hid Ht Hs Hrb Hrt Hrl Hrs Hrp Hrr Hri Hm Hfr HB Hlen Hev
                |h a m hash ev Ht Hs Hf Ha Hat Hal Hu Hav Hk HB Hlen Hev
                |id r status captured m topic data ev Hid Ht Hs Hst Hc HB Hcl Hev].
  - unfold view. cbn. f_equal. apply filter_insert_hidden; cbn; congruence.
  - unfold view. cbn. f_equal. apply filter_insert_hidden; cbn; congruence.
  - eapply record_hidden; eauto using bal_steps_hidden.
  - eapply record_hidden; eauto using bal_steps_hidden, event_hidden.
  - unfold view. cbn. f_equal.
    + apply filter_insert_hidden; cbn; congruence.
    + by eapply bal_steps_hidden.
    + rewrite filter_app, (event_hidden _ _ _ _ _ Hev) by done. by rewrite app_nil_r.
  - cbn zeta. rewrite <- (record_hidden db rev m hash [ev] other tenant)
      by eauto using bal_steps_hidden, event_hidden.
    unfold view. cbn. f_equal. apply filter_insert_hidden; cbn; [congruence|].
    intros t0 Ht0. rewrite lookup_insert_ne in Ht0 by (intros E; destruct Hfr; congruence). congruence.
  - unfold view. cbn. f_equal.
    + by eapply bal_steps_hidden.
    + apply filter_insert_hidden; cbn; congruence.
    + rewrite filter_app, (event_hidden _ _ _ _ _ Hev) by done. by rewrite app_nil_r.
  - unfold view. cbn. f_equal.
    + by eapply bal_steps_hidden.
    + apply filter_insert_hidden; cbn; congruence.
    + rewrite filter_app, (event_hidden _ _ _ _ _ Hev) by done. by rewrite app_nil_r.
Qed.
