(* ===== verification/LedgerWitnesses.v ===== *)
(** * The ledger theorems at work

    One tenant opens a ledger, moves money, posts a draft, reverses it, and
    opens and captures a hold; the renderers and the digest are small concrete
    functions. The witnesses of the theorems are evaluated on it. *)

From Stdlib Require Import Ascii String ZArith Lia.
From S2P Require Import Prelude Strconv Errors Money LedgerDomain LedgerEvents LedgerDb Httpx LedgerStore.
From S2P Require Import LedgerReports LedgerService LedgerSpec LedgerInv LedgerBalance LedgerLinks.
From S2P Require Import LedgerRefine LedgerTheorems LedgerTrial LedgerGuarantees.
Local Open Scope Z_scope.
Local Open Scope string_scope.

Definition demo_render : Render := {| uuid_String := FormatInt; rfc3339nano := FormatInt |}.
#[export] Existing Instance demo_render.

(** A checksum padded to 32 bytes. *)
Definition string_sum (s : string) : Z := sumZ byte_val (list_ascii_of_string s).

Definition checksum (c : canonical) : Z :=
  match c with
  | CanonTransaction c =>
      string_sum (ct_LedgerID c) + string_sum (ct_Reference c) + string_sum (ct_Description c)
      + string_sum (ct_Status c) + string_sum (default "" (ct_EffectiveAt c))
      + sumZ (fun p => cp_Units p * (1 + string_sum (cp_AccountID p))) (ct_Postings c)
  | CanonHold c => string_sum (ch_AccountID c) + ch_Units c
  | CanonReversal c => string_sum (cr_ReversesID c) + string_sum (cr_Reason c)
  end.

Definition demo_digest : Digest.
Proof.
  refine {| sha256_json := fun c => checksum c :: replicate 31 0 |}.
  intros c. cbn [length]. by rewrite length_replicate.
Defined.
#[export] Existing Instance demo_digest.

Definition tenant : uuid := 7.

Definition usd (units : Z) : Amount := mkAmount "USD" units.

(** Money from account 2 (cash, debit normal) to account 3 (wallet, credit
    normal). *)
Definition transfer (key : string) (status : TransactionStatus) (units : Z) : CreateTransactionInput :=
  {| ci_LedgerID := 1; ci_IdempotencyKey := key; ci_Reference := "r"; ci_Description := "";
     ci_Status := Some status; ci_EffectiveAt := None; ci_Metadata := None;
     ci_Postings := [mkPostingInput 2 DirectionDebit (usd units);
                     mkPostingInput 3 DirectionCredit (usd units)] |}.

Definition hold_input : CreateHoldInput :=
  {| hi_AccountID := 3; hi_LedgerID := 0; hi_IdempotencyKey := "h1"; hi_Amount := usd 100;
     hi_ExpiresAt := None; hi_Metadata := None |}.

Definition demo_calls : list call := [
  mkCall tenant (ReqCreateLedger (mkCreateLedgerInput "main" "" "sandbox" None)) [1] 1000;
  mkCall tenant (ReqCreateAccount (mkCreateAccountInput 1 "cash" AccountAsset NormalDebit None)) [2] 2000;
  mkCall tenant (ReqCreateAccount (mkCreateAccountInput 1 "wallet" AccountLiability NormalCredit None))
    [3] 3000;
  mkCall tenant (ReqCreateTransaction (transfer "k1" TransactionPosted 500)) [10; 11; 12; 13] 4000;
  mkCall tenant (ReqCreateTransaction (transfer "k2" TransactionDraft 70)) [20; 21; 22] 5000;
  mkCall tenant (ReqPostTransaction 20) [30] 6000;
  mkCall tenant (ReqReverseTransaction 20 (mkReverseTransactionInput "" "oops")) [40; 41; 42; 43] 7000;
  mkCall tenant (ReqCreateHold hold_input) [50; 51] 8000;
  mkCall tenant (ReqCaptureHold 50 (mkCaptureHoldInput (Some (usd 40)) (Some 10))) [60] 9000].

(** The states after the first [n] calls, newest first. *)
Definition demo_hs (n : nat) : list DB := run (take n demo_calls) [empty_db].
Definition demo_db (n : nat) : DB := last_db (demo_hs n).

Lemma demo_wf : Forall (fun c => request_wf (k_request c)) demo_calls.
Proof. repeat constructor. Qed.

Lemma demo_history n : history (demo_hs n).
Proof. apply run_history; [apply Forall_take, demo_wf|constructor]. Qed.

Lemma demo_in n : demo_db n ∈ demo_hs n.
Proof. apply last_db_elem, demo_history. Qed.

Lemma demo_inv n : Inv (demo_db n).
Proof. eapply history_elem; [apply demo_history|apply demo_in]. Qed.

(** Every call of the history succeeds. *)
Example demo_length : length (demo_hs 9) = 10%nat.
Proof. vm_compute. reflexivity. Qed.

Example demo_wallet :
  option_map (fun r => (br_PostedDebits r, br_PostedCredits r, br_Held r))
    (account_balances (demo_db 8) !! (3, "USD")) = Some (70, 570, 100).
Proof. vm_compute. reflexivity. Qed.

Example demo_final :
  option_map (fun r => (br_PostedDebits r, br_PostedCredits r, br_Held r))
    (account_balances (demo_db 9) !! (3, "USD")) = Some (70, 570, 0).
Proof. vm_compute. reflexivity. Qed.

(** ** The ledger theorems at work on this history *)
Local Open Scope Z_scope.
Local Open Scope string_scope.
Local Open Scope list_scope.

(** The request of the [n]th call, run on the state before it. *)
Definition demo_exec (n : nat) : result error (response * DB) :=
  match nth_error demo_calls n with
  | Some c => exec None (k_tenant c) (k_request c) (k_ids c) (k_now c) (demo_db n)
  | None => Err ErrOther
  end.

Definition posted_input : CreateTransactionInput := transfer "k1" TransactionPosted 500.

Lemma tenant_set : tenant <> uuid_Nil.
Proof. discriminate. Qed.

Lemma demo_split_7 : demo_hs 7 = [demo_db 7; demo_db 6] ++ (demo_db 5 :: demo_hs 4).
Proof. vm_compute. reflexivity. Qed.

Lemma demo_split_9 :
  demo_hs 9 = [demo_db 9; demo_db 8; demo_db 7; demo_db 6; demo_db 5] ++ demo_db 4 :: demo_hs 3.
Proof. vm_compute. reflexivity. Qed.

Lemma demo_history_7 : history ([demo_db 7; demo_db 6] ++ (demo_db 5 :: demo_hs 4)).
Proof. rewrite <- demo_split_7. apply demo_history. Qed.

Lemma demo_history_9 :
  history ([demo_db 9; demo_db 8; demo_db 7; demo_db 6; demo_db 5] ++ demo_db 4 :: demo_hs 3).
Proof. rewrite <- demo_split_9. apply demo_history. Qed.

#[local] Opaque demo_db demo_hs.

Lemma exec_refines_witness : exists resp db', 
  exec None tenant (ReqPostTransaction 20) [30] 6000 (demo_db 5) = Ok (resp, db') /\ Inv db'.
Proof.
  destruct (exec None tenant (ReqPostTransaction 20) [30] 6000 (demo_db 5)) as [[resp db']|e] eqn:E;
    [|exfalso; vm_compute in E; discriminate E].
  exists resp, db'. split; [done|].
  apply (proj2 (exec_refines None tenant (ReqPostTransaction 20) [30] 6000 (demo_db 5) resp db'
    (demo_inv 5) I E)).
Defined.

Lemma verify_balances_empty_witness :
  VerifyBalances tenant 1 [] 0 (demo_db 9) = Ok ([], demo_db 9).
Proof.
  destruct (find_ledger tenant 1 (demo_db 9)) as [l|] eqn:E; [|exfalso; vm_compute in E; discriminate E].
  apply (verify_balances_empty (demo_hs 9) (demo_db 9) tenant 1 l [] 0 (demo_history 9) (demo_in 9)
    tenant_set E).
Defined.

Lemma trial_balance_balanced_witness :
  exists tb, TrialBalance_ tenant 1 (Some 5500) [] 0 (demo_db 9) = Ok (tb, demo_db 9) /\
    Forall (fun t => tbt_Balanced t = true /\ tbt_Debits t = tbt_Credits t) (tb_Totals tb).
Proof.
  destruct (find_ledger tenant 1 (demo_db 9)) as [l|] eqn:E; [|exfalso; vm_compute in E; discriminate E].
  apply (trial_balance_balanced (demo_hs 9) (demo_db 9) tenant 1 l (Some 5500) [] 0 (demo_history 9)
    (demo_in 9) tenant_set E).
Defined.

Lemma double_entry_witness : rows_balanced (rows_of (demo_db 9) 20) /\
  length (rows_of (demo_db 9) 20) = 2%nat.
Proof.
  split; [|by vm_compute].
  destruct (transactions (demo_db 9) !! 20) as [t|] eqn:E; [|exfalso; vm_compute in E; discriminate E].
  destruct (double_entry (demo_hs 9) (demo_db 9) 20 t (demo_history 9) (demo_in 9) E) as (_ & Hb & _).
  exact Hb.
Defined.

Lemma events_exactly_once_witness :
  count_events (is_posted_event 20) (outbox (demo_db 9)) = 1 /\
  count_events (is_reversed_event 20) (outbox (demo_db 9)) = 1.
Proof.
  destruct (events_exactly_once (demo_hs 9) (demo_db 9) 20 (demo_history 9) (demo_in 9)) as [-> ->].
  by vm_compute.
Defined.

Lemma balances_consistent_witness :
  stored Held (account_balances (demo_db 8)) (3, "USD") = held_sum (demo_db 8) (3, "USD") /\
  held_sum (demo_db 8) (3, "USD") = 100.
Proof.
  split; [|by vm_compute].
  destruct (balances_consistent (demo_hs 8) (demo_db 8) (3, "USD") (demo_history 8) (demo_in 8))
    as [Hheld _].
  exact Hheld.
Defined.

Lemma append_only_witness : persists (demo_db 5) (demo_db 7).
Proof.
  apply (append_only [demo_db 7; demo_db 6] (demo_db 5) (demo_hs 4) (demo_db 7) demo_history_7).
  apply list_elem_of_In. by left.
Defined.

Lemma create_records_witness : exists t db',
  exec None tenant (ReqCreateTransaction posted_input) [10; 11; 12; 13] 4000 (demo_db 3)
    = Ok (RespTransaction t false, db') /\
  t_Status t = TransactionPosted /\ length (t_Postings t) = 2%nat /\
  transactions db' !! 10 = Some (transaction_row t) /\ length (outbox db') = S (length (outbox (demo_db 3))).
Proof.
  destruct (exec None tenant (ReqCreateTransaction posted_input) [10; 11; 12; 13] 4000 (demo_db 3))
    as [[[| |t [|]|] db']|e] eqn:E; try (exfalso; vm_compute in E; discriminate E).
  exists t, db'. split; [done|].
  assert (Hwf : request_wf (ReqCreateTransaction posted_input)) by (repeat constructor).
  destruct (create_records None tenant posted_input [10; 11; 12; 13] 4000 (demo_db 3) t db' Hwf E)
    as (Hrq & _ & _ & Ht & _ & _ & Hposted & _).
  pose proof (rq_status _ _ _ _ _ Hrq) as Hs. change (t_Status t = TransactionPosted) in Hs.
  destruct (rq_ids _ _ _ _ _ Hrq) as [rest Hids]. injection Hids as Hid _.
  destruct (Hposted Hs) as (_ & ev & Hout & _).
  split; [exact Hs|]. split; [exact (eq_sym (Forall2_length _ _ _ (rq_postings _ _ _ _ _ Hrq)))|].
  split; [rewrite Ht, <- Hid; apply lookup_insert_eq|]. rewrite Hout, length_app. cbn [length]. lia.
Defined.

Lemma retry_replays_witness : exists t,
  exec None tenant (ReqCreateTransaction posted_input) [90; 91; 92] 99999 (demo_db 9)
    = Ok (RespTransaction t true, demo_db 9) /\ t_ID t = 10.
Proof.
  destruct (exec None tenant (ReqCreateTransaction posted_input) [10; 11; 12; 13] 4000 (demo_db 3))
    as [[[| |t [|]|] db']|e] eqn:E; try (exfalso; vm_compute in E; discriminate E).
  assert (E4 : db' = demo_db 4).
  { clear -E. vm_compute in E. injection E as _ <-. by vm_compute. }
  assert (Et : t_ID t = 10) by (clear -E; vm_compute in E; injection E as <- _; done). subst db'.
  exists (json_snapshot t). split; [|done].
  assert (Hwf : request_wf (ReqCreateTransaction posted_input)) by (repeat constructor).
  apply (retry_replays None tenant posted_input [10; 11; 12; 13] 4000 (demo_db 3) t (demo_db 4)
    [demo_db 9; demo_db 8; demo_db 7; demo_db 6; demo_db 5] (demo_hs 3) (demo_db 9) [90; 91; 92] 99999
    tenant_set (demo_inv 3) Hwf E demo_history_9); [apply list_elem_of_In; by left|].
  apply Nat.leb_le. by vm_compute.
Defined.

(** A request that reads the state before the key was recorded still replays. *)
Lemma key_wins_race_witness : exists row t,
  idempotency_keys (demo_db 4) !! (tenant, "k1") = Some row /\
  exec (Some (demo_db 3)) tenant (ReqCreateTransaction posted_input) [90; 91; 92] 4100 (demo_db 4)
    = Ok (RespTransaction t true, demo_db 4) /\ t = ik_Response row.
Proof.
  destruct (idempotency_keys (demo_db 4) !! (tenant, "k1")) as [row|] eqn:Hrow;
    [|exfalso; vm_compute in Hrow; discriminate Hrow].
  destruct (exec (Some (demo_db 3)) tenant (ReqCreateTransaction posted_input) [90; 91; 92] 4100
    (demo_db 4)) as [[resp db']|e] eqn:Hrun; [|exfalso; vm_compute in Hrun; discriminate Hrun].
  assert (Hwf : request_wf (ReqCreateTransaction posted_input)) by (repeat constructor).
  assert (Hh : history (demo_db 4 :: demo_hs 3)).
  { assert (E : demo_hs 4 = demo_db 4 :: demo_hs 3) by (vm_compute; reflexivity).
    rewrite <- E. apply demo_history. }
  assert (Hs : Some (demo_db 3) = None \/
               exists s, Some (demo_db 3) = Some s /\ s ∈ demo_db 4 :: demo_hs 3).
  { right. exists (demo_db 3). split; [done|]. apply elem_of_cons. right. apply demo_in. }
  destruct (key_wins_race (demo_db 4) (demo_hs 3) (Some (demo_db 3)) tenant posted_input
    [90; 91; 92] 4100 resp db' row Hh Hs Hwf Hrow Hrun) as (-> & -> & _).
  exists row, (ik_Response row). split_and!; done.
Defined.

Lemma reversal_unique_and_cancels_witness :
  rows_net (3, "USD") (rows_of (demo_db 9) 40) + rows_net (3, "USD") (rows_of (demo_db 9) 20) = 0.
Proof.
  destruct (transactions (demo_db 9) !! 40) as [t|] eqn:E; [|exfalso; vm_compute in E; discriminate E].
  assert (Er : t_ReversesID t = Some 20) by (clear -E; vm_compute in E; by injection E as <-).
  destruct (reversal_unique_and_cancels (demo_hs 9) (demo_db 9) 20 40 40 t t (demo_history 9)
    (demo_in 9) E E Er Er) as (_ & o & _ & _ & _ & _ & _ & Hnet).
  exact (Hnet (3, "USD")).
Defined.

Lemma post_transaction_branches_witness :
  exists t, PostTransaction tenant 20 [] 0 (demo_db 6) = Ok (t, demo_db 6) /\
    t_Status t = TransactionPosted.
Proof.
  pose proof (post_transaction_branches (demo_db 6) tenant 20 [] 0 (demo_inv 6) tenant_set) as P.
  destruct (find_transaction tenant 20 (demo_db 6)) as [t|] eqn:E; [|exfalso; vm_compute in E; discriminate E].
  assert (Es : t_Status t = TransactionPosted) by (clear -E; vm_compute in E; by injection E as <-).
  rewrite Es in P. eexists. split; [exact P|exact Es].
Defined.

Lemma create_hold_affordable_witness : exists a,
  accounts (demo_db 7) !! 3 = Some a /\ available_funds (demo_db 7) a "USD" = 500 /\
  available_funds (demo_db 8) a "USD" = 400.
Proof.
  destruct (exec None tenant (ReqCreateHold hold_input) [50; 51] 8000 (demo_db 7))
    as [[[| | |h [|]] db']|e] eqn:E; try (exfalso; vm_compute in E; discriminate E).
  assert (E8 : db' = demo_db 8) by (clear -E; vm_compute in E; injection E as _ <-; by vm_compute).
  assert (Hwf : request_wf (ReqCreateHold hold_input)) by done.
  destruct (create_hold_affordable (demo_hs 7) None tenant hold_input [50; 51] 8000 (demo_db 7) h db'
    (demo_history 7) (demo_in 7) Hwf E) as (a & Ha & _ & _ & _ & H8 & _).
  assert (H7 : available_funds (demo_db 7) a "USD" = 500)
    by (clear -Ha; vm_compute in Ha; injection Ha as <-; by vm_compute).
  subst db'. exists a. split; [exact Ha|]. split; [exact H7|].
  change (Asset (hi_Amount hold_input)) with "USD" in H8. rewrite H8, H7. reflexivity.
Defined.

(** A hold of 100 of which 40 are captured. *)
Lemma close_hold_frees_witness : exists h' db' data ev,
  exec None tenant (ReqCaptureHold 50 (mkCaptureHoldInput (Some (usd 40)) None)) [60] 9000 (demo_db 8)
    = Ok (RespHold h' false, db') /\
  outbox db' = outbox (demo_db 8) ++ [ev] /\ event tenant TopicHoldCaptured data ev /\
  stored Held (account_balances db') (3, "USD") = stored Held (account_balances (demo_db 8)) (3, "USD") - 100.
Proof.
  destruct (exec None tenant (ReqCaptureHold 50 (mkCaptureHoldInput (Some (usd 40)) None)) [60] 9000 (demo_db 8))
    as [[[| | |h' [|]] db']|e] eqn:E; try (exfalso; vm_compute in E; discriminate E).
  destruct (close_hold_frees None (demo_db 8) tenant 50 (Some (mkCaptureHoldInput (Some (usd 40)) None)) [60] 9000
    h' db' (demo_inv 8) E) as (r & topic & data & ev & Hr & _ & _ & _ & (_ & _ & _ & Ht & _) & _ & Hev & Hout & Hcols & _).
  subst topic. exists h', db', data, ev. split; [reflexivity|]. split; [exact Hout|]. split; [exact Hev|].
  rewrite (Hcols Held (3, "USD")). f_equal. clear -Hr. vm_compute in Hr. injection Hr as <-. by vm_compute.
Defined.

Lemma hold_closes_once_witness :
  CaptureHold tenant 50 (Some (usd 40)) None [] 9900 (demo_db 9) = Err ErrInvalidState.
Proof.
  destruct (find_hold tenant 50 (demo_db 9)) as [h|] eqn:E; [|exfalso; vm_compute in E; discriminate E].
  assert (Hs : h_Status h <> HoldActive) by (clear -E; vm_compute in E; by injection E as <-).
  assert (Hh : history ([] ++ demo_db 9 :: demo_hs 8)).
  { assert (E9 : demo_hs 9 = demo_db 9 :: demo_hs 8) by (vm_compute; reflexivity).
    cbn [app]. rewrite <- E9. apply demo_history. }
  destruct (hold_closes_once [] (demo_db 9) (demo_hs 8) (demo_db 9) tenant 50 h Hh
    ltac:(apply list_elem_of_In; by left) tenant_set E Hs) as (_ & Hc & _).
  apply Hc.
Defined.
