(* ===== verification/TxMonad.v ===== *)
(** * Transactions of the satellite services

    The reconciliation, webhooks and identity services keep their state in
    PostgreSQL behind [pgxutil.WithTenantTx]. A use case is a program over the
    service's tables that draws ids and reads the clock; it fails as a whole. *)

From Stdlib Require Import Ascii String ZArith Lia.
From S2P Require Import Prelude Strconv Errors LedgerDomain LedgerEvents.
Local Open Scope Z_scope.

(** What the environment hands to a use case: the random (v4) ids and the
    successive readings of [time.Now]. The v7 ids are a finite list in the
    state, because drawing one can fail. *)
Class Supply : Type := { v4_at : nat -> uuid; clock_at : nat -> time }.

Record UseState (S : Type) : Type := mkUse {
  u_db : S; u_v7 : list uuid; u_v4 : nat; u_clock : nat }.
Arguments mkUse {S} _ _ _ _.
Arguments u_db {S} _.
Arguments u_v7 {S} _.
Arguments u_v4 {S} _.
Arguments u_clock {S} _.

Definition Use (S A : Type) : Type := UseState S -> result error (A * UseState S).

#[export] Instance Use_ret {S} : MRet (Use S) := fun A a st => Ok (a, st).
#[export] Instance Use_bind {S} : MBind (Use S) := fun A B f m st =>
  match m st with Ok (a, st') => f a st' | Err e => Err e end.

Section Operations.
Context {S : Type} `{Supply}.

Definition fail {A} (e : error) : Use S A := fun _ => Err e.
Definition require (b : bool) (e : error) : Use S unit := if b then mret tt else fail e.
Definition read : Use S S := fun st => Ok (u_db st, st).
Definition write (f : S -> S) : Use S unit := fun st =>
  Ok (tt, mkUse (f (u_db st)) (u_v7 st) (u_v4 st) (u_clock st)).
Definition now : Use S time := fun st =>
  Ok (clock_at (u_clock st), mkUse (u_db st) (u_v7 st) (u_v4 st) (u_clock st + 1)%nat).
Definition newV4 : Use S uuid := fun st =>
  Ok (v4_at (u_v4 st), mkUse (u_db st) (u_v7 st) (u_v4 st + 1)%nat (u_clock st)).
Definition newV7 : Use S uuid := fun st =>
  '(id, ids) ← LedgerDomain.newID (u_v7 st);
  Ok (id, mkUse (u_db st) ids (u_v4 st) (u_clock st)).
(** [newID] of the satellite services: v7, or v4 when that fails. *)
Definition newV7_or_V4 : Use S uuid := fun st =>
  match u_v7 st with [] => newV4 st | _ :: _ => newV7 st end.

Definition envelope {D} (topic : string) (tenantID : uuid) (data : D) : Use S (Envelope D) := fun st =>
  '(env, ids) ← NewEnvelope topic tenantID data (clock_at (u_clock st)) (u_v7 st);
  Ok (env, mkUse (u_db st) ids (u_v4 st) (u_clock st + 1)%nat).

Fixpoint each {A} (l : list A) (f : A -> Use S unit) : Use S unit :=
  match l with [] => mret tt | a :: rest => _ ← f a; each rest f end.

Fixpoint collect_each {A B} (l : list A) (f : A -> Use S B) : Use S (list B) :=
  match l with
  | [] => mret []
  | a :: rest => b ← f a; bs ← collect_each rest f; mret (b :: bs)
  end.

(** [pgxutil.WithTenantTx] around a body: a nil tenant is refused. A failed
    use case has no resulting state, which is the rollback. *)
Definition within {A} (tenant : uuid) (body : Use S A) : Use S A :=
  _ ← require (negb (tenant =? uuid_Nil)) ErrOther; body.

(** A use case of several transactions: [commit] runs one, keeping the tables
    when it fails; [commit_each] runs one per element and stops at the first
    failure, whose predecessors stay committed. *)
Definition commit {A} (m : Use S A) (st : UseState S) : result error A * UseState S :=
  match m st with Ok (a, st') => (Ok a, st') | Err e => (Err e, st) end.

Fixpoint commit_each {A} (l : list A) (f : A -> Use S unit) (st : UseState S) : result error unit * UseState S :=
  match l with
  | [] => (Ok tt, st)
  | a :: rest =>
      match commit (f a) st with
      | (Ok _, st') => commit_each rest f st'
      | (Err e, st') => (Err e, st')
      end
  end.
End Operations.

(** ** Successful runs *)

Section Inversion.
Context {S : Type} `{Supply}.
Implicit Types st : UseState S.

Lemma use_bind_ok {A B} (m : Use S A) (f : A -> Use S B) st r :
  (m ≫= f) st = Ok r <-> exists a st1, m st = Ok (a, st1) /\ f a st1 = Ok r.
Proof.
  unfold mbind, Use_bind. destruct (m st) as [[a st1]|e]; [|naive_solver].
  split; [eauto|]. by intros (a' & st1' & [= <- <-] & ?).
Qed.

Lemma use_ret_ok {A} (a b : A) st st' : (mret a : Use S A) st = Ok (b, st') <-> b = a /\ st' = st.
Proof. unfold mret, Use_ret. naive_solver. Qed.

Lemma fail_ok {A} e st r : (fail e : Use S A) st = Ok r <-> False.
Proof. by unfold fail. Qed.

Lemma require_ok b e st u st' : (require b e : Use S unit) st = Ok (u, st') <-> b = true /\ st' = st.
Proof. destruct b, u; unfold require, mret, Use_ret, fail; naive_solver. Qed.

Lemma read_ok st db st' : (read : Use S S) st = Ok (db, st') <-> db = u_db st /\ st' = st.
Proof. unfold read. naive_solver. Qed.

Lemma write_ok f st u st' :
  (write f : Use S unit) st = Ok (u, st')
  <-> st' = mkUse (f (u_db st)) (u_v7 st) (u_v4 st) (u_clock st).
Proof. destruct u. unfold write. naive_solver. Qed.

Lemma now_ok st t st' : (now : Use S time) st = Ok (t, st') -> u_db st' = u_db st.
Proof. unfold now. by intros [= <- <-]. Qed.

Lemma newV7_or_V4_ok st id st' : (newV7_or_V4 : Use S uuid) st = Ok (id, st') -> u_db st' = u_db st.
Proof.
  unfold newV7_or_V4, newV7, newV4, LedgerDomain.newID.
  destruct (u_v7 st); cbn; by intros [= <- <-].
Qed.

Lemma newV4_ok st id st' : (newV4 : Use S uuid) st = Ok (id, st') -> u_db st' = u_db st.
Proof. unfold newV4. by intros [= <- <-]. Qed.

Lemma newV7_ok st id st' : (newV7 : Use S uuid) st = Ok (id, st') -> u_db st' = u_db st.
Proof. unfold newV7, LedgerDomain.newID. destruct (u_v7 st); cbn; [done|]. by intros [= <- <-]. Qed.

Lemma envelope_ok {D} topic tenant (data : D) st env st' :
  (envelope topic tenant data : Use S (Envelope D)) st = Ok (env, st') ->
  u_db st' = u_db st /\ env_Type env = topic /\ env_TenantID env = tenant /\ env_Data env = data.
Proof.
  unfold envelope, NewEnvelope, LedgerDomain.newID. destruct (u_v7 st); cbn; [done|].
  by intros [= <- <-].
Qed.
End Inversion.

(** Takes a successful use case apart, statement by statement. *)
Ltac inv_use H :=
  cbv zeta in H;
  lazymatch type of H with
  | (mbind _ _) _ = Ok _ =>
      apply use_bind_ok in H;
      let a := fresh "x" in let st := fresh "st" in let H1 := fresh "Hs" in
      destruct H as (a & st & H1 & H); inv_use H1; inv_use H
  | mret _ _ = Ok _ => apply use_ret_ok in H; destruct H as [? ?]; subst
  | fail _ _ = Ok _ => apply fail_ok in H; destruct H
  | read _ = Ok _ => apply read_ok in H; destruct H as [? ?]; subst
  | require _ _ _ = Ok _ => apply require_ok in H; destruct H as [H ?]; subst;
                            rewrite ?bool_decide_eq_true in H
  | write _ _ = Ok _ => apply write_ok in H; subst; cbn [u_db u_v7 u_v4 u_clock]
  | within _ _ _ = Ok _ => unfold within in H; inv_use H
  | _ => idtac
  end.

(** A loop carries an invariant that relates the elements done to the state. *)
Lemma each_ok {S A} (f : A -> Use S unit) (P : list A -> UseState S -> Prop) l st u st' :
  (forall a done st st' u, P done st -> f a st = Ok (u, st') -> P (done ++ [a]) st') ->
  P [] st -> each l f st = Ok (u, st') -> P l st'.
Proof.
  intros Hstep. enough (H : forall done st, P done st -> each l f st = Ok (u, st') -> P (done ++ l) st')
    by apply (H []).
  induction l as [|a l IH]; intros dn s HP Hr; cbn [each] in Hr.
  - inv_use Hr. by rewrite app_nil_r.
  - apply use_bind_ok in Hr as (x & s1 & H1 & H2). rewrite (cons_middle a dn l), app_assoc.
    eapply IH; eauto.
Qed.

Lemma collect_each_ok {S A B} (f : A -> Use S B) (P : list A -> list B -> UseState S -> Prop) l st bs st' :
  (forall a done bs b st st', P done bs st -> f a st = Ok (b, st') -> P (done ++ [a]) (bs ++ [b]) st') ->
  P [] [] st -> collect_each l f st = Ok (bs, st') -> P l bs st'.
Proof.
  intros Hstep.
  enough (H : forall done bs0 st bs, P done bs0 st -> collect_each l f st = Ok (bs, st') ->
    P (done ++ l) (bs0 ++ bs) st') by (intros; by apply (H [] [] st)).
  induction l as [|a l IH]; intros dn bs0 s bs' HP Hr; cbn [collect_each] in Hr.
  - inv_use Hr. by rewrite !app_nil_r.
  - apply use_bind_ok in Hr as (b & s1 & H1 & H2). apply use_bind_ok in H2 as (bs1 & s2 & H2 & H3).
    inv_use H3. rewrite (cons_middle a dn l), (cons_middle b bs0 bs1), !app_assoc.
    eapply IH; eauto.
Qed.

(** A loop that leaves the tables alone relates its results pointwise. *)
Lemma collect_each_forall2 {S A B} (f : A -> Use S B) (R : A -> B -> Prop) l st bs st' :
  (forall a st b st', f a st = Ok (b, st') -> u_db st' = u_db st /\ R a b) ->
  collect_each l f st = Ok (bs, st') -> u_db st' = u_db st /\ Forall2 R l bs.
Proof.
  intros Hf. revert st bs st'. induction l as [|a l IH]; intros st bs st' Hr; cbn [collect_each] in Hr.
  - inv_use Hr. by split.
  - apply use_bind_ok in Hr as (b & st1 & (E1 & Hb)%Hf & Hr).
    apply use_bind_ok in Hr as (bs' & st2 & (E2 & Hl)%IH & Hr). inv_use Hr.
    split; [congruence|by constructor].
Qed.

(** A loop over the elements of a list preserves what each of them preserves. *)
Lemma each_preserves {S A} (f : A -> Use S unit) (P : UseState S -> Prop) l st u st' :
  (forall a st st' u, a ∈ l -> P st -> f a st = Ok (u, st') -> P st') ->
  P st -> each l f st = Ok (u, st') -> P st'.
Proof.
  intros Hf. revert st. induction l as [|a l IH]; intros st HP Hr; cbn [each] in Hr; [by inv_use Hr|].
  apply use_bind_ok in Hr as (v & st1 & H1 & Hr).
  eapply IH; [|eapply (Hf a); [left|exact HP|exact H1]|exact Hr].
  intros b s s' w Hb. apply Hf. by right.
Qed.

(** A loop whose body always succeeds, succeeds. *)
Lemma collect_each_total {S A B} (f : A -> Use S B) l st :
  (forall a s, a ∈ l -> exists b s', f a s = Ok (b, s')) ->
  exists bs st', collect_each l f st = Ok (bs, st').
Proof.
  revert st. induction l as [|a l IH]; intros st Hf; [by exists [], st|].
  destruct (Hf a st) as (b & s1 & E1); [set_solver|].
  destruct (IH s1) as (bs & s2 & E2); [intros; apply Hf; set_solver|].
  exists (b :: bs), s2. cbn [collect_each]. unfold mbind, Use_bind. by rewrite E1, E2.
Qed.
