(* ===== verification/Recon.v ===== *)
(** * Reconciliation domain: [services/reconciliation/internal/domain]

    Entities, the statement parser ([csv.go]) and the matcher ([matcher.go]).
    The statement reader is the sequence of results of [csv.Reader.Read], and
    [time.Parse] is an argument; a finding's detail keeps the arguments of its
    format string instead of the rendered text. *)

From Stdlib Require Import Ascii String ZArith Lia.
From S2P Require Import Prelude Strconv Errors Money LedgerDomain.
Local Open Scope Z_scope.

(** ** Entities: [model.go] *)

Inductive SourceKind : Type :=
| SourceBank | SourcePSP | SourceProvider | SourceManual | SourceKindOther (s : string).
Definition ValidSourceKind (k : SourceKind) : bool :=
  match k with SourceKindOther _ => false | _ => true end.

Inductive ImportStatus : Type := ImportPending | ImportProcessed | ImportFailed.
Inductive MatchStatus : Type := MatchUnmatched | MatchMatched | MatchDisputed.
Inductive RunStatus : Type := RunPending | RunRunning | RunCompleted | RunFailed.
Inductive DiscrepancyKind : Type :=
| KindMissingInternal | KindMissingExternal | KindAmountMismatch | KindDuplicate.
Inductive DiscrepancyStatus : Type :=
| DiscrepancyOpen | DiscrepancyInvestigating | DiscrepancyResolved
| DiscrepancyStatusOther (s : string).
Definition ValidDiscrepancyStatus (s : DiscrepancyStatus) : bool :=
  match s with DiscrepancyStatusOther _ => false | _ => true end.

#[export] Instance MatchStatus_eq_dec : EqDecision MatchStatus.
Proof. solve_decision. Defined.
#[export] Instance RunStatus_eq_dec : EqDecision RunStatus.
Proof. solve_decision. Defined.
#[export] Instance DiscrepancyKind_eq_dec : EqDecision DiscrepancyKind.
Proof. solve_decision. Defined.
#[export] Instance DiscrepancyStatus_eq_dec : EqDecision DiscrepancyStatus.
Proof. solve_decision. Defined.

Record Source : Type := mkSource {
  s_ID : uuid; s_TenantID : uuid; s_Name : string; s_Kind : SourceKind; s_CreatedAt : time }.

(** Rejections of the statement parser, with the row the message names. *)
Inductive csv_error : Type :=
| CsvEmptyFile
| CsvReadHeader
| CsvMissingColumn (col : string)
| CsvReadRow (row : Z)
| CsvRefRequired (row : Z)
| CsvRefTooLong (row : Z)
| CsvAssetRequired (row : Z)
| CsvBadAsset (row : Z)
| CsvBadAmount (row : Z) (raw : string) (e : error)
| CsvBadOccurredAt (row : Z) (raw : string)
| CsvBadDirection (row : Z) (raw : string).

Record Import_ : Type := mkImport {
  i_ID : uuid; i_TenantID : uuid; i_SourceID : uuid; i_Filename : string;
  i_Status : ImportStatus; i_RowCount : Z; i_Error : option csv_error; i_CreatedAt : time }.

Record ExternalTransaction : Type := mkExternal {
  x_ID : uuid; x_TenantID : uuid; x_ImportID : uuid; x_SourceID : uuid;
  x_ExternalRef : string; x_Amount : Z; x_Asset : string; x_Direction : string;
  x_OccurredAt : time; x_Raw : gmap string string; x_MatchStatus : MatchStatus;
  x_MatchedEntryID : option uuid }.

Definition dir_debit : string := "DEBIT".
Definition dir_credit : string := "CREDIT".

Record MirrorEntry : Type := mkMirror {
  m_ID : uuid; m_TenantID : uuid; m_TransactionID : uuid; m_AccountID : uuid;
  m_Direction : string; m_Amount : Z; m_Asset : string; m_Reference : string;
  m_PostedAt : time }.

#[export] Instance MirrorEntry_eq_dec : EqDecision MirrorEntry.
Proof. solve_decision. Defined.

Record Run : Type := mkRun {
  r_ID : uuid; r_TenantID : uuid; r_SourceID : uuid; r_Status : RunStatus;
  r_MatchedCount : Z; r_UnmatchedCount : Z; r_StartedAt : time; r_FinishedAt : option time }.

Record SourceSummary : Type := mkSummary {
  ss_SourceID : uuid; ss_SourceName : string; ss_Matched : Z; ss_Unmatched : Z;
  ss_Disputed : Z; ss_OpenDiscrepancies : Z }.

(** ** The statement parser: [csv.go] *)

Definition DefaultCSVExponent : Z := 2.

Definition csv_assetExponents : gmap string Z := list_to_map [
  ("JPY", 0); ("KRW", 0); ("CLP", 0); ("VND", 0); ("ISK", 0);
  ("BHD", 3); ("KWD", 3); ("OMR", 3); ("TND", 3)]%string.

Definition DefaultAssetExponent (asset : string) : Z :=
  default DefaultCSVExponent (csv_assetExponents !! ToUpper asset).

Definition FixedExponent (n : Z) : string -> Z := fun _ => n.

Record StatementRow : Type := mkRow {
  sr_ExternalRef : string; sr_AmountUnits : Z; sr_Asset : string; sr_Direction : string;
  sr_OccurredAt : time; sr_Raw : gmap string string }.

Definition csvColumns : list string := ["external_ref"; "amount"; "asset"; "occurred_at"]%string.

(** The header's columns; a repeated name keeps its last position. *)
Definition header_index (header : list string) : gmap string nat :=
  fold_left (fun m '(i, col) => <[ToLower (TrimSpace col) := i]> m) (imap pair header) ∅.

Definition missing_column (colIdx : gmap string nat) : option string :=
  head (filter (fun col => colIdx !! col = None) csvColumns).

(** [field(col)]; a column absent from the index reads position 0, as Go's map
    lookup does. *)
Definition csv_field (colIdx : gmap string nat) (rec : list string) (col : string) : string :=
  match rec !! default 0%nat (colIdx !! col) with Some v => TrimSpace v | None => "" end.

(** The optional direction column: the raw value and the normalized one. *)
Definition csv_direction (colIdx : gmap string nat) (rec : list string) (rowNum : Z)
  : result csv_error (string * string) :=
  match colIdx !! "direction"%string with
  | Some _ =>
      let raw := csv_field colIdx rec "direction" in
      if decide (ToUpper raw = "") then Ok (raw, "")
      else if decide (ToUpper raw = dir_debit) then Ok (raw, dir_debit)
      else if decide (ToUpper raw = dir_credit) then Ok (raw, dir_credit)
      else Err (CsvBadDirection rowNum raw)
  | None => Ok ("", "")%string
  end.

(** One record of the statement. [parse_time] is [time.Parse(time.RFC3339, _)]
    followed by [UTC]. *)
Definition parse_row (parse_time : string -> option time) (exp : string -> Z)
  (colIdx : gmap string nat) (rec : list string) (rowNum : Z) : result csv_error StatementRow :=
  let field := csv_field colIdx rec in
  let ref := field "external_ref"%string in
  _ ← guard_err (bool_decide (ref = ""%string)) (CsvRefRequired rowNum);
  _ ← guard_err (255 <? Z.of_nat (String.length ref)) (CsvRefTooLong rowNum);
  let asset := field "asset"%string in
  _ ← guard_err (bool_decide (asset = ""%string)) (CsvAssetRequired rowNum);
  _ ← map_err (fun _ => CsvBadAsset rowNum) (ValidateAssetCode asset);
  let rawAmount := field "amount"%string in
  units ← map_err (CsvBadAmount rowNum rawAmount) (ParseUnits rawAmount (exp asset));
  let rawOccurred := field "occurred_at"%string in
  occurredAt ← (match parse_time rawOccurred with
                | Some t => Ok t
                | None => Err (CsvBadOccurredAt rowNum rawOccurred)
                end);
  '(rawDirection, direction) ← csv_direction colIdx rec rowNum;
  let raw := list_to_map [("external_ref", ref); ("amount", rawAmount); ("asset", asset);
                          ("occurred_at", rawOccurred)]%string : gmap string string in
  let raw := if decide (rawDirection = ""%string) then raw
             else <["direction"%string := rawDirection]> raw in
  Ok (mkRow ref units asset direction occurredAt raw).

(** The rows after the header, numbered from 2; [None] is a malformed record. *)
Fixpoint parse_rows (parse_time : string -> option time) (exp : string -> Z)
  (colIdx : gmap string nat) (records : list (option (list string))) (rowNum : Z)
  : result csv_error (list StatementRow) :=
  match records with
  | [] => Ok []
  | None :: _ => Err (CsvReadRow (rowNum + 1))
  | Some rec :: rest =>
      row ← parse_row parse_time exp colIdx rec (rowNum + 1);
      rows ← parse_rows parse_time exp colIdx rest (rowNum + 1);
      Ok (row :: rows)
  end.

(** [ParseStatementCSV] over the results of the reader until [io.EOF]; an
    absent [exp] is [DefaultAssetExponent]. *)
Definition ParseStatementCSV (parse_time : string -> option time)
  (records : list (option (list string))) (exp : option (string -> Z))
  : result csv_error (list StatementRow) :=
  let exp := default DefaultAssetExponent exp in
  match records with
  | [] => Err CsvEmptyFile
  | None :: _ => Err CsvReadHeader
  | Some header :: records =>
      let colIdx := header_index header in
      match missing_column colIdx with
      | Some col => Err (CsvMissingColumn col)
      | None => parse_rows parse_time exp colIdx records 1
      end
  end.

(** ** The matcher: [matcher.go] *)

Record MatchPair : Type := mkPair { mp_ExternalID : uuid; mp_EntryID : uuid }.

(** The arguments of the format strings of [Finding.Detail]. *)
Inductive detail : Type :=
| DetailDuplicate (ref : string) (amount : Z) (asset : string)
| DetailMismatch (ref : string) (amount : Z) (asset dir : string)
    (entry_amount : Z) (entry_asset entry_dir : string)
| DetailMissing (ref : string) (amount : Z) (asset : string).

Record Finding : Type := mkFinding {
  f_Kind : DiscrepancyKind; f_External : ExternalTransaction; f_Entry : option MirrorEntry;
  f_Detail : detail }.

Record MatchResult : Type := mkMatchResult { mr_Matches : list MatchPair; mr_Findings : list Finding }.

Definition directionMatches (external mirror : string) : bool :=
  bool_decide (external = "" \/ external = mirror).

Definition directionLabel (dir : string) : string :=
  if decide (dir = "") then "(direction unspecified)" else dir.

(** [byRef]: the positions of the entries of each reference, in order. *)
Definition by_ref (mirror : list MirrorEntry) : gmap string (list nat) :=
  fold_left (fun m '(i, e) => <[m_Reference e := default [] (m !! m_Reference e) ++ [i]]> m)
    (imap pair mirror) ∅.

Definition compatible (ext : ExternalTransaction) (e : MirrorEntry) : bool :=
  (m_Amount e =? x_Amount ext) && bool_decide (m_Asset e = x_Asset ext)
  && directionMatches (x_Direction ext) (m_Direction e).

(** The inner loop: the matched position and the first free one. *)
Fixpoint scan_candidates (mirror : list MirrorEntry) (consumed : list bool)
  (ext : ExternalTransaction) (candidates : list nat) (firstFree : option nat)
  : option nat * option nat :=
  match candidates with
  | [] => (None, firstFree)
  | i :: rest =>
      if default false (consumed !! i)
      then scan_candidates mirror consumed ext rest firstFree
      else
        let firstFree := match firstFree with None => Some i | Some _ => firstFree end in
        if match mirror !! i with Some e => compatible ext e | None => false end
        then (Some i, firstFree)
        else scan_candidates mirror consumed ext rest firstFree
  end.

Record match_state : Type := mkMatchState {
  ms_consumed : list bool; ms_seenRef : gset string; ms_res : MatchResult }.

Definition add_match (p : MatchPair) (r : MatchResult) : MatchResult :=
  mkMatchResult (mr_Matches r ++ [p]) (mr_Findings r).
Definition add_finding (f : Finding) (r : MatchResult) : MatchResult :=
  mkMatchResult (mr_Matches r) (mr_Findings r ++ [f]).

Definition duplicate_finding (ext : ExternalTransaction) : Finding :=
  mkFinding KindDuplicate ext None (DetailDuplicate (x_ExternalRef ext) (x_Amount ext) (x_Asset ext)).
Definition mismatch_finding (ext : ExternalTransaction) (e : MirrorEntry) : Finding :=
  mkFinding KindAmountMismatch ext (Some e)
    (DetailMismatch (x_ExternalRef ext) (x_Amount ext) (x_Asset ext) (directionLabel (x_Direction ext))
       (m_Amount e) (m_Asset e) (m_Direction e)).
Definition missing_finding (ext : ExternalTransaction) : Finding :=
  mkFinding KindMissingInternal ext None
    (DetailMissing (x_ExternalRef ext) (x_Amount ext) (x_Asset ext)).

(** The body of the loop over the external transactions. *)
Definition match_step (mirror : list MirrorEntry) (st : match_state) (ext : ExternalTransaction)
  : match_state :=
  let '(mkMatchState consumed seenRef res) := st in
  if decide (x_ExternalRef ext ∈ seenRef)
  then mkMatchState consumed seenRef (add_finding (duplicate_finding ext) res)
  else
    let seenRef := {[x_ExternalRef ext]} ∪ seenRef in
    let candidates := default [] (by_ref mirror !! x_ExternalRef ext) in
    match scan_candidates mirror consumed ext candidates None with
    | (Some i, _) =>
        match mirror !! i with
        | Some e => mkMatchState (<[i := true]> consumed) seenRef
                      (add_match (mkPair (x_ID ext) (m_ID e)) res)
        | None => st
        end
    | (None, Some i) =>
        match mirror !! i with
        | Some e => mkMatchState consumed seenRef (add_finding (mismatch_finding ext e) res)
        | None => st
        end
    | (None, None) => mkMatchState consumed seenRef (add_finding (missing_finding ext) res)
    end.

Definition MatchNaive (externals : list ExternalTransaction) (mirror : list MirrorEntry)
  : MatchResult :=
  ms_res (fold_left (match_step mirror) externals
    (mkMatchState (replicate (length mirror) false) ∅ (mkMatchResult [] []))).
