(* ===== verification/ReconMatch.v ===== *)
(** * The domain of reconciliation: matcher and statement parser

    [MatchNaive] indexes the mirror by reference and consumes positions; the
    reference definition classifies each row on its own. They agree, which
    makes the matcher's guarantees short to prove. The parser of CSV statements
    accepts exactly the well-formed ones. *)

From Stdlib Require Import Ascii String ZArith Lia.
From S2P Require Import Prelude Strconv Errors Money LedgerDomain Recon.
Local Open Scope Z_scope.

(** ** Reference definition *)

Inductive outcome : Type :=
| Matched (e : MirrorEntry) | Mismatched (e : MirrorEntry) | Missing | Duplicate.

#[export] Instance outcome_eq_dec : EqDecision outcome.
Proof. solve_decision. Defined.

Definition entries_of (ref : string) (mirror : list MirrorEntry) : list MirrorEntry :=
  filter (fun e => m_Reference e = ref) mirror.

Definition classify (mirror : list MirrorEntry) (earlier : list ExternalTransaction)
  (ext : ExternalTransaction) : outcome :=
  if decide (x_ExternalRef ext ∈ map x_ExternalRef earlier) then Duplicate
  else
    match find (compatible ext) (entries_of (x_ExternalRef ext) mirror) with
    | Some e => Matched e
    | None => match head (entries_of (x_ExternalRef ext) mirror) with
              | Some e => Mismatched e
              | None => Missing
              end
    end.

Fixpoint classify_all (mirror : list MirrorEntry) (earlier exts : list ExternalTransaction)
  : list (ExternalTransaction * outcome) :=
  match exts with
  | [] => []
  | x :: rest => (x, classify mirror earlier x) :: classify_all mirror (earlier ++ [x]) rest
  end.

Definition pair_of (xo : ExternalTransaction * outcome) : option MatchPair :=
  match xo.2 with Matched e => Some (mkPair (x_ID xo.1) (m_ID e)) | _ => None end.

Definition finding_of (xo : ExternalTransaction * outcome) : option Finding :=
  match xo.2 with
  | Matched _ => None
  | Mismatched e => Some (mismatch_finding xo.1 e)
  | Missing => Some (missing_finding xo.1)
  | Duplicate => Some (duplicate_finding xo.1)
  end.

Definition match_reference (exts : list ExternalTransaction) (mirror : list MirrorEntry) : MatchResult :=
  let outcomes := classify_all mirror [] exts in
  mkMatchResult (omap pair_of outcomes) (omap finding_of outcomes).

(** ** The index by reference *)

Definition positions (ref : string) (mirror : list MirrorEntry) : list (nat * MirrorEntry) :=
  filter (fun p => m_Reference p.2 = ref) (imap pair mirror).

Lemma by_ref_fold ps (m : gmap string (list nat)) ref :
  default [] (fold_left (fun m '(i, e) => <[m_Reference e := default [] (m !! m_Reference e) ++ [i]]> m)
    ps m !! ref)
  = default [] (m !! ref) ++ map fst (filter (fun p : nat * MirrorEntry => m_Reference p.2 = ref) ps).
Proof.
  revert m. induction ps as [|[i e] ps IH]; intros m; cbn [fold_left].
  - by rewrite filter_nil, app_nil_r.
  - rewrite IH, filter_cons. cbn [snd].
    destruct (decide (m_Reference e = ref)) as [<-|Hne].
    + rewrite lookup_insert_eq. cbn [default from_option id map fst]. by rewrite <- app_assoc.
    + by rewrite lookup_insert_ne.
Qed.

Lemma by_ref_positions mirror ref :
  default [] (by_ref mirror !! ref) = map fst (positions ref mirror).
Proof. unfold by_ref. by rewrite by_ref_fold, lookup_empty. Qed.

Lemma positions_entries ref mirror : map snd (positions ref mirror) = entries_of ref mirror.
Proof.
  unfold positions, entries_of.
  assert (H : forall f : nat -> MirrorEntry -> nat * MirrorEntry, (forall i e, (f i e).2 = e) ->
    map snd (filter (fun p : nat * MirrorEntry => m_Reference p.2 = ref) (imap f mirror))
    = filter (fun e => m_Reference e = ref) mirror).
  { induction mirror as [|e mirror IH]; intros f Hf; [done|].
    cbn [imap]. rewrite !filter_cons, Hf. destruct (decide _); cbn [map]; rewrite ?Hf.
    all: rewrite IH; [done|intros; apply Hf]. }
  by rewrite H by done.
Qed.

Lemma positions_lookup ref mirror i e :
  (i, e) ∈ positions ref mirror -> mirror !! i = Some e /\ m_Reference e = ref.
Proof.
  unfold positions. intros [He Hp]%list_elem_of_filter. cbn in He. split; [|done].
  apply list_elem_of_lookup in Hp as [k Hk]. rewrite list_lookup_imap in Hk.
  destruct (mirror !! k) as [e'|] eqn:E; cbn in Hk; naive_solver.
Qed.

(** ** The candidate scan *)

Lemma scan_spec mirror consumed ext ps ff :
  (forall i e, (i, e) ∈ ps -> mirror !! i = Some e /\ consumed !! i = Some false) ->
  match find (fun p => compatible ext p.2) ps with
  | Some (i, _) => exists ff', scan_candidates mirror consumed ext (map fst ps) ff = (Some i, ff')
  | None => scan_candidates mirror consumed ext (map fst ps) ff
            = (None, match ff with Some i => Some i | None => fst <$> head ps end)
  end.
Proof.
  revert ff. induction ps as [|[i e] ps IH]; intros ff Hps; [by destruct ff|].
  cbn [find map scan_candidates fst snd].
  destruct (Hps i e) as [He Hc]; [set_solver|]. rewrite He, Hc. cbn [default from_option id].
  destruct (compatible ext e); [eauto|].
  specialize (IH (match ff with None => Some i | Some _ => ff end)).
  destruct (find _ ps) as [[i' e']|].
  - apply IH. intros; apply Hps; set_solver.
  - rewrite IH by (intros; apply Hps; set_solver). by destruct ff.
Qed.

Lemma find_map_snd {A B} (f : B -> bool) (l : list (A * B)) :
  find f (map snd l) = snd <$> find (fun p => f p.2) l.
Proof. induction l as [|[a b] l IH]; [done|]. cbn. by destruct (f b). Qed.

(** ** The loop *)

(** Between two iterations: the references seen are those of the earlier rows,
    and only entries of those references are consumed. *)
Record loop_inv (mirror : list MirrorEntry) (earlier : list ExternalTransaction)
  (st : match_state) : Prop := {
  li_seen : forall ref, ref ∈ ms_seenRef st <-> ref ∈ map x_ExternalRef earlier;
  li_length : length (ms_consumed st) = length mirror;
  li_consumed : forall i e, ms_consumed st !! i = Some true -> mirror !! i = Some e ->
    m_Reference e ∈ map x_ExternalRef earlier }.

Definition collect (r : MatchResult) (xo : ExternalTransaction * outcome) : MatchResult :=
  mkMatchResult (mr_Matches r ++ option_list (pair_of xo))
    (mr_Findings r ++ option_list (finding_of xo)).

Lemma loop_inv_weaken mirror earlier st ext :
  loop_inv mirror earlier st ->
  loop_inv mirror (earlier ++ [ext])
    (mkMatchState (ms_consumed st) ({[x_ExternalRef ext]} ∪ ms_seenRef st) (ms_res st)).
Proof.
  intros [Hs Hl Hc]. split; cbn [ms_consumed ms_seenRef]; [|done|].
  - intros ref. rewrite map_app. specialize (Hs ref). set_solver.
  - intros i e H1 H2. rewrite map_app. apply elem_of_app. left. by eapply Hc.
Qed.

(** The result so far plays no part in the invariant. *)
Lemma loop_inv_res mirror earlier consumed seen r r' :
  loop_inv mirror earlier (mkMatchState consumed seen r) ->
  loop_inv mirror earlier (mkMatchState consumed seen r').
Proof. by intros [? ? ?]; split. Qed.

Lemma match_step_ok mirror earlier st ext :
  loop_inv mirror earlier st ->
  loop_inv mirror (earlier ++ [ext]) (match_step mirror st ext) /\
  ms_res (match_step mirror st ext) = collect (ms_res st) (ext, classify mirror earlier ext).
Proof.
  intros I. pose proof (loop_inv_weaken _ _ _ ext I) as I'. destruct I as [Hs Hl Hc].
  destruct st as [consumed seen [ms fs]]. cbn [ms_consumed ms_seenRef ms_res] in *.
  unfold match_step, classify, collect, add_finding, add_match, pair_of, finding_of.
  cbn [mr_Matches mr_Findings fst snd].
  pose proof (Hs (x_ExternalRef ext)) as Hseen.
  destruct (decide (x_ExternalRef ext ∈ seen)) as [Hin|Hin];
    destruct (decide (x_ExternalRef ext ∈ map x_ExternalRef earlier)) as [Hin'|Hin']; try tauto.
  - split; [|cbn; by rewrite app_nil_r].
    assert (E : {[x_ExternalRef ext]} ∪ seen = seen) by set_solver. rewrite E in I'.
    by eapply loop_inv_res.
  - rewrite by_ref_positions.
    assert (Hfree : forall i e, (i, e) ∈ positions (x_ExternalRef ext) mirror ->
              mirror !! i = Some e /\ consumed !! i = Some false).
    { intros i e [He Hr]%positions_lookup. split; [done|].
      destruct (consumed !! i) as [[|]|] eqn:E; [|done|].
      - pose proof (Hc i e E He) as H'. by rewrite Hr in H'.
      - apply lookup_lt_Some in He. apply lookup_ge_None in E. lia. }
    pose proof (scan_spec mirror consumed ext (positions (x_ExternalRef ext) mirror) None Hfree) as Hscan.
    rewrite <- positions_entries, find_map_snd.
    destruct (find _ (positions _ mirror)) as [[i e]|] eqn:Hf; cbn [fmap option_fmap option_map snd].
    + destruct Hscan as [ff' ->]. apply find_some in Hf as [Hin2 _].
      apply list_elem_of_In in Hin2. destruct (Hfree i e Hin2) as [-> _].
      split; [|cbn; by rewrite app_nil_r].
      destruct (positions_lookup _ _ _ _ Hin2) as [He Hr].
      destruct I' as [Hs' Hl' Hc']. split; cbn [ms_consumed ms_seenRef] in *; [done|by rewrite length_insert|].
      intros j e' [(<- & _ & _)|[_ Hj]]%list_lookup_insert_Some He'; [|by eapply Hc'].
      rewrite He in He'. injection He' as <-. rewrite Hr, map_app. set_solver.
    + rewrite Hscan.
      destruct (positions (x_ExternalRef ext) mirror) as [|[i e] ps] eqn:Hp; cbn [head fmap option_fmap option_map fst map].
      * split; [by eapply loop_inv_res|cbn; by rewrite app_nil_r].
      * destruct (Hfree i e) as [-> _]; [set_solver|].
        split; [by eapply loop_inv_res|cbn; by rewrite app_nil_r].
Qed.

Lemma match_loop_ok mirror exts earlier st :
  loop_inv mirror earlier st ->
  ms_res (fold_left (match_step mirror) exts st)
  = mkMatchResult (mr_Matches (ms_res st) ++ omap pair_of (classify_all mirror earlier exts))
      (mr_Findings (ms_res st) ++ omap finding_of (classify_all mirror earlier exts)).
Proof.
  revert earlier st. induction exts as [|x exts IH]; intros earlier st I; cbn [fold_left classify_all].
  - cbn. rewrite !app_nil_r. by destruct (ms_res st).
  - destruct (match_step_ok mirror earlier st x I) as [I' Hr].
    rewrite (IH _ _ I'), Hr. cbn [omap list_omap]. unfold collect. cbn [mr_Matches mr_Findings].
    by destruct (pair_of _), (finding_of _); cbn [option_list app]; rewrite <- ?app_assoc, ?app_nil_r.
Qed.

Lemma MatchNaive_eq exts mirror : MatchNaive exts mirror = match_reference exts mirror.
Proof.
  unfold MatchNaive. rewrite (match_loop_ok mirror exts []); [done|].
  split; cbn; [set_solver|by rewrite length_replicate|].
  by intros i e [? _]%lookup_replicate.
Qed.

(** ** What the reference definition guarantees *)

Lemma classify_all_elem mirror earlier exts x o :
  (x, o) ∈ classify_all mirror earlier exts ->
  exists pre post, exts = pre ++ x :: post /\ o = classify mirror (earlier ++ pre) x.
Proof.
  revert earlier. induction exts as [|y exts IH]; intros earlier H; cbn [classify_all] in H; [set_solver|].
  apply elem_of_cons in H as [[= <- ->]|H].
  - exists [], exts. by rewrite app_nil_r.
  - apply IH in H as (pre & post & -> & ->). exists (y :: pre), post.
    by rewrite <- app_assoc.
Qed.

Lemma classify_all_split mirror earlier exts :
  Permutation (map x_ID exts)
    (map mp_ExternalID (omap pair_of (classify_all mirror earlier exts))
     ++ map (fun f => x_ID (f_External f)) (omap finding_of (classify_all mirror earlier exts))).
Proof.
  revert earlier. induction exts as [|x exts IH]; intros earlier; [done|].
  cbn [classify_all map omap list_omap]. unfold pair_of at 1, finding_of at 1. cbn [fst snd].
  destruct (classify mirror earlier x); cbn [map app mp_ExternalID f_External mismatch_finding
    missing_finding duplicate_finding]; rewrite <- ?Permutation_middle; by constructor.
Qed.

Lemma entries_of_elem ref mirror e :
  e ∈ entries_of ref mirror <-> m_Reference e = ref /\ e ∈ mirror.
Proof. unfold entries_of. rewrite list_elem_of_filter. done. Qed.

Lemma find_entry ext mirror e :
  find (compatible ext) (entries_of (x_ExternalRef ext) mirror) = Some e ->
  e ∈ mirror /\ m_Reference e = x_ExternalRef ext /\ compatible ext e = true.
Proof.
  intros [Hin Hc]%find_some. apply list_elem_of_In, entries_of_elem in Hin. tauto.
Qed.

Lemma classify_matched mirror earlier x e :
  classify mirror earlier x = Matched e ->
  (x_ExternalRef x ∉ map x_ExternalRef earlier) /\ e ∈ mirror /\ m_Reference e = x_ExternalRef x /\
  compatible x e = true.
Proof.
  unfold classify. case_decide as Hd; [done|].
  destruct (find _ _) as [e'|] eqn:Hf.
  - intros [= ->]. by apply find_entry in Hf.
  - by destruct (head _).
Qed.

(** A matched row's reference is not one of the rows before it. *)
Lemma matched_refs mirror earlier exts p :
  p ∈ omap pair_of (classify_all mirror earlier exts) ->
  exists x e, x ∈ exts /\ e ∈ mirror /\ p = mkPair (x_ID x) (m_ID e) /\
    m_Reference e = x_ExternalRef x /\ compatible x e = true /\
    x_ExternalRef x ∉ map x_ExternalRef earlier.
Proof.
  intros ([x o] & Hin & Hp)%list_elem_of_omap. unfold pair_of in Hp. cbn in Hp.
  destruct o as [e| | |]; [|done..]. injection Hp as <-.
  apply classify_all_elem in Hin as (pre & post & -> & Ho).
  symmetry in Ho. apply classify_matched in Ho as (Hn & He & Hr & Hc).
  exists x, e. rewrite map_app in Hn. split_and!; try done; set_solver.
Qed.

Lemma mirror_id_inj mirror e e' :
  NoDup (map m_ID mirror) -> e ∈ mirror -> e' ∈ mirror -> m_ID e = m_ID e' -> e = e'.
Proof.
  intros Hnd [i Hi]%list_elem_of_lookup [j Hj]%list_elem_of_lookup He.
  assert (i = j) as ->; [|congruence].
  eapply (proj1 (NoDup_alt (map m_ID mirror)) Hnd); rewrite list_lookup_fmap.
  - by rewrite Hi.
  - rewrite Hj. cbn. by rewrite He.
Qed.

Lemma matched_entries_nodup mirror earlier exts :
  NoDup (map m_ID mirror) ->
  NoDup (map mp_EntryID (omap pair_of (classify_all mirror earlier exts))).
Proof.
  intros Hnd. revert earlier. induction exts as [|x exts IH]; intros earlier; [constructor|].
  cbn [classify_all omap list_omap].
  destruct (pair_of (x, classify mirror earlier x)) as [p|] eqn:Hp; [|apply IH].
  cbn [map]. constructor; [|apply IH].
  intros (p' & Heq & Hin)%list_elem_of_fmap.
  apply matched_refs in Hin as (x' & e' & _ & He' & -> & Hr' & _ & Hn).
  unfold pair_of in Hp. cbn [fst snd] in Hp.
  destruct (classify mirror earlier x) as [e| | |] eqn:Hc; [|done..].
  injection Hp as <-. apply classify_matched in Hc as (_ & He & Hr & _).
  cbn in Heq. pose proof (mirror_id_inj _ _ _ Hnd He He' Heq) as ->.
  apply Hn. rewrite <- Hr', Hr, map_app. set_solver.
Qed.

(** What a finding says of the batch and of the mirror. *)
Definition finding_ok (exts : list ExternalTransaction) (mirror : list MirrorEntry) (f : Finding) : Prop :=
  exists pre x post, exts = pre ++ x :: post /\ f_External f = x /\
  match f_Kind f with
  | KindDuplicate => f_Entry f = None /\ x_ExternalRef x ∈ map x_ExternalRef pre
  | KindAmountMismatch =>
      (exists e, f_Entry f = Some e /\ e ∈ mirror /\ m_Reference e = x_ExternalRef x) /\
      forall e, e ∈ mirror -> m_Reference e = x_ExternalRef x -> compatible x e = false
  | KindMissingInternal =>
      f_Entry f = None /\ forall e, e ∈ mirror -> m_Reference e <> x_ExternalRef x
  | KindMissingExternal => False
  end.

Lemma classify_finding exts mirror f :
  f ∈ omap finding_of (classify_all mirror [] exts) -> finding_ok exts mirror f.
Proof.
  intros ([x o] & Hin & Hf)%list_elem_of_omap.
  apply classify_all_elem in Hin as (pre & post & -> & Ho). cbn [app] in Ho.
  unfold finding_of in Hf. cbn [fst snd] in Hf. exists pre, x, post.
  unfold classify in Ho. case_decide as Hd; [subst o; by injection Hf as <-|].
  destruct (find _ _) as [e|] eqn:Hfind; [by subst o|].
  assert (Hno : forall e, e ∈ mirror -> m_Reference e = x_ExternalRef x -> compatible x e = false).
  { intros e He Hr. apply (find_none _ _ Hfind), list_elem_of_In, entries_of_elem. done. }
  destruct (entries_of (x_ExternalRef x) mirror) as [|e es] eqn:He; cbn [head] in Ho; subst o;
    injection Hf as <-; cbn; (split; [done|split; [done|]]); (split; [|]).
  - done.
  - intros e He' Hr. assert (e ∈ entries_of (x_ExternalRef x) mirror) by (by apply entries_of_elem).
    rewrite He in *. set_solver.
  - exists e. split; [done|]. apply and_comm, entries_of_elem. rewrite He. set_solver.
  - done.
Qed.

(** ** Properties *)

(** C27: the matcher, which indexes the mirror and consumes positions, computes
    exactly its reference definition, which classifies each row on its own and
    keeps no record of consumption: a row whose reference an earlier row already
    had is a duplicate; otherwise it is matched to the first entry with its
    reference that is compatible, mismatched with the first entry with its
    reference when none is compatible, and missing when there is none. *)
Theorem MatchNaive_reference exts mirror : MatchNaive exts mirror = match_reference exts mirror.
Proof. exact (MatchNaive_eq exts mirror). Qed.

(** soundness of a matcher pass. Every row ends in exactly one of the
    matches and the findings; no mirror entry backs two matches; a match joins
    a row to an entry with its reference, amount, asset and (when declared)
    direction; a duplicate repeats an earlier reference, a mismatch has entries
    under its reference but none compatible, a missing one has none at all. *)
Theorem MatchNaive_sound exts mirror :
  NoDup (map m_ID mirror) ->
  let r := MatchNaive exts mirror in
  Permutation (map x_ID exts)
    (map mp_ExternalID (mr_Matches r) ++ map (fun f => x_ID (f_External f)) (mr_Findings r)) /\
  NoDup (map mp_EntryID (mr_Matches r)) /\
  (forall p, p ∈ mr_Matches r -> exists x e, x ∈ exts /\ e ∈ mirror /\
     p = mkPair (x_ID x) (m_ID e) /\ m_Reference e = x_ExternalRef x /\ m_Amount e = x_Amount x /\
     m_Asset e = x_Asset x /\ (x_Direction x = ""%string \/ m_Direction e = x_Direction x)) /\
  (forall f, f ∈ mr_Findings r -> finding_ok exts mirror f).
Proof.
  intros Hnd. cbn zeta. rewrite MatchNaive_eq. unfold match_reference. cbn [mr_Matches mr_Findings].
  split; [apply classify_all_split|]. split; [by apply matched_entries_nodup|]. split.
  - intros p (x & e & Hx & He & -> & Hr & Hc & _)%matched_refs. exists x, e.
    unfold compatible, directionMatches in Hc. rewrite !andb_true_iff, !bool_decide_eq_true in Hc.
    destruct Hc as [[Ha%Z.eqb_eq ?] [?|?]]; split_and!; auto.
  - apply classify_finding.
Qed.

Lemma MatchNaive_sound_witness :
  let ext id ref amount :=
    mkExternal id 7 1 1 ref amount "USD" "" 0 ∅ MatchUnmatched None in
  let entry id ref amount := mkMirror id 7 9 9 "DEBIT" amount "USD" ref 0 in
  let exts := [ext 1 "a" 10; ext 2 "a" 10; ext 3 "b" 5; ext 4 "c" 5]%string in
  let mirror := [entry 11 "a" 3; entry 12 "a" 10; entry 13 "b" 6]%string in
  NoDup (map mp_EntryID (mr_Matches (MatchNaive exts mirror))) /\
  mr_Matches (MatchNaive exts mirror) = [mkPair 1 12] /\
  map f_Kind (mr_Findings (MatchNaive exts mirror))
    = [KindDuplicate; KindAmountMismatch; KindMissingInternal].
Proof.
  intros ext entry exts mirror.
  split; [|split; vm_compute; reflexivity].
  assert (Hnd : NoDup (map m_ID mirror)) by (apply (bool_decide_unpack _); vm_compute; exact I).
  destruct (MatchNaive_sound exts mirror Hnd) as (_ & H & _). exact H.
Defined.

(** ** What the statement parser accepts

    [ParseStatementCSV] returns one valid row per record, or the first
    record that is not valid. *)

Lemma ParseUnits_range d exp u : ParseUnits d exp = Ok u -> in_int64 u = true.
Proof.
  unfold ParseUnits. intros H. repeat (pass_guard H).
  destruct (strip_sign _) as [negative s]. case_decide; [done|].
  destruct (default (s, []) (split_dot s)) as [ip fp]. pass_guard H.
  set (ip' := if (length ip =? 0)%nat then ["0"%char] else ip) in *.
  destruct (forallb is_digit ip' && forallb is_digit fp) eqn:Hd; [|done]. cbn [negb] in H.
  pass_guard H. apply andb_true_iff in Hd as [Hi Hf].
  rewrite parse_loop_spec in H; [|rewrite !forallb_app, Hi, Hf; apply forallb_zeros|].
  - cbn zeta in H. destruct (in_int64 (if negative then _ else _)) eqn:E; [|done].
    by injection H as <-.
  - unfold max_int64. lia.
Qed.

Section Parser.
Context (parse_time : string -> option time) (exp : string -> Z).

(** The row of a record: every field is the trimmed text of its column, valid;
    the amount is the decimal's exact minor units; the direction is the text of
    its column in upper case, empty when there is no such column; and the raw
    values are kept. *)
Record row_of (colIdx : gmap string nat) (rec : list string) (row : StatementRow) : Prop := {
  ro_ref : sr_ExternalRef row = csv_field colIdx rec "external_ref";
  ro_ref_length : (1 <= String.length (sr_ExternalRef row) <= 255)%nat;
  ro_asset : sr_Asset row = csv_field colIdx rec "asset";
  ro_asset_valid : sr_Asset row <> ""%string /\ ValidateAssetCode (sr_Asset row) = Ok tt;
  ro_amount : ParseUnits (csv_field colIdx rec "amount") (exp (sr_Asset row)) = Ok (sr_AmountUnits row) /\
              in_int64 (sr_AmountUnits row) = true;
  ro_occurred : parse_time (csv_field colIdx rec "occurred_at") = Some (sr_OccurredAt row);
  ro_direction :
    match colIdx !! "direction"%string with
    | None => sr_Direction row = ""%string
    | Some _ => sr_Direction row = ToUpper (csv_field colIdx rec "direction") /\
                sr_Direction row ∈ ["DEBIT"; "CREDIT"; ""]%string
    end;
  ro_raw : sr_Raw row =
    let four := list_to_map (map (fun col => (col, csv_field colIdx rec col))
                               ["external_ref"; "amount"; "asset"; "occurred_at"]%string) in
    match colIdx !! "direction"%string with
    | None => four
    | Some _ => let text := csv_field colIdx rec "direction" in
                if decide (text = ""%string) then four else <["direction"%string := text]> four
    end
}.

Lemma row_of_unique colIdx rec row row' : row_of colIdx rec row -> row_of colIdx rec row' -> row = row'.
Proof.
  intros [A1 _ A3 _ [A5 _] A6 A7 A8] [B1 _ B3 _ [B5 _] B6 B7 B8].
  assert (sr_AmountUnits row = sr_AmountUnits row') by congruence.
  destruct row as [r1 r2 r3 r4 r5 r6], row' as [q1 q2 q3 q4 q5 q6].
  cbn [sr_ExternalRef sr_AmountUnits sr_Asset sr_Direction sr_OccurredAt sr_Raw] in *.
  f_equal; try congruence. destruct (colIdx !! _); [destruct A7, B7|]; congruence.
Qed.

Lemma csv_direction_spec colIdx rec n raw dir :
  csv_direction colIdx rec n = Ok (raw, dir) <->
  match colIdx !! "direction"%string with
  | None => raw = ""%string /\ dir = ""%string
  | Some _ => raw = csv_field colIdx rec "direction" /\ dir = ToUpper (csv_field colIdx rec "direction") /\
              dir ∈ ["DEBIT"; "CREDIT"; ""]%string
  end.
Proof.
  unfold csv_direction. destruct (colIdx !! _); [|split; [by intros [= <- <-]|by intros [-> ->]]]. cbn zeta.
  set (text := csv_field colIdx rec "direction").
  assert (Hin : forall d, d ∈ ["DEBIT"; "CREDIT"; ""]%string <-> d = dir_debit \/ d = dir_credit \/ d = ""%string)
    by (intros d; unfold dir_debit, dir_credit; set_solver).
  rewrite Hin. clearbody text. generalize (ToUpper text) as up. intros up.
  destruct (decide (up = ""%string)) as [->|N1]; [split; [by intros [= <- <-]; auto|by intros (-> & -> & _)]|].
  destruct (decide (up = dir_debit)) as [->|N2]; [split; [by intros [= <- <-]; auto|by intros (-> & -> & _)]|].
  destruct (decide (up = dir_credit)) as [->|N3]; [split; [by intros [= <- <-]; auto|by intros (-> & -> & _)]|].
  split; [done|]. intros (_ & -> & Hup). tauto.
Qed.

Lemma parse_row_spec colIdx rec n row :
  parse_row parse_time exp colIdx rec n = Ok row <-> row_of colIdx rec row.
Proof.
  assert (Hok : forall row, parse_row parse_time exp colIdx rec n = Ok row -> row_of colIdx rec row).
  { clear row. intros row H. unfold parse_row in H. cbn zeta in H.
    apply bind_ok in H as ([] & Href%guard_err_ok & H).
    apply bind_ok in H as ([] & Hlen%guard_err_ok & H).
    apply bind_ok in H as ([] & Hasset%guard_err_ok & H).
    apply bind_ok in H as ([] & Hv & H). apply bind_ok in H as (u & Hu & H).
    apply bind_ok in H as (t & Ht & H). apply bind_ok in H as ([raw dir] & Hd & H).
    destruct (ValidateAssetCode _) as [[]|e] eqn:Hv' in Hv; [|done].
    destruct (ParseUnits _ _) as [u'|e] eqn:Hu' in Hu; [|done]. injection Hu as ->.
    destruct (parse_time _) as [t'|] eqn:Ht' in Ht; [|done]. injection Ht as ->.
    injection H as <-. apply csv_direction_spec in Hd.
    apply bool_decide_eq_false in Href, Hasset. apply Z.ltb_ge in Hlen.
    split; cbn [sr_ExternalRef sr_Asset sr_AmountUnits sr_OccurredAt sr_Direction sr_Raw]; try done.
    - split; [|lia]. destruct (csv_field _ _ "external_ref") eqn:E; [done|]. cbn. lia.
    - split; [done|]. by eapply ParseUnits_range.
    - destruct (colIdx !! _); naive_solver.
    - destruct (colIdx !! _); [by destruct Hd as (-> & _)|]. by destruct Hd as [-> _]. }
  split; [apply Hok|]. intros R.
  enough (exists row', parse_row parse_time exp colIdx rec n = Ok row') as [row' E].
  { rewrite E. f_equal. eapply row_of_unique; [by apply Hok|done]. }
  destruct R as [R1 R2 R3 [R4 R5] [R6 _] R7 R8 _]. rewrite R1 in R2. rewrite R3 in R4, R5, R6.
  unfold parse_row. cbn zeta.
  rewrite (bool_decide_eq_false_2 (csv_field colIdx rec "external_ref" = ""%string))
    by (intros E0; rewrite E0 in R2; cbn in R2; lia).
  rewrite (proj2 (Z.ltb_ge _ _)) by lia. rewrite bool_decide_eq_false_2 by done. cbn [guard_err mbind result_bind].
  rewrite R5, R6, R7. cbn [map_err mbind result_bind].
  assert (exists raw dir, csv_direction colIdx rec n = Ok (raw, dir)) as (raw & dir & ->); [|by eexists].
  destruct (colIdx !! "direction"%string) eqn:E0.
  - exists (csv_field colIdx rec "direction"), (sr_Direction row). apply csv_direction_spec. rewrite E0. tauto.
  - exists ""%string, ""%string. apply csv_direction_spec. by rewrite E0.
Qed.

(** The line an error names. *)
Definition error_row (e : csv_error) : option Z :=
  match e with
  | CsvReadRow n | CsvRefRequired n | CsvRefTooLong n | CsvAssetRequired n | CsvBadAsset n
  | CsvBadAmount n _ _ | CsvBadOccurredAt n _ | CsvBadDirection n _ => Some n
  | _ => None
  end.

Lemma csv_direction_error colIdx rec n e : csv_direction colIdx rec n = Err e -> error_row e = Some n.
Proof. unfold csv_direction. destruct (colIdx !! _); [|done]. cbn zeta. repeat case_decide; naive_solver. Qed.

Lemma parse_row_error colIdx rec n e : parse_row parse_time exp colIdx rec n = Err e -> error_row e = Some n.
Proof.
  assert (Hg : forall b e0, guard_err b e0 = (Err e : result csv_error unit) -> e0 = e)
    by (intros [] e0; cbn; congruence).
  unfold parse_row. cbn zeta. intros H.
  apply result_bind_err in H as [<-%Hg|([] & _ & H)]; [done|].
  apply result_bind_err in H as [<-%Hg|([] & _ & H)]; [done|].
  apply result_bind_err in H as [<-%Hg|([] & _ & H)]; [done|].
  apply result_bind_err in H as [H|([] & _ & H)]; [destruct (ValidateAssetCode _); [done|by injection H as <-]|].
  apply result_bind_err in H as [H|(u & _ & H)]; [destruct (ParseUnits _ _); [done|by injection H as <-]|].
  apply result_bind_err in H as [H|(t & _ & H)]; [destruct (parse_time _); [done|by injection H as <-]|].
  apply result_bind_err in H as [H|([raw dir] & _ & H)]; [by eapply csv_direction_error|done].
Qed.

(** A record with a row. *)
Definition valid_record (colIdx : gmap string nat) (r : option (list string)) : Prop :=
  exists rec row, r = Some rec /\ row_of colIdx rec row.

Definition rows_of_records (colIdx : gmap string nat) (records : list (option (list string))) (rows : list StatementRow) : Prop :=
  Forall2 (fun r row => exists rec, r = Some rec /\ row_of colIdx rec row) records rows.

(** The first record without a row, and the error it causes. *)
Definition first_invalid (colIdx : gmap string nat) (n : Z) (records : list (option (list string))) (e : csv_error) : Prop :=
  exists good bad rest, records = good ++ bad :: rest /\ Forall (valid_record colIdx) good /\
    ~ valid_record colIdx bad /\ error_row e = Some (n + 1 + Z.of_nat (length good)) /\
    match bad with
    | None => e = CsvReadRow (n + 1 + Z.of_nat (length good))
    | Some rec => parse_row parse_time exp colIdx rec (n + 1 + Z.of_nat (length good)) = Err e
    end.

Lemma parse_rows_spec colIdx records n :
  match parse_rows parse_time exp colIdx records n with
  | Ok rows => rows_of_records colIdx records rows
  | Err e => first_invalid colIdx n records e
  end.
Proof.
  revert n. induction records as [|[rec|] records IH]; intros n; cbn [parse_rows]; [constructor| |].
  - destruct (parse_row _ _ _ _ _) as [row|e] eqn:Hr; cbn [mbind result_bind].
    + pose proof (proj1 (parse_row_spec _ _ _ _) Hr) as Hrow. specialize (IH (n + 1)).
      destruct (parse_rows _ _ _ _ _) as [rows|e]; cbn [mbind result_bind].
      * constructor; [by exists rec|done].
      * destruct IH as (good & bad & rest & -> & Hg & Hb). exists (Some rec :: good), bad, rest.
        cbn [length]. replace (n + 1 + Z.of_nat (S (length good))) with (n + 1 + 1 + Z.of_nat (length good)) by lia.
        split_and!; [done| |apply Hb..]. constructor; [by exists rec, row|done].
    + exists [], (Some rec), records. cbn [length]. replace (n + 1 + Z.of_nat 0) with (n + 1) by lia.
      split_and!; [done|constructor| |by eapply parse_row_error|done].
      intros (rec' & row & [= <-] & Hrow). apply (parse_row_spec _ _ (n + 1)) in Hrow. congruence.
  - exists [], None, records. cbn [length]. replace (n + 1 + Z.of_nat 0) with (n + 1) by lia.
    split_and!; [done|constructor|by intros (? & ? & ? & _)|done|done].
Qed.

Lemma missing_column_spec colIdx :
  match missing_column colIdx with
  | None => forall col, col ∈ csvColumns -> is_Some (colIdx !! col)
  | Some col => exists pre post, csvColumns = pre ++ col :: post /\ colIdx !! col = None /\
                  forall c, c ∈ pre -> is_Some (colIdx !! c)
  end.
Proof.
  unfold missing_column. induction csvColumns as [|col cols IH]; [by intros col ?%elem_of_nil|].
  rewrite filter_cons. destruct (decide (colIdx !! col = None)) as [Hn|Hs]; cbn [head].
  - exists [], cols. split_and!; [done..|by intros c ?%elem_of_nil].
  - apply not_eq_None_Some in Hs. destruct (head _) as [c|].
    + destruct IH as (pre & post & -> & Hn & Hp). exists (col :: pre), post. split_and!; [done..|].
      intros c' [->|Hc]%elem_of_cons; auto.
    + intros c' [->|Hc]%elem_of_cons; auto.
Qed.

(** C39: the statement parser is exact over the reader's records. It returns rows
    if and only if the first record is a header with the four columns and every
    other record has a row: bounded reference, valid asset, the decimal's exact
    minor units within int64, an instant, a direction in its column that is
    debit, credit or empty; and the rows are those, in order. Otherwise it fails:
    on an empty file, an unreadable header, the first required column missing,
    or the first record that has no row, with an error naming its line. *)
Theorem ParseStatementCSV_correct (records : list (option (list string))) :
  (forall rows, ParseStatementCSV parse_time records (Some exp) = Ok rows <->
     exists header body, records = Some header :: body /\
       (forall col, col ∈ ["external_ref"; "amount"; "asset"; "occurred_at"]%string -> is_Some (header_index header !! col)) /\
       rows_of_records (header_index header) body rows) /\
  (forall e, ParseStatementCSV parse_time records (Some exp) = Err e ->
     records = [] /\ e = CsvEmptyFile \/
     (exists body, records = None :: body) /\ e = CsvReadHeader \/
     exists header body, records = Some header :: body /\
       ((exists col pre post, ["external_ref"; "amount"; "asset"; "occurred_at"]%string = pre ++ col :: post /\
           header_index header !! col = None /\ (forall c, c ∈ pre -> is_Some (header_index header !! c)) /\
           e = CsvMissingColumn col) \/
        first_invalid (header_index header) 1 body e)).
Proof.
  unfold ParseStatementCSV. cbn zeta. cbn [default from_option id]. change [_; _; _; _]%string with csvColumns.
  destruct records as [|[header|] body]; [split; [|naive_solver]; intros rows; split; [done|naive_solver]| |
    split; [|naive_solver]; intros rows; split; [done|naive_solver]].
  pose proof (missing_column_spec (header_index header)) as Hm.
  destruct (missing_column (header_index header)) as [col|].
  - destruct Hm as (pre & post & E & Hn & Hp). split.
    + intros rows. split; [done|]. intros (h & b & [= <- <-] & Hall & _).
      destruct (Hall col) as [i Hi]; [rewrite E; set_solver|]. congruence.
    + intros e [= <-]. right. right. exists header, body. split; [done|]. left. by exists col, pre, post.
  - pose proof (parse_rows_spec (header_index header) body 1) as Hr.
    destruct (parse_rows _ _ _ _ _) as [rows|e]; split.
    + intros rows'. split; [intros [= <-]; by exists header, body|].
      intros (h & b & [= <- <-] & _ & Hb). f_equal. unfold rows_of_records in *.
      clear Hm. revert rows' Hb. induction Hr as [|r row rs rows (rec & -> & H1) _ IH]; intros rows' Hb.
      * by apply Forall2_nil_inv_l in Hb.
      * apply Forall2_cons_inv_l in Hb as (row' & rows2 & (rec' & [= <-] & H2) & Hb & ->).
        f_equal; [by eapply row_of_unique|by apply IH].
    + done.
    + intros rows'. split; [done|]. intros (h & b & [= <- <-] & _ & Hb). exfalso.
      destruct Hr as (good & bad & rest & -> & _ & Hbad & _).
      apply Forall2_app_inv_l in Hb as (rows1 & rows2 & _ & Hb & _).
      apply Forall2_cons_inv_l in Hb as (row & ? & (rec & -> & Hrow) & _). apply Hbad. by exists rec, row.
    + intros e' [= <-]. right. right. exists header, body. split; [done|]. by right.
Qed.
End Parser.

(** A statement with its columns in another order, and one with a bad amount. *)
Lemma ParseStatementCSV_correct_demo :
  let parse_time := fun s => if decide (s = "t0"%string) then Some 5 else None in
  let header := ["external_ref"; "amount"; " Asset"; "occurred_at"; "direction"]%string in
  let good := Some ["a"; "10.50"; "USD"; "t0"; "debit"]%string in
  let bad := Some ["b"; "1.005"; "USD"; "t0"; ""]%string in
  ParseStatementCSV parse_time [Some header; good; bad] (Some DefaultAssetExponent)
    = Err (CsvBadAmount 3 "1.005" ErrTooManyDigits) /\
  exists rows, ParseStatementCSV parse_time [Some header; good] (Some DefaultAssetExponent) = Ok rows /\
    map (fun r => (sr_AmountUnits r, sr_Direction r)) rows = [(1050, "DEBIT"%string)].
Proof.
  intros parse_time header good bad. split; [vm_compute; reflexivity|].
  destruct (ParseStatementCSV parse_time [Some header; good] (Some DefaultAssetExponent))
    as [rows|e] eqn:E; [|exfalso; vm_compute in E; discriminate E].
  exists rows. split; [reflexivity|]. clear -E. vm_compute in E. injection E as <-. vm_compute. reflexivity.
Qed.
