(* ===== verification/ReconStore.v ===== *)
(** * Reconciliation store and use cases

    The [recon] schema ([adapters/postgres/migrations]), the statements of
    [adapters/postgres/store.go] and the use cases of [app/service.go]. Row-level
    security hides the other tenants' rows; the outbox has none. *)

From Stdlib Require Import Ascii String ZArith Lia.
From S2P Require Import Prelude Strconv Errors Money LedgerDomain LedgerEvents Httpx Recon TxMonad.
Local Open Scope Z_scope.

(** ** Tables *)

(** A value of the [details] JSONB object. *)
Inductive dvalue : Type := DText (s : string) | DDetail (d : detail).

Record Discrepancy : Type := mkDiscrepancy {
  d_ID : uuid; d_TenantID : uuid; d_RunID : uuid; d_Kind : DiscrepancyKind;
  d_Details : gmap string dvalue; d_Status : DiscrepancyStatus; d_CreatedAt : time }.

Record discrepancyDetectedPayload : Type := mkDetected {
  dp_DiscrepancyID : uuid; dp_RunID : uuid; dp_SourceID : uuid; dp_Kind : string;
  dp_ExternalID : string; dp_TransactionID : option uuid; dp_Asset : string; dp_Amount : string;
  dp_Detail : detail; dp_DetectedAt : time }.

Record ReconOutboxRow : Type := mkReconOutbox {
  ro_Envelope : Envelope discrepancyDetectedPayload; ro_PublishedAt : option time }.

Record ReconDB : Type := mkReconDB {
  sources : gmap uuid Source; imports : gmap uuid Import_;
  externals : gmap uuid ExternalTransaction; mirror : gmap uuid MirrorEntry;
  runs : gmap uuid Run; discrepancies : gmap uuid Discrepancy; recon_outbox : list ReconOutboxRow }.

Definition empty_recon : ReconDB := mkReconDB ∅ ∅ ∅ ∅ ∅ ∅ [].

Definition set_sources x db :=
  mkReconDB x (imports db) (externals db) (mirror db) (runs db) (discrepancies db) (recon_outbox db).
Definition set_imports x db :=
  mkReconDB (sources db) x (externals db) (mirror db) (runs db) (discrepancies db) (recon_outbox db).
Definition set_externals x db :=
  mkReconDB (sources db) (imports db) x (mirror db) (runs db) (discrepancies db) (recon_outbox db).
Definition set_mirror x db :=
  mkReconDB (sources db) (imports db) (externals db) x (runs db) (discrepancies db) (recon_outbox db).
Definition set_runs x db :=
  mkReconDB (sources db) (imports db) (externals db) (mirror db) x (discrepancies db) (recon_outbox db).
Definition set_discrepancies x db :=
  mkReconDB (sources db) (imports db) (externals db) (mirror db) (runs db) x (recon_outbox db).
Definition set_recon_outbox x db :=
  mkReconDB (sources db) (imports db) (externals db) (mirror db) (runs db) (discrepancies db) x.

Definition RTx := Use ReconDB.

Definition rows {K V} `{Countable K} (m : gmap K V) : list V := map snd (map_to_list m).

(** INSERT with the primary key constraint of table [name]. *)
Definition require_fresh {V} (m : gmap uuid V) (id : uuid) (name : string) : RTx unit :=
  require (bool_decide (m !! id = None)) (ErrPg (UniqueViolation name)).

(** ** Statements *)

Section Store.
Context `{Supply, Render}.
Variable tenant : uuid.

Definition owned (t : uuid) : RTx unit := require (bool_decide (t = tenant)) (ErrPg InsufficientPrivilege).

Definition find_source (id : uuid) (db : ReconDB) : option Source :=
  s ← sources db !! id; if decide (s_TenantID s = tenant) then Some s else None.
Definition find_external (id : uuid) (db : ReconDB) : option ExternalTransaction :=
  x ← externals db !! id; if decide (x_TenantID x = tenant) then Some x else None.
Definition find_run (id : uuid) (db : ReconDB) : option Run :=
  r ← runs db !! id; if decide (r_TenantID r = tenant) then Some r else None.
Definition find_discrepancy (id : uuid) (db : ReconDB) : option Discrepancy :=
  d ← discrepancies db !! id; if decide (d_TenantID d = tenant) then Some d else None.

Definition InsertSource (s : Source) : RTx unit :=
  db ← read;
  _ ← owned (s_TenantID s);
  _ ← require (ValidSourceKind (s_Kind s)) (ErrPg (CheckViolation "sources_kind_check"));
  _ ← require_fresh (sources db) (s_ID s) "sources_pkey";
  _ ← require (negb (existsb (fun s' => bool_decide (s_TenantID s' = s_TenantID s /\ s_Name s' = s_Name s))
                (rows (sources db)))) (ErrPg (UniqueViolation "sources_tenant_id_name_key"));
  write (fun db => set_sources (<[s_ID s := s]> (sources db)) db).

Definition source_key (s : Source) : Cursor := mkCursor (s_CreatedAt s) (s_ID s).

Definition ListSources (limit : Z) (cursor : Cursor) : RTx (list Source) :=
  db ← read;
  mret (list_page descending source_key cursor (Z.to_nat limit)
          (filter (fun s => s_TenantID s = tenant) (rows (sources db)))).

Definition GetSource (id : uuid) : RTx Source :=
  db ← read; match find_source id db with Some s => mret s | None => fail ErrNotFound end.

Definition InsertImport (imp : Import_) : RTx unit :=
  db ← read;
  _ ← owned (i_TenantID imp);
  _ ← require_fresh (imports db) (i_ID imp) "imports_pkey";
  _ ← require (bool_decide (is_Some (sources db !! i_SourceID imp)))
        (ErrPg (ForeignKeyViolation "imports_source_id_fkey"));
  write (fun db => set_imports (<[i_ID imp := imp]> (imports db)) db).

(** One statement of the batch; an empty direction is stored as NULL, which the
    reader turns back into the empty string. *)
Definition insert_external (x : ExternalTransaction) : RTx unit :=
  db ← read;
  _ ← owned (x_TenantID x);
  _ ← require (bool_decide (x_Direction x ∈ [""; dir_debit; dir_credit]%string))
        (ErrPg (CheckViolation "external_transactions_direction_check"));
  _ ← require_fresh (externals db) (x_ID x) "external_transactions_pkey";
  _ ← require (bool_decide (is_Some (imports db !! x_ImportID x)))
        (ErrPg (ForeignKeyViolation "external_transactions_import_id_fkey"));
  _ ← require (bool_decide (is_Some (sources db !! x_SourceID x)))
        (ErrPg (ForeignKeyViolation "external_transactions_source_id_fkey"));
  write (fun db => set_externals (<[x_ID x := x]> (externals db)) db).

Definition InsertExternalTransactions (txs : list ExternalTransaction) : RTx unit :=
  each txs insert_external.

Definition external_key (x : ExternalTransaction) : Cursor := mkCursor (x_OccurredAt x) (x_ID x).
Definition mirror_key (e : MirrorEntry) : Cursor := mkCursor (m_PostedAt e) (m_ID e).

(** WHERE source_id = $1 AND match_status = 'unmatched' ORDER BY occurred_at,
    id; the [raw] column is not selected. *)
Definition without_raw (x : ExternalTransaction) : ExternalTransaction :=
  mkExternal (x_ID x) (x_TenantID x) (x_ImportID x) (x_SourceID x) (x_ExternalRef x) (x_Amount x)
    (x_Asset x) (x_Direction x) (x_OccurredAt x) ∅ (x_MatchStatus x) (x_MatchedEntryID x).

Definition unmatched_externals (sourceID : uuid) (db : ReconDB) : list ExternalTransaction :=
  map without_raw (order_rows ascending external_key
    (filter (fun x => x_TenantID x = tenant /\ x_SourceID x = sourceID /\
                      x_MatchStatus x = MatchUnmatched) (rows (externals db)))).

Definition ListUnmatchedExternals (sourceID : uuid) : RTx (list ExternalTransaction) :=
  db ← read; mret (unmatched_externals sourceID db).

Definition mirror_entries (db : ReconDB) : list MirrorEntry :=
  order_rows ascending mirror_key (filter (fun e => m_TenantID e = tenant) (rows (mirror db))).

Definition ListMirrorEntries : RTx (list MirrorEntry) :=
  db ← read; mret (mirror_entries db).

Definition set_match (x : ExternalTransaction) (status : MatchStatus) (entry : option uuid)
  : ExternalTransaction :=
  mkExternal (x_ID x) (x_TenantID x) (x_ImportID x) (x_SourceID x) (x_ExternalRef x) (x_Amount x)
    (x_Asset x) (x_Direction x) (x_OccurredAt x) (x_Raw x) status entry.

(** UPDATE external_transactions SET ... WHERE id = $1, on the visible row. *)
Definition update_external (id : uuid) (f : ExternalTransaction -> ExternalTransaction) : RTx unit :=
  write (fun db => match find_external id db with
                   | Some x => set_externals (<[id := f x]> (externals db)) db
                   | None => db
                   end).

Definition MarkExternalMatched (externalID entryID : uuid) : RTx unit :=
  update_external externalID (fun x => set_match x MatchMatched (Some entryID)).
Definition MarkExternalDisputed (externalID : uuid) : RTx unit :=
  update_external externalID (fun x => set_match x MatchDisputed (x_MatchedEntryID x)).

Definition InsertRun (r : Run) : RTx unit :=
  db ← read;
  _ ← owned (r_TenantID r);
  _ ← require_fresh (runs db) (r_ID r) "reconciliation_runs_pkey";
  _ ← require (bool_decide (is_Some (sources db !! r_SourceID r)))
        (ErrPg (ForeignKeyViolation "reconciliation_runs_source_id_fkey"));
  write (fun db => set_runs (<[r_ID r := r]> (runs db)) db).

(** UPDATE reconciliation_runs SET status, matched_count, unmatched_count,
    finished_at; the INTEGER columns are 32 bits wide. *)
Definition UpdateRun (r : Run) : RTx unit :=
  _ ← require ((r_MatchedCount r <? 2 ^ 31) && (r_UnmatchedCount r <? 2 ^ 31)) (ErrPg NumericOutOfRange);
  write (fun db => match find_run (r_ID r) db with
                   | Some old => set_runs (<[r_ID r := mkRun (r_ID old) (r_TenantID old) (r_SourceID old)
                       (r_Status r) (r_MatchedCount r) (r_UnmatchedCount r) (r_StartedAt old)
                       (r_FinishedAt r)]> (runs db)) db
                   | None => db
                   end).

Definition GetRun (id : uuid) : RTx Run :=
  db ← read; match find_run id db with Some r => mret r | None => fail ErrNotFound end.

Definition InsertDiscrepancy (d : Discrepancy) : RTx unit :=
  db ← read;
  _ ← owned (d_TenantID d);
  _ ← require (ValidDiscrepancyStatus (d_Status d)) (ErrPg (CheckViolation "discrepancies_status_check"));
  _ ← require_fresh (discrepancies db) (d_ID d) "discrepancies_pkey";
  _ ← require (bool_decide (is_Some (runs db !! d_RunID d)))
        (ErrPg (ForeignKeyViolation "discrepancies_run_id_fkey"));
  write (fun db => set_discrepancies (<[d_ID d := d]> (discrepancies db)) db).

Definition discrepancy_key (d : Discrepancy) : Cursor := mkCursor (d_CreatedAt d) (d_ID d).

Definition ListDiscrepancies_ (status : option DiscrepancyStatus) (limit : Z) (cursor : Cursor)
  : RTx (list Discrepancy) :=
  db ← read;
  mret (list_page descending discrepancy_key cursor (Z.to_nat limit)
          (filter (fun d => d_TenantID d = tenant /\
                            match status with Some s => bool_decide (d_Status d = s) | None => true end
                              = true) (rows (discrepancies db)))).

Definition GetDiscrepancy (id : uuid) : RTx Discrepancy :=
  db ← read; match find_discrepancy id db with Some d => mret d | None => fail ErrNotFound end.

Definition UpdateDiscrepancy_ (d : Discrepancy) : RTx unit :=
  _ ← require (ValidDiscrepancyStatus (d_Status d)) (ErrPg (CheckViolation "discrepancies_status_check"));
  write (fun db => match find_discrepancy (d_ID d) db with
                   | Some old => set_discrepancies (<[d_ID d := mkDiscrepancy (d_ID old) (d_TenantID old)
                       (d_RunID old) (d_Kind old) (d_Details d) (d_Status d) (d_CreatedAt old)]>
                       (discrepancies db)) db
                   | None => db
                   end).

Definition count_status (st : MatchStatus) (source : uuid) (db : ReconDB) : Z :=
  Z.of_nat (length (filter (fun x => x_TenantID x = tenant /\ x_SourceID x = source /\
                                     x_MatchStatus x = st) (rows (externals db)))).

(** Open discrepancies joined to the runs of the source. *)
Definition count_open (source : uuid) (db : ReconDB) : Z :=
  Z.of_nat (length (filter (fun d => d_TenantID d = tenant /\ d_Status d = DiscrepancyOpen /\
    r_SourceID <$> find_run (d_RunID d) db = Some source) (rows (discrepancies db)))).

Definition name_le (a b : SourceSummary) : Prop :=
  String.compare (ss_SourceName a) (ss_SourceName b) <> Gt.
#[local] Instance name_le_dec : RelDecision name_le.
Proof. intros a b. unfold name_le. apply _. Defined.

Definition SourceSummaries : RTx (list SourceSummary) :=
  db ← read;
  mret (merge_sort name_le
    (map (fun s => mkSummary (s_ID s) (s_Name s) (count_status MatchMatched (s_ID s) db)
            (count_status MatchUnmatched (s_ID s) db) (count_status MatchDisputed (s_ID s) db)
            (count_open (s_ID s) db))
       (filter (fun s => s_TenantID s = tenant) (rows (sources db))))).

Definition InsertOutboxEnvelope (env : Envelope discrepancyDetectedPayload) : RTx unit :=
  db ← read;
  _ ← require (negb (existsb (fun r => env_ID (ro_Envelope r) =? env_ID env) (recon_outbox db)))
        (ErrPg (UniqueViolation "outbox_pkey"));
  write (fun db => set_recon_outbox (recon_outbox db ++ [mkReconOutbox env None]) db).

(** One statement of [InsertMirrorEntries]: ON CONFLICT (id) DO NOTHING. *)
Definition insert_mirror (e : MirrorEntry) : RTx unit :=
  _ ← owned (m_TenantID e);
  _ ← require (bool_decide (m_Direction e = dir_debit \/ m_Direction e = dir_credit))
        (ErrPg (CheckViolation "ledger_entries_mirror_direction_check"));
  write (fun db => match mirror db !! m_ID e with
                   | Some _ => db
                   | None => set_mirror (<[m_ID e := e]> (mirror db)) db
                   end).

Definition InsertMirrorEntries (entries : list MirrorEntry) : RTx unit :=
  match entries with [] => mret tt | _ :: _ => within tenant (each entries insert_mirror) end.
End Store.

(** ** Use cases: [app/service.go] *)

Section Service.
Context `{Supply, Render}.

Definition name_ok (name : string) : bool :=
  negb (bool_decide (name = ""%string) || (255 <? Z.of_nat (String.length name))).

Definition CreateSource (tenantID : uuid) (name : string) (kind : SourceKind) : RTx Source :=
  _ ← require (name_ok name) ErrValidation;
  _ ← require (ValidSourceKind kind) ErrValidation;
  id ← newV7_or_V4;
  createdAt ← now;
  let src := mkSource id tenantID name kind createdAt in
  _ ← within tenantID (InsertSource tenantID src);
  mret src.

Definition new_external (tenantID sourceID importID id : uuid) (row : StatementRow)
  : ExternalTransaction :=
  mkExternal id tenantID importID sourceID (sr_ExternalRef row) (sr_AmountUnits row) (sr_Asset row)
    (sr_Direction row) (sr_OccurredAt row) (sr_Raw row) MatchUnmatched None.

Definition ImportStatement (parse_time : string -> option time) (tenantID sourceID : uuid)
  (filename : string) (csvBody : list (option (list string))) : RTx Import_ :=
  _ ← require (negb (sourceID =? uuid_Nil)) ErrValidation;
  let filename := if decide (filename = ""%string) then "statement.csv"%string else filename in
  let parsed := ParseStatementCSV parse_time csvBody (Some DefaultAssetExponent) in
  id ← newV7_or_V4;
  createdAt ← now;
  within tenantID (
    _ ← GetSource tenantID sourceID;
    match parsed with
    | Err e =>
        let imp := mkImport id tenantID sourceID filename ImportFailed 0 (Some e) createdAt in
        _ ← InsertImport tenantID imp; mret imp
    | Ok rs =>
        let imp := mkImport id tenantID sourceID filename ImportProcessed (Z.of_nat (length rs)) None
                     createdAt in
        _ ← InsertImport tenantID imp;
        txs ← collect_each rs (fun row =>
          xid ← newV7_or_V4; mret (new_external tenantID sourceID (i_ID imp) xid row));
        _ ← InsertExternalTransactions tenantID txs;
        mret imp
    end).

(** [discrepancyFromFinding]. *)
Definition finding_details (f : Finding) : gmap string dvalue :=
  let x := f_External f in
  let base := list_to_map [("external_id", DText (uuid_String (x_ID x)));
                ("external_ref", DText (x_ExternalRef x));
                ("external_amount", DText (FormatInt (x_Amount x)));
                ("asset", DText (x_Asset x)); ("detail", DDetail (f_Detail f))]%string in
  match f_Entry f with
  | Some e =>
      <["entry_id" := DText (uuid_String (m_ID e))]>
        (<["entry_transaction_id" := DText (uuid_String (m_TransactionID e))]>
          (<["entry_amount" := DText (FormatInt (m_Amount e))]>
            (<["entry_asset" := DText (m_Asset e)]> base)))
  | None => base
  end%string.

Definition discrepancyFromFinding (run : Run) (f : Finding) : RTx Discrepancy :=
  id ← newV7_or_V4;
  createdAt ← now;
  mret (mkDiscrepancy id (r_TenantID run) (r_ID run) (f_Kind f) (finding_details f)
          DiscrepancyOpen createdAt).

Definition eventKind (k : DiscrepancyKind) : option string :=
  match k with
  | KindMissingInternal => Some "missing_in_ledger"
  | KindMissingExternal => Some "missing_in_source"
  | KindAmountMismatch => Some "amount_mismatch"
  | KindDuplicate => None
  end%string.

Definition discrepancyEnvelope (run : Run) (disc : Discrepancy) (f : Finding)
  : RTx (Envelope discrepancyDetectedPayload) :=
  match eventKind (d_Kind disc) with
  | None => fail ErrOther
  | Some kind =>
      envelope TopicDiscrepancyDetected (r_TenantID run)
        (mkDetected (d_ID disc) (r_ID run) (r_SourceID run) kind (x_ExternalRef (f_External f))
           (m_TransactionID <$> f_Entry f) (x_Asset (f_External f)) (FormatInt (x_Amount (f_External f)))
           (f_Detail f) (d_CreatedAt disc))
  end.

(** The body of the loop over the findings. *)
Definition record_finding (tenantID : uuid) (run : Run) (f : Finding) : RTx unit :=
  _ ← (if decide (f_Kind f = KindAmountMismatch \/ f_Kind f = KindDuplicate)
       then MarkExternalDisputed tenantID (x_ID (f_External f)) else mret tt);
  disc ← discrepancyFromFinding run f;
  _ ← InsertDiscrepancy tenantID disc;
  match eventKind (f_Kind f) with
  | None => mret tt
  | Some _ => env ← discrepancyEnvelope run disc f; InsertOutboxEnvelope env
  end.

Definition record_match (tenantID : uuid) (m : MatchPair) : RTx unit :=
  MarkExternalMatched tenantID (mp_ExternalID m) (mp_EntryID m).

Definition StartRun (tenantID sourceID : uuid) : RTx Run :=
  _ ← require (negb (sourceID =? uuid_Nil)) ErrValidation;
  id ← newV7_or_V4;
  startedAt ← now;
  let run := mkRun id tenantID sourceID RunRunning 0 0 startedAt None in
  within tenantID (
    _ ← GetSource tenantID sourceID;
    _ ← InsertRun tenantID run;
    exts ← ListUnmatchedExternals tenantID sourceID;
    entries ← ListMirrorEntries tenantID;
    let result := MatchNaive exts entries in
    _ ← each (mr_Matches result) (record_match tenantID);
    _ ← each (mr_Findings result) (record_finding tenantID run);
    finishedAt ← now;
    let run := mkRun id tenantID sourceID RunCompleted (Z.of_nat (length (mr_Matches result)))
                 (Z.of_nat (length (mr_Findings result))) startedAt (Some finishedAt) in
    _ ← UpdateRun tenantID run;
    mret run).

Definition svc_GetRun (tenantID id : uuid) : RTx Run := within tenantID (GetRun tenantID id).

Definition Report (tenantID : uuid) : RTx (list SourceSummary) :=
  within tenantID (SourceSummaries tenantID).

(** [None] is the empty status: no filter. *)
Definition svc_ListDiscrepancies (tenantID : uuid) (status : option DiscrepancyStatus) (limit : Z)
  (cursor : Cursor) : RTx (list Discrepancy) :=
  _ ← require (match status with Some s => ValidDiscrepancyStatus s | None => true end) ErrValidation;
  within tenantID (ListDiscrepancies_ tenantID status limit cursor).

Definition triaged (d : Discrepancy) (status : DiscrepancyStatus) (resolutionNote : string)
  : Discrepancy :=
  mkDiscrepancy (d_ID d) (d_TenantID d) (d_RunID d) (d_Kind d)
    (if decide (resolutionNote = ""%string) then d_Details d
     else <["resolution_note"%string := DText resolutionNote]> (d_Details d))
    status (d_CreatedAt d).

Definition svc_UpdateDiscrepancy (tenantID id : uuid) (status : DiscrepancyStatus)
  (resolutionNote : string) : RTx Discrepancy :=
  _ ← require (ValidDiscrepancyStatus status) ErrValidation;
  within tenantID (
    d ← GetDiscrepancy tenantID id;
    let d := triaged d status resolutionNote in
    _ ← UpdateDiscrepancy_ tenantID d;
    mret d).
End Service.
