(* ===== verification/ReconRun.v ===== *)
(** * The effect of a reconciliation run

    [StartRun] as one change of the tables: which rows it updates, which it
    adds, and what it leaves alone. *)

From Stdlib Require Import Ascii String ZArith Lia.
From S2P Require Import Prelude Strconv Errors Money LedgerDomain LedgerEvents Httpx Recon ReconMatch.
From S2P Require Import TxMonad ReconStore.
Local Open Scope Z_scope.

(** ** Updates of external transactions *)

Definition ext_update : Type := uuid * (ExternalTransaction -> ExternalTransaction).

Definition apply_update (tenant : uuid) (m : gmap uuid ExternalTransaction) (u : ext_update)
  : gmap uuid ExternalTransaction :=
  match m !! u.1 with
  | Some x => if decide (x_TenantID x = tenant) then <[u.1 := u.2 x]> m else m
  | None => m
  end.

Definition match_update (p : MatchPair) : ext_update :=
  (mp_ExternalID p, fun x => set_match x MatchMatched (Some (mp_EntryID p))).

Definition dispute_update (f : Finding) : option ext_update :=
  if decide (f_Kind f = KindAmountMismatch \/ f_Kind f = KindDuplicate)
  then Some (x_ID (f_External f), fun x => set_match x MatchDisputed (x_MatchedEntryID x))
  else None.

Definition run_updates (r : MatchResult) : list ext_update :=
  map match_update (mr_Matches r) ++ omap dispute_update (mr_Findings r).

Lemma apply_updates_other tenant us m id :
  id ∉ map fst us -> fold_left (apply_update tenant) us m !! id = m !! id.
Proof.
  revert m. induction us as [|u us IH]; intros m Hn; [done|]. cbn [fold_left map] in *.
  rewrite IH by set_solver. unfold apply_update.
  destruct (m !! u.1) as [x|]; [|done]. case_decide; [|done].
  apply lookup_insert_ne. set_solver.
Qed.

Lemma apply_updates_lookup tenant us m id f x :
  NoDup (map fst us) -> (id, f) ∈ us -> m !! id = Some x -> x_TenantID x = tenant ->
  fold_left (apply_update tenant) us m !! id = Some (f x).
Proof.
  revert m. induction us as [|[i g] us IH]; intros m Hnd Hin Hx Ht; [set_solver|].
  cbn [fold_left map fst] in *. apply NoDup_cons in Hnd as [Hn Hnd].
  apply elem_of_cons in Hin as [[= -> ->]|Hin].
  - rewrite apply_updates_other by done. unfold apply_update. cbn [fst snd].
    rewrite Hx, decide_True by done. apply lookup_insert_eq.
  - apply IH; try done. unfold apply_update. cbn [fst snd].
    assert (i <> id) by (intros ->; apply Hn; apply (list_elem_of_fmap_2 fst _ _ Hin)).
    destruct (m !! i); [|done]. case_decide; [|done]. by rewrite lookup_insert_ne.
Qed.

(** Each lookup after the updates comes from an unchanged row or from one
    applied update. *)
Lemma apply_updates_inv tenant us m id x :
  NoDup (map fst us) -> fold_left (apply_update tenant) us m !! id = Some x ->
  m !! id = Some x \/
  exists f x0, (id, f) ∈ us /\ m !! id = Some x0 /\ x_TenantID x0 = tenant /\ x = f x0.
Proof.
  intros Hnd Hx. destruct (decide (id ∈ map fst us)) as [Hin|Hn].
  - apply list_elem_of_fmap in Hin as ([i f] & -> & Hin). cbn [fst] in *.
    destruct (m !! i) as [x0|] eqn:E.
    + destruct (decide (x_TenantID x0 = tenant)) as [Ht|Ht].
      * right. exists f, x0. split_and!; try done.
        erewrite apply_updates_lookup in Hx by done. by injection Hx.
      * left. assert (H : forall us, fold_left (apply_update tenant) us m !! i = Some x0).
        { clear -E Ht. induction us as [|u us IH] using rev_ind; [done|].
          rewrite fold_left_app. cbn [fold_left]. unfold apply_update at 1.
          destruct (decide (u.1 = i)) as [Hu|Hu].
          - rewrite Hu, IH. by rewrite decide_False.
          - destruct (fold_left (apply_update tenant) us m !! u.1); [|done].
            case_decide; [|done]. by rewrite lookup_insert_ne. }
        congruence.
    + exfalso. assert (H : forall us, fold_left (apply_update tenant) us m !! i = None).
      { clear -E. induction us as [|u us IH] using rev_ind; [done|].
        rewrite fold_left_app. cbn [fold_left]. unfold apply_update at 1.
        destruct (decide (u.1 = i)) as [Hu|Hu]; [by rewrite Hu, IH|].
        destruct (fold_left (apply_update tenant) us m !! u.1); [|done].
        case_decide; [|done]. by rewrite lookup_insert_ne. }
      congruence.
  - left. by rewrite apply_updates_other in Hx.
Qed.

(** ** Inserted discrepancies and events *)

Definition insert_all (ds : list Discrepancy) (m : gmap uuid Discrepancy) : gmap uuid Discrepancy :=
  fold_left (fun m d => <[d_ID d := d]> m) ds m.

Lemma insert_all_lookup ds m id d :
  NoDup (map d_ID ds) -> (forall d, d ∈ ds -> m !! d_ID d = None) ->
  insert_all ds m !! id = Some d <-> (d ∈ ds /\ d_ID d = id) \/ m !! id = Some d.
Proof.
  revert m. induction ds as [|d0 ds IH]; intros m Hnd Hf; cbn [insert_all fold_left].
  - split; [by right|]. intros [[H _]|H]; [set_solver|done].
  - cbn [map] in Hnd. apply NoDup_cons in Hnd as [Hn Hnd].
    fold (insert_all ds (<[d_ID d0 := d0]> m)). rewrite IH; [|done|].
    + rewrite elem_of_cons. destruct (decide (d_ID d0 = id)) as [<-|Hne].
      * rewrite lookup_insert_eq. pose proof (Hf d0 ltac:(set_solver)) as H0. rewrite H0. split.
        -- intros [[H1 H2]|[= ->]]; left; auto.
        -- intros [[[->|H1] H2]|H1]; auto; done.
      * rewrite lookup_insert_ne by done. naive_solver.
    + intros d1 Hd1. rewrite lookup_insert_ne; [apply Hf; set_solver|].
      intros He. apply Hn. rewrite He. by apply (list_elem_of_fmap_2 d_ID).
Qed.

Section Effect.
Context `{Supply, Render}.

(** The discrepancy [d] records the finding [f] of [run]. *)
Definition disc_of (run : Run) (f : Finding) (d : Discrepancy) : Prop :=
  d_TenantID d = r_TenantID run /\ d_RunID d = r_ID run /\ d_Kind d = f_Kind f /\
  d_Details d = finding_details f /\ d_Status d = DiscrepancyOpen.

(** The event emitted for it, if its kind has one. *)
Definition emits (run : Run) (fd : Finding * Discrepancy) : option discrepancyDetectedPayload :=
  let '(f, d) := fd in
  (fun kind => mkDetected (d_ID d) (r_ID run) (r_SourceID run) kind (x_ExternalRef (f_External f))
     (m_TransactionID <$> f_Entry f) (x_Asset (f_External f)) (FormatInt (x_Amount (f_External f)))
     (f_Detail f) (d_CreatedAt d)) <$> eventKind (f_Kind f).

Definition new_event (tenant : uuid) (row : ReconOutboxRow) : Prop :=
  env_Type (ro_Envelope row) = TopicDiscrepancyDetected /\ env_TenantID (ro_Envelope row) = tenant /\
  ro_PublishedAt row = None.

Definition data_of (row : ReconOutboxRow) : discrepancyDetectedPayload := env_Data (ro_Envelope row).

(** What the findings loop has done after [fs]. *)
Record recorded (tenant : uuid) (run : Run) (db0 : ReconDB) (fs : list Finding)
  (ds : list Discrepancy) (evs : list ReconOutboxRow) (db : ReconDB) : Prop := {
  rc_sources : sources db = sources db0; rc_imports : imports db = imports db0;
  rc_mirror : mirror db = mirror db0; rc_runs : runs db = runs db0;
  rc_externals : externals db = fold_left (apply_update tenant) (omap dispute_update fs) (externals db0);
  rc_discs : Forall2 (disc_of run) fs ds;
  rc_nodup : NoDup (map d_ID ds);
  rc_fresh : forall d, d ∈ ds -> discrepancies db0 !! d_ID d = None;
  rc_inserted : discrepancies db = insert_all ds (discrepancies db0);
  rc_outbox : recon_outbox db = recon_outbox db0 ++ evs;
  rc_events : map data_of evs = omap (emits run) (zip fs ds);
  rc_new : Forall (new_event tenant) evs }.

Lemma update_external_ok tenant id f (st : UseState ReconDB) u st' :
  update_external tenant id f st = Ok (u, st') ->
  u_db st' = set_externals (apply_update tenant (externals (u_db st)) (id, f)) (u_db st).
Proof.
  unfold update_external. intros Hr. inv_use Hr. unfold find_external, apply_update. cbn [fst snd].
  destruct (externals (u_db st) !! id) as [x|] eqn:E; cbn [mbind option_bind].
  - case_decide; [done|]. by destruct (u_db st).
  - by destruct (u_db st).
Qed.

Lemma record_matches_ok tenant ps (st : UseState ReconDB) u st' :
  each ps (record_match tenant) st = Ok (u, st') ->
  u_db st' = set_externals (fold_left (apply_update tenant) (map match_update ps)
               (externals (u_db st))) (u_db st).
Proof.
  intros Hr.
  apply (each_ok _ (fun dn st1 => u_db st1 = set_externals (fold_left (apply_update tenant)
    (map match_update dn) (externals (u_db st))) (u_db st))) in Hr; [done| |by destruct (u_db st)].
  intros p dn st1 st2 [] IH Hp. apply update_external_ok in Hp. rewrite Hp, IH. cbn.
  by rewrite map_app, fold_left_app.
Qed.

Lemma zip_snoc {A B} (l : list A) (k : list B) a b :
  length l = length k -> zip (l ++ [a]) (k ++ [b]) = zip l k ++ [(a, b)].
Proof. revert k. induction l as [|x l IH]; intros [|y k] Hl; cbn in *; try done. f_equal. apply IH. lia. Qed.

Lemma discrepancyFromFinding_ok run f (st : UseState ReconDB) d st' :
  discrepancyFromFinding run f st = Ok (d, st') -> u_db st' = u_db st /\ disc_of run f d.
Proof.
  unfold discrepancyFromFinding. intros Hr. inv_use Hr.
  apply newV7_or_V4_ok in Hs. apply now_ok in Hs0. split; [congruence|]. by split_and!.
Qed.

Lemma InsertDiscrepancy_ok tenant d (st : UseState ReconDB) u st' :
  InsertDiscrepancy tenant d st = Ok (u, st') ->
  discrepancies (u_db st) !! d_ID d = None /\ is_Some (runs (u_db st) !! d_RunID d) /\
  u_db st' = set_discrepancies (<[d_ID d := d]> (discrepancies (u_db st))) (u_db st).
Proof.
  unfold InsertDiscrepancy, owned, require_fresh. intros Hr. inv_use Hr. by split_and!.
Qed.

(** The event of a finding: none for a kind the contract does not define. *)
Lemma emit_ok tenant run d f (st : UseState ReconDB) u st' :
  r_TenantID run = tenant -> disc_of run f d ->
  match eventKind (f_Kind f) with
  | None => mret tt
  | Some _ => env ← discrepancyEnvelope run d f; InsertOutboxEnvelope env
  end st = Ok (u, st') ->
  exists ev, u_db st' = set_recon_outbox (recon_outbox (u_db st) ++ ev) (u_db st) /\
    map data_of ev = option_list (emits run (f, d)) /\ Forall (new_event tenant) ev.
Proof.
  intros Ht (_ & _ & Hk & _ & _) Hr. unfold emits.
  destruct (eventKind (f_Kind f)) as [kind|] eqn:Ek; cbn [fmap option_fmap option_map option_list].
  - apply use_bind_ok in Hr as (env & st1 & He & Hr). unfold discrepancyEnvelope in He.
    rewrite Hk, Ek in He. apply envelope_ok in He as (Hdb & Hty & Hte & Hda).
    unfold InsertOutboxEnvelope in Hr. inv_use Hr. exists [mkReconOutbox env None].
    split_and!; [by rewrite Hdb|by rewrite <- Hda|]. repeat constructor; cbn; congruence.
  - inv_use Hr. exists []. rewrite app_nil_r. split_and!; [by destruct (u_db st)|done|done].
Qed.

Lemma inserted_fresh ds m d :
  NoDup (map d_ID ds) -> (forall d, d ∈ ds -> m !! d_ID d = None) ->
  insert_all ds m !! d_ID d = None -> (d_ID d ∉ map d_ID ds) /\ m !! d_ID d = None.
Proof.
  intros Hnd Hf Hn. split.
  - intros (d1 & Heq & Hd1)%list_elem_of_fmap.
    assert (insert_all ds m !! d_ID d = Some d1); [|congruence].
    apply insert_all_lookup; [done..|]. by left.
  - destruct (m !! d_ID d) as [d1|] eqn:E; [|done].
    assert (insert_all ds m !! d_ID d = Some d1); [|congruence].
    apply insert_all_lookup; [done..|]. by right.
Qed.

Lemma record_finding_ok tenant run db0 fs ds evs f st u st' :
  r_TenantID run = tenant -> recorded tenant run db0 fs ds evs (u_db st) ->
  record_finding tenant run f st = Ok (u, st') ->
  exists d ev, recorded tenant run db0 (fs ++ [f]) (ds ++ [d]) (evs ++ ev) (u_db st').
Proof.
  intros Ht R Hr. unfold record_finding in Hr.
  apply use_bind_ok in Hr as (u1 & st1 & Hd & Hr).
  apply use_bind_ok in Hr as (d & st2 & Hf & Hr).
  apply use_bind_ok in Hr as (u2 & st3 & Hi & Hr).
  apply discrepancyFromFinding_ok in Hf as [E2 Hof].
  apply InsertDiscrepancy_ok in Hi as (Hfresh & _ & E3).
  apply (emit_ok tenant run d f) in Hr as (ev & E4 & Hdata & Hnew); [|done..].
  assert (E1 : u_db st1 = set_externals (fold_left (apply_update tenant)
      (omap dispute_update (fs ++ [f])) (externals db0)) (u_db st)).
  { rewrite omap_app, fold_left_app, <- (rc_externals _ _ _ _ _ _ _ R). cbn [omap list_omap].
    unfold dispute_update. destruct (decide _).
    - by apply update_external_ok in Hd.
    - inv_use Hd. cbn. by destruct (u_db st). }
  rewrite E2, E1 in Hfresh, E3. cbn in Hfresh, E3. destruct R as [R1 R2 R3 R4 R5 R6 R7 R8 R9 R10 R11 R12].
  rewrite R9 in Hfresh. apply inserted_fresh in Hfresh as [Hn1 Hn2]; [|done..].
  assert (Hlen : length fs = length ds) by by eapply Forall2_length.
  exists d, ev. rewrite E4, E3. split; cbn; try done.
  - by apply Forall2_app; [|constructor].
  - rewrite map_app. apply NoDup_app. split_and!; [done| |apply NoDup_singleton]. set_solver.
  - intros d1 [?| ->%list_elem_of_singleton]%elem_of_app; auto.
  - unfold insert_all. rewrite fold_left_app. cbn. by rewrite R9.
  - by rewrite R10, app_assoc.
  - by rewrite map_app, zip_snoc, omap_app, R11, Hdata.
  - by apply Forall_app.
Qed.

Lemma record_findings_ok tenant run fs st u st' :
  r_TenantID run = tenant -> each fs (record_finding tenant run) st = Ok (u, st') ->
  exists ds evs, recorded tenant run (u_db st) fs ds evs (u_db st').
Proof.
  intros Ht Hr.
  apply (each_ok _ (fun dn st1 => exists ds evs, recorded tenant run (u_db st) dn ds evs (u_db st1)))
    in Hr; [done| |].
  - intros f dn st1 st2 [] (ds & evs & R) Hf. eapply record_finding_ok in Hf as (d & ev & R'); eauto.
  - exists [], []. split; cbn; try done; [by apply NoDup_nil|set_solver|by rewrite app_nil_r].
Qed.

(** The change a run makes: its own row, the updates of its source's rows, and
    one discrepancy per finding with its event. *)
Record run_effect (tenant source : uuid) (db : ReconDB) (run : Run) (ds : list Discrepancy)
  (evs : list ReconOutboxRow) (db' : ReconDB) : Prop := {
  re_source : is_Some (find_source tenant source db);
  re_run : r_TenantID run = tenant /\ r_SourceID run = source /\ r_Status run = RunCompleted /\
    is_Some (r_FinishedAt run);
  re_fresh : runs db !! r_ID run = None;
  re_runs : runs db' = <[r_ID run := run]> (runs db);
  re_result : let r := MatchNaive (unmatched_externals tenant source db) (mirror_entries tenant db) in
    r_MatchedCount run = Z.of_nat (length (mr_Matches r)) /\
    r_UnmatchedCount run = Z.of_nat (length (mr_Findings r)) /\
    externals db' = fold_left (apply_update tenant) (run_updates r) (externals db) /\
    Forall2 (disc_of run) (mr_Findings r) ds /\
    map data_of evs = omap (emits run) (zip (mr_Findings r) ds);
  re_nodup : NoDup (map d_ID ds);
  re_new : forall d, d ∈ ds -> discrepancies db !! d_ID d = None;
  re_discs : discrepancies db' = insert_all ds (discrepancies db);
  re_outbox : recon_outbox db' = recon_outbox db ++ evs;
  re_events : Forall (new_event tenant) evs;
  re_same : sources db' = sources db /\ imports db' = imports db /\ mirror db' = mirror db }.

Lemma InsertRun_ok tenant r (st : UseState ReconDB) u st' :
  InsertRun tenant r st = Ok (u, st') ->
  runs (u_db st) !! r_ID r = None /\ u_db st' = set_runs (<[r_ID r := r]> (runs (u_db st))) (u_db st).
Proof. unfold InsertRun, owned, require_fresh. intros Hr. inv_use Hr. by split. Qed.

Lemma GetSource_ok tenant id (st : UseState ReconDB) s st' :
  GetSource tenant id st = Ok (s, st') -> find_source tenant id (u_db st) = Some s /\ st' = st.
Proof.
  unfold GetSource. intros Hr. inv_use Hr.
  destruct (find_source _ _ _) as [s'|] eqn:E; [|done]. by inv_use Hr.
Qed.

(** The updated run row: the run of the body is found under its own id. *)
Lemma UpdateRun_ok tenant r r0 (st : UseState ReconDB) u st' :
  runs (u_db st) !! r_ID r = Some r0 -> r_TenantID r0 = tenant ->
  UpdateRun tenant r st = Ok (u, st') ->
  u_db st' = set_runs (<[r_ID r := mkRun (r_ID r0) (r_TenantID r0) (r_SourceID r0) (r_Status r)
    (r_MatchedCount r) (r_UnmatchedCount r) (r_StartedAt r0) (r_FinishedAt r)]> (runs (u_db st))) (u_db st).
Proof.
  intros Hr0 Ht Hr. unfold UpdateRun in Hr. inv_use Hr. unfold find_run. rewrite Hr0. cbn [mbind option_bind].
  by rewrite decide_True.
Qed.

Lemma StartRun_ok tenant source (st : UseState ReconDB) run st' :
  StartRun tenant source st = Ok (run, st') ->
  exists ds evs, run_effect tenant source (u_db st) run ds evs (u_db st').
Proof.
  unfold StartRun, within. intros Hr.
  apply use_bind_ok in Hr as (? & st1 & Hv & Hr). apply require_ok in Hv as [Hv ->].
  apply use_bind_ok in Hr as (id & st2 & Hid & Hr). apply newV7_or_V4_ok in Hid.
  apply use_bind_ok in Hr as (started & st3 & Hclk & Hr). apply now_ok in Hclk.
  cbv zeta in Hr. apply use_bind_ok in Hr as (? & st4 & Hn & Hr). apply require_ok in Hn as [Hn ->].
  apply use_bind_ok in Hr as (s & st5 & Hs & Hr). apply GetSource_ok in Hs as [Hs ->].
  apply use_bind_ok in Hr as (? & st6 & Hi & Hr). apply InsertRun_ok in Hi as [Hfresh E6].
  apply use_bind_ok in Hr as (exts & st7 & Hx & Hr). unfold ListUnmatchedExternals in Hx. inv_use Hx.
  apply use_bind_ok in Hr as (entries & st8 & He & Hr). unfold ListMirrorEntries in He. inv_use He.
  cbv zeta in Hr. apply use_bind_ok in Hr as (? & st9 & Hm & Hr). apply record_matches_ok in Hm.
  apply use_bind_ok in Hr as (? & st10 & Hf & Hr).
  apply record_findings_ok in Hf as (ds & evs & R); [|done].
  apply use_bind_ok in Hr as (finished & st11 & Hclk2 & Hr). apply now_ok in Hclk2.
  apply use_bind_ok in Hr as (? & st12 & Hu & Hr). inv_use Hr.
  assert (Edb : u_db st3 = u_db st) by congruence.
  destruct R as [R1 R2 R3 R4 R5 R6 R7 R8 R9 R10 R11 R12].
  apply (UpdateRun_ok tenant _ (mkRun id tenant source RunRunning 0 0 started None)) in Hu; [| |done].
  2: { cbn [r_ID]. rewrite Hclk2, R4, Hm, E6. cbn. apply lookup_insert_eq. }
  cbn [r_ID r_TenantID r_SourceID r_Status r_MatchedCount r_UnmatchedCount r_StartedAt r_FinishedAt] in Hu.
  rewrite Hm, E6, Edb in *. cbn in *.
  unfold unmatched_externals, mirror_entries in *. cbn in *.
  exists ds, evs. rewrite Hu. cbn. rewrite Hclk2.
  split; cbn; try done.
  - by rewrite R4, insert_insert_eq.
  - split_and!; try done. rewrite R5. unfold run_updates. by rewrite fold_left_app.
Qed.
End Effect.
