(* ===== verification/ReconInv.v ===== *)
(** * The reconciliation invariant

    What every database reachable by the service's use cases and the mirror
    consumer satisfies, and that each of them preserves it. *)

From Stdlib Require Import Ascii String ZArith Lia.
From S2P Require Import Prelude Strconv Errors Money LedgerDomain LedgerEvents Httpx Recon ReconMatch.
From S2P Require Import TxMonad ReconStore ReconRun.
Local Open Scope Z_scope.

(** ** Keys and rows *)

Definition keyed {V} (idOf : V -> uuid) (m : gmap uuid V) : Prop :=
  forall id v, m !! id = Some v -> idOf v = id.

Lemma elem_of_rows {V} (m : gmap uuid V) v : v ∈ rows m <-> exists id, m !! id = Some v.
Proof.
  unfold rows. rewrite list_elem_of_fmap. split.
  - intros ([id v'] & -> & Hin%elem_of_map_to_list). by exists id.
  - intros [id Hv]. exists (id, v). split; [done|]. by apply elem_of_map_to_list.
Qed.

Lemma rows_ids {V} (idOf : V -> uuid) (m : gmap uuid V) : keyed idOf m -> NoDup (map idOf (rows m)).
Proof.
  intros Hk. unfold rows. rewrite map_map.
  rewrite (map_ext_in _ fst).
  - apply NoDup_fst_map_to_list.
  - intros [id v] Hin%list_elem_of_In%elem_of_map_to_list. cbn. by apply Hk.
Qed.

Lemma filter_ids {V} (idOf : V -> uuid) (P : V -> Prop) `{forall x, Decision (P x)} (l : list V) :
  NoDup (map idOf l) -> NoDup (map idOf (filter P l)).
Proof. intros Hnd. eapply sublist_NoDup; [exact Hnd|]. apply (fmap_sublist idOf), sublist_filter. Qed.

Lemma order_rows_ids {V} (idOf : V -> uuid) (before : Cursor -> Cursor -> Prop) `{KeyOrder before}
  (keyOf : V -> Cursor) (l : list V) :
  NoDup (map idOf l) -> NoDup (map idOf (order_rows before keyOf l)).
Proof. intros Hnd. unfold order_rows. by rewrite merge_sort_Permutation. Qed.

Lemma keyed_insert {V} (idOf : V -> uuid) (m : gmap uuid V) v :
  keyed idOf m -> keyed idOf (<[idOf v := v]> m).
Proof. intros Hk id v' [[<- <-]|[_ Hv]]%lookup_insert_Some; [done|by apply Hk]. Qed.

(** ** The invariant *)

(** A matched row points to a mirror entry of its tenant with its reference,
    amount, asset and, when declared, direction. *)
Definition match_ok (entries : gmap uuid MirrorEntry) (x : ExternalTransaction) : Prop :=
  match x_MatchStatus x with
  | MatchMatched => exists id e, x_MatchedEntryID x = Some id /\ entries !! id = Some e /\
      m_TenantID e = x_TenantID x /\ m_Reference e = x_ExternalRef x /\ m_Amount e = x_Amount x /\
      m_Asset e = x_Asset x /\ (x_Direction x = ""%string \/ m_Direction e = x_Direction x)
  | _ => x_MatchedEntryID x = None
  end.

(** A stored run is complete: no run is ever observed half done. *)
Definition run_complete (r : Run) : Prop :=
  r_Status r = RunCompleted /\ is_Some (r_FinishedAt r) /\ 0 <= r_MatchedCount r /\ 0 <= r_UnmatchedCount r.

Record RInv (db : ReconDB) : Prop := {
  ri_sources : keyed s_ID (sources db);
  ri_externals : keyed x_ID (externals db);
  ri_mirror : keyed m_ID (mirror db);
  ri_runs : keyed r_ID (runs db);
  ri_discs : keyed d_ID (discrepancies db);
  ri_match : forall id x, externals db !! id = Some x -> match_ok (mirror db) x;
  ri_complete : forall id r, runs db !! id = Some r -> run_complete r;
  ri_run_of : forall id d, discrepancies db !! id = Some d ->
    exists r, runs db !! d_RunID d = Some r /\ r_TenantID r = d_TenantID d;
  ri_events_nodup : NoDup (map (fun r => dp_DiscrepancyID (data_of r)) (recon_outbox db));
  ri_events : forall id, id ∈ map (fun r => dp_DiscrepancyID (data_of r)) (recon_outbox db) <->
    exists d, discrepancies db !! id = Some d /\ is_Some (eventKind (d_Kind d));
  ri_event_data : forall r, r ∈ recon_outbox db ->
    exists d, discrepancies db !! dp_DiscrepancyID (data_of r) = Some d /\
      env_TenantID (ro_Envelope r) = d_TenantID d /\ env_Type (ro_Envelope r) = TopicDiscrepancyDetected /\
      dp_RunID (data_of r) = d_RunID d /\ eventKind (d_Kind d) = Some (dp_Kind (data_of r)) }.

Lemma RInv_empty : RInv empty_recon.
Proof.
  split; cbn; try (by intros ? ? ?); [by apply NoDup_nil| |intros r Hr; set_solver].
  intros id. split; [set_solver|]. by intros (d & [=] & _).
Qed.

Lemma match_ok_grow entries entries' x :
  (forall id e, entries !! id = Some e -> entries' !! id = Some e) ->
  match_ok entries x -> match_ok entries' x.
Proof. intros Hg. unfold match_ok. destruct (x_MatchStatus x); [done| |done]. naive_solver. Qed.

(** Changes of the tables the invariant does not relate. *)
Lemma RInv_sources db s :
  RInv db -> RInv (set_sources (<[s_ID s := s]> (sources db)) db).
Proof. intros [? ? ? ? ? ? ? ? ? ? ?]. split; cbn; try done. by apply keyed_insert. Qed.

Lemma RInv_imports db m : RInv db -> RInv (set_imports m db).
Proof. by intros [? ? ? ? ? ? ? ? ? ? ?]. Qed.

Lemma RInv_external db x :
  RInv db -> x_MatchStatus x = MatchUnmatched -> x_MatchedEntryID x = None ->
  RInv (set_externals (<[x_ID x := x]> (externals db)) db).
Proof.
  intros [? ? ? ? ? Hm ? ? ? ? ?] Hs He. split; cbn; try done; [by apply keyed_insert|].
  intros id y [[<- <-]|[_ Hy]]%lookup_insert_Some; [|by eapply Hm]. unfold match_ok. by rewrite Hs.
Qed.

Lemma RInv_mirror db e :
  RInv db -> mirror db !! m_ID e = None -> RInv (set_mirror (<[m_ID e := e]> (mirror db)) db).
Proof.
  intros [? ? ? ? ? Hm ? ? ? ? ?] Hn. split; cbn; try done; [by apply keyed_insert|].
  intros id x Hx. eapply match_ok_grow; [|by eapply Hm].
  intros id' e' He. rewrite lookup_insert_ne; congruence.
Qed.

Lemma RInv_triage db d old details status :
  RInv db -> discrepancies db !! d = Some old ->
  RInv (set_discrepancies (<[d := mkDiscrepancy (d_ID old) (d_TenantID old) (d_RunID old) (d_Kind old)
                                   details status (d_CreatedAt old)]> (discrepancies db)) db).
Proof.
  intros [? ? ? ? Hk ? ? Hr ? He Hd] Hold. pose proof (Hk _ _ Hold) as Hid.
  split; cbn; try done.
  - intros id d' [[<- <-]|[_ ?]]%lookup_insert_Some; [done|by apply Hk].
  - intros id d' [[<- <-]|[_ ?]]%lookup_insert_Some; cbn; eauto.
  - intros id. rewrite He. destruct (decide (id = d)) as [->|Hne].
    + rewrite lookup_insert_eq, Hold. naive_solver.
    + by rewrite lookup_insert_ne.
  - intros r Hrow. destruct (Hd r Hrow) as (d' & H1 & H2). destruct (decide (d = dp_DiscrepancyID (data_of r))) as [->|Hne].
    + rewrite lookup_insert_eq. rewrite Hold in H1. injection H1 as <-. eexists. split; [done|]. exact H2.
    + rewrite lookup_insert_ne by done. eauto.
Qed.

(** ** A run preserves it *)

Section RunPreserves.
Context `{Supply, Render}.
Context (tenant source : uuid) (db : ReconDB) (I : RInv db).

Lemma unmatched_elem x :
  x ∈ unmatched_externals tenant source db -> exists x0, x = without_raw x0 /\
    externals db !! x_ID x = Some x0 /\ x_TenantID x0 = tenant /\ x_SourceID x0 = source /\
    x_MatchStatus x0 = MatchUnmatched.
Proof.
  unfold unmatched_externals. intros (x0 & -> & Hin)%list_elem_of_fmap.
  unfold order_rows in Hin. rewrite merge_sort_Permutation in Hin.
  apply list_elem_of_filter in Hin as ((Ht & Hs & Hm) & (id & Hid)%elem_of_rows).
  exists x0. cbn. pose proof (ri_externals _ I _ _ Hid) as ->. by split_and!.
Qed.

Lemma unmatched_ids : NoDup (map x_ID (unmatched_externals tenant source db)).
Proof.
  unfold unmatched_externals. rewrite map_map.
  change (fun x => x_ID (without_raw x)) with x_ID.
  apply order_rows_ids, filter_ids, rows_ids, I.
Qed.

Lemma mirror_entries_elem e :
  e ∈ mirror_entries tenant db -> mirror db !! m_ID e = Some e /\ m_TenantID e = tenant.
Proof.
  unfold mirror_entries, order_rows. rewrite merge_sort_Permutation.
  intros (Ht & (id & Hid)%elem_of_rows)%list_elem_of_filter.
  by pose proof (ri_mirror _ I _ _ Hid) as ->.
Qed.

Lemma mirror_entries_ids : NoDup (map m_ID (mirror_entries tenant db)).
Proof. apply order_rows_ids, filter_ids, rows_ids, I. Qed.

Definition run_result : MatchResult :=
  MatchNaive (unmatched_externals tenant source db) (mirror_entries tenant db).

Lemma run_update_ids : NoDup (map fst (run_updates run_result)).
Proof.
  unfold run_result, run_updates. rewrite MatchNaive_eq. unfold match_reference. cbn [mr_Matches mr_Findings].
  set (oc := classify_all _ _ _).
  pose proof (classify_all_split (mirror_entries tenant db) [] (unmatched_externals tenant source db)) as Hp.
  fold oc in Hp. rewrite map_app, map_map.
  change (fun x => (match_update x).1) with mp_ExternalID.
  pose proof unmatched_ids as Hnd. rewrite Hp in Hnd.
  eapply sublist_NoDup; [exact Hnd|]. apply sublist_app; [done|].
  generalize (omap finding_of oc). intros fs. induction fs as [|f fs IH]; [done|].
  cbn [omap list_omap map]. unfold dispute_update at 1.
  case_decide; cbn [map fst]; [by apply sublist_skip|by apply sublist_cons].
Qed.

(** What an update of the run does to the row it hits. *)
Lemma run_update_cases id f x0 :
  (id, f) ∈ run_updates run_result -> externals db !! id = Some x0 ->
  x_MatchStatus x0 = MatchUnmatched /\ x_SourceID x0 = source /\ x_TenantID x0 = tenant /\
  match_ok (mirror db) (f x0) /\ x_MatchStatus (f x0) <> MatchUnmatched /\
  f x0 = set_match x0 (x_MatchStatus (f x0)) (x_MatchedEntryID (f x0)).
Proof.
  intros Hin Hx0. unfold run_updates, run_result in Hin. rewrite MatchNaive_eq in Hin.
  unfold match_reference in Hin. cbn [mr_Matches mr_Findings] in Hin.
  apply elem_of_app in Hin as [(p & Hp & Hin)%list_elem_of_fmap|(fd & Hin & Hf)%list_elem_of_omap].
  - injection Hp as -> ->.
    apply matched_refs in Hin as (x & e & Hx & He & -> & Hr & Hc & _). cbn [mp_ExternalID mp_EntryID] in *.
    apply unmatched_elem in Hx as (x1 & -> & Hx1 & Ht & Hs & Hm). cbn in *.
    rewrite Hx0 in Hx1. injection Hx1 as <-. apply mirror_entries_elem in He as [He Hte].
    split_and!; try done. unfold match_ok. cbn. exists (m_ID e), e.
    unfold compatible, directionMatches in Hc. rewrite !andb_true_iff, !bool_decide_eq_true in Hc.
    cbn in Hc. destruct Hc as [[Ha%Z.eqb_eq ?] Hd].
    split_and!; try done; [congruence|]. destruct Hd; auto.
  - apply classify_finding in Hin as (pre & x & post & Heq & Hext & _).
    unfold dispute_update in Hf. case_decide; [|done]. injection Hf as <- <-. rewrite Hext in Hx0.
    assert (Hx : x ∈ unmatched_externals tenant source db) by (rewrite Heq; set_solver).
    apply unmatched_elem in Hx as (x1 & -> & Hx1 & Ht & Hs & Hm). cbn in *.
    rewrite Hx0 in Hx1. injection Hx1 as <-.
    assert (Hn : x_MatchedEntryID x0 = None).
    { pose proof (ri_match _ I _ _ Hx0) as Hok. unfold match_ok in Hok. by rewrite Hm in Hok. }
    rewrite Hn. by split_and!.
Qed.

Lemma run_externals id x :
  fold_left (apply_update tenant) (run_updates run_result) (externals db) !! id = Some x ->
  exists x0, externals db !! id = Some x0 /\
    (x = x0 \/ x_MatchStatus x0 = MatchUnmatched /\ x_SourceID x0 = source /\ x_TenantID x0 = tenant /\
       x_MatchStatus x <> MatchUnmatched /\ match_ok (mirror db) x /\
       x = set_match x0 (x_MatchStatus x) (x_MatchedEntryID x)).
Proof.
  intros [Hx|(f & x0 & Hin & Hx0 & _ & ->)]%apply_updates_inv; [eauto| |apply run_update_ids].
  exists x0. split; [done|]. right.
  destruct (run_update_cases _ _ _ Hin Hx0) as (? & ? & ? & ? & ? & ?). by split_and!.
Qed.

Context (run : Run) (ds : list Discrepancy) (evs : list ReconOutboxRow) (db' : ReconDB).
Context (R : run_effect tenant source db run ds evs db').

Lemma event_of_disc d :
  d ∈ ds -> d_TenantID d = tenant /\ d_RunID d = r_ID run.
Proof.
  intros [i Hi]%list_elem_of_lookup. destruct (re_result _ _ _ _ _ _ _ R) as (_ & _ & _ & Hd & _).
  eapply Forall2_lookup_r in Hd as (f & _ & H1 & H2 & _); [|done].
  destruct (re_run _ _ _ _ _ _ _ R) as (Ht & _). split; congruence.
Qed.

(** The events of the run, one per discrepancy of a published kind. *)
Lemma emitted_ids fs :
  Forall2 (disc_of run) fs ds ->
  map dp_DiscrepancyID (omap (emits run) (zip fs ds))
  = map d_ID (filter (fun d => is_Some (eventKind (d_Kind d))) ds).
Proof.
  clear R. intros HF. induction HF as [|f d fs' ds' Hd HF IH]; [done|].
  cbn [zip zip_with omap list_omap]. rewrite filter_cons. unfold emits at 1.
  destruct Hd as (_ & _ & Hk & _). rewrite Hk.
  destruct (eventKind (f_Kind f)) as [k|]; cbn [fmap option_fmap option_map].
  - rewrite decide_True by done. cbn [map dp_DiscrepancyID]. by rewrite IH.
  - rewrite decide_False by (intros [? [=]]). exact IH.
Qed.

Lemma emitted_data ev :
  ev ∈ evs -> exists d, d ∈ ds /\ dp_DiscrepancyID (data_of ev) = d_ID d /\
    dp_RunID (data_of ev) = d_RunID d /\ eventKind (d_Kind d) = Some (dp_Kind (data_of ev)).
Proof.
  intros Hev. destruct (re_result _ _ _ _ _ _ _ R) as (_ & _ & _ & HF & Hm).
  apply (list_elem_of_fmap_2 data_of) in Hev.
  change (data_of <$> evs) with (map data_of evs) in Hev. rewrite Hm in Hev.
  apply list_elem_of_omap in Hev as ([f d] & Hz & He).
  apply list_elem_of_lookup in Hz as [i Hz]. apply lookup_zip_Some in Hz as [Hf Hd].
  pose proof (Forall2_lookup_lr _ _ _ _ _ _ HF Hf Hd) as (_ & Hr & Hk & _).
  unfold emits in He. destruct (eventKind (f_Kind f)) as [k|] eqn:Ek; [|done].
  cbn [fmap option_fmap option_map] in He. injection He as He.
  exists d. rewrite <- He. cbn. split_and!; [by eapply list_elem_of_lookup_2|done|congruence|congruence].
Qed.

Lemma new_event_ids :
  map (fun r => dp_DiscrepancyID (data_of r)) evs
  = map d_ID (filter (fun d => is_Some (eventKind (d_Kind d))) ds).
Proof.
  destruct (re_result _ _ _ _ _ _ _ R) as (_ & _ & _ & HF & Hm).
  rewrite <- (map_map data_of dp_DiscrepancyID), Hm. by apply emitted_ids.
Qed.

Lemma disc_lookup id d :
  discrepancies db' !! id = Some d <-> (d ∈ ds /\ d_ID d = id) \/ discrepancies db !! id = Some d.
Proof. rewrite (re_discs _ _ _ _ _ _ _ R). apply insert_all_lookup; apply R. Qed.

Lemma RInv_run : RInv db'.
Proof.
  destruct R as [Rs (Rt & Rsrc & Rst & Rfin) Rfr Rruns (Rm & Ru & Rx & RF & Rev) Rnd Rnew Rd Ro Re (S1 & S2 & S3)].
  split.
  - rewrite S1. apply I.
  - rewrite Rx. intros id x Hx. apply run_externals in Hx as (x0 & Hx0 & Hc).
    pose proof (ri_externals _ I _ _ Hx0) as <-. destruct Hc as [->|(_ & _ & _ & _ & _ & ->)]; done.
  - rewrite S3. apply I.
  - rewrite Rruns. apply keyed_insert, I.
  - intros id d [[_ Hid]|Hd]%disc_lookup; [done|]. by apply I.
  - rewrite Rx, S3. intros id x Hx. apply run_externals in Hx as (x0 & Hx0 & Hc).
    destruct Hc as [->|(_ & _ & _ & _ & Hok & _)]; [by eapply I|done].
  - rewrite Rruns. intros id r [[_ <-]|[_ Hr]]%lookup_insert_Some; [|by eapply I].
    unfold run_complete. split_and!; try done; lia.
  - rewrite Rruns. intros id d [[Hin _]|Hd]%disc_lookup.
    + apply event_of_disc in Hin as [Hdt Hdr]. exists run. rewrite Hdr, lookup_insert_eq. split; congruence.
    + destruct (ri_run_of _ I _ _ Hd) as (r & Hr & Htr). exists r. split; [|done].
      rewrite lookup_insert_ne; [done|]. intros Heq. congruence.
  - rewrite Ro, map_app. apply NoDup_app. split_and!; [apply I| |].
    + intros id Hid Hev. apply (ri_events _ I) in Hid as (d & Hd & _).
      rewrite new_event_ids in Hev. apply list_elem_of_fmap in Hev as (d' & -> & Hin).
      apply list_elem_of_filter in Hin as [_ Hin]. rewrite Rnew in Hd; done.
    + rewrite new_event_ids. by apply filter_ids.
  - intros id. rewrite Ro, map_app, elem_of_app, (ri_events _ I), new_event_ids, list_elem_of_fmap. split.
    + intros [(d & Hd & Hk)|(d & -> & [Hk Hin]%list_elem_of_filter)]; exists d; rewrite disc_lookup; auto.
    + intros (d & [[Hin <-]|Hd]%disc_lookup & Hk); [|left; eauto].
      right. exists d. split; [done|]. by apply list_elem_of_filter.
  - intros ev. rewrite Ro. intros [Hev|Hev]%elem_of_app.
    + destruct (ri_event_data _ I _ Hev) as (d & Hd & Hrest). exists d. rewrite disc_lookup. auto.
    + pose proof Hev as (d & Hin & H1 & H2 & H3)%emitted_data. exists d. rewrite disc_lookup, H1.
      pose proof (event_of_disc _ Hin) as [Ht _].
      rewrite Forall_forall in Re. destruct (Re _ Hev) as (E1 & E2 & _).
      split; [by left|]. split_and!; congruence.
Qed.
End RunPreserves.

(** ** What later changes leave alone *)

(** Settled rows stay as they are; every row keeps its statement data. *)
Record recon_persists (db db' : ReconDB) : Prop := {
  rp_externals : forall id x, externals db !! id = Some x ->
    exists x', externals db' !! id = Some x' /\
      x' = set_match x (x_MatchStatus x') (x_MatchedEntryID x') /\
      (x_MatchStatus x <> MatchUnmatched -> x' = x);
  rp_mirror : forall id e, mirror db !! id = Some e -> mirror db' !! id = Some e;
  rp_runs : forall id r, runs db !! id = Some r -> runs db' !! id = Some r;
  rp_discs : forall id d, discrepancies db !! id = Some d ->
    exists d', discrepancies db' !! id = Some d' /\ d_RunID d' = d_RunID d /\ d_Kind d' = d_Kind d;
  rp_outbox : exists evs, recon_outbox db' = recon_outbox db ++ evs }.

Lemma set_match_id x : x = set_match x (x_MatchStatus x) (x_MatchedEntryID x).
Proof. by destruct x. Qed.

Lemma recon_persists_refl db : recon_persists db db.
Proof.
  split; eauto.
  - intros id x Hx. exists x. split_and!; try done. apply set_match_id.
  - exists []. by rewrite app_nil_r.
Qed.

Lemma recon_persists_trans db1 db2 db3 :
  recon_persists db1 db2 -> recon_persists db2 db3 -> recon_persists db1 db3.
Proof.
  intros [X1 M1 R1 D1 [e1 O1]] [X2 M2 R2 D2 [e2 O2]]. split; eauto.
  - intros id x (x2 & H2 & Hs2 & Hf2)%X1. destruct (X2 _ _ H2) as (x3 & H3 & Hs3 & Hf3).
    exists x3. split; [done|]. split.
    + rewrite Hs3, Hs2. by destruct x.
    + intros Hs. pose proof (Hf2 Hs) as ->. auto.
  - intros id d (d2 & H2 & ? & ?)%D1. destruct (D2 _ _ H2) as (d3 & ? & ? & ?).
    exists d3. split; [done|]. split; congruence.
  - exists (e1 ++ e2). by rewrite O2, O1, app_assoc.
Qed.

(** A step that only adds rows under new ids. *)
Lemma persists_sources s db : recon_persists db (set_sources s db).
Proof. by destruct (recon_persists_refl db); split. Qed.
Lemma persists_imports s db : recon_persists db (set_imports s db).
Proof. by destruct (recon_persists_refl db); split. Qed.

Lemma persists_external x db :
  externals db !! x_ID x = None -> recon_persists db (set_externals (<[x_ID x := x]> (externals db)) db).
Proof.
  intros Hn. split; cbn; eauto; [|by exists []; rewrite app_nil_r].
  intros id y Hy. exists y. rewrite lookup_insert_ne by congruence. split_and!; try done. apply set_match_id.
Qed.

Lemma persists_mirror e db :
  mirror db !! m_ID e = None -> recon_persists db (set_mirror (<[m_ID e := e]> (mirror db)) db).
Proof.
  intros Hn. pose proof (recon_persists_refl db) as [? ? ? ? ?]. split; cbn; auto.
  intros id y Hy. rewrite lookup_insert_ne; congruence.
Qed.

Lemma persists_triage id old details status db :
  discrepancies db !! id = Some old ->
  recon_persists db (set_discrepancies (<[id := mkDiscrepancy (d_ID old) (d_TenantID old) (d_RunID old)
    (d_Kind old) details status (d_CreatedAt old)]> (discrepancies db)) db).
Proof.
  intros Hold. pose proof (recon_persists_refl db) as [? ? ? ? ?]. split; cbn; auto.
  intros id' d Hd. destruct (decide (id = id')) as [<-|Hne].
  - rewrite lookup_insert_eq. rewrite Hold in Hd. injection Hd as <-. eauto.
  - rewrite lookup_insert_ne by done. eauto.
Qed.

Lemma persists_run `{Supply, Render} tenant source db run ds evs db' :
  RInv db -> run_effect tenant source db run ds evs db' -> recon_persists db db'.
Proof.
  intros I R. pose proof (disc_lookup _ _ _ _ _ _ _ R) as Hdl.
  destruct R as [Rs Rt Rfr Rruns (Rm & Ru & Rx & RF & Rev) Rnd Rnew Rd Ro Re (S1 & S2 & S3)].
  split.
  - change (MatchNaive _ _) with (run_result tenant source db) in Rx.
    rewrite Rx. intros id x Hx.
    pose proof (run_update_ids tenant source db I) as Hnd.
    destruct (fold_left (apply_update tenant) _ (externals db) !! id) as [x'|] eqn:Hx'.
    + exists x'. split; [done|]. apply (run_externals tenant source db I) in Hx' as (x0 & Hx0 & Hc).
      rewrite Hx in Hx0. injection Hx0 as <-.
      destruct Hc as [->|(Hs & _ & _ & _ & _ & ->)]; [split; [apply set_match_id|done]|].
      split; [done|]. intros Hn. by destruct Hn.
    + exfalso. destruct (decide (id ∈ map fst (run_updates (run_result tenant source db)))) as [Hin|Hn].
      * apply list_elem_of_fmap in Hin as ([i f] & -> & Hin). cbn in *.
        destruct (run_update_cases _ _ _ I _ _ _ Hin Hx) as (_ & _ & Ht & _).
        rewrite (apply_updates_lookup _ _ _ _ _ _ Hnd Hin Hx Ht) in Hx'. done.
      * rewrite apply_updates_other in Hx' by done. congruence.
  - by rewrite S3.
  - rewrite Rruns. intros id r Hr. rewrite lookup_insert_ne; [done|]. congruence.
  - intros id d Hd. exists d. rewrite Hdl. auto.
  - eauto.
Qed.
(** ** Reachable databases *)

(** One good change: the invariant is kept and nothing settled is touched. *)
Definition good (db db' : ReconDB) : Prop := RInv db' /\ recon_persists db db'.

Lemma good_refl db : RInv db -> good db db.
Proof. split; [done|apply recon_persists_refl]. Qed.

Lemma good_trans db1 db2 db3 : good db1 db2 -> (RInv db2 -> good db2 db3) -> good db1 db3.
Proof. intros [I2 P1] H. destruct (H I2) as [I3 P2]. split; [done|by eapply recon_persists_trans]. Qed.

Section Reachable.
Context `{Supply, Render}.

(** What drives the service: its use cases that write, and the batches the
    mirror consumer stores. *)
Inductive recon_request : Type :=
| RqCreateSource (name : string) (kind : SourceKind)
| RqImport (parse_time : string -> option time) (sourceID : uuid) (filename : string)
    (body : list (option (list string)))
| RqStartRun (sourceID : uuid)
| RqUpdateDiscrepancy (id : uuid) (status : DiscrepancyStatus) (note : string)
| RqMirror (entries : list MirrorEntry).

Definition recon_exec (tenant : uuid) (rq : recon_request) : RTx unit :=
  match rq with
  | RqCreateSource name kind => _ ← CreateSource tenant name kind; mret tt
  | RqImport pt src fn body => _ ← ImportStatement pt tenant src fn body; mret tt
  | RqStartRun src => _ ← StartRun tenant src; mret tt
  | RqUpdateDiscrepancy id st note => _ ← svc_UpdateDiscrepancy tenant id st note; mret tt
  | RqMirror entries => InsertMirrorEntries tenant entries
  end.

Inductive recon_reach : ReconDB -> Prop :=
| reach_empty : recon_reach empty_recon
| reach_step tenant rq st st' :
    recon_reach (u_db st) -> recon_exec tenant rq st = Ok (tt, st') -> recon_reach (u_db st').

Lemma InsertExternals_good tenant txs (st : UseState ReconDB) u st' :
  Forall (fun x => x_MatchStatus x = MatchUnmatched /\ x_MatchedEntryID x = None) txs ->
  RInv (u_db st) -> InsertExternalTransactions tenant txs st = Ok (u, st') -> good (u_db st) (u_db st').
Proof.
  intros Hall. revert st. induction Hall as [|x txs [H1 H2] _ IH]; intros st I Hr;
    cbn [InsertExternalTransactions each] in Hr.
  - inv_use Hr. by apply good_refl.
  - apply use_bind_ok in Hr as (v & st1 & Hx & Hr).
    eapply good_trans; [|intros I1; by eapply IH].
    unfold insert_external, owned, require_fresh in Hx. inv_use Hx.
    split; [by apply RInv_external|by apply persists_external].
Qed.

Lemma new_externals_ok tenant source imp rs (st : UseState ReconDB) txs st' :
  collect_each rs (fun row => xid ← newV7_or_V4; mret (new_external tenant source imp xid row)) st
    = Ok (txs, st') ->
  u_db st' = u_db st /\
  Forall (fun x => x_MatchStatus x = MatchUnmatched /\ x_MatchedEntryID x = None) txs.
Proof.
  apply (collect_each_ok _ (fun _ txs st1 => u_db st1 = u_db st /\
    Forall (fun x => x_MatchStatus x = MatchUnmatched /\ x_MatchedEntryID x = None) txs)); [|done].
  intros row dn bs x s1 s2 [E HF] Hr. apply use_bind_ok in Hr as (id & s3 & Hid & Hr).
  apply newV7_or_V4_ok in Hid. inv_use Hr. split; [congruence|].
  apply Forall_app. split; [done|]. by repeat constructor.
Qed.

Lemma InsertImport_good tenant imp (st : UseState ReconDB) u st' :
  RInv (u_db st) -> InsertImport tenant imp st = Ok (u, st') -> good (u_db st) (u_db st').
Proof.
  intros I Hi. unfold InsertImport, owned, require_fresh in Hi. inv_use Hi.
  split; [by apply RInv_imports|apply persists_imports].
Qed.

Lemma ImportStatement_good pt tenant src fn body (st : UseState ReconDB) imp st' :
  RInv (u_db st) -> ImportStatement pt tenant src fn body st = Ok (imp, st') -> good (u_db st) (u_db st').
Proof.
  intros I Hr. unfold ImportStatement, within in Hr.
  apply use_bind_ok in Hr as (? & st1 & [_ ->]%require_ok & Hr). cbv zeta in Hr.
  apply use_bind_ok in Hr as (id & st2 & Hid%newV7_or_V4_ok & Hr).
  apply use_bind_ok in Hr as (t & st3 & Hclk%now_ok & Hr).
  apply use_bind_ok in Hr as (? & st4 & [_ ->]%require_ok & Hr).
  apply use_bind_ok in Hr as (s & st5 & [_ ->]%GetSource_ok & Hr).
  assert (E : u_db st3 = u_db st) by congruence. rewrite <- E in *. clear E Hid Hclk.
  destruct (ParseStatementCSV _ _ _) as [rs|e].
  - apply use_bind_ok in Hr as (? & st6 & Hi & Hr).
    apply use_bind_ok in Hr as (txs & st7 & [E HF]%new_externals_ok & Hr).
    apply use_bind_ok in Hr as (? & st8 & Hx & Hr). inv_use Hr.
    eapply good_trans; [by eapply InsertImport_good|]. rewrite <- E. intros I1.
    by eapply InsertExternals_good.
  - apply use_bind_ok in Hr as (? & st6 & Hi & Hr). inv_use Hr. by eapply InsertImport_good.
Qed.

Lemma InsertMirrorEntries_good tenant entries (st : UseState ReconDB) u st' :
  RInv (u_db st) -> InsertMirrorEntries tenant entries st = Ok (u, st') -> good (u_db st) (u_db st').
Proof.
  intros I Hr. unfold InsertMirrorEntries, within in Hr.
  destruct entries as [|e0 entries]; [inv_use Hr; by apply good_refl|].
  apply use_bind_ok in Hr as (? & st1 & [_ ->]%require_ok & Hr).
  apply (each_ok _ (fun _ st1 => good (u_db st) (u_db st1))) in Hr; [done| |by apply good_refl].
  intros e dn s1 s2 v Hg Hs. eapply good_trans; [exact Hg|]. intros I1.
  unfold insert_mirror, owned in Hs. inv_use Hs.
  destruct (mirror _ !! m_ID e) eqn:Em; [by apply good_refl|].
  split; [by apply RInv_mirror|by apply persists_mirror].
Qed.

Lemma UpdateDiscrepancy_good tenant id status note (st : UseState ReconDB) d st' :
  RInv (u_db st) -> svc_UpdateDiscrepancy tenant id status note st = Ok (d, st') ->
  good (u_db st) (u_db st').
Proof.
  intros I Hr. unfold svc_UpdateDiscrepancy, within in Hr.
  apply use_bind_ok in Hr as (? & st1 & [_ ->]%require_ok & Hr).
  apply use_bind_ok in Hr as (? & st2 & [_ ->]%require_ok & Hr).
  apply use_bind_ok in Hr as (d0 & st3 & Hg & Hr). unfold GetDiscrepancy in Hg.
  apply use_bind_ok in Hg as (db & st4 & [-> ->]%read_ok & Hg).
  destruct (find_discrepancy _ _ _); [|done]. apply use_ret_ok in Hg as [-> ->].
  cbv zeta in Hr. apply use_bind_ok in Hr as (? & st5 & Hu & Hr). inv_use Hr.
  unfold UpdateDiscrepancy_ in Hu. apply use_bind_ok in Hu as (? & st6 & [_ ->]%require_ok & Hu).
  apply write_ok in Hu as ->. cbn [u_db]. unfold find_discrepancy.
  destruct (discrepancies (u_db st) !! _) as [old|] eqn:Eo; cbn [mbind option_bind].
  - case_decide; [|by apply good_refl]. split; [by apply RInv_triage|by apply persists_triage].
  - by apply good_refl.
Qed.

Lemma CreateSource_good tenant name kind (st : UseState ReconDB) s st' :
  RInv (u_db st) -> CreateSource tenant name kind st = Ok (s, st') -> good (u_db st) (u_db st').
Proof.
  intros I Hr. unfold CreateSource, within in Hr.
  apply use_bind_ok in Hr as (? & st1 & [_ ->]%require_ok & Hr).
  apply use_bind_ok in Hr as (? & st2 & [_ ->]%require_ok & Hr).
  apply use_bind_ok in Hr as (id & st3 & Hid%newV7_or_V4_ok & Hr).
  apply use_bind_ok in Hr as (t & st4 & Hclk%now_ok & Hr). cbv zeta in Hr.
  apply use_bind_ok in Hr as (? & st5 & Hi & Hr). inv_use Hr.
  apply use_bind_ok in Hi as (? & st6 & [_ ->]%require_ok & Hi).
  unfold InsertSource, owned, require_fresh in Hi. inv_use Hi. rewrite Hclk, Hid.
  split; [by apply (RInv_sources _ (mkSource id tenant name kind t))|apply persists_sources].
Qed.

Lemma recon_exec_good tenant rq st u st' :
  RInv (u_db st) -> recon_exec tenant rq st = Ok (u, st') -> good (u_db st) (u_db st').
Proof.
  intros I Hr. destruct rq; cbn [recon_exec] in Hr;
    try (apply use_bind_ok in Hr as (v & st1 & Hv & Hr); inv_use Hr).
  - by eapply CreateSource_good.
  - by eapply ImportStatement_good.
  - apply StartRun_ok in Hv as (ds & evs & R). split; [by eapply RInv_run|by eapply persists_run].
  - by eapply UpdateDiscrepancy_good.
  - by eapply InsertMirrorEntries_good.
Qed.

Lemma recon_reach_inv db : recon_reach db -> RInv db.
Proof. induction 1 as [|tenant rq st st' _ IH Hr]; [apply RInv_empty|by eapply recon_exec_good]. Qed.

(** Later databases. *)
Inductive recon_later (db : ReconDB) : ReconDB -> Prop :=
| later_refl : recon_later db db
| later_step tenant rq st st' :
    recon_later db (u_db st) -> recon_exec tenant rq st = Ok (tt, st') -> recon_later db (u_db st').

Lemma recon_later_good db db' : RInv db -> recon_later db db' -> good db db'.
Proof.
  intros I Hl. induction Hl as [|tenant rq st st' _ IH Hr]; [by apply good_refl|].
  eapply good_trans; [exact IH|]. intros I1. by eapply recon_exec_good.
Qed.
End Reachable.
