(* ===== verification/ReconGuarantees.v ===== *)
(** * What the reconciliation service guarantees

    The invariant of every reachable database, the exact effect of a run, the
    finality of settled rows; and a history in which one mirror entry backs two
    matches, in different runs. *)

From Stdlib Require Import Ascii String ZArith Lia.
From S2P Require Import Prelude Strconv Errors Money LedgerDomain LedgerEvents Httpx Recon ReconMatch.
From S2P Require Import TxMonad ReconStore ReconRun ReconInv.
Local Open Scope Z_scope.

Section Guarantees.
Context `{Supply, Render}.

(** C37: the reconciliation invariant. In every reachable database a matched
    row points to a mirror entry of its tenant with its reference, amount,
    asset and (when declared) direction, and no other row points anywhere; no
    run is ever stored half done; and every discrepancy of a published kind has
    exactly one event in the outbox, the others none. *)
Theorem recon_invariant db :
  recon_reach db ->
  (forall id x, externals db !! id = Some x -> x_ID x = id /\ match_ok (mirror db) x) /\
  (forall id r, runs db !! id = Some r -> run_complete r) /\
  NoDup (map (fun r => dp_DiscrepancyID (data_of r)) (recon_outbox db)) /\
  (forall id, id ∈ map (fun r => dp_DiscrepancyID (data_of r)) (recon_outbox db) <->
     exists d, discrepancies db !! id = Some d /\ is_Some (eventKind (d_Kind d))).
Proof.
  intros I%recon_reach_inv. split_and!; [|apply I..].
  intros id x Hx. split; by eapply I.
Qed.

(** Settled rows are final. Whatever the service does later, a matched or
    disputed row never changes, every row keeps its statement data, mirror
    entries and runs never change, discrepancies keep their run and kind, and
    the outbox only grows. *)
Theorem settled_final db db' : recon_reach db -> recon_later db db' -> recon_persists db db'.
Proof. intros I%recon_reach_inv Hl. by apply (recon_later_good db db' I Hl). Qed.

(** The stored row after a run, from its outcome. *)
Definition settle (o : outcome) (x : ExternalTransaction) : ExternalTransaction :=
  match o with
  | Matched e => set_match x MatchMatched (Some (m_ID e))
  | Mismatched _ | Duplicate => set_match x MatchDisputed None
  | Missing => x
  end.

Lemma update_of_outcome earlier exts entries x o :
  (x, o) ∈ classify_all entries earlier exts -> o <> Missing ->
  exists f, (x_ID x, f) ∈ run_updates (mkMatchResult (omap pair_of (classify_all entries earlier exts))
                                       (omap finding_of (classify_all entries earlier exts))) /\
    forall x0, x_MatchedEntryID x0 = None -> f x0 = settle o x0.
Proof.
  intros Hin Ho. unfold run_updates. cbn [mr_Matches mr_Findings]. destruct o as [e|e| |]; [| |done|].
  - exists (match_update (mkPair (x_ID x) (m_ID e))).2. split; [|done].
    apply elem_of_app. left. apply list_elem_of_fmap. exists (mkPair (x_ID x) (m_ID e)). split; [done|].
    apply list_elem_of_omap. by exists (x, Matched e).
  - eexists. split; [apply elem_of_app; right; apply list_elem_of_omap; exists (mismatch_finding x e)|].
    + split; [apply list_elem_of_omap; by exists (x, Mismatched e)|].
      unfold dispute_update. rewrite decide_True by (by left). reflexivity.
    + intros x0 Hn. cbn. by rewrite Hn.
  - eexists. split; [apply elem_of_app; right; apply list_elem_of_omap; exists (duplicate_finding x)|].
    + split; [apply list_elem_of_omap; by exists (x, Duplicate)|].
      unfold dispute_update. rewrite decide_True by (by right). reflexivity.
    + intros x0 Hn. cbn. by rewrite Hn.
Qed.

Lemma missing_not_updated tenant source db x :
  RInv db ->
  (x, Missing) ∈ classify_all (mirror_entries tenant db) [] (unmatched_externals tenant source db) ->
  x_ID x ∉ map fst (run_updates (run_result tenant source db)).
Proof.
  intros I Hin ([i f] & Heq & Hu)%list_elem_of_fmap. cbn in Heq. subst i.
  apply classify_all_elem in Hin as (pre & post & Hsplit & Ho). cbn [app] in Ho.
  pose proof (unmatched_ids tenant source db I) as Hnd. rewrite Hsplit, map_app in Hnd. cbn [map] in Hnd.
  assert (Hself : forall pre' x' post', unmatched_externals tenant source db = pre' ++ x' :: post' ->
    x_ID x' = x_ID x -> pre' = pre /\ x' = x).
  { intros pre' x' post' Hs' He. rewrite Hsplit in Hs'.
    assert (Hl : length pre' = length pre).
    { eapply (proj1 (NoDup_alt (map x_ID (pre ++ x :: post)))).
      - by rewrite map_app.
      - rewrite Hs', list_lookup_fmap, list_lookup_middle; [cbn; by rewrite He|done].
      - by rewrite list_lookup_fmap, list_lookup_middle. }
    apply app_inj_1 in Hs' as [-> [= -> _]]; [done|lia]. }
  unfold run_updates, run_result in Hu. rewrite MatchNaive_eq in Hu. cbn [match_reference mr_Matches mr_Findings] in Hu.
  apply elem_of_app in Hu as [(p & Hp & Hu)%list_elem_of_fmap|(fd & Hu & Hf)%list_elem_of_omap].
  - apply list_elem_of_omap in Hu as ([x' o'] & Hc & Hpo). unfold pair_of in Hpo. cbn in Hpo.
    destruct o' as [e| | |]; [|done..]. injection Hpo as <-. injection Hp as Hid _.
    apply classify_all_elem in Hc as (pre' & post' & Hs' & Ho'). cbn [app] in Ho'.
    destruct (Hself _ _ _ Hs' (eq_sym Hid)) as [-> ->]. congruence.
  - apply list_elem_of_omap in Hu as ([x' o'] & Hc & Hfo).
    apply classify_all_elem in Hc as (pre' & post' & Hs' & Ho'). cbn [app] in Ho'.
    unfold finding_of, dispute_update in *. cbn [fst snd] in Hfo.
    destruct o' as [e|e| |]; [done|..]; injection Hfo as <-; case_decide as Hd; try done;
      injection Hf as Hid _; cbn in Hid;
      destruct (Hself _ _ _ Hs' Hid) as [-> ->]; try congruence.
    by destruct Hd.
Qed.

Lemma result_reference tenant source db :
  run_result tenant source db
  = match_reference (unmatched_externals tenant source db) (mirror_entries tenant db).
Proof. apply MatchNaive_eq. Qed.

(** The updates of a run concern rows of its batch. *)
Lemma updates_in_batch tenant source db id :
  id ∈ map fst (run_updates (run_result tenant source db)) -> id ∈ map x_ID (unmatched_externals tenant source db).
Proof.
  intros ([i f] & -> & Hin)%list_elem_of_fmap. rewrite result_reference in Hin. cbn [fst].
  rewrite (classify_all_split (mirror_entries tenant db) []). unfold run_updates, match_reference in Hin.
  cbn [mr_Matches mr_Findings] in Hin.
  apply elem_of_app in Hin as [(p & Hpe & Hin)%list_elem_of_fmap|(fd & Hin & Hfd)%list_elem_of_omap];
    apply elem_of_app.
  - left. injection Hpe as -> _. by apply (list_elem_of_fmap_2 mp_ExternalID).
  - right. unfold dispute_update in Hfd. case_decide; [|done]. injection Hfd as <- _.
    by apply (list_elem_of_fmap_2 (fun f => x_ID (f_External f))).
Qed.

Lemma batch_size tenant source db :
  length (unmatched_externals tenant source db)
  = (length (mr_Matches (run_result tenant source db)) + length (mr_Findings (run_result tenant source db)))%nat.
Proof.
  rewrite result_reference.
  pose proof (Permutation_length (classify_all_split (mirror_entries tenant db) []
    (unmatched_externals tenant source db))) as Hp.
  by rewrite length_app, !length_map in Hp.
Qed.

(** Every row of the batch is settled by its outcome. *)
Lemma settled tenant source db x o :
  RInv db ->
  (x, o) ∈ classify_all (mirror_entries tenant db) [] (unmatched_externals tenant source db) ->
  exists x0, externals db !! x_ID x = Some x0 /\
    fold_left (apply_update tenant) (run_updates (run_result tenant source db)) (externals db) !! x_ID x
    = Some (settle o x0).
Proof.
  intros I Hin. pose proof Hin as Hin'. apply classify_all_elem in Hin' as (pre & post & Hs & _).
  assert (Hx : x ∈ unmatched_externals tenant source db) by (rewrite Hs; set_solver).
  apply (unmatched_elem tenant source db I) in Hx as (x0 & _ & Hx0 & Ht & _ & Hm).
  exists x0. split; [done|].
  assert (Hn : x_MatchedEntryID x0 = None).
  { pose proof (ri_match _ I _ _ Hx0) as Hok. unfold match_ok in Hok. by rewrite Hm in Hok. }
  destruct (decide (o = Missing)) as [->|Ho].
  - rewrite apply_updates_other; [done|]. by apply missing_not_updated.
  - destruct (update_of_outcome _ _ _ _ _ Hin Ho) as (f & Hf & Hfo).
    rewrite <- (Hfo x0 Hn). apply apply_updates_lookup; try done.
    + by apply run_update_ids.
    + by rewrite result_reference.
Qed.

(** C31: the exact effect of a run. A completed run settles every unmatched row
    of its source by its outcome - matched to the entry, disputed, or left
    unmatched when the mirror has nothing under its reference; its two counters
    add up to the rows it looked at; and it records itself, one open discrepancy
    per finding and one unpublished event of the tenant per published kind.
    Nothing else changes: every other external row, every source, import, mirror
    entry and earlier run, discrepancy and event stays as it was. *)
Theorem StartRun_exact tenant source st run st' :
  RInv (u_db st) -> StartRun tenant source st = Ok (run, st') ->
  let db := u_db st in let db' := u_db st' in
  let batch := unmatched_externals tenant source db in
  let outcomes := classify_all (mirror_entries tenant db) [] batch in
  (forall x o, (x, o) ∈ outcomes -> exists x0, externals db !! x_ID x = Some x0 /\
     externals db' !! x_ID x = Some (settle o x0)) /\
  (forall id, id ∉ map x_ID batch -> externals db' !! id = externals db !! id) /\
  r_MatchedCount run + r_UnmatchedCount run = Z.of_nat (length batch) /\
  r_MatchedCount run = Z.of_nat (length (omap pair_of outcomes)) /\
  r_TenantID run = tenant /\ r_SourceID run = source /\ r_Status run = RunCompleted /\
  runs db !! r_ID run = None /\ runs db' = <[r_ID run := run]> (runs db) /\
  sources db' = sources db /\ imports db' = imports db /\ mirror db' = mirror db /\
  exists ds evs, Forall2 (disc_of run) (omap finding_of outcomes) ds /\
    (forall id d, discrepancies db' !! id = Some d <->
       (d ∈ ds /\ d_ID d = id) \/ discrepancies db !! id = Some d) /\
    (forall d, d ∈ ds -> discrepancies db !! d_ID d = None) /\
    recon_outbox db' = recon_outbox db ++ evs /\ Forall (new_event tenant) evs /\
    map data_of evs = omap (emits run) (zip (omap finding_of outcomes) ds).
Proof.
  intros I Hr. cbn zeta. apply StartRun_ok in Hr as (ds & evs & R).
  pose proof (disc_lookup _ _ _ _ _ _ _ R) as Hdl.
  destruct R as [Rs (Rt & Rsrc & Rst & Rf) Rfr Rruns Rres _ Rnew Rd Ro Re (Rsame1 & Rsame2 & Rsame3)].
  cbv zeta in Rres. change (MatchNaive _ _) with (run_result tenant source (u_db st)) in Rres.
  destruct Rres as (Rm & Ru & Rx & RF & Rev). rewrite Rx.
  split_and!; try done.
  - intros x o Hin. by apply settled.
  - intros id Hn. apply apply_updates_other. intros Hin. by apply Hn, updates_in_batch.
  - rewrite Rm, Ru, batch_size. lia.
  - by rewrite Rm, result_reference.
  - exists ds, evs. rewrite result_reference in RF, Rev. by split_and!.
Qed.
End Guarantees.

(** ** A concrete history *)

Definition recon_supply : Supply := {| v4_at := fun n => 9000 + Z.of_nat n; clock_at := Z.of_nat |}.
#[local] Existing Instance recon_supply.
Definition recon_render : Render := {| uuid_String := FormatInt; rfc3339nano := FormatInt |}.
#[local] Existing Instance recon_render.

Definition recon_time (s : string) : option time := if decide (s = "t"%string) then Some 100 else None.

Definition statement (ref amount : string) : list (option (list string)) :=
  [Some ["external_ref"; "amount"; "asset"; "occurred_at"]; Some [ref; amount; "USD"; "t"]]%string.

Definition posting_a : MirrorEntry := mkMirror 500 7 600 601 "DEBIT" 1000 "USD" "a" 50.

(** Tenant 7 registers a source, receives a posting with reference "a", and
    reconciles two statements that both report it. *)
Definition recon_calls : list recon_request :=
  [RqCreateSource "bank" SourceBank; RqMirror [posting_a];
   RqImport recon_time 1 "one.csv" (statement "a" "10.00"); RqStartRun 1;
   RqImport recon_time 1 "two.csv" (statement "a" "10.00"); RqStartRun 1;
   RqImport recon_time 1 "three.csv" (statement "b" "1.00"); RqStartRun 1].

(** The ids of call [n] start at [100 * n], those of the first call at 1. *)
Definition call_state (n : nat) (db : ReconDB) : UseState ReconDB :=
  mkUse db (map (fun i => 100 * Z.of_nat n + 1 + Z.of_nat i) (seq 0 10)) 0 (10 * n).

Fixpoint play (n : nat) (calls : list recon_request) (db : ReconDB) : ReconDB :=
  match calls with
  | [] => db
  | rq :: rest =>
      match recon_exec 7 rq (call_state n db) with
      | Ok (_, st') => play (n + 1) rest (u_db st')
      | Err _ => play (n + 1) rest db
      end
  end.

Definition recon_db (n : nat) : ReconDB := play 0 (take n recon_calls) empty_recon.

Lemma play_reach n calls db : recon_reach db -> recon_reach (play n calls db).
Proof.
  revert n db. induction calls as [|rq calls IH]; intros n db Hr; [done|]. cbn [play].
  destruct (recon_exec 7 rq (call_state n db)) as [[[] st']|e] eqn:E; apply IH; [|done].
  by apply (reach_step 7 rq (call_state n db)).
Qed.

Lemma recon_db_reach n : recon_reach (recon_db n).
Proof. apply play_reach, reach_empty. Qed.

(** Two rows, matched in different runs, can be backed by the same posting: the
    consumption of mirror entries does not outlive a run. *)
Lemma mirror_entry_backs_two_matches : exists db x1 x2 entry,
  recon_reach db /\ externals db !! x_ID x1 = Some x1 /\ externals db !! x_ID x2 = Some x2 /\
  x_ID x1 <> x_ID x2 /\ x_MatchStatus x1 = MatchMatched /\ x_MatchStatus x2 = MatchMatched /\
  x_MatchedEntryID x1 = Some entry /\ x_MatchedEntryID x2 = Some entry.
Proof.
  exists (recon_db 6).
  destruct (externals (recon_db 6) !! 202) as [x1|] eqn:E1; [|exfalso; vm_compute in E1; discriminate E1].
  destruct (externals (recon_db 6) !! 402) as [x2|] eqn:E2; [|exfalso; vm_compute in E2; discriminate E2].
  exists x1, x2, 500. split; [apply recon_db_reach|].
  assert (H1 : x_ID x1 = 202 /\ x_MatchStatus x1 = MatchMatched /\ x_MatchedEntryID x1 = Some 500)
    by (clear -E1; vm_compute in E1; injection E1 as <-; by vm_compute).
  assert (H2 : x_ID x2 = 402 /\ x_MatchStatus x2 = MatchMatched /\ x_MatchedEntryID x2 = Some 500)
    by (clear -E2; vm_compute in E2; injection E2 as <-; by vm_compute).
  destruct H1 as (-> & -> & ->), H2 as (-> & -> & ->). by split_and!.
Qed.

#[local] Opaque recon_db.

Lemma recon_invariant_witness : exists x,
  externals (recon_db 8) !! 202 = Some x /\ x_MatchStatus x = MatchMatched /\
  match_ok (mirror (recon_db 8)) x.
Proof.
  destruct (externals (recon_db 8) !! 202) as [x|] eqn:E;
    [|exfalso; with_strategy transparent [recon_db] vm_compute in E; discriminate E].
  destruct (recon_invariant (recon_db 8) (recon_db_reach 8)) as (Hx & _).
  destruct (Hx 202 x E) as [_ Hm]. exists x. split; [reflexivity|]. split; [|exact Hm].
  clear -E. with_strategy transparent [recon_db] vm_compute in E. injection E as <-. reflexivity.
Defined.

Lemma play_later db0 n calls db : recon_later db0 db -> recon_later db0 (play n calls db).
Proof.
  revert n db. induction calls as [|rq calls IH]; intros n db Hr; [done|]. cbn [play].
  destruct (recon_exec 7 rq (call_state n db)) as [[[] st']|e] eqn:E; apply IH; [|done].
  by apply (later_step db0 7 rq (call_state n db)).
Qed.

Lemma play_app n l1 l2 db : play n (l1 ++ l2) db = play (n + length l1) l2 (play n l1 db).
Proof.
  revert n db. induction l1 as [|rq l1 IH]; intros n db; cbn [app play length].
  - by rewrite Nat.add_0_r.
  - replace (n + S (length l1))%nat with (n + 1 + length l1)%nat by lia.
    by destruct (recon_exec _ _ _) as [[]|].
Qed.

Lemma recon_db_later : recon_later (recon_db 4) (recon_db 8).
Proof.
  assert (E : recon_db 8 = play 4 (drop 4 recon_calls) (recon_db 4)).
  { with_strategy transparent [recon_db] unfold recon_db.
    change (take 8 recon_calls) with (take 4 recon_calls ++ drop 4 recon_calls). by rewrite play_app. }
  rewrite E. apply play_later. constructor.
Qed.

Lemma settled_final_witness : exists x,
  externals (recon_db 4) !! 202 = Some x /\ externals (recon_db 8) !! 202 = Some x.
Proof.
  destruct (externals (recon_db 4) !! 202) as [x|] eqn:E;
    [|exfalso; with_strategy transparent [recon_db] vm_compute in E; discriminate E].
  assert (Hs : x_MatchStatus x <> MatchUnmatched).
  { clear -E. with_strategy transparent [recon_db] vm_compute in E. injection E as <-. discriminate. }
  destruct (settled_final (recon_db 4) (recon_db 8) (recon_db_reach 4) recon_db_later) as [Hp _ _ _ _].
  destruct (Hp 202 x E) as (x' & E' & _ & Hf). exists x. split; [reflexivity|].
  rewrite E'. by rewrite (Hf Hs).
Defined.

Lemma StartRun_exact_witness : exists run st',
  StartRun 7 1 (call_state 7 (recon_db 7)) = Ok (run, st') /\ r_Status run = RunCompleted /\
  r_MatchedCount run + r_UnmatchedCount run = 1.
Proof.
  destruct (StartRun 7 1 (call_state 7 (recon_db 7))) as [[run st']|e] eqn:E;
    [|exfalso; with_strategy transparent [recon_db] vm_compute in E; discriminate E].
  exists run, st'. split; [reflexivity|].
  destruct (StartRun_exact 7 1 (call_state 7 (recon_db 7)) run st'
    (recon_reach_inv _ (recon_db_reach 7)) E) as (_ & _ & Hsum & _ & _ & _ & Hs & _).
  split; [exact Hs|]. rewrite Hsum. with_strategy transparent [recon_db] vm_compute. reflexivity.
Defined.
