(* ===== verification/Signature.v ===== *)
(** * Webhook signatures: [services/webhooks/internal/signature/signature.go]

    The [X-LedgerCore-Signature] header: [HeaderMulti] writes it, [parseHeader]
    and [VerifyAt] read it. Strings and byte slices are lists of bytes; the MAC
    is a class operation; instants and durations count nanoseconds. *)

From Stdlib Require Import Ascii String ZArith Lia.
From S2P Require Import Prelude Strconv LedgerDomain.
Local Open Scope Z_scope.

Abbreviation bytes := (list ascii) (only parsing).

(** [hmac.New(sha256.New, key)] over one message. *)
Class Hmac : Type := { hmac_sha256 : bytes -> bytes -> bytes }.

(** ** Hexadecimal: [encoding/hex] *)

Definition hex_digit (n : Z) : ascii :=
  ascii_of_nat (Z.to_nat (if n <? 10 then 48 + n else 87 + n)).

Definition hex_byte (c : ascii) : bytes := [hex_digit (byte_val c / 16); hex_digit (byte_val c mod 16)].

Definition hex_EncodeToString (b : bytes) : bytes := flat_map hex_byte b.

Definition hex_value (c : ascii) : option Z :=
  let v := byte_val c in
  if (48 <=? v) && (v <=? 57) then Some (v - 48)
  else if (97 <=? v) && (v <=? 102) then Some (v - 87)
  else if (65 <=? v) && (v <=? 70) then Some (v - 55)
  else None.

Fixpoint hex_DecodeString (s : bytes) : option bytes :=
  match s with
  | [] => Some []
  | [_] => None
  | a :: b :: rest =>
      x ← hex_value a; y ← hex_value b; tail ← hex_DecodeString rest;
      Some (ascii_of_nat (Z.to_nat (16 * x + y)) :: tail)
  end.

(** ** [strings.Split], [strings.Cut] and [strings.TrimSpace] on bytes *)

Fixpoint Split (sep : ascii) (s : bytes) : list bytes :=
  match s with
  | [] => [[]]
  | c :: rest =>
      if decide (c = sep) then [] :: Split sep rest
      else match Split sep rest with
           | seg :: segs => (c :: seg) :: segs
           | [] => [[c]]
           end
  end.

Fixpoint Cut (sep : ascii) (s : bytes) : option (bytes * bytes) :=
  match s with
  | [] => None
  | c :: rest =>
      if decide (c = sep) then Some ([], rest)
      else '(before, after) ← Cut sep rest; Some (c :: before, after)
  end.

Definition TrimSpaceBytes (s : bytes) : bytes := rev (trim_left (rev (trim_left s))).

(** ** Signing *)

Section Signature.
Context `{Hmac}.

Definition SchemeV1 : bytes := list_ascii_of_string "v1".
Definition DefaultTolerance : Z := 5 * 60 * 1000000000.

Inductive sig_error : Type := ErrInvalidHeader | ErrTimestampTooOld | ErrSignatureMismatch.

(** What the MAC covers: the timestamp, a dot, the body. *)
Definition mac_input (t : Z) (body : bytes) : bytes :=
  list_ascii_of_string (FormatInt t) ++ "."%char :: body.

Definition mac (secret : bytes) (t : Z) (body : bytes) : bytes := hmac_sha256 secret (mac_input t body).

Definition Sign (secret : bytes) (t : Z) (body : bytes) : bytes := hex_EncodeToString (mac secret t body).

Definition HeaderMulti (secrets : list bytes) (t : Z) (body : bytes) : bytes :=
  "t"%char :: "="%char :: list_ascii_of_string (FormatInt t) ++
  flat_map (fun s => ","%char :: SchemeV1 ++ "="%char :: Sign s t body) secrets.

Definition Header (secret : bytes) (t : Z) (body : bytes) : bytes := HeaderMulti [secret] t body.

(** ** Verifying *)

(** The loop of [parseHeader] over the comma-separated parts. *)
Fixpoint parse_parts (parts : list bytes) (ts : option Z) (candidates : list bytes)
  : result sig_error (option Z * list bytes) :=
  match parts with
  | [] => Ok (ts, candidates)
  | part :: rest =>
      match Cut "=" (TrimSpaceBytes part) with
      | None => Err ErrInvalidHeader
      | Some (key, value) =>
          if decide (key = ["t"%char]) then
            match ParseInt (string_of_list_ascii value) with
            | None => Err ErrInvalidHeader
            | Some parsed => parse_parts rest (Some parsed) candidates
            end
          else if decide (key = SchemeV1) then parse_parts rest ts (candidates ++ [value])
          else parse_parts rest ts candidates
      end
  end.

Definition parseHeader (header : bytes) : result sig_error (Z * list bytes) :=
  '(ts, candidates) ← parse_parts (Split "," header) None [];
  match ts, candidates with
  | Some ts, _ :: _ => Ok (ts, candidates)
  | _, _ => Err ErrInvalidHeader
  end.

(** [time.Unix(sec, 0)]: the seconds since year 1 are an [int64] and wrap. *)
Definition unixToInternal : Z := 62135596800.
Definition time_Unix (sec : Z) : Z := (wrap64 (sec + unixToInternal) - unixToInternal) * 1000000000.

(** [t.Sub(u)]: an [int64] of nanoseconds, saturated. *)
Definition time_Sub (t u : Z) : Z := Z.max min_int64 (Z.min max_int64 (t - u)).

(** The freshness test: [true] when the timestamp is rejected. *)
Definition too_old (now ts tolerance : Z) : bool :=
  (0 <? tolerance) &&
  (let diff := time_Sub now (time_Unix ts) in
   let diff := if diff <? 0 then wrap64 (- diff) else diff in
   tolerance <? diff).

Definition VerifyAt (secret header body : bytes) (now tolerance : Z) : result sig_error unit :=
  '(ts, candidates) ← parseHeader header;
  _ ← guard_err (too_old now ts tolerance) ErrTimestampTooOld;
  let expected := mac secret ts body in
  if existsb (fun c => bool_decide (hex_DecodeString c = Some expected)) candidates
  then Ok tt else Err ErrSignatureMismatch.

(** ** Hexadecimal round trip *)

Lemma hex_value_digit n : 0 <= n < 16 -> hex_value (hex_digit n) = Some n.
Proof.
  intros Hn.
  assert (n ∈ seqZ 0 16) as Hin by (apply elem_of_seqZ; lia).
  revert Hin. clear Hn. revert n. apply Forall_forall. by repeat constructor.
Qed.

Lemma byte_of_val c : ascii_of_nat (Z.to_nat (byte_val c)) = c.
Proof. unfold byte_val. rewrite Nat2Z.id. apply ascii_nat_embedding. Qed.

Lemma hex_roundtrip b : hex_DecodeString (hex_EncodeToString b) = Some b.
Proof.
  induction b as [|c b IH]; [done|]. cbn [hex_EncodeToString flat_map hex_byte app hex_DecodeString].
  pose proof (byte_val_range c).
  assert (Hq : 0 <= byte_val c / 16 < 16) by (split; [apply Z.div_pos|apply Z.div_lt_upper_bound]; lia).
  rewrite (hex_value_digit (_ / 16)) by done. rewrite hex_value_digit by (apply Z.mod_pos_bound; lia).
  fold (hex_EncodeToString b). cbn [mbind option_bind]. rewrite IH. cbn [mbind option_bind].
  rewrite <- (Z.div_mod (byte_val c) 16) by lia. by rewrite byte_of_val.
Qed.

(** ** The header round trip *)

(** Bytes that neither separate nor pad. *)
Definition plain (c : ascii) : Prop := c <> ","%char /\ c <> "="%char /\ is_space c = false.

Lemma plain_of_val c : 44 < byte_val c -> byte_val c <> 61 -> plain c.
Proof.
  intros H1 H2. split_and!.
  - intros ->. by vm_compute in H1.
  - intros ->. by vm_compute in H2.
  - unfold is_space. rewrite orb_false_iff, andb_false_iff, Z.eqb_neq, !Z.leb_gt. lia.
Qed.

Lemma plain_hex b : Forall plain (hex_EncodeToString b).
Proof.
  assert (Hd : forall n, 0 <= n < 16 -> plain (hex_digit n)).
  { intros n Hn. apply plain_of_val; unfold hex_digit, byte_val;
      rewrite nat_ascii_embedding by (destruct (n <? 10) eqn:E; lia); destruct (n <? 10) eqn:E; lia. }
  induction b as [|c b IH]; [constructor|]. pose proof (byte_val_range c).
  constructor; [|constructor; [|exact IH]]; apply Hd.
  - split; [apply Z.div_pos|apply Z.div_lt_upper_bound]; lia.
  - apply Z.mod_pos_bound; lia.
Qed.

(** Decimal rendering uses digits and the minus sign. *)
Lemma FormatInt_chars t :
  in_int64 t = true ->
  Forall (fun c => c = "-"%char \/ is_digit c = true) (list_ascii_of_string (FormatInt t)).
Proof.
  intros Ht%in_int64_spec. unfold FormatInt. rewrite list_ascii_of_string_of_list_ascii.
  assert (Hu : forall n, 0 <= n <= 9223372036854775808 ->
    Forall (fun c => c = "-"%char \/ is_digit c = true) (utoa n)).
  { intros n Hn. apply Forall_forall. intros c Hc%list_elem_of_In. right.
    pose proof (utoa_digits n ltac:(lia)) as Hall. by eapply forallb_forall in Hall. }
  unfold64. destruct (t <? 0) eqn:E; [constructor; [by left|]|]; apply Hu; lia.
Qed.

Lemma plain_FormatInt t : in_int64 t = true -> Forall plain (list_ascii_of_string (FormatInt t)).
Proof.
  intros Ht%FormatInt_chars. eapply Forall_impl; [exact Ht|]. intros c [->|Hc].
  - by apply plain_of_val.
  - unfold is_digit in Hc. rewrite andb_true_iff, !Z.leb_le in Hc. apply plain_of_val; lia.
Qed.

Lemma dot_free_FormatInt t :
  in_int64 t = true -> Forall (fun c => c <> "."%char) (list_ascii_of_string (FormatInt t)).
Proof.
  intros Ht%FormatInt_chars. eapply Forall_impl; [exact Ht|]. intros c [->|Hc]; [done|]. by intros ->.
Qed.

Lemma Split_last sep a : sep ∉ a -> Split sep a = [a].
Proof.
  induction a as [|c a IH]; intros Hn; [done|]. cbn [Split].
  rewrite decide_False by set_solver. by rewrite IH by set_solver.
Qed.

Lemma Split_app sep a b : sep ∉ a -> Split sep (a ++ sep :: b) = a :: Split sep b.
Proof.
  induction a as [|c a IH]; intros Hn; cbn [app Split]; [by rewrite decide_True|].
  rewrite decide_False by set_solver. by rewrite IH by set_solver.
Qed.

Lemma Split_flat_map {A} sep (p : bytes) (q : A -> bytes) (l : list A) :
  sep ∉ p -> (forall a, sep ∉ q a) -> Split sep (p ++ flat_map (fun a => sep :: q a) l) = p :: map q l.
Proof.
  intros Hp Hq. revert p Hp. induction l as [|a l IH]; intros p Hp; cbn [flat_map map app].
  - rewrite app_nil_r. by apply Split_last.
  - rewrite Split_app by done. by rewrite IH.
Qed.

Lemma Cut_app sep a b : sep ∉ a -> Cut sep (a ++ sep :: b) = Some (a, b).
Proof.
  induction a as [|c a IH]; intros Hn; cbn [app Cut]; [by rewrite decide_True|].
  rewrite decide_False by set_solver. by rewrite IH by set_solver.
Qed.

Lemma trim_left_id s : (forall c, head s = Some c -> is_space c = false) -> trim_left s = s.
Proof. destruct s as [|c s]; [done|]. intros Hh. cbn. by rewrite (Hh c). Qed.

Lemma TrimSpace_id s : Forall (fun c => is_space c = false) s -> TrimSpaceBytes s = s.
Proof.
  intros Hs. unfold TrimSpaceBytes. rewrite (trim_left_id s), trim_left_id, rev_involutive; [done| |].
  - intros c Hc. eapply Forall_forall in Hs; [done|]. rewrite <- (rev_involutive s), list_elem_of_In, <- in_rev.
    apply list_elem_of_In. destruct (rev s); [done|]. injection Hc as ->. set_solver.
  - intros c Hc. destruct s; [done|]. injection Hc as ->. by inversion Hs.
Qed.

Lemma plain_spaces l : Forall plain l -> Forall (fun c => is_space c = false) l.
Proof. intros Hl. eapply Forall_impl; [exact Hl|]. by intros c (? & ? & ?). Qed.

Lemma plain_no_comma l : Forall plain l -> ","%char ∉ l.
Proof. intros Hl Hin. eapply Forall_forall in Hl as (Hc & _); done. Qed.

(** A byte that does not occur in a literal. *)
Ltac by_bytes := apply (bool_decide_eq_false_1 (_ ∈ _)); reflexivity.

Lemma parse_v1_parts (sigs : list bytes) ts cands :
  Forall (Forall plain) sigs ->
  parse_parts (map (fun v => SchemeV1 ++ "="%char :: v) sigs) ts cands = Ok (ts, cands ++ sigs).
Proof.
  intros Hs. revert cands. induction Hs as [|v sigs Hv _ IH]; intros cands; cbn [map parse_parts].
  - by rewrite app_nil_r.
  - rewrite TrimSpace_id by (repeat constructor; by apply plain_spaces).
    rewrite Cut_app by by_bytes.
    rewrite decide_False by discriminate. rewrite decide_True by done. rewrite IH. by rewrite <- app_assoc.
Qed.

Lemma parseHeader_HeaderMulti secrets t body :
  in_int64 t = true -> secrets <> [] ->
  parseHeader (HeaderMulti secrets t body) = Ok (t, map (fun s => Sign s t body) secrets).
Proof.
  intros Ht Hne. pose proof (plain_FormatInt t Ht) as Hp. unfold parseHeader, HeaderMulti.
  change ("t"%char :: "="%char :: ?x ++ ?y) with (("t"%char :: "="%char :: x) ++ y).
  rewrite (Split_flat_map ","%char _ (fun s => SchemeV1 ++ "="%char :: Sign s t body)).
  - cbn [parse_parts]. rewrite TrimSpace_id by (repeat constructor; by apply plain_spaces).
    change ("t"%char :: "="%char :: ?x) with (["t"%char] ++ "="%char :: x).
    rewrite Cut_app by by_bytes. rewrite decide_True by done.
    rewrite string_of_list_ascii_of_string, ParseInt_FormatInt_aux by done.
    rewrite <- (map_map (fun s => Sign s t body) (fun v => SchemeV1 ++ "="%char :: v)).
    rewrite parse_v1_parts.
    + cbn. by destruct secrets.
    + apply Forall_forall. intros v (s & -> & _)%list_elem_of_fmap. apply plain_hex.
  - apply not_elem_of_cons. split; [done|]. apply not_elem_of_cons. split; [done|]. by apply plain_no_comma.
  - intros s. intros [Hin|Hin]%elem_of_app; [by revert Hin; by_bytes|].
    apply elem_of_cons in Hin as [|Hin]; [done|]. by eapply plain_no_comma; [apply plain_hex|].
Qed.

(** ** Acceptance *)

(** The timestamps that pass a positive tolerance: those within it - and those
    so far ahead of the clock that their distance saturates, since the absolute
    value of the least [int64] is itself. *)
Definition fresh (now t tolerance : Z) : Prop :=
  Z.abs (now - t * 1000000000) <= tolerance \/ now - t * 1000000000 <= min_int64.

Lemma too_old_fresh now t tolerance :
  min_int64 <= t <= max_int64 - unixToInternal -> 0 < tolerance < max_int64 ->
  too_old now t tolerance = false <-> fresh now t tolerance.
Proof.
  intros Ht Htol. unfold too_old, fresh, time_Unix, time_Sub.
  rewrite wrap64_id by (unfold unixToInternal in *; unfold64; lia). rewrite Z.add_simpl_r.
  set (d := now - t * 1000000000). rewrite (proj2 (Z.ltb_lt 0 tolerance)) by lia. cbn [andb].
  set (s := Z.max min_int64 (Z.min max_int64 d)).
  destruct (decide (d <= min_int64)) as [Hd|Hd].
  - assert (Hs : s = min_int64) by (unfold s; unfold64; lia). rewrite Hs.
    change (wrap64 (- min_int64)) with min_int64. unfold64. destruct (_ <? 0) eqn:E; lia.
  - assert (Hs : s = Z.min max_int64 d) by (unfold s; unfold64; lia). clearbody s d. subst s.
    destruct (_ <? 0) eqn:E; [rewrite wrap64_id by (unfold64; lia)|]; rewrite Z.ltb_ge; [apply Z.ltb_lt in E|apply Z.ltb_ge in E].
    + unfold64. lia.
    + unfold64. lia.
Qed.

Lemma existsb_sigs secret secrets t body body' :
  existsb (fun c => bool_decide (hex_DecodeString c = Some (mac secret t body')))
    (map (fun s => Sign s t body) secrets) = true <->
  exists s, s ∈ secrets /\ mac s t body = mac secret t body'.
Proof.
  rewrite existsb_exists. split.
  - intros (c & Hc & Hd%bool_decide_eq_true). apply list_elem_of_In, list_elem_of_fmap in Hc as (s & -> & Hs).
    unfold Sign in Hd. rewrite hex_roundtrip in Hd. injection Hd as Hd. eauto.
  - intros (s & Hs & Hm). exists (Sign s t body). split.
    + by apply (in_map (fun s => Sign s t body)), list_elem_of_In.
    + apply bool_decide_eq_true. unfold Sign. by rewrite hex_roundtrip, Hm.
Qed.

(** The MAC input determines the timestamp and the body. *)
Lemma mac_input_inj t t' body body' :
  in_int64 t = true -> in_int64 t' = true ->
  mac_input t body = mac_input t' body' -> t = t' /\ body = body'.
Proof.
  intros Ht Ht' E.
  assert (Hdot : forall u, in_int64 u = true -> "."%char ∉ list_ascii_of_string (FormatInt u)).
  { intros u Hu Hin. eapply Forall_forall in Hin; [|by apply dot_free_FormatInt]. done. }
  pose proof (Cut_app "."%char _ body (Hdot t Ht)) as C. unfold mac_input in E. rewrite E in C.
  rewrite Cut_app in C by auto. injection C as Hn <-. split; [|done].
  apply (f_equal string_of_list_ascii) in Hn. rewrite !string_of_list_ascii_of_string in Hn.
  apply (f_equal ParseInt) in Hn. rewrite !ParseInt_FormatInt_aux in Hn by done. congruence.
Qed.

(** A header the dispatcher made, read by a receiver. *)
Lemma VerifyAt_made secret secrets t body body' now tolerance :
  min_int64 <= t <= max_int64 - unixToInternal -> secrets <> [] ->
  VerifyAt secret (HeaderMulti secrets t body) body' now tolerance
  = (if too_old now t tolerance then Err ErrTimestampTooOld
     else if existsb (fun c => bool_decide (hex_DecodeString c = Some (mac secret t body')))
               (map (fun s => Sign s t body) secrets)
          then Ok tt else Err ErrSignatureMismatch).
Proof.
  intros Ht Hne. assert (Hin : in_int64 t = true) by (apply in_int64_spec; unfold unixToInternal in *; lia).
  unfold VerifyAt. rewrite parseHeader_HeaderMulti by done. cbn [mbind result_bind].
  by destruct (too_old now t tolerance).
Qed.

Lemma VerifyAt_accepts secret secrets t body now tolerance :
  min_int64 <= t <= max_int64 - unixToInternal -> 0 < tolerance < max_int64 ->
  Z.abs (now - t * 1000000000) <= tolerance -> secret ∈ secrets ->
  VerifyAt secret (HeaderMulti secrets t body) body now tolerance = Ok tt.
Proof.
  intros Ht Htol Hf Hs. rewrite VerifyAt_made; [|done|by destruct secrets; [set_solver|]].
  rewrite (proj2 (too_old_fresh now t tolerance Ht Htol)) by (by left).
  by rewrite (proj2 (existsb_sigs secret secrets t body body)) by eauto.
Qed.

(** What a receiver accepts. A receiver holding [secret] accepts a header
    the dispatcher made with [secrets] exactly when its timestamp is fresh and
    some signing secret gives the MAC the receiver computes over the body it
    got; a stale timestamp is reported as such; and whatever the header, an
    accepted one carries the MAC of the receiver's secret over the header's own
    timestamp and the body. *)
Theorem VerifyAt_HeaderMulti secret secrets t body body' now tolerance :
  min_int64 <= t <= max_int64 - unixToInternal -> 0 < tolerance < max_int64 -> secrets <> [] ->
  (VerifyAt secret (HeaderMulti secrets t body) body' now tolerance = Ok tt <->
     fresh now t tolerance /\
     exists s, s ∈ secrets /\ hmac_sha256 s (mac_input t body) = hmac_sha256 secret (mac_input t body')) /\
  (VerifyAt secret (HeaderMulti secrets t body) body' now tolerance = Err ErrTimestampTooOld <->
     ~ fresh now t tolerance) /\
  (forall header, VerifyAt secret header body' now tolerance = Ok tt ->
     exists ts candidates c, parseHeader header = Ok (ts, candidates) /\ c ∈ candidates /\
       hex_DecodeString c = Some (hmac_sha256 secret (mac_input ts body')) /\
       too_old now ts tolerance = false).
Proof.
  intros Ht Htol Hne. pose proof (too_old_fresh now t tolerance Ht Htol) as Hf.
  pose proof (existsb_sigs secret secrets t body body') as Hs. unfold mac in Hs at 2 3. split_and!.
  - rewrite VerifyAt_made by done. destruct (too_old now t tolerance); [naive_solver|].
    destruct (existsb _ _); naive_solver.
  - rewrite VerifyAt_made by done. destruct (too_old now t tolerance); [naive_solver|].
    destruct (existsb _ _); naive_solver.
  - intros header Hv. unfold VerifyAt in Hv. destruct (parseHeader header) as [[ts cands]|]; [|done].
    cbn [mbind result_bind] in Hv. destruct (too_old now ts tolerance) eqn:Eo; [done|].
    cbn [guard_err mbind result_bind] in Hv.
    destruct (existsb (fun c => bool_decide (hex_DecodeString c = Some (mac secret ts body'))) cands) eqn:Ee;
      [|done].
    apply existsb_exists in Ee as (c & Hc%list_elem_of_In & Hd%bool_decide_eq_true).
    exists ts, cands, c. by split_and!.
Qed.
End Signature.

(** ** A concrete receiver *)

Definition demo_hmac : Hmac := {| hmac_sha256 := fun key msg => rev key ++ msg |}.

(** A receiver still on the old secret accepts a header signed with both, one
    second later; it also accepts a timestamp three centuries ahead. *)
Lemma VerifyAt_HeaderMulti_witness :
  let old := list_ascii_of_string "lcwh_old" in
  let new := list_ascii_of_string "lcwh_new" in
  let body := list_ascii_of_string "{}" in
  VerifyAt (H := demo_hmac) old (HeaderMulti (H := demo_hmac) [new; old] 1000 body) body
    1001000000000 DefaultTolerance = Ok tt /\
  VerifyAt (H := demo_hmac) old (HeaderMulti (H := demo_hmac) [new; old] 9300000000 body) body
    1001000000000 DefaultTolerance = Ok tt.
Proof.
  intros old new body.
  assert (Hs : exists s, s ∈ [new; old] /\ forall t,
    @hmac_sha256 demo_hmac s (mac_input t body) = @hmac_sha256 demo_hmac old (mac_input t body)).
  { exists old. split; [right; left|reflexivity]. }
  destruct Hs as (s & Hin & Hm). split.
  - apply (VerifyAt_HeaderMulti (H := demo_hmac) old [new; old] 1000 body body 1001000000000 DefaultTolerance);
      [split; vm_compute; discriminate|split; vm_compute; [reflexivity|reflexivity]|discriminate|].
    split; [left; vm_compute; discriminate|eauto].
  - apply (VerifyAt_HeaderMulti (H := demo_hmac) old [new; old] 9300000000 body body 1001000000000 DefaultTolerance);
      [split; vm_compute; discriminate|split; vm_compute; [reflexivity|reflexivity]|discriminate|].
    split; [right; vm_compute; discriminate|eauto].
Defined.
