(* ===== verification/Ssrf.v ===== *)
(** * The SSRF guard: [services/webhooks/internal/dispatcher/ssrf.go]

    Which peers the dispatcher may connect to. An address is the byte slice of
    a [net.IP]; the classification methods are those of package [net]. *)

From Stdlib Require Import Ascii String ZArith Lia.
From S2P Require Import Prelude.
Local Open Scope Z_scope.

(** ** [net.IP] *)

Abbreviation IP := (list Z) (only parsing).

Definition v4_prefix : IP := [0; 0; 0; 0; 0; 0; 0; 0; 0; 0; 255; 255].
Definition IPv4 (a b c d : Z) : IP := v4_prefix ++ [a; b; c; d].
Definition IPv4zero : IP := IPv4 0 0 0 0.
Definition IPv4bcast : IP := IPv4 255 255 255 255.
Definition IPv6unspecified : IP := replicate 16 0.
Definition IPv6loopback : IP := replicate 15 0 ++ [1].

Definition To4 (ip : IP) : option IP :=
  if decide (length ip = 4%nat) then Some ip
  else if decide (length ip = 16%nat /\ take 12 ip = v4_prefix) then Some (drop 12 ip)
  else None.

(** [IP.Equal]: an IPv4 address equals its IPv4-mapped form. *)
Definition IP_Equal (ip x : IP) : bool :=
  match To4 ip, To4 x with
  | Some a, Some b => bool_decide (a = b)
  | None, None => bool_decide (ip = x)
  | _, _ => false
  end.

Definition byte_at (ip : IP) (i : nat) : Z := default 0 (ip !! i).

Definition IsUnspecified (ip : IP) : bool := IP_Equal ip IPv4zero || IP_Equal ip IPv6unspecified.

Definition IsLoopback (ip : IP) : bool :=
  match To4 ip with
  | Some ip4 => byte_at ip4 0 =? 127
  | None => IP_Equal ip IPv6loopback
  end.

Definition is16 (ip : IP) : bool := (length ip =? 16)%nat.

Definition IsPrivate (ip : IP) : bool :=
  match To4 ip with
  | Some ip4 =>
      (byte_at ip4 0 =? 10)
      || ((byte_at ip4 0 =? 172) && (Z.land (byte_at ip4 1) 0xf0 =? 16))
      || ((byte_at ip4 0 =? 192) && (byte_at ip4 1 =? 168))
  | None => is16 ip && (Z.land (byte_at ip 0) 0xfe =? 0xfc)
  end.

Definition IsMulticast (ip : IP) : bool :=
  match To4 ip with
  | Some ip4 => Z.land (byte_at ip4 0) 0xf0 =? 0xe0
  | None => is16 ip && (byte_at ip 0 =? 0xff)
  end.

Definition IsInterfaceLocalMulticast (ip : IP) : bool :=
  is16 ip && (byte_at ip 0 =? 0xff) && (Z.land (byte_at ip 1) 0x0f =? 0x01).

Definition IsLinkLocalMulticast (ip : IP) : bool :=
  match To4 ip with
  | Some ip4 => (byte_at ip4 0 =? 224) && (byte_at ip4 1 =? 0) && (byte_at ip4 2 =? 0)
  | None => is16 ip && (byte_at ip 0 =? 0xff) && (Z.land (byte_at ip 1) 0x0f =? 0x02)
  end.

Definition IsLinkLocalUnicast (ip : IP) : bool :=
  match To4 ip with
  | Some ip4 => (byte_at ip4 0 =? 169) && (byte_at ip4 1 =? 254)
  | None => is16 ip && (byte_at ip 0 =? 0xfe) && (Z.land (byte_at ip 1) 0xc0 =? 0x80)
  end.

Definition IsGlobalUnicast (ip : IP) : bool :=
  ((length ip =? 4)%nat || is16 ip) && negb (IP_Equal ip IPv4bcast) && negb (IsUnspecified ip)
  && negb (IsLoopback ip) && negb (IsMulticast ip) && negb (IsLinkLocalUnicast ip).

(** ** The guard *)

(** The carrier-grade NAT test. *)
Definition is_cgnat (ip : IP) : bool :=
  match To4 ip with
  | Some v4 => (byte_at v4 0 =? 100) && (64 <=? byte_at v4 1) && (byte_at v4 1 <=? 127)
  | None => false
  end.

(** [isBlockedIP]; a nil address is the empty slice. *)
Definition isBlockedIP (ip : IP) : bool :=
  if decide (ip = []) then true
  else if IsLoopback ip || IsPrivate ip || IsLinkLocalUnicast ip || IsLinkLocalMulticast ip
          || IsInterfaceLocalMulticast ip || IsMulticast ip || IsUnspecified ip then true
  else if is_cgnat ip then true
  else negb (IsGlobalUnicast ip).

(** [safeControl]: [SplitHostPort] and [ParseIP] are those of package [net]. *)
Definition safeControl (SplitHostPort : string -> option (string * string))
  (ParseIP : string -> option IP) (address : string) : result string unit :=
  match SplitHostPort address with
  | None => Err "dispatcher: cannot parse dial address"%string
  | Some (host, _) =>
      match ParseIP host with
      | None => Err host
      | Some ip => if isBlockedIP ip then Err host else Ok tt
      end
  end.

(** ** The blocked networks *)

Definition byte (b : Z) : Prop := 0 <= b < 256.

(** The address as a number, most significant byte first. *)
Definition ip_value (ip : IP) : Z := foldl (fun acc b => acc * 256 + b) 0 ip.

(** A network: the value of its first address and the length of its prefix. *)
Definition in_net (width : Z) (n : Z) (net : Z * Z) : Prop :=
  net.1 <= n < net.1 + 2 ^ (width - net.2).

Definition v4net (a b c d len : Z) : Z * Z := (ip_value [a; b; c; d], len).

Definition blocked_v4 : list (Z * Z) :=
  [v4net 0 0 0 0 32; v4net 10 0 0 0 8; v4net 100 64 0 0 10; v4net 127 0 0 0 8; v4net 169 254 0 0 16;
   v4net 172 16 0 0 12; v4net 192 168 0 0 16; v4net 224 0 0 0 4; v4net 255 255 255 255 32].

Definition v6net (hi len : Z) : Z * Z := (hi * 2 ^ 112, len).

Definition blocked_v6 : list (Z * Z) :=
  [(0, 128); (1, 128); v6net 0xfc00 7; v6net 0xfe80 10; v6net 0xff00 8].

Lemma byte_masks b :
  byte b ->
  (Z.land b 0xf0 =? 16) = ((16 <=? b) && (b <=? 31)) /\
  (Z.land b 0xf0 =? 0xe0) = ((224 <=? b) && (b <=? 239)) /\
  (Z.land b 0xfe =? 0xfc) = ((252 <=? b) && (b <=? 253)) /\
  (Z.land b 0xc0 =? 0x80) = ((128 <=? b) && (b <=? 191)).
Proof.
  intros Hb. assert (Hin : b ∈ seqZ 0 256) by (apply elem_of_seqZ; unfold byte in Hb; lia).
  revert Hin. clear Hb. revert b. apply Forall_forall.
  apply (bool_decide_eq_true_1 (Forall _ _)). by vm_compute.
Qed.

(** ** IPv4 *)

Lemma To4_inv ip v4 :
  Forall byte ip -> To4 ip = Some v4 ->
  exists a b c d, v4 = [a; b; c; d] /\ byte a /\ byte b /\ byte c /\ byte d /\
    (ip = v4 \/ ip = v4_prefix ++ v4).
Proof.
  intros Hb. unfold To4. repeat case_decide; intros [= <-].
  - destruct ip as [|a [|b [|c [|d [|]]]]]; try done. exists a, b, c, d.
    rewrite !Forall_cons in Hb. naive_solver.
  - destruct H0 as [Hl Ht]. pose proof (Forall_drop byte 12 ip Hb) as Hd.
    assert (Hip : ip = v4_prefix ++ drop 12 ip) by (rewrite <- Ht; symmetry; apply take_drop).
    pose proof (length_drop ip 12) as Hlen. rewrite Hl in Hlen.
    destruct (drop 12 ip) as [|a [|b [|c [|d [|]]]]]; try done. exists a, b, c, d.
    rewrite !Forall_cons in Hd. destruct Hd as (? & ? & ? & ? & _). split_and!; auto.
Qed.

Section V4.
Context (a b c d : Z) (Ha : byte a) (Hb : byte b) (Hc : byte c) (Hd : byte d).

Lemma v4_value : ip_value [a; b; c; d] = ((a * 256 + b) * 256 + c) * 256 + d.
Proof. unfold ip_value. cbn [foldl]. lia. Qed.

Ltac range := unfold in_net, byte in *; rewrite v4_value; cbn -[Z.add Z.mul Z.lt Z.le]; lia.

Lemma in_10 : in_net 32 (ip_value [a; b; c; d]) (v4net 10 0 0 0 8) <-> a = 10.
Proof. range. Qed.
Lemma in_127 : in_net 32 (ip_value [a; b; c; d]) (v4net 127 0 0 0 8) <-> a = 127.
Proof. range. Qed.
Lemma in_100 : in_net 32 (ip_value [a; b; c; d]) (v4net 100 64 0 0 10) <-> a = 100 /\ 64 <= b <= 127.
Proof. range. Qed.
Lemma in_169 : in_net 32 (ip_value [a; b; c; d]) (v4net 169 254 0 0 16) <-> a = 169 /\ b = 254.
Proof. range. Qed.
Lemma in_172 : in_net 32 (ip_value [a; b; c; d]) (v4net 172 16 0 0 12) <-> a = 172 /\ 16 <= b <= 31.
Proof. range. Qed.
Lemma in_192 : in_net 32 (ip_value [a; b; c; d]) (v4net 192 168 0 0 16) <-> a = 192 /\ b = 168.
Proof. range. Qed.
Lemma in_224 : in_net 32 (ip_value [a; b; c; d]) (v4net 224 0 0 0 4) <-> 224 <= a <= 239.
Proof. range. Qed.
Lemma in_zero : in_net 32 (ip_value [a; b; c; d]) (v4net 0 0 0 0 32) <-> [a; b; c; d] = [0; 0; 0; 0].
Proof. transitivity (a = 0 /\ b = 0 /\ c = 0 /\ d = 0); [range|naive_solver]. Qed.
Lemma in_bcast :
  in_net 32 (ip_value [a; b; c; d]) (v4net 255 255 255 255 32) <-> [a; b; c; d] = [255; 255; 255; 255].
Proof. transitivity (a = 255 /\ b = 255 /\ c = 255 /\ d = 255); [range|naive_solver]. Qed.
End V4.

Lemma blocked_v4_tests ip a b c d :
  byte a -> byte b -> byte c -> byte d ->
  To4 ip = Some [a; b; c; d] -> ip = [a; b; c; d] \/ ip = v4_prefix ++ [a; b; c; d] ->
  isBlockedIP ip = false <->
  [a; b; c; d] <> [0; 0; 0; 0] /\ [a; b; c; d] <> [255; 255; 255; 255] /\ a <> 10 /\ a <> 127 /\
  ~ (a = 100 /\ 64 <= b <= 127) /\ ~ (a = 169 /\ b = 254) /\ ~ (a = 172 /\ 16 <= b <= 31) /\
  ~ (a = 192 /\ b = 168) /\ ~ (224 <= a <= 239).
Proof.
  intros Ha Hb Hc Hd E Hip.
  destruct (byte_masks a Ha) as (_ & Ma & _). destruct (byte_masks b Hb) as (Mb & _).
  assert (Hnil : ip <> []) by (destruct Hip as [-> | ->]; discriminate).
  assert (Hlen : ((length ip =? 4)%nat || is16 ip) = true) by (by destruct Hip as [-> | ->]).
  assert (Hil : IsInterfaceLocalMulticast ip = false) by (by destruct Hip as [-> | ->]).
  assert (Hz : IP_Equal ip IPv4zero = bool_decide ([a; b; c; d] = [0; 0; 0; 0]))
    by (unfold IP_Equal; by rewrite E).
  assert (Hu : IP_Equal ip IPv6unspecified = false) by (unfold IP_Equal; by rewrite E).
  assert (Hbc : IP_Equal ip IPv4bcast = bool_decide ([a; b; c; d] = [255; 255; 255; 255]))
    by (unfold IP_Equal; by rewrite E).
  unfold isBlockedIP, IsGlobalUnicast, IsUnspecified, IsLoopback, IsPrivate, IsLinkLocalUnicast,
    IsLinkLocalMulticast, IsMulticast, is_cgnat.
  rewrite decide_False by done. rewrite E, Hlen, Hil, Hz, Hu, Hbc.
  cbn [byte_at lookup list_lookup default from_option id]. rewrite Ma, Mb.
  rewrite <- (bool_decide_eq_false ([a; b; c; d] = [0; 0; 0; 0])).
  rewrite <- (bool_decide_eq_false ([a; b; c; d] = [255; 255; 255; 255])).
  generalize (bool_decide ([a; b; c; d] = [0; 0; 0; 0])) as z.
  generalize (bool_decide ([a; b; c; d] = [255; 255; 255; 255])) as m. intros m z.
  match goal with |- (if ?x then _ else if ?y then _ else ?w) = false <-> _ =>
    transitivity (x || y || w = false); [by destruct x, y|] end.
  rewrite !orb_false_iff, negb_false_iff, !andb_true_iff, !negb_true_iff, !orb_false_iff,
    !andb_false_iff, !Z.eqb_neq, !Z.leb_gt.
  clear. split; intros Hx; destruct_and! Hx; split_and!; try done; try lia.
Qed.

(** ** IPv6 *)

Lemma ip_value_acc acc l : foldl (fun acc b => acc * 256 + b) acc l = acc * 256 ^ Z.of_nat (length l) + ip_value l.
Proof.
  unfold ip_value. revert acc. induction l as [|b l IH]; intros acc; cbn [foldl length]; [lia|].
  rewrite IH, (IH (0 * 256 + b)), Nat2Z.inj_succ, Z.pow_succ_r by lia. lia.
Qed.

Lemma ip_value_cons b l : ip_value (b :: l) = b * 256 ^ Z.of_nat (length l) + ip_value l.
Proof. unfold ip_value at 1. cbn [foldl]. by rewrite ip_value_acc. Qed.

Lemma ip_value_range l : Forall byte l -> 0 <= ip_value l < 256 ^ Z.of_nat (length l).
Proof.
  induction 1 as [|b l Hb _ IH]; [by vm_compute|]. rewrite ip_value_cons. cbn [length].
  rewrite Nat2Z.inj_succ, Z.pow_succ_r by lia. unfold byte in Hb. nia.
Qed.

Lemma ip_value_inj l1 l2 :
  Forall byte l1 -> Forall byte l2 -> length l1 = length l2 -> ip_value l1 = ip_value l2 -> l1 = l2.
Proof.
  intros H1. revert l2. induction H1 as [|b1 l1 Hb1 H1 IH]; intros [|b2 l2] H2 Hl E; try done.
  inversion H2 as [|? ? Hb2 H2']; subst. injection Hl as Hl. rewrite !ip_value_cons, Hl in E.
  pose proof (ip_value_range l1 H1). pose proof (ip_value_range l2 H2'). rewrite Hl in *.
  unfold byte in *. assert (b1 = b2) as -> by nia. f_equal. apply IH; [done..|lia].
Qed.

Lemma blocked_v6_tests ip a b rest :
  Forall byte ip -> ip = a :: b :: rest -> length ip = 16%nat -> To4 ip = None ->
  isBlockedIP ip = false <->
  ip <> IPv6unspecified /\ ip <> IPv6loopback /\ ~ (252 <= a <= 253) /\
  ~ (a = 254 /\ 128 <= b <= 191) /\ a <> 255.
Proof.
  intros Hb Hip Hl E.
  assert (Ha : byte a /\ byte b) by (rewrite Hip, !Forall_cons in Hb; naive_solver). destruct Ha as [Ha Hb'].
  destruct (byte_masks a Ha) as (_ & _ & Ma & _). destruct (byte_masks b Hb') as (_ & _ & _ & Mb).
  assert (Hnil : ip <> []) by (by rewrite Hip).
  assert (H16 : is16 ip = true) by (unfold is16; by rewrite Hl).
  assert (Hz : IP_Equal ip IPv4zero = false) by (unfold IP_Equal; by rewrite E).
  assert (Hbc : IP_Equal ip IPv4bcast = false) by (unfold IP_Equal; by rewrite E).
  assert (Hu : IP_Equal ip IPv6unspecified = bool_decide (ip = IPv6unspecified))
    by (unfold IP_Equal; by rewrite E).
  assert (Hlo : IP_Equal ip IPv6loopback = bool_decide (ip = IPv6loopback))
    by (unfold IP_Equal; by rewrite E).
  assert (H0 : byte_at ip 0 = a) by (by rewrite Hip). assert (H1 : byte_at ip 1 = b) by (by rewrite Hip).
  unfold isBlockedIP, IsGlobalUnicast, IsUnspecified, IsLoopback, IsPrivate, IsLinkLocalUnicast,
    IsLinkLocalMulticast, IsMulticast, IsInterfaceLocalMulticast, is_cgnat.
  rewrite decide_False by done. rewrite E, H16, Hz, Hu, Hbc, Hlo, H0, H1, Ma, Mb.
  rewrite <- (bool_decide_eq_false (ip = IPv6unspecified)), <- (bool_decide_eq_false (ip = IPv6loopback)).
  generalize (bool_decide (ip = IPv6unspecified)) as z. generalize (bool_decide (ip = IPv6loopback)) as m.
  intros m z. rewrite !orb_true_r, !orb_false_l. cbn [andb orb].
  match goal with |- (if ?x then _ else ?w) = false <-> _ =>
    transitivity (x || w = false); [by destruct x|] end.
  rewrite !orb_false_iff, negb_false_iff, !andb_true_iff, !negb_true_iff, ?orb_false_iff,
    !andb_false_iff, !Z.eqb_neq, !Z.leb_gt.
  clear. split; intros Hx; destruct_and! Hx; split_and!; try done; try lia.
Qed.

Lemma prefix_range p r x k m :
  0 <= r < p -> k * p <= x * p + r < k * p + m * p <-> k <= x < k + m.
Proof. intros Hr. nia. Qed.

Lemma in_v6_nets a b rest :
  byte a -> byte b -> Forall byte rest -> length rest = 14%nat ->
  let n := ip_value (a :: b :: rest) in
  (in_net 128 n (v6net 0xfc00 7) <-> 252 <= a <= 253) /\
  (in_net 128 n (v6net 0xfe80 10) <-> a = 254 /\ 128 <= b <= 191) /\
  (in_net 128 n (v6net 0xff00 8) <-> a = 255).
Proof.
  intros Ha Hb Hr Hl n.
  assert (Hn : n = (a * 256 + b) * 2 ^ 112 + ip_value rest).
  { unfold n. rewrite !ip_value_cons. cbn [length]. rewrite Hl. lia. }
  pose proof (ip_value_range rest Hr) as Hrange. rewrite Hl in Hrange.
  change (256 ^ Z.of_nat 14) with (2 ^ 112) in Hrange. rewrite Hn. clear Hn n.
  unfold in_net, v6net, byte in *. cbn [fst snd].
  change (2 ^ (128 - 7)) with (0x200 * 2 ^ 112). change (2 ^ (128 - 10)) with (0x40 * 2 ^ 112).
  change (2 ^ (128 - 8)) with (0x100 * 2 ^ 112).
  rewrite !prefix_range by exact Hrange. lia.
Qed.

Lemma Forall_bytes_zero k : Forall byte (replicate k 0).
Proof. apply Forall_replicate. unfold byte. lia. Qed.

Lemma in_single ip net :
  Forall byte ip -> Forall byte net -> length ip = 16%nat -> length net = 16%nat ->
  in_net 128 (ip_value ip) (ip_value net, 128) <-> ip = net.
Proof.
  intros H1 H2 L1 L2. unfold in_net. cbn [fst snd]. split.
  - intros Hr. apply ip_value_inj; [done..|congruence|lia].
  - intros ->. lia.
Qed.

(** the dispatcher connects to an address exactly when it lies outside the
    listed networks: for an IPv4 address, plain or mapped into IPv6, the
    unspecified and broadcast addresses, loopback, the private ranges,
    carrier-grade NAT, link-local (the metadata endpoint) and multicast; for an
    IPv6 address, unspecified, loopback, unique-local, link-local and multicast.
    Anything that is not an address is refused. *)
Theorem isBlockedIP_networks ip :
  Forall byte ip ->
  isBlockedIP ip = false <->
  match To4 ip with
  | Some v4 => Forall (fun net => ~ in_net 32 (ip_value v4) net) blocked_v4
  | None => length ip = 16%nat /\ Forall (fun net => ~ in_net 128 (ip_value ip) net) blocked_v6
  end.
Proof.
  intros Hip. destruct (To4 ip) as [v4|] eqn:E.
  - apply To4_inv in E as Hv; [|done]. destruct Hv as (a & b & c & d & -> & Ha & Hb & Hc & Hd & Hor).
    rewrite (blocked_v4_tests ip a b c d Ha Hb Hc Hd E Hor). unfold blocked_v4. rewrite !Forall_cons, Forall_nil.
    rewrite in_10, in_127, in_100, in_169, in_172, in_192, in_224, in_zero, in_bcast by done. tauto.
  - destruct (decide (length ip = 16%nat)) as [Hl|Hl].
    + destruct ip as [|a [|b rest]]; [done..|]. injection Hl as Hl.
      rewrite (blocked_v6_tests _ a b rest Hip eq_refl ltac:(by cbn; rewrite Hl) E).
      pose proof Hip as Hbytes. rewrite !Forall_cons in Hbytes. destruct Hbytes as (Ha & Hb & Hr).
      destruct (in_v6_nets a b rest Ha Hb Hr Hl) as (H7 & H10 & H8).
      unfold blocked_v6. rewrite !Forall_cons, Forall_nil, H7, H10, H8.
      pose proof (in_single (a :: b :: rest) IPv6unspecified Hip (Forall_bytes_zero 16)
        ltac:(by cbn; rewrite Hl) eq_refl) as S0.
      assert (Hloop : Forall byte IPv6loopback).
      { apply Forall_app. split; [apply Forall_bytes_zero|]. repeat constructor; unfold byte; lia. }
      pose proof (in_single (a :: b :: rest) IPv6loopback Hip Hloop ltac:(by cbn; rewrite Hl) eq_refl) as S1.
      change (ip_value IPv6unspecified) with 0 in S0. change (ip_value IPv6loopback) with 1 in S1.
      rewrite S0, S1. cbn [length]. split; [|tauto]. intros Hx. split; [lia|tauto].
    + split; [|by intros []]. intros Hx. exfalso. revert Hx. unfold isBlockedIP, IsGlobalUnicast, is16.
      assert (length ip <> 4%nat) by (intros H4; revert E; unfold To4; by rewrite decide_True).
      rewrite (proj2 (Nat.eqb_neq (length ip) 4)), (proj2 (Nat.eqb_neq (length ip) 16)) by done.
      cbn [orb andb negb]. repeat case_match; done.
Qed.

(** The cloud metadata endpoint, plain and mapped, is refused; a public
    address is not, nor is the reserved 240.0.0.1. *)
Lemma isBlockedIP_networks_witness :
  isBlockedIP [169; 254; 169; 254] = true /\ isBlockedIP (IPv4 169 254 169 254) = true /\
  isBlockedIP [93; 184; 216; 34] = false /\ isBlockedIP [240; 0; 0; 1] = false.
Proof.
  split; [reflexivity|]. split; [reflexivity|].
  assert (Hb : Forall byte [93; 184; 216; 34] /\ Forall byte [240; 0; 0; 1])
    by (unfold byte; rewrite !Forall_cons, !Forall_nil; lia).
  destruct Hb as [Hb1 Hb2].
  split; [apply (isBlockedIP_networks _ Hb1)|apply (isBlockedIP_networks _ Hb2)];
    match goal with |- match To4 ?x with _ => _ end => change (To4 x) with (Some x) end; cbv iota;
    repeat (apply Forall_cons; split); try (apply Forall_nil; exact I); intros [Hlo Hhi]; vm_compute in Hlo, Hhi; congruence.
Defined.
