(* ===== verification/Keycrypt.v ===== *)
(** * Secrets at rest: [services/webhooks/internal/keycrypt/keycrypt.go]

    Envelope encryption of the signing secrets: base64 over a nonce and an
    AES-256-GCM ciphertext bound to the row. The identity service carries a copy
    for its private keys. The AEAD is a class operation; base64 is written out. *)

From Stdlib Require Import Ascii String ZArith Lia.
From S2P Require Import Prelude Strconv LedgerDomain Signature.
Local Open Scope Z_scope.

(** ** [base64.StdEncoding] *)

Definition b64_char (n : Z) : ascii :=
  ascii_of_nat (Z.to_nat (if n <? 26 then 65 + n else if n <? 52 then 71 + n
                          else if n <? 62 then n - 4 else if n =? 62 then 43 else 47)).

Definition b64_value (c : ascii) : option Z :=
  let v := byte_val c in
  if (65 <=? v) && (v <=? 90) then Some (v - 65)
  else if (97 <=? v) && (v <=? 122) then Some (v - 71)
  else if (48 <=? v) && (v <=? 57) then Some (v + 4)
  else if v =? 43 then Some 62 else if v =? 47 then Some 63 else None.

Definition char_of (n : Z) : ascii := ascii_of_nat (Z.to_nat n).

Fixpoint b64_encode (s : bytes) : bytes :=
  match s with
  | [] => []
  | [a] =>
      let n := byte_val a * 65536 in [b64_char (n / 262144); b64_char (n / 4096 mod 64); "="; "="]%char
  | [a; b] =>
      let n := byte_val a * 65536 + byte_val b * 256 in
      [b64_char (n / 262144); b64_char (n / 4096 mod 64); b64_char (n / 64 mod 64); "="]%char
  | a :: b :: c :: rest =>
      let n := byte_val a * 65536 + byte_val b * 256 + byte_val c in
      b64_char (n / 262144) :: b64_char (n / 4096 mod 64) :: b64_char (n / 64 mod 64)
      :: b64_char (n mod 64) :: b64_encode rest
  end.

(** One quantum of four characters, without padding. *)
Definition b64_quantum (a b c d : ascii) : option bytes :=
  w ← b64_value a; x ← b64_value b; y ← b64_value c; z ← b64_value d;
  let n := w * 262144 + x * 4096 + y * 64 + z in
  Some [char_of (n / 65536); char_of (n / 256 mod 256); char_of (n mod 256)].

Fixpoint b64_quanta (s : bytes) : option bytes :=
  match s with
  | [] => Some []
  | a :: b :: c :: d :: rest =>
      if decide (rest = [] /\ d = "="%char) then
        if decide (c = "="%char)
        then w ← b64_value a; x ← b64_value b; Some [char_of ((w * 64 + x) / 16)]
        else w ← b64_value a; x ← b64_value b; y ← b64_value c;
             let n := w * 4096 + x * 64 + y in Some [char_of (n / 1024); char_of (n / 4 mod 256)]
      else q ← b64_quantum a b c d; tail ← b64_quanta rest; Some (q ++ tail)
  | _ => None
  end.

(** The decoder skips line breaks. *)
Definition b64_decode (s : bytes) : option bytes :=
  b64_quanta (filter (fun c => c <> "010"%char /\ c <> "013"%char) s).

(** ** The cipher *)

(** [cipher.NewGCM(aes.NewCipher(key))]. *)
Class Aead : Type := {
  NonceSize : nat;
  Seal : bytes -> bytes -> bytes -> bytes -> bytes;           (* key nonce plaintext aad *)
  Open : bytes -> bytes -> bytes -> bytes -> option bytes     (* key nonce ciphertext aad *)
}.

Inductive crypt_error : Type :=
| ErrBadHexKey | ErrKeySize | ErrNoCipher | ErrNonce | ErrNoMasterKey | ErrBase64 | ErrTooShort | ErrOpen
| ErrNotEncrypted.

Section Keycrypt.
Context `{Aead}.

Definition prefix : bytes := list_ascii_of_string "enc:v1:".

(** [New]: a cipher is its raw key. *)
Definition New (hexKey : bytes) : result crypt_error bytes :=
  match hex_DecodeString (TrimSpaceBytes hexKey) with
  | None => Err ErrBadHexKey
  | Some raw => if (length raw =? 32)%nat then Ok raw else Err ErrKeySize
  end.

Definition HasPrefix (s p : bytes) : bool := bool_decide (take (length p) s = p).
Definition IsEncrypted (stored : bytes) : bool := HasPrefix stored prefix.

(** [Encrypt]; the nonce is what [rand.Read] returns, absent when it fails. *)
Definition Encrypt (c : option bytes) (nonce : option bytes) (plaintext aad : bytes)
  : result crypt_error bytes :=
  match c with
  | None => Err ErrNoCipher
  | Some key =>
      match nonce with
      | None => Err ErrNonce
      | Some nonce => Ok (prefix ++ b64_encode (nonce ++ Seal key nonce plaintext aad))
      end
  end.

(** The part of [Decrypt] after the prefix test. *)
Definition open_blob (c : option bytes) (stored aad : bytes) : result crypt_error bytes :=
  match c with
  | None => Err ErrNoMasterKey
  | Some key =>
      match b64_decode (drop (length prefix) stored) with
      | None => Err ErrBase64
      | Some raw =>
          if (length raw <? NonceSize)%nat then Err ErrTooShort
          else match Open key (take NonceSize raw) (drop NonceSize raw) aad with
               | None => Err ErrOpen
               | Some plain => Ok plain
               end
      end
  end.

(** [Decrypt] of the webhooks service returns other values verbatim; the one of
    the identity service refuses them. *)
Definition Decrypt (c : option bytes) (stored aad : bytes) : result crypt_error bytes :=
  if negb (IsEncrypted stored) then Ok stored else open_blob c stored aad.

Definition identity_Decrypt (c : option bytes) (stored kid : bytes) : result crypt_error bytes :=
  if negb (IsEncrypted stored) then Err ErrNotEncrypted else open_blob c stored kid.

(** ** Base64 round trip *)

Lemma b64_value_char n : 0 <= n < 64 -> b64_value (b64_char n) = Some n.
Proof.
  intros Hn. assert (n ∈ seqZ 0 64) as Hin by (apply elem_of_seqZ; lia).
  revert Hin. clear Hn. revert n. apply Forall_forall. by repeat constructor.
Qed.

Lemma b64_char_plain n : 0 <= n < 64 ->
  b64_char n <> "="%char /\ b64_char n <> "010"%char /\ b64_char n <> "013"%char.
Proof.
  intros Hn%b64_value_char. split_and!; intros E; rewrite E in Hn; by vm_compute in Hn.
Qed.

Lemma char_of_byte c : char_of (byte_val c) = c.
Proof. apply byte_of_val. Qed.

(** Cutting 24 bits into four groups of six and back. *)
Lemma sextets n :
  0 <= n < 16777216 ->
  (0 <= n / 262144 < 64) /\ (0 <= n / 4096 mod 64 < 64) /\ (0 <= n / 64 mod 64 < 64) /\ (0 <= n mod 64 < 64) /\
  n / 262144 * 262144 + n / 4096 mod 64 * 4096 + n / 64 mod 64 * 64 + n mod 64 = n.
Proof. intros Hn. Z.div_mod_to_equations. lia. Qed.

Lemma octets x y z :
  0 <= x < 256 -> 0 <= y < 256 -> 0 <= z < 256 ->
  let n := x * 65536 + y * 256 + z in
  0 <= n < 16777216 /\ n / 65536 = x /\ n / 256 mod 256 = y /\ n mod 256 = z.
Proof. intros Hx Hy Hz n. subst n. Z.div_mod_to_equations. lia. Qed.

Lemma b64_quantum_ok a b c :
  let n := byte_val a * 65536 + byte_val b * 256 + byte_val c in
  b64_quantum (b64_char (n / 262144)) (b64_char (n / 4096 mod 64)) (b64_char (n / 64 mod 64))
    (b64_char (n mod 64)) = Some [a; b; c].
Proof.
  intros n. destruct (octets (byte_val a) (byte_val b) (byte_val c)) as (Hn & Hx & Hy & Hz);
    try apply byte_val_range. fold n in Hn, Hx, Hy, Hz.
  destruct (sextets n Hn) as (H1 & H2 & H3 & H4 & Hs).
  unfold b64_quantum. rewrite !b64_value_char by done. cbn [mbind option_bind]. cbv zeta.
  rewrite Hs, Hx, Hy, Hz. by rewrite !char_of_byte.
Qed.

Lemma b64_pad1 a :
  let n := byte_val a * 65536 in
  b64_quanta [b64_char (n / 262144); b64_char (n / 4096 mod 64); "="; "="]%char = Some [a].
Proof.
  intros n. pose proof (byte_val_range a) as Ha. cbn [b64_quanta].
  rewrite decide_True by done. rewrite decide_True by done.
  rewrite (b64_value_char (n / 262144)), (b64_value_char (n / 4096 mod 64))
    by (subst n; Z.div_mod_to_equations; lia).
  cbn [mbind option_bind]. do 2 f_equal. rewrite <- (char_of_byte a) at 1. f_equal.
  subst n. Z.div_mod_to_equations. lia.
Qed.

Lemma b64_pad2 a b :
  let n := byte_val a * 65536 + byte_val b * 256 in
  b64_quanta [b64_char (n / 262144); b64_char (n / 4096 mod 64); b64_char (n / 64 mod 64); "="]%char
  = Some [a; b].
Proof.
  intros n. pose proof (byte_val_range a) as Ha. pose proof (byte_val_range b) as Hb.
  assert (Hn : 0 <= n < 16777216) by (subst n; lia). destruct (sextets n Hn) as (H1 & H2 & H3 & _).
  cbn [b64_quanta]. rewrite decide_True by done. rewrite decide_False by (by apply b64_char_plain).
  rewrite !b64_value_char by done. cbn [mbind option_bind]. cbv zeta.
  assert (E1 : (n / 262144 * 4096 + n / 4096 mod 64 * 64 + n / 64 mod 64) / 1024 = byte_val a)
    by (subst n; Z.div_mod_to_equations; lia).
  assert (E2 : (n / 262144 * 4096 + n / 4096 mod 64 * 64 + n / 64 mod 64) / 4 mod 256 = byte_val b)
    by (subst n; Z.div_mod_to_equations; lia).
  rewrite E1, E2. by rewrite !char_of_byte.
Qed.

Lemma b64_quanta_encode : forall s, b64_quanta (b64_encode s) = Some s.
Proof.
  fix IH 1. intros [|a [|b [|c rest]]]; [done|apply b64_pad1|apply b64_pad2|].
  cbn [b64_encode b64_quanta]. rewrite decide_False.
  - rewrite b64_quantum_ok. cbn [mbind option_bind]. by rewrite IH.
  - intros [_ Hd]. revert Hd. apply b64_char_plain, Z.mod_pos_bound. lia.
Qed.

Lemma b64_encode_plain : forall s, Forall (fun c => c <> "010"%char /\ c <> "013"%char) (b64_encode s).
Proof.
  assert (Hp : forall n, 0 <= n < 64 -> b64_char n <> "010"%char /\ b64_char n <> "013"%char)
    by (intros n Hn; by apply b64_char_plain).
  fix IH 1. intros [|a [|b [|c rest]]].
  - constructor.
  - pose proof (byte_val_range a) as Ha. cbn [b64_encode].
    repeat (apply Forall_cons_2; [first [by split|apply Hp; Z.div_mod_to_equations; lia]|]). apply Forall_nil_2.
  - pose proof (byte_val_range a) as Ha. pose proof (byte_val_range b) as Hb. cbn [b64_encode].
    repeat (apply Forall_cons_2; [first [by split|apply Hp; Z.div_mod_to_equations; lia]|]). apply Forall_nil_2.
  - pose proof (byte_val_range a) as Ha. pose proof (byte_val_range b) as Hb. pose proof (byte_val_range c) as Hc.
    cbn [b64_encode]. repeat (apply Forall_cons_2; [apply Hp; Z.div_mod_to_equations; lia|]). apply IH.
Qed.

Lemma b64_roundtrip s : b64_decode (b64_encode s) = Some s.
Proof.
  unfold b64_decode. rewrite list_filter_id; [apply b64_quanta_encode|].
  intros c Hc. pose proof (b64_encode_plain s) as Hall. by eapply Forall_forall in Hall.
Qed.

(** ** Sealed secrets *)

Lemma Encrypt_blob key nonce plaintext aad :
  length nonce = NonceSize ->
  exists blob, Encrypt (Some key) (Some nonce) plaintext aad = Ok blob /\ IsEncrypted blob = true /\
    forall aad', open_blob (Some key) blob aad'
      = match Open key nonce (Seal key nonce plaintext aad) aad' with
        | None => Err ErrOpen | Some plain => Ok plain end.
Proof.
  intros Hl. exists (prefix ++ b64_encode (nonce ++ Seal key nonce plaintext aad)). split_and!; [done| |].
  - unfold IsEncrypted, HasPrefix. apply bool_decide_eq_true. by rewrite take_app_length.
  - intros aad'. unfold open_blob. rewrite drop_app_length, b64_roundtrip.
    rewrite length_app, Hl, (proj2 (Nat.ltb_ge _ _)) by lia.
    by rewrite <- Hl, take_app_length, drop_app_length.
Qed.

(** a sealed secret opens only as what was sealed. Encrypting under a
    master key yields a blob both services recognize; decrypting it with the
    same key and row id gives the plaintext back; with another row id it fails,
    when the AEAD authenticates its associated data; without a key it is
    refused; and what is not a blob is passed through by webhooks and refused
    by identity. *)
Theorem Encrypt_Decrypt key nonce plaintext aad :
  length nonce = NonceSize ->
  Open key nonce (Seal key nonce plaintext aad) aad = Some plaintext ->
  (forall aad', aad' <> aad -> Open key nonce (Seal key nonce plaintext aad) aad' = None) ->
  exists blob, Encrypt (Some key) (Some nonce) plaintext aad = Ok blob /\ IsEncrypted blob = true /\
    Decrypt (Some key) blob aad = Ok plaintext /\ identity_Decrypt (Some key) blob aad = Ok plaintext /\
    (forall aad', aad' <> aad -> Decrypt (Some key) blob aad' = Err ErrOpen) /\
    Decrypt None blob aad = Err ErrNoMasterKey /\
    (forall c stored, IsEncrypted stored = false ->
       Decrypt c stored aad = Ok stored /\ identity_Decrypt c stored aad = Err ErrNotEncrypted).
Proof.
  intros Hl Hopen Hauth. destruct (Encrypt_blob key nonce plaintext aad Hl) as (blob & Henc & His & Hob).
  exists blob. unfold Decrypt, identity_Decrypt. rewrite His. cbn [negb]. split_and!; try done.
  - by rewrite Hob, Hopen.
  - by rewrite Hob, Hopen.
  - intros aad' Hne. by rewrite Hob, Hauth.
  - intros c stored Hs. by rewrite Hs.
Qed.
End Keycrypt.

(** ** A concrete AEAD *)

(** The associated data interleaved with ones, a zero, the plaintext. *)
Definition demo_seal (aad plaintext : bytes) : bytes :=
  flat_map (fun c => ["1"%char; c]) aad ++ "0"%char :: plaintext.

Fixpoint demo_open (ciphertext aad : bytes) {struct aad} : option bytes :=
  match aad, ciphertext with
  | [], z :: rest => if decide (z = "0"%char) then Some rest else None
  | c :: aad', o :: c' :: rest =>
      if decide (o = "1"%char /\ c = c') then demo_open rest aad' else None
  | _, _ => None
  end.

Definition demo_aead : Aead :=
  {| NonceSize := 2; Seal := fun _ _ p a => demo_seal a p; Open := fun _ _ ct a => demo_open ct a |}.

Lemma demo_open_seal a p : demo_open (demo_seal a p) a = Some p.
Proof. induction a as [|c a IH]; [done|]. cbn. rewrite decide_True by done. exact IH. Qed.

Lemma demo_open_other a a' p : a' <> a -> demo_open (demo_seal a p) a' = None.
Proof.
  revert a'. induction a as [|c a IH]; intros [|c' a'] Hne; try done; cbn.
  - by destruct p.
  - case_decide as Hd; [|done]. destruct Hd as [_ ->]. apply IH. congruence.
Qed.

Lemma Encrypt_Decrypt_witness :
  let key := replicate 32 "k"%char in
  let nonce := ["n"; "o"]%char in
  let secret := list_ascii_of_string "lcwh_secret" in
  exists blob, Encrypt (H := demo_aead) (Some key) (Some nonce) secret ["7"%char] = Ok blob /\
    Decrypt (H := demo_aead) (Some key) blob ["7"%char] = Ok secret /\
    Decrypt (H := demo_aead) (Some key) blob ["8"%char] = Err ErrOpen.
Proof.
  intros key nonce secret.
  destruct (Encrypt_Decrypt (H := demo_aead) key nonce secret ["7"%char] eq_refl
    (demo_open_seal ["7"%char] secret) (fun a' => demo_open_other ["7"%char] a' secret))
    as (blob & He & _ & Hd & _ & Ho & _).
  exists blob. split; [exact He|]. split; [exact Hd|]. apply Ho. discriminate.
Defined.
