(* ===== verification/Webhooks.v ===== *)
(** * Webhooks domain: [services/webhooks/internal/domain/domain.go]

    Event-type matching, endpoint validation, secrets, the retry policy and the
    entities. [url.Parse] is a class operation; secrets and payloads are byte
    lists, and durations count microseconds like the instants. *)

From Stdlib Require Import Ascii String ZArith Lia.
From S2P Require Import Prelude Strconv Errors LedgerDomain LedgerEvents Signature.
Local Open Scope Z_scope.

(** ** Event types *)

Definition Wildcard : string := "*".

Definition KnownEventTypes : list string :=
  ["ledger.transaction.posted"; "ledger.transaction.reversed"; "ledger.hold.created";
   "ledger.hold.captured"; "ledger.hold.released"; "recon.discrepancy.detected"]%string.

Definition Matches (eventTypes : list string) (eventType : string) : bool :=
  existsb (fun t => bool_decide (t = Wildcard \/ t = eventType)) eventTypes.

(** The first entry that is neither the wildcard nor a known type. *)
Definition unknown_type (eventTypes : list string) : option string :=
  head (filter (fun t => t <> Wildcard /\ t ∉ KnownEventTypes) eventTypes).

Definition ValidateEventTypes (eventTypes : list string) : result error unit :=
  match eventTypes with
  | [] => Err ErrValidation
  | _ :: _ => match unknown_type eventTypes with Some _ => Err ErrValidation | None => Ok tt end
  end.

(** The loop of [NormalizeEventTypes], with the set of types already seen. *)
Fixpoint normalize_from (seen : gset string) (eventTypes : list string) : list string :=
  match eventTypes with
  | [] => []
  | t :: rest =>
      if decide (t ∈ seen) then normalize_from seen rest
      else t :: normalize_from ({[t]} ∪ seen) rest
  end.

Definition NormalizeEventTypes (eventTypes : list string) : list string := normalize_from ∅ eventTypes.

(** ** Endpoints *)

(** [url.Parse]: scheme and host of a URL. *)
Class UrlParse : Type := { url_Parse : string -> option (string * string) }.

Definition ValidateEndpointURL `{UrlParse} (raw : string) (requireHTTPS : bool) : result error unit :=
  match url_Parse raw with
  | None => Err ErrValidation
  | Some (scheme, host) =>
      if decide (host = ""%string) then Err ErrValidation
      else if decide (scheme = "https"%string) then Ok tt
      else if decide (scheme = "http"%string) then
        (if requireHTTPS then Err ErrValidation else Ok tt)
      else Err ErrValidation
  end.

(** ** Secrets *)

Definition SecretPrefix : bytes := list_ascii_of_string "lcwh_".
Definition second : Z := 1000000.
Definition minute : Z := 60 * second.
Definition hour : Z := 60 * minute.
Definition RotationGrace : Z := 24 * hour.

Definition secretAlphabet : bytes :=
  list_ascii_of_string "0123456789ABCDEFGHIJKLMNOPQRSTUVWXYZabcdefghijklmnopqrstuvwxyz".
Definition secretLength : nat := 32.

(** [NewSecret]: [rand] holds what [rand.Int] returns, each below the size of
    the alphabet; drawing fails when it runs out. *)
Definition NewSecret (rand : list Z) : result error bytes :=
  if (length rand <? secretLength)%nat then Err ErrOther
  else Ok (SecretPrefix ++ map (fun n => default "0"%char (secretAlphabet !! Z.to_nat n)) (take secretLength rand)).

(** ** Retry policy *)

Definition MaxAttempts : Z := 5.

Definition backoffSchedule : list Z := [1 * minute; 5 * minute; 30 * minute; 2 * hour; 12 * hour].

Definition Backoff (attempts : Z) : Z :=
  let attempts := if attempts <? 1 then 1 else attempts in
  let attempts := if Z.of_nat (length backoffSchedule) <? attempts
                  then Z.of_nat (length backoffSchedule) else attempts in
  default 0 (backoffSchedule !! Z.to_nat (attempts - 1)).

Definition IsDead (attempts : Z) : bool := MaxAttempts <=? attempts.

(** ** Entities *)

Inductive DeliveryStatus : Type := StatusPending | StatusDelivered | StatusFailed | StatusDead.
#[export] Instance DeliveryStatus_eq_dec : EqDecision DeliveryStatus.
Proof. solve_decision. Defined.

Definition ValidStatus (s : string) : option DeliveryStatus :=
  if decide (s = "pending"%string) then Some StatusPending
  else if decide (s = "delivered"%string) then Some StatusDelivered
  else if decide (s = "failed"%string) then Some StatusFailed
  else if decide (s = "dead"%string) then Some StatusDead
  else None.

Record Subscription : Type := mkSubscription {
  sub_ID : uuid; sub_TenantID : uuid; sub_URL : string; sub_Secret : bytes;
  sub_EventTypes : list string; sub_Active : bool; sub_CreatedAt : time;
  sub_PreviousSecret : option bytes; sub_PreviousSecretExpiresAt : option time }.

Record Delivery : Type := mkDelivery {
  dl_ID : uuid; dl_TenantID : uuid; dl_SubscriptionID : uuid; dl_EventID : uuid;
  dl_EventType : string; dl_Payload : bytes; dl_Status : DeliveryStatus; dl_Attempts : Z;
  dl_NextAttemptAt : time; dl_LastStatusCode : option Z; dl_LastError : option string;
  dl_CreatedAt : time; dl_DeliveredAt : option time }.

Record ClaimedDelivery : Type := mkClaimed {
  c_DeliveryID : uuid; c_TenantID : uuid; c_SubscriptionID : uuid; c_EventID : uuid;
  c_EventType : string; c_Payload : bytes; c_Attempts : Z; c_URL : string; c_Secret : bytes;
  c_PreviousSecret : option bytes; c_PreviousSecretExpiresAt : option time }.

Definition signingSecrets (secret : bytes) (prev : option bytes) (prevExpires : option time) (now : time)
  : list bytes :=
  secret ::
  match prev, prevExpires with
  | Some p, Some e => if bool_decide (p <> []) && (now <? e) then [p] else []
  | _, _ => []
  end.

Definition Subscription_SigningSecrets (s : Subscription) (now : time) : list bytes :=
  signingSecrets (sub_Secret s) (sub_PreviousSecret s) (sub_PreviousSecretExpiresAt s) now.

Definition SigningSecrets (c : ClaimedDelivery) (now : time) : list bytes :=
  signingSecrets (c_Secret c) (c_PreviousSecret c) (c_PreviousSecretExpiresAt c) now.

(** ** Facts *)

Lemma Matches_spec ts t : Matches ts t = true <-> Wildcard ∈ ts \/ t ∈ ts.
Proof.
  unfold Matches. rewrite existsb_exists. split.
  - intros (x & Hx%list_elem_of_In & [-> | ->]%bool_decide_eq_true); auto.
  - intros [Hx|Hx]; [exists Wildcard|exists t]; (split; [by apply list_elem_of_In|]);
      apply bool_decide_eq_true; auto.
Qed.

Lemma elem_of_normalize seen ts t : t ∈ normalize_from seen ts <-> t ∈ ts /\ t ∉ seen.
Proof.
  revert seen. induction ts as [|u ts IH]; intros seen; cbn [normalize_from]; [set_solver|].
  case_decide as D; [|rewrite elem_of_cons]; rewrite IH; destruct (decide (t = u)); set_solver.
Qed.

Lemma NoDup_normalize seen ts : NoDup (normalize_from seen ts).
Proof.
  revert seen. induction ts as [|u ts IH]; intros seen; cbn [normalize_from]; [constructor|].
  case_decide; [done|]. constructor; [|done]. rewrite elem_of_normalize. set_solver.
Qed.

Lemma ValidateEventTypes_ok ts :
  ValidateEventTypes ts = Ok tt <-> ts <> [] /\ forall t, t ∈ ts -> t = Wildcard \/ t ∈ KnownEventTypes.
Proof.
  unfold ValidateEventTypes, unknown_type. destruct ts as [|t0 ts']; [naive_solver|]. set (ts := t0 :: ts').
  destruct (filter _ ts) as [|u us] eqn:E; cbn [head].
  - split; [|done]. intros _. split; [done|]. intros t Ht.
    destruct (decide (t = Wildcard)); [auto|]. destruct (decide (t ∈ KnownEventTypes)); [auto|].
    assert (Hin : t ∈ filter (fun t => t <> Wildcard /\ t ∉ KnownEventTypes) ts)
      by (by apply list_elem_of_filter). rewrite E in Hin. set_solver.
  - split; [done|]. intros [_ Hall].
    assert (Hin : u ∈ filter (fun t => t <> Wildcard /\ t ∉ KnownEventTypes) ts) by (rewrite E; set_solver).
    apply list_elem_of_filter in Hin as [[Hw Hk] Hin]. by destruct (Hall u Hin).
Qed.
