(* ===== verification/WebhooksStore.v ===== *)
(** * Webhooks store: [services/webhooks/internal/adapters/postgres/repo.go]

    The [webhooks] schema and the statements of the repository; row-level
    security limits a tenant transaction to its rows, and the dispatcher's claim
    is the SECURITY DEFINER function of migration 0004. Secrets are sealed with
    the row id. Nonces, random draws and the JSONB input function are arguments. *)

From Stdlib Require Import Ascii String ZArith Lia.
From S2P Require Import Prelude Strconv Errors LedgerDomain LedgerEvents Httpx TxMonad Signature Keycrypt Webhooks.
Local Open Scope Z_scope.

(** The stored form of a JSON text in a JSONB column; absent when it is not
    JSON. *)
Class Jsonb : Type := { jsonb_in : bytes -> option bytes }.

Record WebhookDB : Type := mkWebhookDB {
  subscriptions : gmap uuid Subscription; deliveries : gmap uuid Delivery }.

Definition empty_webhooks : WebhookDB := mkWebhookDB ∅ ∅.
Definition set_subscriptions x (db : WebhookDB) := mkWebhookDB x (deliveries db).
Definition set_deliveries x (db : WebhookDB) := mkWebhookDB (subscriptions db) x.

Definition WTx := Use WebhookDB.

Definition rows_of {V} (m : gmap uuid V) : list V := map snd (map_to_list m).

Section Repo.
Context `{Supply, Render, Aead, Jsonb}.
(** The repository's cipher: absent in development. *)
Variable cipher : option bytes.

Definition aad (id : uuid) : bytes := list_ascii_of_string (uuid_String id).

Definition encryptSecret (nonce : option bytes) (plaintext : bytes) (subID : uuid) : result crypt_error bytes :=
  if decide (cipher = None \/ plaintext = []) then Ok plaintext else Encrypt cipher nonce plaintext (aad subID).

Definition decryptSecret (stored : bytes) (subID : uuid) : result crypt_error bytes :=
  if decide (stored = []) then Ok []
  else if negb (IsEncrypted stored) then Ok stored
  else Decrypt cipher stored (aad subID).

Definition decrypt_previous (stored : option bytes) (subID : uuid) : result crypt_error (option bytes) :=
  match stored with None => Ok None | Some s => p ← decryptSecret s subID; Ok (Some p) end.

Definition with_secrets (s : Subscription) (secret : bytes) (prev : option bytes) : Subscription :=
  mkSubscription (sub_ID s) (sub_TenantID s) (sub_URL s) secret (sub_EventTypes s) (sub_Active s)
    (sub_CreatedAt s) prev (sub_PreviousSecretExpiresAt s).

(** [scanSubscription] on a row. *)
Definition scanSubscription (s : Subscription) : result error Subscription :=
  map_err (fun _ => ErrOther) (
    secret ← decryptSecret (sub_Secret s) (sub_ID s);
    prev ← decrypt_previous (sub_PreviousSecret s) (sub_ID s);
    Ok (with_secrets s secret prev)).

Definition lift {A} (r : result error A) : WTx A :=
  match r with Ok a => mret a | Err e => fail e end.

Definition lift_crypt {A} (r : result crypt_error A) : WTx A := lift (map_err (fun _ => ErrOther) r).

(** ** Subscriptions *)

Definition owned (tenant t : uuid) : WTx unit := require (bool_decide (t = tenant)) (ErrPg InsufficientPrivilege).

Definition find_subscription (tenant id : uuid) (db : WebhookDB) : option Subscription :=
  s ← subscriptions db !! id; if decide (sub_TenantID s = tenant) then Some s else None.

Definition find_delivery (tenant id : uuid) (db : WebhookDB) : option Delivery :=
  d ← deliveries db !! id; if decide (dl_TenantID d = tenant) then Some d else None.

Definition Create (nonce : option bytes) (sub : Subscription) : WTx unit :=
  secret ← lift_crypt (encryptSecret nonce (sub_Secret sub) (sub_ID sub));
  within (sub_TenantID sub) (
    db ← read;
    _ ← require (bool_decide (subscriptions db !! sub_ID sub = None)) (ErrPg (UniqueViolation "subscriptions_pkey"));
    write (fun db => set_subscriptions (<[sub_ID sub :=
      mkSubscription (sub_ID sub) (sub_TenantID sub) (sub_URL sub) secret (sub_EventTypes sub)
        (sub_Active sub) (sub_CreatedAt sub) None None]> (subscriptions db)) db)).

Definition subscription_key (s : Subscription) : Cursor := mkCursor (sub_CreatedAt s) (sub_ID s).

Definition querySubscriptions (tenant : uuid) (q : list Subscription -> list Subscription) : WTx (list Subscription) :=
  within tenant (
    db ← read;
    collect_each (q (filter (fun s => sub_TenantID s = tenant) (rows_of (subscriptions db))))
      (fun s => lift (scanSubscription s))).

Definition List_ (tenant : uuid) (limit : Z) (cursor : Cursor) : WTx (list Subscription) :=
  querySubscriptions tenant (list_page descending subscription_key cursor (Z.to_nat limit)).

Definition ListActive (tenant : uuid) : WTx (list Subscription) :=
  querySubscriptions tenant (fun rows =>
    order_rows ascending subscription_key (filter (fun s => sub_Active s = true) rows)).

Definition Get (tenant id : uuid) : WTx Subscription :=
  within tenant (
    db ← read;
    match find_subscription tenant id db with
    | None => fail ErrNotFound
    | Some s => lift (scanSubscription s)
    end).

Definition patch_row (url : option string) (eventTypes : option (list string)) (active : option bool)
  (s : Subscription) : Subscription :=
  mkSubscription (sub_ID s) (sub_TenantID s) (default (sub_URL s) url) (sub_Secret s)
    (default (sub_EventTypes s) eventTypes) (default (sub_Active s) active) (sub_CreatedAt s)
    (sub_PreviousSecret s) (sub_PreviousSecretExpiresAt s).

(** A nil slice leaves the column alone; with no column to set the row is only
    read. *)
Definition Update (tenant id : uuid) (url : option string) (eventTypes : option (list string))
  (active : option bool) : WTx Subscription :=
  within tenant (
    db ← read;
    match find_subscription tenant id db with
    | None => fail ErrNotFound
    | Some s =>
        let s' := patch_row url eventTypes active s in
        _ ← write (fun db => set_subscriptions (<[id := s']> (subscriptions db)) db);
        lift (scanSubscription s')
    end).

Definition rotate_row (secret : bytes) (prevExpiresAt : time) (s : Subscription) : Subscription :=
  mkSubscription (sub_ID s) (sub_TenantID s) (sub_URL s) secret (sub_EventTypes s) (sub_Active s)
    (sub_CreatedAt s) (Some (sub_Secret s)) (Some prevExpiresAt).

Definition RotateSecret_ (nonce : option bytes) (tenant id : uuid) (secret : bytes) (prevExpiresAt : time) : WTx unit :=
  enc ← lift_crypt (encryptSecret nonce secret id);
  within tenant (
    db ← read;
    match find_subscription tenant id db with
    | None => fail ErrNotFound
    | Some s => write (fun db => set_subscriptions (<[id := rotate_row enc prevExpiresAt s]> (subscriptions db)) db)
    end).

(** The function [purge_expired_previous_secrets()]. *)
Definition purge_row (now : time) (s : Subscription) : Subscription :=
  match sub_PreviousSecret s, sub_PreviousSecretExpiresAt s with
  | Some _, Some e =>
      if e <=? now
      then mkSubscription (sub_ID s) (sub_TenantID s) (sub_URL s) (sub_Secret s) (sub_EventTypes s)
             (sub_Active s) (sub_CreatedAt s) None None
      else s
  | _, _ => s
  end.

Definition PurgeExpiredPreviousSecrets : WTx unit :=
  t ← now;
  write (fun db => set_subscriptions (purge_row t <$> subscriptions db) db).

(** One row of [ReencryptPlaintextSecrets]: [nonces] are the draws for the
    secret and the previous one. *)
Definition reencrypt_row (nonces : option bytes * option bytes) (s : Subscription) : result crypt_error Subscription :=
  secret ← (if IsEncrypted (sub_Secret s) then Ok (sub_Secret s)
            else Encrypt cipher nonces.1 (sub_Secret s) (aad (sub_ID s)));
  prev ← (match sub_PreviousSecret s with
          | None => Ok None
          | Some v => if IsEncrypted v then Ok (Some v)
                      else (v' ← Encrypt cipher nonces.2 v (aad (sub_ID s)); Ok (Some v'))
          end);
  Ok (with_secrets s secret prev).

Definition has_plaintext (s : Subscription) : bool :=
  negb (IsEncrypted (sub_Secret s))
  || match sub_PreviousSecret s with Some v => negb (IsEncrypted v) | None => false end.

Definition ReencryptPlaintextSecrets (nonces : uuid -> option bytes * option bytes) : WTx unit :=
  match cipher with
  | None => mret tt
  | Some _ =>
      db ← read;
      each (filter (fun s => has_plaintext s = true) (rows_of (subscriptions db))) (fun s =>
        s' ← lift_crypt (reencrypt_row (nonces (sub_ID s)) s);
        write (fun db => set_subscriptions (<[sub_ID s := s']> (subscriptions db)) db))
  end.

(** ** Deliveries *)

(** One statement of the batch: ON CONFLICT (subscription_id, event_id) DO
    NOTHING. *)
Definition insert_pending (tenant : uuid) (d : Delivery) : WTx unit :=
  db ← read;
  payload ← (match jsonb_in (dl_Payload d) with Some p => mret p | None => fail ErrOther end);
  _ ← owned tenant (dl_TenantID d);
  if existsb (fun d' => (dl_SubscriptionID d' =? dl_SubscriptionID d) && (dl_EventID d' =? dl_EventID d))
       (rows_of (deliveries db))
  then mret tt
  else
    _ ← require (bool_decide (deliveries db !! dl_ID d = None)) (ErrPg (UniqueViolation "deliveries_pkey"));
    _ ← require (bool_decide (is_Some (subscriptions db !! dl_SubscriptionID d)))
          (ErrPg (ForeignKeyViolation "deliveries_subscription_id_fkey"));
    write (fun db => set_deliveries (<[dl_ID d :=
      mkDelivery (dl_ID d) (dl_TenantID d) (dl_SubscriptionID d) (dl_EventID d) (dl_EventType d) payload
        (dl_Status d) (dl_Attempts d) (dl_NextAttemptAt d) None None (dl_CreatedAt d) None]> (deliveries db)) db).

Definition InsertPending (tenant : uuid) (ds : list Delivery) : WTx unit :=
  within tenant (each ds (insert_pending tenant)).

Record DeliveryFilter : Type := mkDeliveryFilter {
  df_Status : option DeliveryStatus; df_SubscriptionID : option uuid; df_Cursor : Cursor; df_Limit : Z }.

Definition delivery_key (d : Delivery) : Cursor := mkCursor (dl_CreatedAt d) (dl_ID d).

Definition filter_ok {A} `{EqDecision A} (f : option A) (a : A) : bool :=
  match f with Some x => bool_decide (a = x) | None => true end.

(** The page and the cursor of its last row when there are more. *)
Definition ListDeliveries_ (tenant : uuid) (f : DeliveryFilter) : WTx (list Delivery * option Cursor) :=
  within tenant (
    db ← read;
    let page := list_page descending delivery_key (df_Cursor f) (Z.to_nat (df_Limit f + 1))
      (filter (fun d => dl_TenantID d = tenant /\ filter_ok (df_Status f) (dl_Status d) = true /\
                        filter_ok (df_SubscriptionID f) (dl_SubscriptionID d) = true)
         (rows_of (deliveries db))) in
    mret (if df_Limit f <? Z.of_nat (length page)
          then let out := take (Z.to_nat (df_Limit f)) page in (out, delivery_key <$> last out)
          else (page, None))).

Definition set_outcome (d : Delivery) (status : DeliveryStatus) (attempts : Z) (next : time)
  (code : option Z) (err : option string) (deliveredAt : option time) : Delivery :=
  mkDelivery (dl_ID d) (dl_TenantID d) (dl_SubscriptionID d) (dl_EventID d) (dl_EventType d) (dl_Payload d)
    status attempts next code err (dl_CreatedAt d) deliveredAt.

Definition requeued (now : time) (d : Delivery) : Delivery :=
  set_outcome d StatusPending 0 now (dl_LastStatusCode d) (dl_LastError d) (dl_DeliveredAt d).

Definition Requeue (tenant id : uuid) : WTx Delivery :=
  within tenant (
    db ← read;
    match find_delivery tenant id db with
    | None => fail ErrNotFound
    | Some d =>
        if decide (dl_Status d = StatusFailed \/ dl_Status d = StatusDead)
        then t ← now;
             _ ← write (fun db => set_deliveries (<[id := requeued t d]> (deliveries db)) db);
             mret (requeued t d)
        else fail ErrConflict
    end).

(** ** The dispatcher's statements *)

(** WHERE status IN ('pending', 'failed') AND next_attempt_at <= now() AND the
    subscription is active, less the rows locked by other workers. *)
Definition is_due (now : time) (locked : gset uuid) (db : WebhookDB) (d : Delivery) : bool :=
  bool_decide (dl_Status d = StatusPending \/ dl_Status d = StatusFailed)
  && (dl_NextAttemptAt d <=? now)
  && match subscriptions db !! dl_SubscriptionID d with Some s => sub_Active s | None => false end
  && bool_decide (dl_ID d ∉ locked).

Definition attempt_key (d : Delivery) : Cursor := mkCursor (dl_NextAttemptAt d) (dl_ID d).

Definition due_deliveries (limit : Z) (now : time) (locked : gset uuid) (db : WebhookDB) : list Delivery :=
  take (Z.to_nat limit) (order_rows ascending attempt_key
    (filter (fun d => is_due now locked db d = true) (rows_of (deliveries db)))).

Definition lease_row (until : time) (d : Delivery) : Delivery :=
  set_outcome d (dl_Status d) (dl_Attempts d) until (dl_LastStatusCode d) (dl_LastError d) (dl_DeliveredAt d).

Definition lease_all (until : time) (ds : list Delivery) (m : gmap uuid Delivery) : gmap uuid Delivery :=
  fold_left (fun m d => <[dl_ID d := lease_row until d]> m) ds m.

(** The returned row, its secrets opened. *)
Definition claim_row (db : WebhookDB) (d : Delivery) : WTx ClaimedDelivery :=
  match subscriptions db !! dl_SubscriptionID d with
  | None => fail ErrOther
  | Some s =>
      s ← lift (scanSubscription s);
      mret (mkClaimed (dl_ID d) (dl_TenantID d) (dl_SubscriptionID d) (dl_EventID d) (dl_EventType d)
              (dl_Payload d) (dl_Attempts d) (sub_URL s) (sub_Secret s) (sub_PreviousSecret s)
              (sub_PreviousSecretExpiresAt s))
  end.

Definition ClaimDue (locked : gset uuid) (limit lease : Z) : WTx (list ClaimedDelivery) :=
  t ← now;
  db ← read;
  let due := due_deliveries limit t locked db in
  _ ← write (fun db => set_deliveries (lease_all (t + lease) due (deliveries db)) db);
  collect_each (order_rows ascending delivery_key due) (claim_row db).

Definition update_delivery (tenant id : uuid) (f : Delivery -> Delivery) : WTx unit :=
  write (fun db => match find_delivery tenant id db with
                   | Some d => set_deliveries (<[id := f d]> (deliveries db)) db
                   | None => db
                   end).

Definition MarkDelivered (tenantID id : uuid) (statusCode : Z) : WTx unit :=
  within tenantID (
    t ← now;
    update_delivery tenantID id (fun d =>
      set_outcome d StatusDelivered (dl_Attempts d) (dl_NextAttemptAt d) (Some statusCode) None (Some t))).

Definition MarkFailed (tenantID id : uuid) (attempts : Z) (statusCode : option Z) (lastError : string)
  (nextAttemptAt : time) (dead : bool) : WTx unit :=
  within tenantID (
    update_delivery tenantID id (fun d =>
      set_outcome d (if dead then StatusDead else StatusFailed) attempts nextAttemptAt statusCode
        (Some lastError) (dl_DeliveredAt d))).
End Repo.
