(* ===== verification/WebhooksService.v ===== *)
(** * Webhooks use cases, dispatcher and consumer

    [app/service.go], [dispatcher/dispatcher.go] and [natsconsumer/consumer.go]
    of the webhooks service. What the HTTP client and the broker do is an
    argument: the outcome of a POST, the decoded envelope of a message. *)

From Stdlib Require Import Ascii String ZArith Lia.
From S2P Require Import Prelude Strconv Errors LedgerDomain LedgerEvents Httpx TxMonad Signature Keycrypt Webhooks.
From S2P Require Import WebhooksStore.
Local Open Scope Z_scope.

(** What the broker is told about a message. *)
Inductive webhook_ack : Type := AckMsg | NakMsg | TermMsg.

(** How a POST ends: a status code, or a transport error. *)
Inductive sent : Type := Responded (statusCode : Z) | TransportError (msg : string).

Section Service.
Context `{Supply, Render, Aead, Jsonb, UrlParse}.
Variable cipher : option bytes.

(** ** Use cases: [app/service.go] *)

Definition CreateSubscription (rand : list Z) (nonce : option bytes) (tenantID : uuid) (requireHTTPS : bool)
  (rawURL : string) (eventTypes : list string) : WTx Subscription :=
  _ ← lift (ValidateEndpointURL rawURL requireHTTPS);
  let eventTypes := NormalizeEventTypes eventTypes in
  _ ← lift (ValidateEventTypes eventTypes);
  secret ← lift (NewSecret rand);
  id ← newV4;
  createdAt ← now;
  let sub := mkSubscription id tenantID rawURL secret eventTypes true createdAt None None in
  _ ← Create cipher nonce sub;
  mret sub.

Record SubscriptionPatch : Type := mkSubscriptionPatch {
  pt_URL : option string; pt_EventTypes : option (list string); pt_Active : option bool }.

Definition UpdateSubscription (tenantID : uuid) (requireHTTPS : bool) (id : uuid) (patch : SubscriptionPatch)
  : WTx Subscription :=
  _ ← (match pt_URL patch with
       | Some u => lift (ValidateEndpointURL u requireHTTPS) | None => mret tt end);
  let types := NormalizeEventTypes <$> pt_EventTypes patch in
  _ ← (match types with Some ts => lift (ValidateEventTypes ts) | None => mret tt end);
  Update cipher tenantID id (pt_URL patch) types (pt_Active patch).

Definition RotateSecret (rand : list Z) (nonce : option bytes) (tenantID id : uuid) : WTx (bytes * time) :=
  secret ← lift (NewSecret rand);
  t ← now;
  let prevExpires := t + RotationGrace in
  _ ← RotateSecret_ cipher nonce tenantID id secret prevExpires;
  mret (secret, prevExpires).

(** The status filter of [ListDeliveries] is a text: empty for none. *)
Definition ListDeliveries (tenantID : uuid) (status : string) (subscriptionID : option uuid) (cursor : Cursor)
  (limit : Z) : WTx (list Delivery * option Cursor) :=
  _ ← require (bool_decide (status = ""%string \/ is_Some (ValidStatus status))) ErrValidation;
  let limit := if limit <=? 0 then 50 else limit in
  let limit := if 200 <? limit then 200 else limit in
  ListDeliveries_ tenantID (mkDeliveryFilter (ValidStatus status) subscriptionID cursor limit).

(** The pending delivery of an event to a subscription. *)
Definition new_delivery (env_id : uuid) (eventType : string) (payload : bytes) (tenantID id : uuid) (now : time)
  (sub : Subscription) : Delivery :=
  mkDelivery id tenantID (sub_ID sub) env_id eventType payload StatusPending 0 now None None now None.

(** [EnqueueEnvelope] of an envelope received as the bytes [raw]. *)
Definition EnqueueEnvelope {D} (env : Envelope D) (raw : bytes) : WTx unit :=
  _ ← require (negb ((env_ID env =? uuid_Nil) || (env_TenantID env =? uuid_Nil)
                     || bool_decide (env_Type env = ""%string))) ErrValidation;
  subs ← ListActive cipher (env_TenantID env);
  t ← now;
  ds ← collect_each (filter (fun s => Matches (sub_EventTypes s) (env_Type env) = true) subs) (fun sub =>
         id ← newV4;
         mret (new_delivery (env_ID env) (env_Type env) raw (env_TenantID env) id t sub));
  match ds with [] => mret tt | _ :: _ => InsertPending (env_TenantID env) ds end.

(** ** The consumer: [natsconsumer/consumer.go] *)

(** [handle] of a message: its bytes and the envelope they decode to. *)
Definition handle {D} (raw : bytes) (msg : option (Envelope D)) (st : UseState WebhookDB)
  : webhook_ack * WebhookDB :=
  match msg with
  | None => (TermMsg, u_db st)
  | Some env =>
      if (env_ID env =? uuid_Nil) || (env_TenantID env =? uuid_Nil) || bool_decide (env_Type env = ""%string)
      then (TermMsg, u_db st)
      else match EnqueueEnvelope env raw st with
           | Ok (_, st') => (AckMsg, u_db st')
           | Err _ => (NakMsg, u_db st)
           end
  end.

(** ** The dispatcher: [dispatcher/dispatcher.go] *)

Definition DefaultBatchSize : Z := 50.
Definition DefaultLease : Z := 2 * minute.
Definition maxErrorLen : nat := 500.

Definition truncate (s : string) (n : nat) : string :=
  if (String.length s <=? n)%nat then s else substring 0 n s.

(** The header of one attempt: the claim's secrets at [now], and the Unix time
    of the attempt. *)
Definition signature_header `{Hmac} (c : ClaimedDelivery) (ts now : time) : bytes :=
  HeaderMulti (SigningSecrets c now) (ts / second) (c_Payload c).

(** [process]: what is recorded about an attempt. *)
Definition process (c : ClaimedDelivery) (outcome : sent) : WTx unit :=
  match outcome with
  | Responded code =>
      if (200 <=? code) && (code <? 300) then MarkDelivered (c_TenantID c) (c_DeliveryID c) code
      else
        let attempts := c_Attempts c + 1 in
        t ← now;
        MarkFailed (c_TenantID c) (c_DeliveryID c) attempts (Some code)
          ("endpoint returned status " +:+ FormatInt code)
          (if IsDead attempts then t else t + Backoff attempts) (IsDead attempts)
  | TransportError msg =>
      let attempts := c_Attempts c + 1 in
      t ← now;
      MarkFailed (c_TenantID c) (c_DeliveryID c) attempts None (truncate msg maxErrorLen)
        (if IsDead attempts then t else t + Backoff attempts) (IsDead attempts)
  end.

(** A failed write is only logged. *)
Definition process_logged (c : ClaimedDelivery) (outcome : sent) (st : UseState WebhookDB) : UseState WebhookDB :=
  match process c outcome st with Ok (_, st') => st' | Err _ => st end.

(** [tick]: claims and delivers batch after batch until one is not full.
    [deliver] is how the endpoints answer; each goroutine of a batch writes its
    own row. *)
Fixpoint tick (fuel : nat) (locked : gset uuid) (deliver : ClaimedDelivery -> sent) (st : UseState WebhookDB)
  : option (UseState WebhookDB) :=
  match fuel with
  | O => None
  | S fuel =>
      match ClaimDue cipher locked DefaultBatchSize DefaultLease st with
      | Err _ => Some st
      | Ok ([], st1) => Some st1
      | Ok (claimed, st1) =>
          let st2 := fold_left (fun s c => process_logged c (deliver c) s) claimed st1 in
          if Z.of_nat (length claimed) <? DefaultBatchSize then Some st2 else tick fuel locked deliver st2
      end
  end.
End Service.
