(* ===== verification/WebhooksSend.v ===== *)
(** * One attempt on the wire: [Send] of [dispatcher.go], [newSafeClient] of [ssrf.go]

    The POST of a claimed delivery through [net/http]'s client: every connection
    passes the guard, redirects are followed as the client follows them and
    capped. Name resolution, connections and what peers answer are a class. *)

From Stdlib Require Import Ascii String ZArith Lia.
From S2P Require Import Prelude Strconv Errors LedgerDomain LedgerEvents Httpx TxMonad Signature Ssrf Keycrypt.
From S2P Require Import Webhooks WebhooksStore WebhooksService.
Local Open Scope Z_scope.

Definition maxRedirects : nat := 3.

(** A request as a peer gets it. *)
Record WireRequest : Type := mkWire {
  wr_Method : string; wr_URL : string; wr_EventId : uuid; wr_EventType : string; wr_Signature : bytes;
  wr_Body : option bytes }.

(** The network and package [net]. [url_Host] is the host of a URL the client
    can request; [url_Ref] resolves a Location against the URL it came from;
    [Lookup] gives the addresses the dialer tries for a host, which may differ
    from one request to the next; [Connects] says whether TCP and TLS succeed;
    [Answers] is the status and Location a peer gives to the [n]-th request, or
    nothing in time; [error_text] is the client's error about a request. *)
Class Network : Type := {
  SplitHostPort : string -> option (string * string);
  ParseIP : string -> option IP;
  url_Host : string -> option string;
  url_Ref : string -> string -> option string;
  Lookup : nat -> string -> list string;
  Connects : string -> bool;
  Answers : nat -> string -> WireRequest -> option (Z * string);
  error_text : WireRequest -> string }.

(** A request that reached a peer: the address connected to and its answer. *)
Record Exchange : Type := mkExchange {
  ex_Request : WireRequest; ex_Address : string; ex_Answer : option (Z * string) }.

Section Send.
Context `{Network}.

(** The dialer of [newSafeClient]: [Control] vets each address before the
    connection to it. *)
Definition dial (n : nat) (host : string) : option string :=
  List.find (fun a => match safeControl SplitHostPort ParseIP a with Ok _ => Connects a | Err _ => false end)
    (Lookup n host).

(** [redirectBehavior] of [net/http]: the next method, and whether the body
    goes along. *)
Definition redirectBehavior (method : string) (status : Z) : option (string * bool) :=
  if decide (status ∈ [301; 302; 303])
  then Some (if decide (method = "GET"%string \/ method = "HEAD"%string) then method else "GET"%string, false)
  else if decide (status ∈ [307; 308]) then Some (method, true)
  else None.

(** [Client.Do]: [via] are the requests already sent. A hop that drops the body
    drops it for good. [CheckRedirect] counts the requests sent so far. *)
Fixpoint Do (fuel : nat) (via : list Exchange) (req : WireRequest) : option (list Exchange * sent) :=
  match fuel with
  | O => None
  | S fuel =>
      let failed via := Some (via, TransportError (error_text req)) in
      match url_Host (wr_URL req) with
      | None => failed via
      | Some host =>
          match dial (length via) host with
          | None => failed via
          | Some address =>
              let answer := Answers (length via) address req in
              let via := via ++ [mkExchange req address answer] in
              match answer with
              | None => failed via
              | Some (status, location) =>
                  match redirectBehavior (wr_Method req) status with
                  | None => Some (via, Responded status)
                  | Some (method, includeBodyOnHop) =>
                      if decide (location = ""%string) then Some (via, Responded status)
                      else
                        match url_Ref (wr_URL req) location with
                        | None => failed via
                        | Some u =>
                            if (maxRedirects <=? length via)%nat then failed via
                            else Do fuel via
                                   (mkWire method u (wr_EventId req) (wr_EventType req) (wr_Signature req)
                                      (if includeBodyOnHop then wr_Body req else None))
                        end
                  end
              end
          end
      end
  end.

(** [Send] of a claim at [ts], its secrets read at [now]. *)
Definition Send `{Hmac} (c : ClaimedDelivery) (ts now : time) : option (list Exchange * sent) :=
  Do maxRedirects []
    (mkWire "POST" (c_URL c) (c_EventID c) (c_EventType c) (signature_header c ts now) (Some (c_Payload c))).
End Send.

(** ** What an attempt may do *)

Section Guarded.
Context `{Network, Hmac}.
(** [net.ParseIP] gives bytes. *)
Hypothesis ParseIP_bytes : forall s ip, ParseIP s = Some ip -> Forall byte ip.

(** The address lies outside the blocked networks. *)
Definition public_ip (ip : IP) : Prop :=
  match To4 ip with
  | Some v4 => Forall (fun net => ~ in_net 32 (ip_value v4) net) blocked_v4
  | None => length ip = 16%nat /\ Forall (fun net => ~ in_net 128 (ip_value ip) net) blocked_v6
  end.

Definition public_address (address : string) : Prop :=
  exists host port ip, SplitHostPort address = Some (host, port) /\ ParseIP host = Some ip /\ public_ip ip.

Lemma safeControl_public address : safeControl SplitHostPort ParseIP address = Ok tt -> public_address address.
Proof.
  unfold safeControl. destruct (SplitHostPort address) as [[host port]|] eqn:Es; [|done].
  destruct (ParseIP host) as [ip|] eqn:Ep; [|done]. destruct (isBlockedIP ip) eqn:Eb; [done|]. intros _.
  exists host, port, ip. split_and!; [done|done|]. by apply isBlockedIP_networks; [eapply ParseIP_bytes|].
Qed.

Lemma dial_public n host address : dial n host = Some address -> public_address address.
Proof.
  intros [_ Hc]%List.find_some. destruct (safeControl _ _ address) as [[]|] eqn:E; [|done].
  by apply safeControl_public.
Qed.

Variables (c : ClaimedDelivery) (ts now : time).

(** The answer asks to repeat the request as it was. *)
Definition repeats (e : Exchange) : bool :=
  match ex_Answer e with Some (status, _) => (status =? 307) || (status =? 308) | None => false end.

(** The request sent after [before]: signed as the first, and the first itself
    as long as every redirect repeated it; a GET without the payload after any
    other. *)
Definition attempt (before : list Exchange) (req : WireRequest) : Prop :=
  wr_EventId req = c_EventID c /\ wr_EventType req = c_EventType c /\ wr_Signature req = signature_header c ts now /\
  (before = [] -> wr_URL req = c_URL c) /\
  if forallb repeats before then wr_Method req = "POST"%string /\ wr_Body req = Some (c_Payload c)
  else wr_Method req = "GET"%string /\ wr_Body req = None.

Definition vetted (via : list Exchange) : Prop :=
  forall i e, via !! i = Some e -> public_address (ex_Address e) /\ attempt (take i via) (ex_Request e).

Lemma vetted_snoc via req address answer :
  vetted via -> attempt via req -> public_address address -> vetted (via ++ [mkExchange req address answer]).
Proof.
  intros Hv Ha Hp i e [[Hlt Hi]|[-> <-]]%lookup_snoc_Some.
  - rewrite take_app_le by lia. by apply Hv.
  - rewrite take_app_length. done.
Qed.
Lemma attempt_next via req address status location method keep u :
  attempt via req -> redirectBehavior (wr_Method req) status = Some (method, keep) ->
  attempt (via ++ [mkExchange req address (Some (status, location))])
    (mkWire method u (wr_EventId req) (wr_EventType req) (wr_Signature req) (if keep then wr_Body req else None)).
Proof.
  intros (E1 & E2 & E3 & _ & Hb) Hr. unfold attempt. cbn [wr_EventId wr_EventType wr_Signature wr_Method wr_Body].
  split_and!; [done..|by destruct via|]. rewrite forallb_app. cbn [forallb repeats ex_Answer]. rewrite andb_true_r.
  unfold redirectBehavior in Hr. case_decide as H1; [|case_decide as H2; [|done]].
  - injection Hr as <- <-.
    assert (Hst : (status =? 307) || (status =? 308) = false)
      by (apply orb_false_iff; split; apply Z.eqb_neq; set_solver).
    rewrite Hst, andb_false_r. split; [|done]. destruct (forallb repeats via), Hb as [-> _]; done.
  - injection Hr as <- <-.
    assert (Hst : (status =? 307) || (status =? 308) = true)
      by (apply orb_true_iff; rewrite !Z.eqb_eq; set_solver).
    by rewrite Hst, andb_true_r.
Qed.

(** What ends an attempt: an answer that is no redirect to follow, or an error. *)
Definition ends (via : list Exchange) (outcome : sent) : Prop :=
  match outcome with
  | Responded status => exists e location, last via = Some e /\ ex_Answer e = Some (status, location)
  | TransportError _ => True
  end.

Definition sound (r : option (list Exchange * sent)) : Prop :=
  exists via outcome, r = Some (via, outcome) /\ (length via <= maxRedirects)%nat /\ vetted via /\ ends via outcome.

Lemma sound_error via msg : (length via <= maxRedirects)%nat -> vetted via -> sound (Some (via, TransportError msg)).
Proof. intros. by exists via, (TransportError msg). Qed.

Lemma sound_answer via req address status location :
  (length via < maxRedirects)%nat -> vetted (via ++ [mkExchange req address (Some (status, location))]) ->
  sound (Some (via ++ [mkExchange req address (Some (status, location))], Responded status)).
Proof.
  intros Hl Hv. eexists _, _. split; [done|]. rewrite length_app. cbn [length]. split; [lia|]. split; [done|].
  eexists _, location. by rewrite last_snoc.
Qed.

Lemma Do_sound fuel via req :
  (length via + S fuel = maxRedirects)%nat -> vetted via -> attempt via req -> sound (Do (S fuel) via req).
Proof.
  revert via req. induction fuel as [|fuel IH]; intros via req Hlen Hv Ha;
    cbn [Do]; (destruct (url_Host (wr_URL req)) as [host|]; [|apply sound_error; [lia|done]]);
    (destruct (dial (length via) host) as [address|] eqn:Ed; [|apply sound_error; [lia|done]]);
    apply dial_public in Ed; pose proof (vetted_snoc _ _ _ (Answers (length via) address req) Hv Ha Ed) as Hv';
    assert (Hl' : length (via ++ [mkExchange req address (Answers (length via) address req)]) = S (length via))
      by (rewrite length_app; cbn; lia);
    (destruct (Answers (length via) address req) as [[status location]|]; [|apply sound_error; [lia|done]]);
    (destruct (redirectBehavior (wr_Method req) status) as [[method keep]|] eqn:Er;
      [|apply sound_answer; [lia|done]]);
    (case_decide; [apply sound_answer; [lia|done]|]);
    (destruct (url_Ref (wr_URL req) location) as [u|]; [|apply sound_error; [lia|done]]);
    (destruct (Nat.leb_spec maxRedirects (length (via ++ [mkExchange req address (Some (status, location))])));
      [apply sound_error; [lia|done]|]).
  - exfalso. lia.
  - apply IH; [lia|done|by apply attempt_next].
Qed.

(** C35: what one delivery attempt may reach. An attempt ends after at most three
    requests, whatever the subscriber's URL, the answers and the name service
    say at each hop. Every connection is to an address outside the loopback,
    private, carrier-grade, link-local, multicast and unspecified networks; every
    request carries the event and the signature of the claim; the first is the
    POST of the payload to the URL of the subscription, and so is each later one
    as long as the answers are 307 or 308 - after any other redirect it is a GET
    without the payload. The status an attempt reports is the last answer. *)
Theorem Send_guarded :
  exists via outcome, Send c ts now = Some (via, outcome) /\ (length via <= maxRedirects)%nat /\
    (forall i e, via !! i = Some e -> public_address (ex_Address e) /\ attempt (take i via) (ex_Request e)) /\
    (forall status, outcome = Responded status ->
       exists e location, last via = Some e /\ ex_Answer e = Some (status, location)).
Proof.
  assert (Hs : sound (Send c ts now)) by (apply Do_sound; done).
  destruct Hs as (via & outcome & -> & Hl & Hv & He). exists via, outcome. split_and!; [done|done|done|].
  by intros status ->.
Qed.
End Guarded.

(** ** A subscriber that redirects *)

(** The host [sub] answers the first request with 302 to [other], which answers
    200; [rebind] first resolves to the metadata endpoint and then to nothing. *)
#[local] Instance send_network : Network := {|
  SplitHostPort := fun a => if decide (a = "public:443"%string) then Some ("public", "443")%string
                            else if decide (a = "metadata:80"%string) then Some ("metadata", "80")%string else None;
  ParseIP := fun h => if decide (h = "public"%string) then Some [93; 184; 216; 34]
                      else if decide (h = "metadata"%string) then Some [169; 254; 169; 254] else None;
  url_Host := Some;
  url_Ref := fun _ location => Some location;
  Lookup := fun _ host => if decide (host = "rebind"%string) then ["metadata:80"]%string else ["public:443"]%string;
  Connects := fun _ => true;
  Answers := fun n _ _ => if decide (n = 0%nat) then Some (302, "other"%string) else Some (200, ""%string);
  error_text := fun _ => "refused"%string |}.
#[local] Existing Instance demo_hmac.

Definition send_claim (url : string) : ClaimedDelivery :=
  mkClaimed 1 7 2 3 "ledger.transaction.posted" ["{"; "}"]%char 0 url ["k"]%char None None.

Lemma send_bytes s ip : ParseIP s = Some ip -> Forall byte ip.
Proof.
  cbn. repeat case_decide; try done; intros [= <-]; unfold byte; rewrite !Forall_cons, Forall_nil; lia.
Qed.

Lemma Send_guarded_witness :
  (exists via e, Send (send_claim "sub") 0 0 = Some (via, Responded 200) /\ last via = Some e /\
     public_address (ex_Address e) /\ wr_Method (ex_Request e) = "GET"%string /\ wr_Body (ex_Request e) = None) /\
  Send (send_claim "rebind") 0 0 = Some ([], TransportError "refused").
Proof.
  split.
  - destruct (Send_guarded send_bytes (send_claim "sub") 0 0) as (via & outcome & E & _ & Hv & _).
    assert (E' : exists e1 e2, Send (send_claim "sub") 0 0 = Some ([e1; e2], Responded 200) /\ repeats e1 = false)
      by (eexists _, _; split; vm_compute; reflexivity).
    destruct E' as (e1 & e2 & E' & Hr). rewrite E' in E. injection E as <- <-.
    exists [e1; e2], e2. split; [exact E'|]. split; [reflexivity|].
    destruct (Hv 1%nat e2 eq_refl) as [Hp (_ & _ & _ & _ & Hb)]. cbn [take forallb] in Hb. rewrite Hr in Hb.
    split; [exact Hp|exact Hb].
  - vm_compute. reflexivity.
Defined.
