(* ===== verification/WebhooksInv.v ===== *)
(** * The delivery state machine

    Requests, envelopes, claims and recorded outcomes interleaved in any order:
    a claim stays in flight until its outcome is written, however late, or until
    its worker crashes. The invariant of every reachable world. *)

From Stdlib Require Import Ascii String ZArith Lia.
From S2P Require Import Prelude Strconv Errors LedgerDomain LedgerEvents Httpx TxMonad Signature Keycrypt.
From S2P Require Import Webhooks WebhooksStore WebhooksService.
Local Open Scope Z_scope.

(** ** Rows *)

(** What never changes in a delivery. *)
Definition same_delivery (d d' : Delivery) : Prop :=
  dl_ID d' = dl_ID d /\ dl_TenantID d' = dl_TenantID d /\ dl_SubscriptionID d' = dl_SubscriptionID d /\
  dl_EventID d' = dl_EventID d /\ dl_EventType d' = dl_EventType d /\ dl_Payload d' = dl_Payload d /\
  dl_CreatedAt d' = dl_CreatedAt d.

Definition same_subscription (s s' : Subscription) : Prop :=
  sub_ID s' = sub_ID s /\ sub_TenantID s' = sub_TenantID s /\ sub_CreatedAt s' = sub_CreatedAt s.

(** The attempt budget of each status. *)
Definition budget_ok (d : Delivery) : Prop :=
  0 <= dl_Attempts d <= MaxAttempts /\
  match dl_Status d with
  | StatusPending => dl_Attempts d = 0
  | StatusFailed => 1 <= dl_Attempts d < MaxAttempts
  | StatusDead => dl_Attempts d = MaxAttempts
  | StatusDelivered => is_Some (dl_DeliveredAt d)
  end.

Record DInv (db : WebhookDB) : Prop := {
  di_key : forall id d, deliveries db !! id = Some d -> dl_ID d = id;
  di_skey : forall id s, subscriptions db !! id = Some s -> sub_ID s = id;
  di_sub : forall id d, deliveries db !! id = Some d ->
    exists s, subscriptions db !! dl_SubscriptionID d = Some s /\ sub_TenantID s = dl_TenantID d;
  di_uniq : forall i j d d', deliveries db !! i = Some d -> deliveries db !! j = Some d' ->
    dl_SubscriptionID d = dl_SubscriptionID d' -> dl_EventID d = dl_EventID d' -> i = j;
  di_budget : forall id d, deliveries db !! id = Some d -> budget_ok d;
  di_tenant : forall id d, deliveries db !! id = Some d -> dl_TenantID d <> uuid_Nil }.

Record persists (db db' : WebhookDB) : Prop := {
  pe_delivery : forall id d, deliveries db !! id = Some d ->
    exists d', deliveries db' !! id = Some d' /\ same_delivery d d';
  pe_subscription : forall id s, subscriptions db !! id = Some s ->
    exists s', subscriptions db' !! id = Some s' /\ same_subscription s s' }.

Definition good (db db' : WebhookDB) : Prop := DInv db' /\ persists db db'.

Lemma same_delivery_refl d : same_delivery d d.
Proof. by repeat split. Qed.

Lemma same_delivery_trans d1 d2 d3 : same_delivery d1 d2 -> same_delivery d2 d3 -> same_delivery d1 d3.
Proof. unfold same_delivery. intuition congruence. Qed.

Lemma wpersists_refl db : persists db db.
Proof. split; intros id x Hx; exists x; split; [done|by repeat split|done|by repeat split]. Qed.

Lemma wpersists_trans db1 db2 db3 : persists db1 db2 -> persists db2 db3 -> persists db1 db3.
Proof.
  intros [D1 S1] [D2 S2]. split.
  - intros id d (d' & Hd & E)%D1. apply D2 in Hd as (d'' & Hd & E'). exists d''. split; [done|].
    by eapply same_delivery_trans.
  - intros id s (s' & Hs & E)%S1. apply S2 in Hs as (s'' & Hs & E'). exists s''. split; [done|].
    unfold same_subscription in *. intuition congruence.
Qed.

Lemma wgood_refl db : DInv db -> good db db.
Proof. intros I. split; [done|apply wpersists_refl]. Qed.

Lemma wgood_trans db1 db2 db3 : good db1 db2 -> (DInv db2 -> good db2 db3) -> good db1 db3.
Proof. intros [I P] H. destruct (H I) as [I' P']. split; [done|by eapply wpersists_trans]. Qed.

(** ** Elementary changes *)

Lemma good_update_delivery db id d d' :
  DInv db -> deliveries db !! id = Some d -> same_delivery d d' -> budget_ok d' ->
  good db (set_deliveries (<[id := d']> (deliveries db)) db).
Proof.
  intros I Hd Hsame Hb. pose proof Hsame as (Hi & Ht & Hs & He & _).
  assert (Hinv : forall j x, <[id := d']> (deliveries db) !! j = Some x ->
    exists y, deliveries db !! j = Some y /\ same_delivery y x).
  { intros j x [[<- <-]|[Hne Hj]]%lookup_insert_Some; [eauto|]. exists x. split; [done|apply same_delivery_refl]. }
  split; [split|split]; cbn [deliveries subscriptions set_deliveries].
  - intros j x (y & Hy & (E & _))%Hinv. rewrite E. by eapply di_key.
  - apply I.
  - intros j x (y & Hy & (_ & Et & Es & _))%Hinv. rewrite Et, Es. by eapply di_sub.
  - intros i j x x' (y & Hy & Hyx)%Hinv (y' & Hy' & Hyx')%Hinv Es Ee.
    destruct Hyx as (_ & _ & S1 & E1 & _), Hyx' as (_ & _ & S2 & E2 & _).
    eapply (di_uniq db I i j y y'); congruence.
  - intros j x [[<- <-]|[Hne Hj]]%lookup_insert_Some; [done|]. by eapply di_budget.
  - intros j x (y & Hy & (_ & -> & _))%Hinv. by eapply di_tenant.
  - intros j x Hx. destruct (decide (j = id)) as [->|Hne].
    + exists d'. rewrite lookup_insert_eq. split; [done|]. congruence.
    + exists x. rewrite lookup_insert_ne by done. split; [done|apply same_delivery_refl].
  - intros j s Hs'. exists s. split; [done|by repeat split].
Qed.

Lemma good_insert_delivery db d s :
  DInv db -> deliveries db !! dl_ID d = None -> subscriptions db !! dl_SubscriptionID d = Some s ->
  sub_TenantID s = dl_TenantID d -> dl_TenantID d <> uuid_Nil -> budget_ok d ->
  (forall j d', deliveries db !! j = Some d' ->
     ~ (dl_SubscriptionID d' = dl_SubscriptionID d /\ dl_EventID d' = dl_EventID d)) ->
  good db (set_deliveries (<[dl_ID d := d]> (deliveries db)) db).
Proof.
  intros I Hnew Hs Ht Hnil Hb Hu. split; [split|split]; cbn [deliveries subscriptions set_deliveries].
  - intros j x [[<- <-]|[_ Hj]]%lookup_insert_Some; [done|by eapply di_key].
  - apply I.
  - intros j x [[<- <-]|[_ Hj]]%lookup_insert_Some; [eauto|by eapply di_sub].
  - intros i j x x' [[<- <-]|[_ Hi]]%lookup_insert_Some [[<- <-]|[_ Hj]]%lookup_insert_Some Es Ee.
    + done.
    + by destruct (Hu j x' Hj).
    + by destruct (Hu i x Hi).
    + by eapply (di_uniq db I i j x x').
  - intros j x [[<- <-]|[_ Hj]]%lookup_insert_Some; [done|by eapply di_budget].
  - intros j x [[<- <-]|[_ Hj]]%lookup_insert_Some; [done|by eapply di_tenant].
  - intros j x Hx. exists x. rewrite lookup_insert_ne by congruence. split; [done|apply same_delivery_refl].
  - intros j s' Hs'. exists s'. split; [done|by repeat split].
Qed.

Lemma good_subscriptions db (f : uuid -> Subscription -> Subscription) :
  DInv db -> (forall id s, subscriptions db !! id = Some s -> same_subscription s (f id s)) ->
  good db (set_subscriptions (map_imap (fun id s => Some (f id s)) (subscriptions db)) db).
Proof.
  intros I Hf.
  assert (Hl : forall id, map_imap (fun id s => Some (f id s)) (subscriptions db) !! id
    = f id <$> subscriptions db !! id) by (intros id; rewrite map_lookup_imap; by destruct (_ !! id)).
  split; [split|split]; cbn [deliveries subscriptions set_subscriptions].
  - apply I.
  - intros id s. rewrite Hl. destruct (subscriptions db !! id) as [s0|] eqn:E; [|done]. intros [= <-].
    destruct (Hf id s0 E) as (-> & _). by eapply di_skey.
  - intros id d (s & Hs & Ht)%(di_sub db I). exists (f (dl_SubscriptionID d) s). rewrite Hl, Hs.
    split; [done|]. by destruct (Hf _ _ Hs) as (_ & -> & _).
  - apply I.
  - apply I.
  - apply I.
  - intros id d Hd. exists d. split; [done|apply same_delivery_refl].
  - intros id s Hs. exists (f id s). rewrite Hl, Hs. split; [done|]. by apply Hf.
Qed.

Lemma good_update_subscription db id s s' :
  DInv db -> subscriptions db !! id = Some s -> same_subscription s s' ->
  good db (set_subscriptions (<[id := s']> (subscriptions db)) db).
Proof.
  intros I Hs Hsame.
  replace (<[id := s']> (subscriptions db))
    with (map_imap (fun j x => Some (if decide (j = id) then s' else x)) (subscriptions db)).
  - apply (good_subscriptions db (fun j x => if decide (j = id) then s' else x) I).
    intros j x Hx. case_decide as D; [subst|by repeat split]. by simplify_eq.
  - apply map_eq. intros j. rewrite map_lookup_imap. destruct (decide (j = id)) as [->|Hne].
    + rewrite lookup_insert_eq, Hs. done.
    + rewrite lookup_insert_ne by done. destruct (subscriptions db !! j); [|done]. done.
Qed.

Lemma good_insert_subscription db s :
  DInv db -> subscriptions db !! sub_ID s = None ->
  good db (set_subscriptions (<[sub_ID s := s]> (subscriptions db)) db).
Proof.
  intros I Hnew.
  assert (Hkeep : forall id x, subscriptions db !! id = Some x ->
    <[sub_ID s := s]> (subscriptions db) !! id = Some x)
    by (intros id x Hx; rewrite lookup_insert_ne; [done|congruence]).
  split; [split|split]; cbn [deliveries subscriptions set_subscriptions].
  - apply I.
  - intros id x [[<- <-]|[_ Hj]]%lookup_insert_Some; [done|by eapply di_skey].
  - intros id d (x & Hx & Ht)%(di_sub db I). exists x. split; [by apply Hkeep|done].
  - apply I.
  - apply I.
  - apply I.
  - intros id d Hd. exists d. split; [done|apply same_delivery_refl].
  - intros id x Hx. exists x. split; [by apply Hkeep|by repeat split].
Qed.

(** ** Statements *)

Section Statements.
Context `{Supply, Render, Aead, Jsonb, UrlParse}.
Variable cipher : option bytes.
Implicit Types st : UseState WebhookDB.

Lemma lift_ok {A} (r : result error A) st a st' : lift r st = Ok (a, st') <-> r = Ok a /\ st' = st.
Proof. unfold lift, mret, Use_ret, fail. destruct r; naive_solver. Qed.

Lemma lift_crypt_ok {A} (r : result crypt_error A) st a st' :
  lift_crypt r st = Ok (a, st') <-> r = Ok a /\ st' = st.
Proof. unfold lift_crypt. rewrite lift_ok. destruct r; cbn; naive_solver. Qed.

(** Opening the secrets of a row changes nothing else. *)
Definition opens (s0 s : Subscription) : Prop :=
  scanSubscription cipher s0 = Ok s /\ sub_ID s = sub_ID s0 /\ sub_TenantID s = sub_TenantID s0 /\
  sub_URL s = sub_URL s0 /\ sub_EventTypes s = sub_EventTypes s0 /\ sub_Active s = sub_Active s0 /\
  sub_CreatedAt s = sub_CreatedAt s0 /\ sub_PreviousSecretExpiresAt s = sub_PreviousSecretExpiresAt s0.

Lemma scan_opens s0 s : scanSubscription cipher s0 = Ok s -> opens s0 s.
Proof.
  intros Hs. split; [done|]. unfold scanSubscription in Hs.
  destruct (decryptSecret _ _ _) as [x|]; [|done]. cbn in Hs.
  destruct (decrypt_previous _ _ _) as [p|]; [|done]. cbn in Hs. by injection Hs as <-.
Qed.

Lemma find_subscription_some tenant id db s :
  find_subscription tenant id db = Some s <-> subscriptions db !! id = Some s /\ sub_TenantID s = tenant.
Proof.
  unfold find_subscription. destruct (subscriptions db !! id) as [x|]; cbn; [|naive_solver].
  case_decide; naive_solver.
Qed.

Lemma find_delivery_some tenant id db d :
  find_delivery tenant id db = Some d <-> deliveries db !! id = Some d /\ dl_TenantID d = tenant.
Proof.
  unfold find_delivery. destruct (deliveries db !! id) as [x|]; cbn; [|naive_solver].
  case_decide; naive_solver.
Qed.

Lemma querySubscriptions_ok tenant q st l st' :
  querySubscriptions cipher tenant q st = Ok (l, st') ->
  u_db st' = u_db st /\
  Forall2 opens (q (filter (fun s => sub_TenantID s = tenant) (rows_of (subscriptions (u_db st))))) l.
Proof.
  unfold querySubscriptions. intros Hr. inv_use Hr.
  apply (collect_each_forall2 _ opens) in Hr; [done|].
  intros a s b s' (Hb & ->)%lift_ok. split; [done|by apply scan_opens].
Qed.

Lemma Create_good nonce sub st u st' :
  DInv (u_db st) -> Create cipher nonce sub st = Ok (u, st') -> good (u_db st) (u_db st').
Proof.
  intros I Hr. unfold Create in Hr. apply use_bind_ok in Hr as (x & st1 & (Hx & ->)%lift_crypt_ok & Hr).
  inv_use Hr. by apply (good_insert_subscription (u_db _) (mkSubscription _ _ _ _ _ _ _ _ _)).
Qed.

Lemma Update_good tenant id url types active st s st' :
  DInv (u_db st) -> Update cipher tenant id url types active st = Ok (s, st') -> good (u_db st) (u_db st').
Proof.
  intros I Hr. unfold Update in Hr. inv_use Hr.
  destruct (find_subscription tenant id _) as [s0|] eqn:E; [|by inv_use Hr].
  apply find_subscription_some in E as [E _]. apply use_bind_ok in Hr as (u & st1 & Hw & Hr).
  inv_use Hw. apply lift_ok in Hr as [_ ->]. cbn [u_db]. by eapply good_update_subscription.
Qed.

Lemma RotateSecret__good nonce tenant id secret expires st u st' :
  DInv (u_db st) -> RotateSecret_ cipher nonce tenant id secret expires st = Ok (u, st') ->
  good (u_db st) (u_db st').
Proof.
  intros I Hr. unfold RotateSecret_ in Hr. apply use_bind_ok in Hr as (x & st1 & (Hx & ->)%lift_crypt_ok & Hr).
  inv_use Hr. destruct (find_subscription tenant id _) as [s0|] eqn:E; [|by inv_use Hr].
  apply find_subscription_some in E as [E _]. inv_use Hr. by eapply good_update_subscription.
Qed.

Lemma Purge_good st u st' :
  DInv (u_db st) -> PurgeExpiredPreviousSecrets st = Ok (u, st') -> good (u_db st) (u_db st').
Proof.
  intros I Hr. unfold PurgeExpiredPreviousSecrets in Hr. apply use_bind_ok in Hr as (t & st1 & Ht & Hr).
  apply now_ok in Ht. inv_use Hr. rewrite Ht.
  replace (purge_row t <$> subscriptions (u_db st))
    with (map_imap (fun _ s => Some (purge_row t s)) (subscriptions (u_db st)))
    by (apply map_eq; intros i; rewrite map_lookup_imap, lookup_fmap; by destruct (_ !! i)).
  apply (good_subscriptions _ (fun _ s => purge_row t s)); [done|].
  intros i s _. unfold purge_row. repeat case_match; by repeat split.
Qed.

Lemma reencrypt_same c nonces s s' : reencrypt_row c nonces s = Ok s' -> same_subscription s s'.
Proof.
  unfold reencrypt_row. destruct (if IsEncrypted _ then _ else _) as [x|]; [|done]. cbn.
  destruct (match sub_PreviousSecret s with None => _ | Some _ => _ end) as [p|]; [|done]. cbn.
  intros [= <-]. by repeat split.
Qed.

Lemma elem_of_rows_of {V} (m : gmap uuid V) v : v ∈ rows_of m <-> exists id, m !! id = Some v.
Proof.
  unfold rows_of. rewrite list_elem_of_fmap. split.
  - intros ([id x] & -> & Hx%elem_of_map_to_list). by exists id.
  - intros [id Hx]. exists (id, v). by rewrite elem_of_map_to_list.
Qed.

Lemma Reencrypt_good nonces st u st' :
  DInv (u_db st) -> ReencryptPlaintextSecrets cipher nonces st = Ok (u, st') -> good (u_db st) (u_db st').
Proof.
  intros I Hr. unfold ReencryptPlaintextSecrets in Hr. revert Hr.
  case_eq cipher; [intros key _|intros _]; intros Hr; [|inv_use Hr; by apply wgood_refl].
  apply use_bind_ok in Hr as (db & st1 & Hd & Hr). inv_use Hd.
  apply (each_preserves _ (fun s => good (u_db st) (u_db s))) in Hr; [done| |by apply wgood_refl].
  intros s0 s s' v Hin Hg Hs. eapply wgood_trans; [exact Hg|]. intros Is.
  apply use_bind_ok in Hs as (s0' & s1 & (Hre & ->)%lift_crypt_ok & Hs). inv_use Hs.
  apply reencrypt_same in Hre. apply list_elem_of_filter in Hin as [_ [id Hid]%elem_of_rows_of].
  pose proof (di_skey _ I _ _ Hid) as <-.
  destruct (pe_subscription _ _ (proj2 Hg) _ _ Hid) as (x & Hx & Hsame).
  eapply good_update_subscription; [done|exact Hx|]. unfold same_subscription in *. intuition congruence.
Qed.

(** ** Deliveries *)

Lemma row_eq (db : WebhookDB) id d :
  DInv db -> deliveries db !! id = Some d -> <[dl_ID d := d]> (deliveries db) = deliveries db.
Proof. intros I Hd. apply insert_id. by rewrite (di_key db I _ _ Hd). Qed.

Lemma existsb_unique d (db : WebhookDB) :
  existsb (fun d' => (dl_SubscriptionID d' =? dl_SubscriptionID d) && (dl_EventID d' =? dl_EventID d))
    (rows_of (deliveries db)) = false ->
  forall j d', deliveries db !! j = Some d' ->
    ~ (dl_SubscriptionID d' = dl_SubscriptionID d /\ dl_EventID d' = dl_EventID d).
Proof.
  intros Hn j d' Hj [E1 E2]. apply Bool.not_true_iff_false in Hn. apply Hn, existsb_exists.
  exists d'. split; [apply list_elem_of_In, elem_of_rows_of; by exists j|].
  by rewrite E1, E2, !Z.eqb_refl.
Qed.

(** The row a pending delivery is stored as. *)
Definition stored_delivery (d : Delivery) (payload : bytes) : Delivery :=
  mkDelivery (dl_ID d) (dl_TenantID d) (dl_SubscriptionID d) (dl_EventID d) (dl_EventType d) payload
    (dl_Status d) (dl_Attempts d) (dl_NextAttemptAt d) None None (dl_CreatedAt d) None.

(** Inserting leaves the tables alone when the pair exists, and adds the row
    otherwise. *)
Lemma insert_pending_ok tenant d st u st' :
  insert_pending tenant d st = Ok (u, st') ->
  dl_TenantID d = tenant /\
  ((u_db st' = u_db st /\ exists id d', deliveries (u_db st) !! id = Some d' /\
      dl_SubscriptionID d' = dl_SubscriptionID d /\ dl_EventID d' = dl_EventID d) \/
   (exists payload, jsonb_in (dl_Payload d) = Some payload /\
      deliveries (u_db st) !! dl_ID d = None /\
      is_Some (subscriptions (u_db st) !! dl_SubscriptionID d) /\
      (forall j d', deliveries (u_db st) !! j = Some d' ->
         ~ (dl_SubscriptionID d' = dl_SubscriptionID d /\ dl_EventID d' = dl_EventID d)) /\
      u_db st' = set_deliveries (<[dl_ID d := stored_delivery d payload]> (deliveries (u_db st))) (u_db st))).
Proof.
  intros Hr. unfold insert_pending, owned in Hr.
  apply use_bind_ok in Hr as (db & s1 & Hd & Hr). inv_use Hd.
  apply use_bind_ok in Hr as (p & s2 & Hp & Hr). destruct (jsonb_in (dl_Payload d)) as [payload|] eqn:Ep; [|by inv_use Hp].
  inv_use Hp. apply use_bind_ok in Hr as (v & s3 & Ht & Hr). inv_use Ht. split; [done|].
  destruct (existsb _ _) eqn:Ee in Hr.
  - inv_use Hr. left. split; [done|]. apply existsb_exists in Ee as (d' & Hin & Hb).
    apply list_elem_of_In, elem_of_rows_of in Hin as [id Hid].
    apply andb_true_iff in Hb as [Q1%Z.eqb_eq Q2%Z.eqb_eq]. eauto.
  - inv_use Hr. right. exists payload. split_and!; try done. by apply existsb_unique.
Qed.

Lemma insert_pending_good tenant d st u st' :
  DInv (u_db st) -> tenant <> uuid_Nil -> dl_Status d = StatusPending -> dl_Attempts d = 0 ->
  (exists s, subscriptions (u_db st) !! dl_SubscriptionID d = Some s /\ sub_TenantID s = dl_TenantID d) ->
  insert_pending tenant d st = Ok (u, st') -> good (u_db st) (u_db st').
Proof.
  intros I Hnil Hst Hat (s & Hs & Ht) (Hten & [[-> _]|(p & _ & Hnew & _ & Hu & ->)])%insert_pending_ok;
    [by apply wgood_refl|].
  apply (good_insert_delivery (u_db st) (stored_delivery d p) s); try done; [cbn; congruence|].
  unfold budget_ok. cbn. rewrite Hst, Hat. unfold MaxAttempts. lia.
Qed.

Lemma InsertPending_good tenant ds st u st' :
  DInv (u_db st) ->
  Forall (fun d => dl_Status d = StatusPending /\ dl_Attempts d = 0 /\
    exists s, subscriptions (u_db st) !! dl_SubscriptionID d = Some s /\ sub_TenantID s = dl_TenantID d) ds ->
  InsertPending tenant ds st = Ok (u, st') -> good (u_db st) (u_db st').
Proof.
  intros I Hall Hr. unfold InsertPending in Hr. inv_use Hr.
  rewrite negb_true_iff, Z.eqb_neq in Hs.
  apply (each_preserves _ (fun s => good (u_db st) (u_db s))) in Hr; [done| |by apply wgood_refl].
  intros d s1 s2 v Hin Hg Hd. eapply wgood_trans; [exact Hg|]. intros I1.
  eapply Forall_forall in Hall as (Q1 & Q2 & s & Hsub & Ht); [|exact Hin].
  destruct (pe_subscription _ _ (proj2 Hg) _ _ Hsub) as (s' & Hs' & (_ & E & _)).
  eapply insert_pending_good; [done..| |exact Hd]. exists s'. split; [done|congruence].
Qed.

Lemma update_delivery_good tenant id f st u st' :
  DInv (u_db st) ->
  (forall d, deliveries (u_db st) !! id = Some d -> same_delivery d (f d) /\ budget_ok (f d)) ->
  update_delivery tenant id f st = Ok (u, st') -> good (u_db st) (u_db st').
Proof.
  intros I Hf Hr. unfold update_delivery in Hr. inv_use Hr.
  destruct (find_delivery tenant id _) as [d|] eqn:E; [|by apply wgood_refl].
  apply find_delivery_some in E as [E _]. destruct (Hf d E). by eapply good_update_delivery.
Qed.

Lemma Requeue_good tenant id st d st' :
  DInv (u_db st) -> Requeue tenant id st = Ok (d, st') -> good (u_db st) (u_db st').
Proof.
  intros I Hr. unfold Requeue in Hr. inv_use Hr.
  destruct (find_delivery tenant id _) as [d0|] eqn:E; [|by inv_use Hr].
  apply find_delivery_some in E as [E _]. case_decide; [|by inv_use Hr].
  apply use_bind_ok in Hr as (t & s1 & Ht%now_ok & Hr). inv_use Hr. cbn [u_db]. rewrite Ht.
  eapply good_update_delivery; [done|exact E|by repeat split|].
  unfold budget_ok, requeued, set_outcome, MaxAttempts. cbn. lia.
Qed.
End Statements.

(** ** Leases: what a claim takes and what an outcome records *)

(** ** The due rows *)

Lemma delivery_row_ids (m : gmap uuid Delivery) :
  (forall id d, m !! id = Some d -> dl_ID d = id) -> NoDup (map dl_ID (rows_of m)).
Proof.
  intros Hk. replace (map dl_ID (rows_of m)) with (map fst (map_to_list m)); [apply NoDup_fst_map_to_list|].
  unfold rows_of. rewrite map_map. apply map_ext_in. intros [id d] Hin%list_elem_of_In%elem_of_map_to_list.
  cbn. symmetry. by apply Hk.
Qed.

Lemma lease_all_lookup until ds (m : gmap uuid Delivery) id :
  NoDup (map dl_ID ds) -> (forall d, d ∈ ds -> m !! dl_ID d = Some d) ->
  lease_all until ds m !! id
  = if decide (id ∈ map dl_ID ds) then lease_row until <$> m !! id else m !! id.
Proof.
  revert m. induction ds as [|d ds IH]; intros m Hnd Hrow; cbn [lease_all fold_left map] in *.
  - rewrite decide_False by set_solver. done.
  - apply NoDup_cons in Hnd as [Hn Hnd]. fold (lease_all until ds (<[dl_ID d := lease_row until d]> m)).
    rewrite IH; [|done|].
    + destruct (decide (id = dl_ID d)) as [->|Hne].
      * rewrite decide_False by done. rewrite decide_True by set_solver.
        rewrite lookup_insert_eq. by rewrite (Hrow d) by set_solver.
      * rewrite lookup_insert_ne by done. repeat case_decide; set_solver.
    + intros d' Hd'. rewrite lookup_insert_ne; [apply Hrow; set_solver|].
      intros E. apply Hn. rewrite E. by apply (list_elem_of_fmap_2 dl_ID).
Qed.

Section Claim.
Context `{Supply, Render, Aead, Jsonb, UrlParse}.
Variable cipher : option bytes.
Implicit Types st : UseState WebhookDB.

Lemma due_elem limit t locked db d :
  DInv db -> d ∈ due_deliveries limit t locked db ->
  deliveries db !! dl_ID d = Some d /\ is_due t locked db d = true.
Proof.
  intros I Hd. unfold due_deliveries in Hd. apply elem_of_take in Hd as (i & Hi%list_elem_of_lookup_2 & _).
  rewrite order_rows_perm in Hi. apply list_elem_of_filter in Hi as [Hdue [id Hid]%elem_of_rows_of].
  split; [|done]. by rewrite (di_key db I _ _ Hid).
Qed.

Lemma due_ids limit t locked db : DInv db -> NoDup (map dl_ID (due_deliveries limit t locked db)).
Proof.
  intros I. unfold due_deliveries. eapply sublist_NoDup; [|apply (fmap_sublist dl_ID), sublist_take].
  rewrite order_rows_perm. eapply sublist_NoDup; [|apply (fmap_sublist dl_ID), sublist_filter]. apply delivery_row_ids, I.
Qed.

(** Fewer rows than the limit: every due row was taken. *)
Lemma due_complete limit t locked db id d :
  Z.of_nat (length (due_deliveries limit t locked db)) < limit ->
  deliveries db !! id = Some d -> is_due t locked db d = true -> d ∈ due_deliveries limit t locked db.
Proof.
  intros Hlen Hd Hdue. unfold due_deliveries in *. rewrite length_take in Hlen. rewrite take_ge by lia.
  rewrite order_rows_perm. apply list_elem_of_filter. split; [done|]. apply elem_of_rows_of. by exists id.
Qed.

(** A claim carries its row and the opened secrets of its subscription. *)
Definition claims_row (db : WebhookDB) (d : Delivery) (c : ClaimedDelivery) : Prop :=
  c_DeliveryID c = dl_ID d /\ c_TenantID c = dl_TenantID d /\ c_SubscriptionID c = dl_SubscriptionID d /\
  c_EventID c = dl_EventID d /\ c_EventType c = dl_EventType d /\ c_Payload c = dl_Payload d /\
  c_Attempts c = dl_Attempts d /\
  exists s0 s, subscriptions db !! dl_SubscriptionID d = Some s0 /\ opens cipher s0 s /\
    c_URL c = sub_URL s /\ c_Secret c = sub_Secret s /\ c_PreviousSecret c = sub_PreviousSecret s /\
    c_PreviousSecretExpiresAt c = sub_PreviousSecretExpiresAt s.

Lemma ClaimDue_ok locked limit lease st claims st' :
  ClaimDue cipher locked limit lease st = Ok (claims, st') ->
  let t := clock_at (u_clock st) in
  let due := due_deliveries limit t locked (u_db st) in
  u_db st' = set_deliveries (lease_all (t + lease) due (deliveries (u_db st))) (u_db st) /\
  Forall2 (claims_row (u_db st)) (order_rows ascending delivery_key due) claims.
Proof.
  intros Hr t due. unfold ClaimDue in Hr. apply use_bind_ok in Hr as (t0 & s1 & Ht & Hr).
  unfold now in Ht. injection Ht as <- <-. apply use_bind_ok in Hr as (db & s2 & Hd & Hr). inv_use Hd.
  cbv zeta in Hr. apply use_bind_ok in Hr as (u & s3 & Hw & Hr). inv_use Hw. cbn [u_db u_v7 u_v4 u_clock] in Hr.
  apply (collect_each_forall2 _ (claims_row (u_db st))) in Hr; [done|].
  intros d s c s' Hc. unfold claim_row in Hc.
  destruct (subscriptions (u_db st) !! dl_SubscriptionID d) as [s0|] eqn:Es; [|by inv_use Hc].
  apply use_bind_ok in Hc as (so & s4 & (Hso & ->)%lift_ok & Hc). inv_use Hc. split; [done|].
  repeat (split; [done|]). exists s0, so. split; [done|]. split; [by apply scan_opens|done].
Qed.

(** The ids of the claims are those of the due rows. *)
Lemma claims_ids db ds cs :
  Forall2 (claims_row db) (order_rows ascending delivery_key ds) cs ->
  Permutation (map c_DeliveryID cs) (map dl_ID ds).
Proof.
  intros Hf. transitivity (map dl_ID (order_rows ascending delivery_key ds)).
  - apply reflexive_eq. induction Hf as [|d c ds' cs' (E & _) _ IH]; [done|]. cbn. by rewrite E, IH.
  - by rewrite order_rows_perm.
Qed.
End Claim.
