(* ===== verification/WebhooksWorld.v ===== *)
(** * Worlds: tables and claims in flight

    Every interleaving of requests, envelopes, claims by any number of workers,
    outcomes recorded at any later time and crashes. *)

From Stdlib Require Import Ascii String ZArith Lia.
From S2P Require Import Prelude Strconv Errors LedgerDomain LedgerEvents Httpx TxMonad Signature Keycrypt Webhooks.
From S2P Require Import WebhooksStore WebhooksService WebhooksInv.
Local Open Scope Z_scope.

Section World.
Context `{Supply, Render, Aead, Jsonb, UrlParse}.
Variable cipher : option bytes.
Implicit Types st : UseState WebhookDB.

(** The calls that change the tables, one per use case; the last two are the
    background sweeps. *)
Inductive wh_request : Type :=
| WqCreate (rand : list Z) (nonce : option bytes) (https : bool) (url : string) (types : list string)
| WqUpdate (https : bool) (id : uuid) (patch : SubscriptionPatch)
| WqRotate (rand : list Z) (nonce : option bytes) (id : uuid)
| WqRetry (id : uuid)
| WqEnvelope (env : Envelope bytes) (raw : bytes)
| WqPurgeSecrets
| WqReencrypt (nonces : uuid -> option bytes * option bytes).

Definition wh_exec (tenant : uuid) (rq : wh_request) : WTx unit :=
  match rq with
  | WqCreate rand nonce https url types => _ ← CreateSubscription cipher rand nonce tenant https url types; mret tt
  | WqUpdate https id patch => _ ← UpdateSubscription cipher tenant https id patch; mret tt
  | WqRotate rand nonce id => _ ← RotateSecret cipher rand nonce tenant id; mret tt
  | WqRetry id => _ ← Requeue tenant id; mret tt
  | WqEnvelope env raw => EnqueueEnvelope cipher env raw
  | WqPurgeSecrets => PurgeExpiredPreviousSecrets
  | WqReencrypt nonces => ReencryptPlaintextSecrets cipher nonces
  end.

Record World : Type := mkWorld { w_db : WebhookDB; w_inflight : list ClaimedDelivery }.

Inductive wstep : World -> World -> Prop :=
| step_request w tenant rq st st' :
    u_db st = w_db w -> wh_exec tenant rq st = Ok (tt, st') ->
    wstep w (mkWorld (u_db st') (w_inflight w))
| step_claim w locked limit lease st claims st' :
    u_db st = w_db w -> ClaimDue cipher locked limit lease st = Ok (claims, st') ->
    wstep w (mkWorld (u_db st') (w_inflight w ++ claims))
| step_outcome w pre c post outcome st st' :
    w_inflight w = pre ++ c :: post -> u_db st = w_db w -> process c outcome st = Ok (tt, st') ->
    wstep w (mkWorld (u_db st') (pre ++ post))
| step_crash w pre c post :
    w_inflight w = pre ++ c :: post -> wstep w (mkWorld (w_db w) (pre ++ post)).

Inductive wreach : World -> Prop :=
| wreach_init : wreach (mkWorld empty_webhooks [])
| wreach_step w w' : wreach w -> wstep w w' -> wreach w'.

(** A claim in flight has attempts left and the identity of its row. *)
Definition claim_ok (db : WebhookDB) (c : ClaimedDelivery) : Prop :=
  0 <= c_Attempts c < MaxAttempts /\
  exists d, deliveries db !! c_DeliveryID c = Some d /\
    c_TenantID c = dl_TenantID d /\ c_SubscriptionID c = dl_SubscriptionID d /\
    c_EventID c = dl_EventID d /\ c_EventType c = dl_EventType d /\ c_Payload c = dl_Payload d.

Definition WInv (w : World) : Prop := DInv (w_db w) /\ Forall (claim_ok (w_db w)) (w_inflight w).

Lemma claim_ok_persists db db' c : persists db db' -> claim_ok db c -> claim_ok db' c.
Proof.
  intros P [Hb (d & Hd & E)]. split; [done|]. destruct (pe_delivery _ _ P _ _ Hd) as (d' & Hd' & S).
  exists d'. split; [done|]. unfold same_delivery in S. intuition congruence.
Qed.

Lemma claims_persist db db' cs : persists db db' -> Forall (claim_ok db) cs -> Forall (claim_ok db') cs.
Proof. intros P Hc. eapply Forall_impl; [exact Hc|]. intros c. by apply claim_ok_persists. Qed.

(** ** Requests *)

Lemma ListActive_ok tenant st subs st' :
  DInv (u_db st) -> ListActive cipher tenant st = Ok (subs, st') ->
  u_db st' = u_db st /\
  (forall s, s ∈ subs <-> exists s0, subscriptions (u_db st) !! sub_ID s = Some s0 /\
    sub_TenantID s0 = tenant /\ sub_Active s0 = true /\ opens cipher s0 s) /\
  (forall id s0, subscriptions (u_db st) !! id = Some s0 -> sub_TenantID s0 = tenant -> sub_Active s0 = true ->
     exists s, opens cipher s0 s).
Proof.
  intros I Hr. unfold ListActive in Hr. apply querySubscriptions_ok in Hr as [-> Hl]. split; [done|].
  assert (Hfind : forall id s0, subscriptions (u_db st) !! id = Some s0 -> sub_TenantID s0 = tenant ->
    sub_Active s0 = true -> exists s, s ∈ subs /\ opens cipher s0 s).
  { intros id s0 Hs0 Ht Ha.
    assert (Hin : s0 ∈ order_rows ascending subscription_key (filter (fun s => sub_Active s = true)
      (filter (fun s => sub_TenantID s = tenant) (rows_of (subscriptions (u_db st)))))).
    { rewrite order_rows_perm, !list_elem_of_filter. split; [done|]. split; [done|].
      apply elem_of_rows_of. eauto. }
    apply list_elem_of_lookup in Hin as [i Hi].
    destruct (Forall2_lookup_l _ _ _ _ _ Hl Hi) as (s' & Hs' & Ho'). exists s'. split; [|done].
    by eapply list_elem_of_lookup_2. }
  split; [|intros id s0 ? ? ?; by destruct (Hfind id s0) as (s & _ & Ho); [..|exists s]].
  intros s. split.
  - intros Hs. apply list_elem_of_lookup in Hs as [i Hi].
    destruct (Forall2_lookup_r _ _ _ _ _ Hl Hi) as (s0 & Hs0%list_elem_of_lookup_2 & Ho).
    rewrite order_rows_perm in Hs0. apply list_elem_of_filter in Hs0 as [Ha Hs0].
    apply list_elem_of_filter in Hs0 as [Ht [id Hid]%elem_of_rows_of].
    exists s0. pose proof (di_skey _ I _ _ Hid) as <-. pose proof Ho as (_ & Hid' & _). rewrite Hid'. done.
  - intros (s0 & Hs0 & Ht & Ha & Ho). destruct (Hfind _ s0 Hs0 Ht Ha) as (s' & Hs' & Ho').
    assert (s = s') as -> by (destruct Ho as [Ho _], Ho' as [Ho' _]; congruence). done.
Qed.

(** The deliveries an envelope fans out to, from the state of the request. *)
Lemma EnqueueEnvelope_ok {D} (env : Envelope D) raw st u st' :
  DInv (u_db st) -> EnqueueEnvelope cipher env raw st = Ok (u, st') ->
  exists subs ds st1,
    u_db st1 = u_db st /\
    (forall s, s ∈ subs <-> exists s0, subscriptions (u_db st) !! sub_ID s = Some s0 /\
       sub_TenantID s0 = env_TenantID env /\ sub_Active s0 = true /\ opens cipher s0 s /\
       Matches (sub_EventTypes s0) (env_Type env) = true) /\
    Forall2 (fun s d => exists id t, d = new_delivery (env_ID env) (env_Type env) raw (env_TenantID env) id t s)
      subs ds /\
    (ds = [] /\ u_db st' = u_db st \/ InsertPending (env_TenantID env) ds st1 = Ok (u, st')) /\
    (forall id s0, subscriptions (u_db st) !! id = Some s0 -> sub_TenantID s0 = env_TenantID env ->
       sub_Active s0 = true -> exists s, opens cipher s0 s).
Proof.
  intros I Hr. unfold EnqueueEnvelope in Hr.
  apply use_bind_ok in Hr as (v & s1 & Hq & Hr). inv_use Hq.
  apply use_bind_ok in Hr as (subs & s2 & Hsubs & Hr). apply ListActive_ok in Hsubs as (E2 & Hsubs & Hall); [|done].
  apply use_bind_ok in Hr as (t & s3 & Ht & Hr). apply now_ok in Ht.
  apply use_bind_ok in Hr as (ds & s4 & Hds & Hr).
  apply (collect_each_forall2 _ (fun s d => exists id t,
    d = new_delivery (env_ID env) (env_Type env) raw (env_TenantID env) id t s)) in Hds as [E4 Hds].
  2:{ intros s st0 d st0' Hd. apply use_bind_ok in Hd as (id & s5 & Hid & Hd). apply newV4_ok in Hid.
      inv_use Hd. split; [done|]. by exists id, t. }
  exists (filter (fun s => Matches (sub_EventTypes s) (env_Type env) = true) subs), ds, s4.
  split; [congruence|]. split.
  - intros s. rewrite list_elem_of_filter, Hsubs. split.
    + intros [Hm (s0 & ? & ? & ? & Ho)]. exists s0. split_and!; try done.
      destruct Ho as (_ & _ & _ & _ & <- & _). done.
    + intros (s0 & ? & ? & ? & Ho & Hm). split; [|eauto]. by destruct Ho as (_ & _ & _ & _ & -> & _).
  - split; [done|]. split; [|done]. destruct ds as [|d ds]; [|by right].
    inv_use Hr. left. split; [done|congruence].
Qed.

Lemma EnqueueEnvelope_good {D} (env : Envelope D) raw st u st' :
  DInv (u_db st) -> EnqueueEnvelope cipher env raw st = Ok (u, st') -> good (u_db st) (u_db st').
Proof.
  intros I Hr. destruct (EnqueueEnvelope_ok env raw st u st' I Hr) as (subs & ds & s1 & E1 & Hsubs & Hds & [[_ ->]|Hi] & _);
      [by apply wgood_refl|]. rewrite <- E1 in *. eapply InsertPending_good; [done| |exact Hi].
    apply Forall_forall. intros d Hd. apply list_elem_of_lookup in Hd as [i Hi'].
    destruct (Forall2_lookup_r _ _ _ _ _ Hds Hi') as (s & Hs%list_elem_of_lookup_2 & id & t & ->).
    apply Hsubs in Hs as (s0 & Hs0 & Ht & _). cbn. split; [done|]. split; [done|]. by exists s0.
Qed.

Lemma wh_exec_good tenant rq st u st' :
  DInv (u_db st) -> wh_exec tenant rq st = Ok (u, st') -> good (u_db st) (u_db st').
Proof.
  intros I Hr. destruct rq; cbn [wh_exec] in Hr.
  - apply use_bind_ok in Hr as (x & s1 & Hc & Hr). inv_use Hr. unfold CreateSubscription in Hc.
    apply use_bind_ok in Hc as (? & ? & (_ & ->)%lift_ok & Hc). cbv zeta in Hc.
    apply use_bind_ok in Hc as (? & ? & (_ & ->)%lift_ok & Hc).
    apply use_bind_ok in Hc as (? & ? & (_ & ->)%lift_ok & Hc).
    apply use_bind_ok in Hc as (? & s2 & E1%newV4_ok & Hc).
    apply use_bind_ok in Hc as (? & s3 & E2%now_ok & Hc). cbv zeta in Hc.
    apply use_bind_ok in Hc as (? & s4 & Hc & Hr). inv_use Hr.
    rewrite <- E1, <- E2 in *. by eapply Create_good.
  - apply use_bind_ok in Hr as (x & s1 & Hc & Hr). inv_use Hr. unfold UpdateSubscription in Hc.
    apply use_bind_ok in Hc as (? & s2 & E1 & Hc).
    assert (s2 = st) as -> by (destruct (pt_URL patch); [by apply lift_ok in E1 as [_ ->]|by inv_use E1]).
    cbv zeta in Hc. apply use_bind_ok in Hc as (? & s3 & E2 & Hc).
    assert (s3 = st) as -> by (destruct (_ <$> _); [by apply lift_ok in E2 as [_ ->]|by inv_use E2]).
    by eapply Update_good.
  - apply use_bind_ok in Hr as (x & s1 & Hc & Hr). inv_use Hr. unfold RotateSecret in Hc.
    apply use_bind_ok in Hc as (? & ? & (_ & ->)%lift_ok & Hc).
    apply use_bind_ok in Hc as (? & s2 & E1%now_ok & Hc). cbv zeta in Hc.
    apply use_bind_ok in Hc as (? & s3 & Hc & Hr). inv_use Hr. rewrite <- E1 in *.
    by eapply RotateSecret__good.
  - apply use_bind_ok in Hr as (x & s1 & Hc & Hr). inv_use Hr. by eapply Requeue_good.
  - by eapply EnqueueEnvelope_good.
  - by eapply Purge_good.
  - by eapply Reencrypt_good.
Qed.

(** ** Outcomes *)

(** The row after an attempt, as recorded at [t]. *)
Definition recorded (c : ClaimedDelivery) (outcome : sent) (t : time) (d : Delivery) : Delivery :=
  let failed code err :=
    let attempts := c_Attempts c + 1 in
    set_outcome d (if IsDead attempts then StatusDead else StatusFailed) attempts
      (if IsDead attempts then t else t + Backoff attempts) code (Some err) (dl_DeliveredAt d) in
  match outcome with
  | Responded code =>
      if (200 <=? code) && (code <? 300)
      then set_outcome d StatusDelivered (dl_Attempts d) (dl_NextAttemptAt d) (Some code) None (Some t)
      else failed (Some code) ("endpoint returned status " +:+ FormatInt code)%string
  | TransportError msg => failed None (truncate msg maxErrorLen)
  end.

(** [process] writes that row, whatever the row has become since the claim. *)
Lemma process_ok c outcome st u st' :
  process c outcome st = Ok (u, st') ->
  exists t st1, t = clock_at (u_clock st) /\ u_db st1 = u_db st /\
    update_delivery (c_TenantID c) (c_DeliveryID c) (recorded c outcome t) st1 = Ok (u, st').
Proof.
  intros Hr. destruct outcome as [code|msg]; cbn [process] in Hr; [destruct (_ && _) eqn:E in Hr|].
  - unfold MarkDelivered, within in Hr. apply use_bind_ok in Hr as (v & s0 & Hg & Hr). inv_use Hg.
    unfold recorded. rewrite E.
    apply use_bind_ok in Hr as (t & s1 & Ht & Hr). pose proof (now_ok _ _ _ Ht) as Hdb.
    unfold now in Ht. injection Ht as <- _. eauto.
  - cbv zeta in Hr. apply use_bind_ok in Hr as (t & s1 & Ht & Hr). pose proof (now_ok _ _ _ Ht) as Hdb.
    unfold now in Ht. injection Ht as <- _. unfold MarkFailed in Hr. inv_use Hr. unfold recorded. rewrite E. eauto.
  - cbv zeta in Hr. apply use_bind_ok in Hr as (t & s1 & Ht & Hr). pose proof (now_ok _ _ _ Ht) as Hdb.
    unfold now in Ht. injection Ht as <- _. unfold MarkFailed in Hr. inv_use Hr. eauto.
Qed.

Lemma recorded_ok c outcome t d :
  0 <= c_Attempts c < MaxAttempts -> budget_ok d ->
  same_delivery d (recorded c outcome t d) /\ budget_ok (recorded c outcome t d).
Proof.
  intros Hc [Hb _]. unfold recorded, budget_ok, IsDead, MaxAttempts in *.
  destruct outcome as [code|msg]; [destruct (_ && _)|]; (split; [by repeat split|]); cbn.
  - split; [done|by eexists].
  - destruct (5 <=? c_Attempts c + 1) eqn:E; lia.
  - destruct (5 <=? c_Attempts c + 1) eqn:E; lia.
Qed.

Lemma process_good c outcome st u st' :
  DInv (u_db st) -> 0 <= c_Attempts c < MaxAttempts -> process c outcome st = Ok (u, st') ->
  good (u_db st) (u_db st').
Proof.
  intros I Hb (t & s1 & _ & E & Hu)%process_ok. rewrite <- E in *.
  eapply update_delivery_good; [done| |exact Hu]. intros d Hd. apply recorded_ok; [done|by eapply di_budget].
Qed.

Lemma ClaimDue_good locked limit lease st claims st' :
  DInv (u_db st) -> ClaimDue cipher locked limit lease st = Ok (claims, st') ->
  good (u_db st) (u_db st') /\ Forall (claim_ok (u_db st)) claims.
Proof.
  intros I Hr. pose proof (ClaimDue_ok _ _ _ _ _ _ _ Hr) as [-> Hf]. split.
  - set (t := clock_at (u_clock st)). set (due := due_deliveries limit t locked (u_db st)).
    assert (Hrows : forall d, d ∈ due -> deliveries (u_db st) !! dl_ID d = Some d)
      by (intros d Hd; by eapply due_elem).
    assert (Hnd : NoDup (map dl_ID due)) by (by apply due_ids).
    clear Hr Hf. clearbody due. generalize dependent (u_db st). induction due as [|d due IH]; intros db I Hrows.
    + cbn. by destruct db; apply wgood_refl.
    + apply NoDup_cons in Hnd as [Hn Hnd]. cbn [lease_all fold_left].
      pose proof (Hrows d ltac:(set_solver)) as Hd.
      assert (G : good db (set_deliveries (<[dl_ID d := lease_row (t + lease) d]> (deliveries db)) db))
        by (eapply good_update_delivery; [done|exact Hd|by repeat split|exact (di_budget db I (dl_ID d) d Hd)]).
      eapply wgood_trans; [exact G|]. intros I'.
      apply (IH Hnd (set_deliveries (<[dl_ID d := lease_row (t + lease) d]> (deliveries db)) db) I').
      intros d' Hd'. cbn. rewrite lookup_insert_ne; [apply Hrows; set_solver|].
      intros Heq. apply Hn. rewrite Heq. by apply (list_elem_of_fmap_2 dl_ID).
  - apply Forall_forall. intros c Hc. apply list_elem_of_lookup in Hc as [i Hi].
    destruct (Forall2_lookup_r _ _ _ _ _ Hf Hi) as (d & Hd%list_elem_of_lookup_2 & Hcl).
    rewrite order_rows_perm in Hd. apply due_elem in Hd as [Hrow Hdue]; [|done].
    destruct Hcl as (Eid & Et & Es & Ee & Ety & Ep & Ea & _). split.
    + pose proof (di_budget _ I _ _ Hrow) as [Hb Hst]. rewrite Ea.
      unfold is_due in Hdue. rewrite !andb_true_iff, bool_decide_eq_true in Hdue.
      destruct Hdue as [[[[Hs|Hs] _] _] _]; rewrite Hs in Hst; unfold MaxAttempts in *; lia.
    + exists d. rewrite Eid. by repeat split.
Qed.

Lemma wstep_inv w w' : WInv w -> wstep w w' -> WInv w' /\ persists (w_db w) (w_db w').
Proof.
  intros [I Hc] Hs. destruct Hs as [w tenant rq st st' E Hr|w locked limit lease st claims st' E Hr|
    w pre c post outcome st st' El E Hr|w pre c post El].
  - rewrite <- E in *. apply wh_exec_good in Hr as [I' P]; [|done]. split; [|done]. split; [done|].
    by eapply claims_persist.
  - rewrite <- E in *. apply ClaimDue_good in Hr as [[I' P] Hcl]; [|done]. split; [|done]. split; [done|].
    cbn. apply Forall_app. split; by eapply claims_persist.
  - rewrite <- E, El in *. apply Forall_app in Hc as [Hpre [Hone Hpost]%Forall_cons].
    apply process_good in Hr as [I' P]; [|done|apply Hone]. split; [|done]. split; [done|].
    cbn. apply Forall_app. split; by eapply claims_persist.
  - rewrite El in Hc. apply Forall_app in Hc as [Hpre [Hone Hpost]%Forall_cons].
    split; [|apply wpersists_refl]. split; [done|]. by apply Forall_app.
Qed.

Lemma wreach_inv w : wreach w -> WInv w.
Proof.
  induction 1 as [|w w' _ I Hs]; [|by eapply wstep_inv].
  split; [|by constructor]. split; cbn; intros *; by rewrite lookup_empty.
Qed.
End World.
