(* ===== verification/WebhooksGuarantees.v ===== *)
(** * What the webhooks service guarantees

    Fan-out: one delivery per matching subscription and event. The delivery
    state machine and claims as leases. Secret rotation, from the stored row to
    the receiver. *)

From Stdlib Require Import Ascii String ZArith Lia.
From S2P Require Import Prelude Strconv Errors LedgerDomain LedgerEvents Httpx TxMonad Signature Keycrypt.
From S2P Require Import Webhooks WebhooksStore WebhooksService WebhooksInv WebhooksWorld.
Local Open Scope Z_scope.

Definition has_pair (db : WebhookDB) (sub event : uuid) : Prop :=
  exists id d, deliveries db !! id = Some d /\ dl_SubscriptionID d = sub /\ dl_EventID d = event.

Section Fanout.
Context `{Supply, Render, Aead, Jsonb, UrlParse}.
Variable cipher : option bytes.
Implicit Types st : UseState WebhookDB.

(** What inserting the batch [ds] does to the tables. *)
Record inserted (ds : list Delivery) (db db' : WebhookDB) : Prop := {
  in_subs : subscriptions db' = subscriptions db;
  in_kept : forall id d, deliveries db !! id = Some d -> deliveries db' !! id = Some d;
  in_new : forall id d, deliveries db' !! id = Some d -> deliveries db !! id = None ->
    exists d0 payload, d0 ∈ ds /\ jsonb_in (dl_Payload d0) = Some payload /\ d = stored_delivery d0 payload;
  in_pairs : forall d, d ∈ ds -> has_pair db' (dl_SubscriptionID d) (dl_EventID d);
  in_idle : (forall d, d ∈ ds -> has_pair db (dl_SubscriptionID d) (dl_EventID d)) -> db' = db }.

Lemma inserted_nil db : inserted [] db db.
Proof. split; try done; [congruence|set_solver]. Qed.

Lemma inserted_one tenant d st u st' :
  insert_pending tenant d st = Ok (u, st') -> inserted [d] (u_db st) (u_db st').
Proof.
  intros (_ & [(-> & id & d' & Hd & Hs & He)|(p & Hp & Hnew & _ & Hu & ->)])%insert_pending_ok.
  - split; try done; [congruence|]. intros x ->%list_elem_of_singleton. by exists id, d'.
  - split; cbn [subscriptions deliveries set_deliveries].
    + done.
    + intros id x Hx. rewrite lookup_insert_ne by congruence. done.
    + intros id x [[<- <-]|[_ Hx]]%lookup_insert_Some Hn; [|congruence]. exists d, p. set_solver.
    + intros x ->%list_elem_of_singleton. unfold has_pair. cbn.
      exists (dl_ID d), (stored_delivery d p). by rewrite lookup_insert_eq.
    + intros Hall. destruct (Hall d) as (id & d' & Hd & Hs & He); [set_solver|]. by destruct (Hu id d' Hd).
Qed.

Lemma inserted_app ds1 ds2 db1 db2 db3 :
  inserted ds1 db1 db2 -> inserted ds2 db2 db3 -> inserted (ds1 ++ ds2) db1 db3.
Proof.
  intros I1 I2. split.
  - by rewrite (in_subs _ _ _ I2), (in_subs _ _ _ I1).
  - intros id d Hd. by apply (in_kept _ _ _ I2), (in_kept _ _ _ I1).
  - intros id d Hd Hn. destruct (deliveries db2 !! id) as [x|] eqn:E.
    + pose proof (in_kept _ _ _ I2 _ _ E) as E'. simplify_eq.
      destruct (in_new _ _ _ I1 _ _ E Hn) as (d0 & p & ? & ? & ?). exists d0, p. set_solver.
    + destruct (in_new _ _ _ I2 _ _ Hd E) as (d0 & p & ? & ? & ?). exists d0, p. set_solver.
  - intros d [Hd|Hd]%elem_of_app; [|by apply (in_pairs _ _ _ I2)].
    destruct (in_pairs _ _ _ I1 d Hd) as (id & x & Hx & E). exists id, x. split; [|done].
    by apply (in_kept _ _ _ I2).
  - intros Hall. assert (db2 = db1) as -> by (apply (in_idle _ _ _ I1); set_solver).
    apply (in_idle _ _ _ I2). set_solver.
Qed.

Lemma InsertPending_inserted tenant ds st u st' :
  InsertPending tenant ds st = Ok (u, st') -> inserted ds (u_db st) (u_db st').
Proof.
  intros Hr. unfold InsertPending in Hr. inv_use Hr.
  apply (each_ok _ (fun dn s => inserted dn (u_db st) (u_db s))) in Hr; [done| |apply inserted_nil].
  intros d dn s s' v Hi Hd%inserted_one. by eapply inserted_app.
Qed.

(** A subscription an envelope reaches. *)
Definition reaches {D} (env : Envelope D) (db : WebhookDB) (s : Subscription) : Prop :=
  subscriptions db !! sub_ID s = Some s /\ sub_TenantID s = env_TenantID env /\ sub_Active s = true /\
  Matches (sub_EventTypes s) (env_Type env) = true.

Lemma enqueue_inserted {D} (env : Envelope D) raw st u st' :
  DInv (u_db st) -> EnqueueEnvelope cipher env raw st = Ok (u, st') ->
  exists ds, inserted ds (u_db st) (u_db st') /\
    (forall d, d ∈ ds -> exists s id t, reaches env (u_db st) s /\
       d = new_delivery (env_ID env) (env_Type env) raw (env_TenantID env) id t s) /\
    (forall s, reaches env (u_db st) s -> exists d, d ∈ ds /\ dl_SubscriptionID d = sub_ID s).
Proof.
  intros I Hr. pose proof (EnqueueEnvelope_ok cipher env raw st u st' I Hr) as (subs & ds & s1 & E1 & Hsubs & Hds & Hi & Hall).
  assert (Hopen : forall s0 s, opens cipher s0 s -> forall id t,
    new_delivery (env_ID env) (env_Type env) raw (env_TenantID env) id t s
    = new_delivery (env_ID env) (env_Type env) raw (env_TenantID env) id t s0).
  { intros s0 s (_ & E & _) id t. unfold new_delivery. by rewrite E. }
  exists ds. split_and!.
  - destruct Hi as [[-> ->]|Hi]; [apply inserted_nil|]. rewrite <- E1. by eapply InsertPending_inserted.
  - intros d [i Hd]%list_elem_of_lookup.
    destruct (Forall2_lookup_r _ _ _ _ _ Hds Hd) as (s & Hs%list_elem_of_lookup_2 & id & t & ->).
    apply Hsubs in Hs as (s0 & Hs0 & Ht & Ha & Ho & Hm). exists s0, id, t. rewrite (Hopen s0 s Ho).
    split; [|done]. pose proof (di_skey _ I _ _ Hs0) as Hk. unfold reaches. by rewrite Hk.
  - intros s (Hs & Ht & Ha & Hm).
    destruct (Hall _ _ Hs Ht Ha) as (so & Ho).
    assert (Hso : so ∈ subs) by (apply Hsubs; exists s; pose proof Ho as (_ & -> & _); done).
    apply list_elem_of_lookup in Hso as [i Hi'].
    destruct (Forall2_lookup_l _ _ _ _ _ Hds Hi') as (d & Hd%list_elem_of_lookup_2 & id & t & ->).
    exists (new_delivery (env_ID env) (env_Type env) raw (env_TenantID env) id t so). split; [done|].
    by destruct Ho as (_ & E & _).
Qed.
End Fanout.

(** ** What the webhooks service guarantees

    The delivery invariant over every interleaving, the fan-out of an event, the
    lease of a claim, and the grace window of a rotation. *)

Section Guarantees.
Context `{Supply, Render, Aead, Jsonb, UrlParse}.
Variable cipher : option bytes.
Implicit Types st : UseState WebhookDB.

(** C32: the delivery state machine. In every reachable world, however requests,
    workers, late outcomes and crashes interleave, a delivery spent at most five
    attempts, is dead exactly with five unless delivered, belongs to a
    subscription of its tenant and is the only one of its event there; what is
    in flight has attempts left and carries its row's event and payload; and no
    step loses a delivery or changes its identity. *)
Theorem delivery_invariant w :
  wreach cipher w ->
  (forall id d, deliveries (w_db w) !! id = Some d ->
     dl_ID d = id /\ 0 <= dl_Attempts d <= MaxAttempts /\
     (dl_Status d = StatusPending -> dl_Attempts d = 0) /\
     (dl_Status d = StatusFailed -> 1 <= dl_Attempts d < MaxAttempts) /\
     (dl_Status d = StatusDead -> dl_Attempts d = MaxAttempts) /\
     exists s, subscriptions (w_db w) !! dl_SubscriptionID d = Some s /\ sub_TenantID s = dl_TenantID d) /\
  (forall i j d d', deliveries (w_db w) !! i = Some d -> deliveries (w_db w) !! j = Some d' ->
     dl_SubscriptionID d = dl_SubscriptionID d' -> dl_EventID d = dl_EventID d' -> i = j) /\
  (forall c, c ∈ w_inflight w -> 0 <= c_Attempts c < MaxAttempts /\
     exists d, deliveries (w_db w) !! c_DeliveryID c = Some d /\ c_TenantID c = dl_TenantID d /\
       c_EventID c = dl_EventID d /\ c_Payload c = dl_Payload d) /\
  (forall w' id d, wstep cipher w w' -> deliveries (w_db w) !! id = Some d ->
     exists d', deliveries (w_db w') !! id = Some d' /\ same_delivery d d').
Proof.
  intros [I Hc]%wreach_inv. split_and!.
  - intros id d Hd. pose proof (di_budget _ I _ _ Hd) as [Hb Hs].
    split; [by eapply di_key|]. split; [done|].
    split; [intros E; by rewrite E in Hs|]. split; [intros E; by rewrite E in Hs|].
    split; [intros E; by rewrite E in Hs|]. by eapply di_sub.
  - apply I.
  - intros c Hin. eapply Forall_forall in Hc as (Hb & d & Hd & E1 & _ & E2 & _ & E3); [|exact Hin].
    split; [done|]. by exists d.
  - intros w' id d Hs Hd. destruct (wstep_inv cipher w w' (conj I Hc) Hs) as [_ P]. by eapply pe_delivery.
Qed.

(** C33: fan-out. Once the consumer acknowledges an envelope, every active
    subscription of its tenant whose event types match has exactly one delivery
    of the event; the rows that are new are pending copies of the message for
    such subscriptions, everything else is as before; and handling the message
    again changes nothing. *)
Theorem handle_fans_out {D} (env : Envelope D) raw w st db' :
  wreach cipher w -> u_db st = w_db w -> handle cipher raw (Some env) st = (AckMsg, db') ->
  subscriptions db' = subscriptions (u_db st) /\
  (forall id d, deliveries (u_db st) !! id = Some d -> deliveries db' !! id = Some d) /\
  (forall id d, deliveries db' !! id = Some d -> deliveries (u_db st) !! id = None ->
     exists s, reaches env (u_db st) s /\ dl_SubscriptionID d = sub_ID s /\ dl_EventID d = env_ID env /\
       dl_TenantID d = env_TenantID env /\ dl_EventType d = env_Type env /\
       jsonb_in raw = Some (dl_Payload d) /\ dl_Status d = StatusPending /\ dl_Attempts d = 0) /\
  (forall s, reaches env (u_db st) s ->
     exists! id, exists d, deliveries db' !! id = Some d /\
       dl_SubscriptionID d = sub_ID s /\ dl_EventID d = env_ID env) /\
  (forall st2, u_db st2 = db' -> (handle cipher raw (Some env) st2).2 = db').
Proof.
  intros [I _]%wreach_inv Edb Hh. rewrite <- Edb in I. unfold handle in Hh.
  destruct (_ || _) eqn:Eid in Hh; [done|].
  destruct (EnqueueEnvelope cipher env raw st) as [[u st']|e] eqn:Er; [|done]. injection Hh as <-.
  assert (G : good (u_db st) (u_db st')) by (by eapply EnqueueEnvelope_good).
  destruct (enqueue_inserted cipher env raw st u st' I Er) as (ds & Hin & Hds & Hreach). split_and!.
  - apply Hin.
  - apply Hin.
  - intros id d Hd Hn. destruct (in_new _ _ _ Hin id d Hd Hn) as (d0 & p & Hd0 & Hp & ->).
    destruct (Hds d0 Hd0) as (s & i & t & Hs & ->). exists s. by repeat split; try apply Hs.
  - intros s Hs. destruct (Hreach s Hs) as (d & Hd & Esub).
    destruct (in_pairs _ _ _ Hin d Hd) as (id & x & Hx & E1 & E2).
    destruct (Hds d Hd) as (s' & i & t & _ & Ed). exists id. split.
    + exists x. split; [done|]. split; [congruence|]. by rewrite E2, Ed.
    + intros j (y & Hy & F1 & F2). eapply (di_uniq _ (proj1 G)); [exact Hx|exact Hy|congruence|].
      rewrite E2, F2, Ed. done.
  - intros st2 E2. unfold handle. rewrite Eid.
    destruct (EnqueueEnvelope cipher env raw st2) as [[u2 st2']|e] eqn:Er2; [|done]. cbn [snd].
    rewrite <- E2 in *. destruct (enqueue_inserted cipher env raw st2 u2 st2' (proj1 G) Er2) as (ds2 & Hin2 & Hds2 & _).
    apply (in_idle _ _ _ Hin2). intros d Hd. destruct (Hds2 d Hd) as (s & i & t & Hs & ->).
    cbn [dl_SubscriptionID dl_EventID new_delivery].
    assert (Hs1 : reaches env (u_db st) s).
    { unfold reaches in *. by rewrite (in_subs _ _ _ Hin) in Hs. }
    destruct (Hreach s Hs1) as (d1 & Hd1 & Esub). destruct (in_pairs _ _ _ Hin d1 Hd1) as (id & x & Hx & F1 & F2).
    destruct (Hds d1 Hd1) as (s' & i' & t' & _ & ->). exists id, x. split; [done|].
    split; [congruence|done].
Qed.

Lemma due_until until t t' locked db d :
  is_due t locked db d = true -> is_due t' ∅ db (lease_row until d) = (until <=? t').
Proof.
  unfold is_due. cbn [lease_row set_outcome dl_ID dl_Status dl_NextAttemptAt dl_SubscriptionID].
  rewrite !andb_true_iff. intros [[[-> _] ->] _]. cbn [andb]. rewrite andb_true_r.
  apply andb_true_r.
Qed.

Lemma is_due_row t locked db m d : is_due t locked (set_deliveries m db) d = is_due t locked db d.
Proof. done. Qed.

(** C34: a claim is a lease. A successful claim takes the due, unlocked
    deliveries of active subscriptions, each once, at most [limit] of them and
    all of them when they are fewer; it only moves their next attempt to the end
    of the lease and touches no other row; until then no worker can claim them
    again, and from then on, if no outcome was recorded, any worker can. *)
Theorem ClaimDue_leases w locked limit lease st claims st' :
  wreach cipher w -> u_db st = w_db w -> ClaimDue cipher locked limit lease st = Ok (claims, st') ->
  let t := clock_at (u_clock st) in
  NoDup (map c_DeliveryID claims) /\
  Z.of_nat (length claims) <= Z.max 0 limit /\
  (forall id, id ∈ map c_DeliveryID claims <->
     exists d, d ∈ due_deliveries limit t locked (u_db st) /\ dl_ID d = id) /\
  (Z.of_nat (length claims) < limit -> forall id d, deliveries (u_db st) !! id = Some d ->
     is_due t locked (u_db st) d = true -> id ∈ map c_DeliveryID claims) /\
  (forall id d, deliveries (u_db st) !! id = Some d -> id ∉ map c_DeliveryID claims ->
     deliveries (u_db st') !! id = Some d) /\
  (forall c, c ∈ claims -> exists d, deliveries (u_db st) !! c_DeliveryID c = Some d /\
     is_due t locked (u_db st) d = true /\ c_Attempts c = dl_Attempts d /\ c_Payload c = dl_Payload d /\
     deliveries (u_db st') !! c_DeliveryID c = Some (lease_row (t + lease) d) /\
     (forall t' locked', is_due t' locked' (u_db st') (lease_row (t + lease) d) = true -> t + lease <= t') /\
     (forall t', t + lease <= t' -> is_due t' ∅ (u_db st') (lease_row (t + lease) d) = true)).
Proof.
  intros [I _]%wreach_inv Edb Hr t. rewrite <- Edb in I.
  pose proof (ClaimDue_ok _ _ _ _ _ _ _ Hr) as [-> Hf]. fold t. set (due := due_deliveries limit t locked (u_db st)) in *.
  pose proof (claims_ids _ _ _ _ Hf) as Hp.
  assert (Hnd : NoDup (map dl_ID due)) by (by apply due_ids).
  assert (Hrows : forall d, d ∈ due -> deliveries (u_db st) !! dl_ID d = Some d)
    by (intros d Hd; by eapply due_elem).
  assert (Hlen : length claims = length due) by (apply Permutation_length in Hp; by rewrite !length_map in Hp).
  assert (Hids : forall id, id ∈ map c_DeliveryID claims <-> exists d, d ∈ due /\ dl_ID d = id).
  { intros id. rewrite Hp, list_elem_of_fmap. naive_solver. }
  split_and!.
  - by rewrite Hp.
  - rewrite Hlen. unfold due, due_deliveries. rewrite length_take. lia.
  - done.
  - rewrite Hlen. intros Hlt id d Hd Hdue. apply Hids. exists d. split; [by eapply due_complete|by eapply di_key].
  - intros id d Hd Hn. cbn. rewrite lease_all_lookup by done. rewrite decide_False; [done|].
    intros Hin. apply Hn. by rewrite Hp.
  - intros c [i Hi]%list_elem_of_lookup.
    destruct (Forall2_lookup_r _ _ _ _ _ Hf Hi) as (d & Hd%list_elem_of_lookup_2 & Hcl).
    rewrite order_rows_perm in Hd. destruct (due_elem _ _ _ _ _ I Hd) as [Hrow Hdue].
    destruct Hcl as (Eid & _ & _ & _ & _ & Ep & Ea & _). exists d. rewrite Eid. split_and!; try done.
    + cbn. rewrite lease_all_lookup by done.
      rewrite decide_True by (by apply (list_elem_of_fmap_2 dl_ID)). by rewrite Hrow.
    + intros t' locked'. rewrite is_due_row. unfold is_due.
      cbn [lease_row set_outcome dl_ID dl_Status dl_NextAttemptAt dl_SubscriptionID]. rewrite !andb_true_iff, Z.leb_le. tauto.
    + intros t' Ht. rewrite is_due_row, (due_until (t + lease) t t' locked) by done. by apply Z.leb_le.
Qed.
End Guarantees.

(** ** Secret rotation, from the stored row to the receiver

    A rotation seals the new secret and keeps the sealed old one; claims open
    both; attempts are signed with both until the grace window ends. *)

Lemma NewSecret_plain rand secret :
  NewSecret rand = Ok secret -> secret <> [] /\ IsEncrypted secret = false.
Proof.
  unfold NewSecret. destruct (_ <? _)%nat; [done|]. intros [= <-]. split; [done|].
  unfold IsEncrypted, HasPrefix. apply bool_decide_eq_false. by intros [=].
Qed.

Section Rotation.
Context `{Supply, Render, Aead, Jsonb, UrlParse, Hmac}.
Variable cipher : option bytes.
Implicit Types st : UseState WebhookDB.
(** The AEAD opens what it sealed, and nonces have its nonce size. *)
Hypothesis open_seal : forall key nonce p a, Open key nonce (Seal key nonce p a) a = Some p.

Lemma decrypt_sealed nonce secret id enc :
  secret <> [] -> IsEncrypted secret = false -> (forall n, nonce = Some n -> length n = NonceSize) ->
  encryptSecret cipher nonce secret id = Ok enc -> decryptSecret cipher enc id = Ok secret.
Proof.
  intros Hne Hpl Hn He. unfold encryptSecret in He. case_decide as D.
  - injection He as <-. unfold decryptSecret. rewrite decide_False by done. by rewrite Hpl.
  - destruct cipher as [key|]; [|naive_solver]. destruct nonce as [n|]; [|done].
    destruct (Encrypt_blob key n secret (aad id) (Hn n eq_refl)) as (blob & Hb & His & Hob).
    rewrite Hb in He. injection He as <-. unfold decryptSecret, Decrypt.
    rewrite decide_False by (intros ->; by vm_compute in His). rewrite His. cbn [negb].
    by rewrite Hob, open_seal.
Qed.

Lemma scan_secret s0 so :
  scanSubscription cipher s0 = Ok so -> decryptSecret cipher (sub_Secret s0) (sub_ID s0) = Ok (sub_Secret so).
Proof.
  unfold scanSubscription. destruct (decryptSecret _ _ _) as [x|]; [|done]. cbn.
  destruct (decrypt_previous _ _ _) as [p|]; [|done]. cbn. by intros [= <-].
Qed.

Lemma scan_rotated s0 so secret enc expires :
  scanSubscription cipher s0 = Ok so -> decryptSecret cipher enc (sub_ID s0) = Ok secret ->
  exists s, scanSubscription cipher (rotate_row enc expires s0) = Ok s /\ sub_Secret s = secret /\
    sub_PreviousSecret s = Some (sub_Secret so) /\ sub_PreviousSecretExpiresAt s = Some expires.
Proof.
  intros Hold%scan_secret Hnew. eexists. split.
  - unfold scanSubscription, rotate_row. cbn [sub_Secret sub_ID sub_PreviousSecret]. rewrite Hnew.
    cbn [mbind result_bind decrypt_previous]. rewrite Hold. cbn. reflexivity.
  - done.
Qed.

Lemma RotateSecret_row rand nonce tenant id st secret expires st' s0 :
  DInv (u_db st) -> subscriptions (u_db st) !! id = Some s0 ->
  RotateSecret cipher rand nonce tenant id st = Ok ((secret, expires), st') ->
  expires = clock_at (u_clock st) + RotationGrace /\ NewSecret rand = Ok secret /\
  exists enc, encryptSecret cipher nonce secret id = Ok enc /\
    subscriptions (u_db st') !! id = Some (rotate_row enc expires s0).
Proof.
  intros I Hs0 Hr. unfold RotateSecret in Hr.
  apply use_bind_ok in Hr as (sec & s1 & (Hsec & ->)%lift_ok & Hr).
  apply use_bind_ok in Hr as (t & s2 & Ht & Hr). unfold now in Ht. injection Ht as <- <-. cbv zeta in Hr.
  apply use_bind_ok in Hr as (u & s3 & Hrot & Hr). apply use_ret_ok in Hr as [Heq ->]. injection Heq as -> ->.
  split; [done|]. split; [done|]. unfold RotateSecret_ in Hrot.
  apply use_bind_ok in Hrot as (enc & s4 & (He & ->)%lift_crypt_ok & Hrot). exists enc. split; [done|].
  inv_use Hrot. destruct (find_subscription tenant id _) as [s|] eqn:E; [|by inv_use Hrot].
  apply find_subscription_some in E as [E _]. cbn in E. assert (s = s0) as -> by congruence.
  inv_use Hrot. cbn. by rewrite lookup_insert_eq.
Qed.

(** C38: rotating a secret loses no receiver. After a rotation, every claim on
    the subscription taken while its row is unchanged is signed so that, within
    the receiver's tolerance, the holder of the new secret accepts it, the
    holder of the old one accepts it until the 24 hours of grace end, and from
    then on the old secret signs nothing. *)
Theorem rotation_grace w rand nonce tenant id st s0 so secret expires st' st2 locked limit lease claims st3 c
  now receiver tolerance :
  wreach cipher w -> u_db st = w_db w -> (forall n, nonce = Some n -> length n = NonceSize) ->
  subscriptions (u_db st) !! id = Some s0 -> scanSubscription cipher s0 = Ok so -> sub_Secret so <> [] ->
  RotateSecret cipher rand nonce tenant id st = Ok ((secret, expires), st') ->
  subscriptions (u_db st2) !! id = subscriptions (u_db st') !! id ->
  ClaimDue cipher locked limit lease st2 = Ok (claims, st3) -> c ∈ claims -> c_SubscriptionID c = id ->
  0 <= now / second <= max_int64 - unixToInternal -> 0 < tolerance < max_int64 ->
  Z.abs (receiver - now / second * 1000000000) <= tolerance ->
  let header := signature_header c now now in
  expires = clock_at (u_clock st) + 24 * hour /\
  VerifyAt secret header (c_Payload c) receiver tolerance = Ok tt /\
  (now < expires -> VerifyAt (sub_Secret so) header (c_Payload c) receiver tolerance = Ok tt) /\
  (expires <= now -> header = HeaderMulti [secret] (now / second) (c_Payload c)).
Proof.
  intros [I _]%wreach_inv Edb Hn Hs0 Hso Hold Hrot Hrow Hcl Hc Hid Hts Htol Hrec header. rewrite <- Edb in I.
  destruct (RotateSecret_row _ _ _ _ _ _ _ _ _ I Hs0 Hrot) as (-> & [Hne Hpl]%NewSecret_plain & enc & Henc & Hrow').
  apply decrypt_sealed in Henc; [|done..]. rewrite <- (di_skey _ I _ _ Hs0) in Henc.
  destruct (scan_rotated s0 so secret enc (clock_at (u_clock st) + RotationGrace) Hso Henc)
    as (sr & Hsr & E1 & E2 & E3).
  apply ClaimDue_ok in Hcl as [_ Hf]. apply list_elem_of_lookup in Hc as [i Hi].
  destruct (Forall2_lookup_r _ _ _ _ _ Hf Hi) as (d & _ & Hd).
  destruct Hd as (_ & _ & Esub & _ & _ & _ & _ & s1 & s & Hs1 & (Hs & _) & _ & F1 & F2 & F3).
  rewrite <- Esub, Hid, Hrow, Hrow' in Hs1. injection Hs1 as <-. rewrite Hsr in Hs. injection Hs as <-.
  assert (Hsig : SigningSecrets c now = secret :: if now <? clock_at (u_clock st) + RotationGrace
                                                  then [sub_Secret so] else []).
  { unfold SigningSecrets, signingSecrets. rewrite F1, F2, F3, E1, E2, E3.
    by rewrite (bool_decide_eq_true_2 _ Hold). }
  assert (Hb : min_int64 <= now / second <= max_int64 - unixToInternal) by (unfold min_int64; lia).
  split; [done|]. unfold header, signature_header. rewrite Hsig. split_and!.
  - apply VerifyAt_accepts; [done..|left].
  - intros Hnow. rewrite (proj2 (Z.ltb_lt _ _) Hnow). apply VerifyAt_accepts; [done..|right; left].
  - intros Hnow. by rewrite (proj2 (Z.ltb_ge _ _) Hnow).
Qed.
End Rotation.
