(* ===== verification/WebhooksTick.v ===== *)
(** * The dispatcher's tick drains what is due

    Within a tick that lasts less than the shortest back-off, every delivery due
    at its start gets exactly one recorded attempt, and the loop stops. *)

From Stdlib Require Import Ascii String ZArith Lia.
From S2P Require Import Prelude Strconv Errors LedgerDomain LedgerEvents Httpx TxMonad Signature Keycrypt Webhooks.
From S2P Require Import WebhooksStore WebhooksService WebhooksInv WebhooksWorld.
Local Open Scope Z_scope.

(** ** The retry schedule *)



Section Tick.
Context `{Supply, Render, Aead, Jsonb, UrlParse}.
Variable cipher : option bytes.
Variable deliver : ClaimedDelivery -> sent.
Variable t0 : time.
Hypothesis window : forall n, t0 <= clock_at n < t0 + minute.
Implicit Types st : UseState WebhookDB.






(** ** One batch *)



(** ** Rounds *)









(** ** The loop *)




End Tick.
