(* ===== verification/WebhooksWitnesses.v ===== *)
(** * The webhooks theorems at work

    A tenant registers an endpoint, an event reaches it, its delivery fails and
    the secret is rotated. *)

From Stdlib Require Import Ascii String ZArith Lia.
From S2P Require Import Prelude Strconv Errors LedgerDomain LedgerEvents Httpx TxMonad Signature Keycrypt Webhooks.
From S2P Require Import WebhooksStore WebhooksService WebhooksInv WebhooksWorld WebhooksGuarantees.
From S2P Require Import WebhooksTick.
Local Open Scope Z_scope.

Definition wh_supply : Supply := {| v4_at := fun n => 9000 + Z.of_nat n; clock_at := fun _ => 5000000 |}.
#[local] Existing Instance wh_supply.
Definition wh_render : Render := {| uuid_String := FormatInt; rfc3339nano := FormatInt |}.
#[local] Existing Instance wh_render.
#[local] Existing Instance demo_aead.
#[local] Existing Instance demo_hmac.
Definition wh_json : Jsonb := {| jsonb_in := Some |}.
#[local] Existing Instance wh_json.
Definition wh_url : UrlParse := {| url_Parse := fun s => Some ("https", s)%string |}.
#[local] Existing Instance wh_url.

Definition wh_cipher : option bytes := Some (replicate 32 "k"%char).
Definition wh_nonce : option bytes := Some ["n"; "o"]%char.

(** Run one request; the random ids of call [k] start at [9000 + 10 * k]. *)
Definition after (k : nat) (rq : wh_request) (db : WebhookDB) : WebhookDB :=
  match wh_exec wh_cipher 7 rq (mkUse db [] (10 * k) 0) with Ok (_, st') => u_db st' | Err _ => db end.

Lemma after_reach k rq db fl : wreach wh_cipher (mkWorld db fl) -> wreach wh_cipher (mkWorld (after k rq db) fl).
Proof.
  intros Hr. unfold after. destruct (wh_exec _ _ _ _) as [[[] st']|] eqn:E; [|done].
  eapply wreach_step; [exact Hr|]. exact (step_request wh_cipher (mkWorld db fl) 7 rq (mkUse db [] (10 * k) 0) st' eq_refl E).
Qed.

Definition posted : Envelope bytes :=
  mkEnvelope 55 "ledger.transaction.posted" 7 4000000 1 (list_ascii_of_string "{}").
Definition message : bytes := list_ascii_of_string "{}".

Definition wh_db1 : WebhookDB :=
  after 1 (WqCreate (replicate 32 1) wh_nonce true "example.com" ["*"%string]) empty_webhooks.
Definition wh_db2 : WebhookDB := after 2 (WqEnvelope posted message) wh_db1.

Lemma wh_db1_reach : wreach wh_cipher (mkWorld wh_db1 []).
Proof. apply after_reach, wreach_init. Qed.
Lemma wh_db2_reach : wreach wh_cipher (mkWorld wh_db2 []).
Proof. apply after_reach, wh_db1_reach. Qed.

Lemma delivery_invariant_witness : exists d,
  deliveries wh_db2 !! 9020 = Some d /\ dl_Status d = StatusPending /\ dl_Attempts d = 0.
Proof.
  destruct (deliveries wh_db2 !! 9020) as [d|] eqn:E; [|exfalso; vm_compute in E; discriminate E].
  destruct (delivery_invariant wh_cipher (mkWorld wh_db2 []) wh_db2_reach) as (Hd & _).
  destruct (Hd 9020 d E) as (_ & _ & Hp & _). exists d. split; [reflexivity|].
  assert (Hs : dl_Status d = StatusPending) by (clear -E; vm_compute in E; injection E as <-; reflexivity).
  split; [exact Hs|]. exact (Hp Hs).
Defined.

Lemma handle_fans_out_witness : exists db',
  handle wh_cipher message (Some posted) (mkUse wh_db1 [] 20 0) = (AckMsg, db') /\
  (exists id d, deliveries db' !! id = Some d /\ dl_SubscriptionID d = 9010 /\ dl_EventID d = 55).
Proof.
  destruct (handle wh_cipher message (Some posted) (mkUse wh_db1 [] 20 0)) as [a db'] eqn:E.
  assert (Ha : a = AckMsg) by (change a with (fst (a, db')); rewrite <- E; vm_compute; reflexivity). subst a.
  exists db'. split; [reflexivity|].
  destruct (handle_fans_out wh_cipher posted message (mkWorld wh_db1 []) (mkUse wh_db1 [] 20 0) db'
    wh_db1_reach eq_refl E) as (_ & _ & _ & Hu & _).
  destruct (subscriptions wh_db1 !! 9010) as [s|] eqn:Es; [|exfalso; vm_compute in Es; discriminate Es].
  assert (Hs : sub_ID s = 9010 /\ sub_TenantID s = 7 /\ sub_Active s = true /\
    Matches (sub_EventTypes s) "ledger.transaction.posted" = true)
    by (clear -Es; vm_compute in Es; injection Es as <-; vm_compute; repeat split).
  destruct Hs as (H1 & H2 & H3 & H4).
  destruct (Hu s) as (id & (d & Hd & E1 & E2) & _).
  - unfold reaches. rewrite H1. exact (conj Es (conj H2 (conj H3 H4))).
  - exists id, d. rewrite <- H1. exact (conj Hd (conj E1 E2)).
Defined.

Lemma ClaimDue_leases_witness : exists c claims st',
  ClaimDue wh_cipher ∅ 50 DefaultLease (mkUse wh_db2 [] 0 0) = Ok (c :: claims, st') /\
  exists d, deliveries wh_db2 !! c_DeliveryID c = Some d /\
    deliveries (u_db st') !! c_DeliveryID c = Some (lease_row (5000000 + DefaultLease) d).
Proof.
  destruct (ClaimDue wh_cipher ∅ 50 DefaultLease (mkUse wh_db2 [] 0 0)) as [[cs st']|e] eqn:E;
    [|exfalso; vm_compute in E; discriminate E].
  destruct cs as [|c cs]; [exfalso; vm_compute in E; discriminate E|].
  exists c, cs, st'. split; [reflexivity|].
  destruct (ClaimDue_leases wh_cipher (mkWorld wh_db2 []) ∅ 50 DefaultLease (mkUse wh_db2 [] 0 0) (c :: cs) st'
    wh_db2_reach eq_refl E) as (_ & _ & _ & _ & _ & Hc).
  destruct (Hc c (proj2 (elem_of_cons cs c c) (or_introl eq_refl))) as (d & Hd & _ & _ & _ & Hl & _).
  exists d. exact (conj Hd Hl).
Defined.





(** The secret is rotated, the delivery claimed and attempted within the second:
    the receivers of either secret accept it. *)
Definition wh_rotation : result error ((bytes * time) * UseState WebhookDB) :=
  RotateSecret wh_cipher (replicate 32 2) wh_nonce 7 9010 (mkUse wh_db2 [] 30 0).
Definition wh_st3 : UseState WebhookDB :=
  match wh_rotation with Ok (_, st') => st' | Err _ => mkUse wh_db2 [] 0 0 end.
Definition wh_claims : list ClaimedDelivery :=
  match ClaimDue wh_cipher ∅ 50 DefaultLease (mkUse (u_db wh_st3) [] 0 0) with Ok (cs, _) => cs | Err _ => [] end.

Lemma wh_open_seal key nonce p a : Open key nonce (Seal key nonce p a) a = Some p.
Proof. exact (demo_open_seal a p). Qed.

Lemma rotation_grace_witness : exists secret old c header,
  c ∈ wh_claims /\ header = signature_header c 5000000 5000000 /\ secret <> old /\
  VerifyAt secret header (c_Payload c) 0 DefaultTolerance = Ok tt /\
  VerifyAt old header (c_Payload c) 0 DefaultTolerance = Ok tt.
Proof.
  destruct wh_rotation as [[[secret expires] st']|] eqn:Er; [|exfalso; vm_compute in Er; discriminate Er].
  assert (Es : st' = wh_st3) by (unfold wh_st3; rewrite Er; reflexivity). subst st'.
  destruct (subscriptions wh_db2 !! 9010) as [s0|] eqn:E0; [|exfalso; vm_compute in E0; discriminate E0].
  destruct (scanSubscription wh_cipher s0) as [so|] eqn:Eo.
  2:{ exfalso. vm_compute in E0. injection E0 as <-. vm_compute in Eo. discriminate Eo. }
  assert (Hso : sub_Secret so <> [] /\ secret <> sub_Secret so).
  { clear -E0 Eo Er. vm_compute in E0. injection E0 as <-. vm_compute in Eo. injection Eo as <-.
    vm_compute in Er. injection Er as <- _. split; vm_compute; discriminate. }
  destruct Hso as [Hold Hdiff].
  destruct (ClaimDue wh_cipher ∅ 50 DefaultLease (mkUse (u_db wh_st3) [] 0 0)) as [[cs st3]|] eqn:Ec;
    [|exfalso; vm_compute in Ec; discriminate Ec].
  assert (Hcs : wh_claims = cs) by (unfold wh_claims; rewrite Ec; reflexivity).
  destruct cs as [|c cs]; [exfalso; vm_compute in Ec; discriminate Ec|].
  assert (Hsub : c_SubscriptionID c = 9010) by (clear -Ec; vm_compute in Ec; injection Ec as <- _ _; reflexivity).
  assert (Hx : expires = 5000000 + RotationGrace) by (clear -Er; vm_compute in Er; injection Er as _ <- ; reflexivity).
  exists secret, (sub_Secret so), c, (signature_header c 5000000 5000000).
  destruct (rotation_grace wh_cipher wh_open_seal (mkWorld wh_db2 []) (replicate 32 2) wh_nonce
    7 9010 (mkUse wh_db2 [] 30 0) s0 so secret expires wh_st3 (mkUse (u_db wh_st3) [] 0 0) ∅ 50 DefaultLease
    (c :: cs) st3 c 5000000 0 DefaultTolerance wh_db2_reach eq_refl) as (_ & Hnew & Hgrace & _).
  - intros n Hn. injection Hn as <-. reflexivity.
  - exact E0.
  - exact Eo.
  - exact Hold.
  - exact Er.
  - reflexivity.
  - exact Ec.
  - exact (proj2 (elem_of_cons cs c c) (or_introl eq_refl)).
  - exact Hsub.
  - split; vm_compute; discriminate.
  - split; vm_compute; reflexivity.
  - vm_compute; discriminate.
  - split; [rewrite Hcs; exact (proj2 (elem_of_cons cs c c) (or_introl eq_refl))|].
    split; [reflexivity|]. split; [exact Hdiff|]. split; [exact Hnew|].
    apply Hgrace. rewrite Hx. vm_compute. reflexivity.
Defined.
