(* ===== verification/Base64Url.v ===== *)
(** * Unpadded URL base64 and the wire form of cursors

    [base64.RawURLEncoding], used for the [x] of a JWK and for pagination
    cursors, and [Cursor.Encode] and [DecodeCursor] of
    [libs/go/httpx/httpx.go]. *)

From Stdlib Require Import Ascii String ZArith Lia.
From S2P Require Import Prelude Strconv LedgerDomain Httpx Signature Keycrypt.
Local Open Scope Z_scope.

Definition url_char (n : Z) : ascii :=
  if n =? 62 then "-"%char else if n =? 63 then "_"%char else b64_char n.

Definition url_value (c : ascii) : option Z :=
  if decide (c = "-"%char) then Some 62 else if decide (c = "_"%char) then Some 63
  else v ← b64_value c; if v <? 62 then Some v else None.

Fixpoint rawurl_encode (s : bytes) : bytes :=
  match s with
  | [] => []
  | [a] => let n := byte_val a * 65536 in [url_char (n / 262144); url_char (n / 4096 mod 64)]
  | [a; b] =>
      let n := byte_val a * 65536 + byte_val b * 256 in
      [url_char (n / 262144); url_char (n / 4096 mod 64); url_char (n / 64 mod 64)]
  | a :: b :: c :: rest =>
      let n := byte_val a * 65536 + byte_val b * 256 + byte_val c in
      url_char (n / 262144) :: url_char (n / 4096 mod 64) :: url_char (n / 64 mod 64)
      :: url_char (n mod 64) :: rawurl_encode rest
  end.

Fixpoint rawurl_quanta (s : bytes) : option bytes :=
  match s with
  | [] => Some []
  | [_] => None
  | [a; b] => w ← url_value a; x ← url_value b; Some [char_of ((w * 64 + x) / 16)]
  | [a; b; c] =>
      w ← url_value a; x ← url_value b; y ← url_value c;
      let n := w * 4096 + x * 64 + y in Some [char_of (n / 1024); char_of (n / 4 mod 256)]
  | a :: b :: c :: d :: rest =>
      w ← url_value a; x ← url_value b; y ← url_value c; z ← url_value d;
      let n := w * 262144 + x * 4096 + y * 64 + z in
      tail ← rawurl_quanta rest;
      Some (char_of (n / 65536) :: char_of (n / 256 mod 256) :: char_of (n mod 256) :: tail)
  end.

(** The decoder skips line breaks. *)
Definition rawurl_decode (s : bytes) : option bytes :=
  rawurl_quanta (filter (fun c => c <> "010"%char /\ c <> "013"%char) s).

(** ** Round trip *)

Lemma url_value_char n : 0 <= n < 64 -> url_value (url_char n) = Some n.
Proof.
  intros Hn. assert (n ∈ seqZ 0 64) as Hin by (apply elem_of_seqZ; lia).
  revert Hin. clear Hn. revert n. apply Forall_forall. by repeat constructor.
Qed.

Lemma url_char_plain n : 0 <= n < 64 -> url_char n <> "010"%char /\ url_char n <> "013"%char.
Proof. intros Hn%url_value_char. split; intros E; rewrite E in Hn; by vm_compute in Hn. Qed.

Lemma rawurl_quanta_encode : forall s, rawurl_quanta (rawurl_encode s) = Some s.
Proof.
  fix IH 1. intros [|a [|b [|c rest]]]; [done| | |].
  - pose proof (byte_val_range a) as Ha. cbn [rawurl_encode rawurl_quanta].
    rewrite !url_value_char by (Z.div_mod_to_equations; lia). cbn [mbind option_bind].
    do 2 f_equal. rewrite <- (char_of_byte a) at 3. f_equal. Z.div_mod_to_equations. lia.
  - pose proof (byte_val_range a) as Ha. pose proof (byte_val_range b) as Hb. cbn [rawurl_encode rawurl_quanta].
    set (n := byte_val a * 65536 + byte_val b * 256).
    assert (Hn : 0 <= n < 16777216) by (subst n; lia). destruct (sextets n Hn) as (H1 & H2 & H3 & _).
    rewrite !url_value_char by done. cbn [mbind option_bind]. cbv zeta.
    assert (E1 : (n / 262144 * 4096 + n / 4096 mod 64 * 64 + n / 64 mod 64) / 1024 = byte_val a)
      by (subst n; Z.div_mod_to_equations; lia).
    assert (E2 : (n / 262144 * 4096 + n / 4096 mod 64 * 64 + n / 64 mod 64) / 4 mod 256 = byte_val b)
      by (subst n; Z.div_mod_to_equations; lia).
    rewrite E1, E2. by rewrite !char_of_byte.
  - cbn [rawurl_encode rawurl_quanta]. set (n := byte_val a * 65536 + byte_val b * 256 + byte_val c).
    destruct (octets (byte_val a) (byte_val b) (byte_val c)) as (Hn & Hx & Hy & Hz);
      try apply byte_val_range. fold n in Hn, Hx, Hy, Hz.
    destruct (sextets n Hn) as (H1 & H2 & H3 & H4 & Hs).
    rewrite !url_value_char by done. cbn [mbind option_bind]. cbv zeta. rewrite IH. cbn [mbind option_bind].
    rewrite Hs, Hx, Hy, Hz. by rewrite !char_of_byte.
Qed.

Lemma rawurl_encode_plain : forall s, Forall (fun c => c <> "010"%char /\ c <> "013"%char) (rawurl_encode s).
Proof.
  fix IH 1. intros [|a [|b [|c rest]]]; cbn [rawurl_encode]; [constructor| | |].
  - pose proof (byte_val_range a) as Ha.
    repeat (apply Forall_cons_2; [apply url_char_plain; Z.div_mod_to_equations; lia|]). apply Forall_nil_2.
  - pose proof (byte_val_range a) as Ha. pose proof (byte_val_range b) as Hb.
    repeat (apply Forall_cons_2; [apply url_char_plain; Z.div_mod_to_equations; lia|]). apply Forall_nil_2.
  - pose proof (byte_val_range a) as Ha. pose proof (byte_val_range b) as Hb. pose proof (byte_val_range c) as Hc.
    repeat (apply Forall_cons_2; [apply url_char_plain; Z.div_mod_to_equations; lia|]). apply IH.
Qed.

Lemma rawurl_roundtrip s : rawurl_decode (rawurl_encode s) = Some s.
Proof.
  unfold rawurl_decode. rewrite list_filter_id; [apply rawurl_quanta_encode|].
  intros c Hc. pose proof (rawurl_encode_plain s) as Hall. by eapply Forall_forall in Hall.
Qed.

(** ** Cursors *)

(** [uuid.Parse] and [time.Parse(time.RFC3339Nano, _)]. *)
Class Parsers : Type := { uuid_Parse : string -> option uuid; time_Parse : string -> option time }.

Section Cursor.
Context `{Render, Parsers}.

Definition Encode (c : Cursor) : string :=
  string_of_list_ascii (rawurl_encode
    (list_ascii_of_string (rfc3339nano (c_CreatedAt c)) ++ "|"%char :: list_ascii_of_string (uuid_String (c_ID c)))).

(** The empty text is the first page; [SplitN(raw, "|", 2)] cuts at the first
    bar. *)
Definition DecodeCursor (s : string) : option Cursor :=
  if decide (s = ""%string) then Some zero_cursor
  else
    raw ← rawurl_decode (list_ascii_of_string s);
    '(ts, id) ← Cut "|"%char raw;
    createdAt ← time_Parse (string_of_list_ascii ts);
    id ← uuid_Parse (string_of_list_ascii id);
    Some (mkCursor createdAt id).

Lemma Cut_first sep a b : sep ∉ a -> Cut sep (a ++ sep :: b) = Some (a, b).
Proof.
  induction a as [|c a IH]; intros Hn; cbn [Cut app].
  - by rewrite decide_True.
  - rewrite decide_False by set_solver. rewrite IH by set_solver. done.
Qed.

Lemma Encode_nonempty c : Encode c <> ""%string.
Proof.
  unfold Encode. intros E. apply (f_equal list_ascii_of_string) in E.
  rewrite list_ascii_of_string_of_list_ascii in E. apply (f_equal rawurl_quanta) in E.
  rewrite rawurl_quanta_encode in E. cbn in E. injection E. by destruct (list_ascii_of_string _).
Qed.

(** A cursor handed to a client comes back as itself, when the formats of times
    and ids are parsed back and a formatted time holds no bar. *)
Lemma cursor_roundtrip c :
  time_Parse (rfc3339nano (c_CreatedAt c)) = Some (c_CreatedAt c) ->
  "|"%char ∉ list_ascii_of_string (rfc3339nano (c_CreatedAt c)) ->
  uuid_Parse (uuid_String (c_ID c)) = Some (c_ID c) ->
  DecodeCursor (Encode c) = Some c.
Proof.
  intros Ht Hbar Hid. unfold DecodeCursor. rewrite decide_False by apply Encode_nonempty.
  unfold Encode. rewrite list_ascii_of_string_of_list_ascii, rawurl_roundtrip. cbn [mbind option_bind].
  rewrite Cut_first by done. cbn [mbind option_bind]. rewrite !string_of_list_ascii_of_string, Ht.
  cbn [mbind option_bind]. rewrite Hid. by destruct c.
Qed.
End Cursor.
