(* ===== verification/Ident.v ===== *)
(** * Authentication and authorization: [libs/go/ident/ident.go]

    Scopes, the JWKS cache and the two middlewares every service mounts. The JWT
    library is a class: what it signs and what it accepts. HTTP and JSON are
    arguments: the headers of a request, the decoded JWKS document. *)

From Stdlib Require Import Ascii String ZArith Lia.
From S2P Require Import Prelude Strconv Errors LedgerDomain Httpx Signature Keycrypt Base64Url Webhooks.
Local Open Scope Z_scope.

Definition EnvSandbox : string := "sandbox".
Definition EnvLive : string := "live".

Definition ScopeWildcard : string := "*".
Definition ScopeLedgerRead : string := "ledger:read".
Definition ScopeLedgerWrite : string := "ledger:write".
Definition ScopeReconRead : string := "reconciliation:read".
Definition ScopeReconWrite : string := "reconciliation:write".
Definition ScopeWebhooksRead : string := "webhooks:read".
Definition ScopeWebhooksWrite : string := "webhooks:write".

Definition AudienceLedgerCore : string := "ledger-core".
Definition AudienceReconciliation : string := "reconciliation".
Definition AudienceWebhooks : string := "webhooks".
Definition DefaultAudiences : list string := [AudienceLedgerCore; AudienceReconciliation; AudienceWebhooks].

Definition DefaultIssuer : string := "ledgercore-identity".
Definition DefaultClockSkew : Z := 60 * second.

Record Claims : Type := mkClaims {
  cl_Subject : string; cl_TenantID : uuid; cl_Environment : string; cl_Scopes : list string }.

Definition HasScope (c : Claims) (scope : string) : bool :=
  existsb (fun s => bool_decide (s = scope) || bool_decide (s = ScopeWildcard)) (cl_Scopes c).

(** ** Tokens *)

(** The payload of a token: the claims of the platform and the registered ones;
    an absent date is [None]. *)
Record tokenClaims : Type := mkTokenClaims {
  tc_TenantID : string; tc_Environment : string; tc_Scopes : list string;
  tc_Subject : string; tc_Issuer : string; tc_Audience : list string;
  tc_IssuedAt : option time; tc_ExpiresAt : option time; tc_NotBefore : option time; tc_ID : string }.

(** The parser options the middleware builds. *)
Record ParserOptions : Type := mkParserOptions {
  po_ValidMethods : list string; po_ExpirationRequired : bool; po_IssuedAt : bool; po_Leeway : Z;
  po_Issuer : option string; po_Audience : option string }.

(** [golang-jwt]: [SignedString] with an Ed25519 private key, a [kid] header and
    claims, and [ParseWithClaims] at an instant with a key function from the
    [kid] header (empty when absent). *)
Class Jwt : Type := {
  SignedString : bytes -> string -> tokenClaims -> option string;
  ParseWithClaims : ParserOptions -> time -> string -> (string -> option bytes) -> option tokenClaims;
  NewNumericDate : time -> time
}.

(** What the options accept about the claims of a token. *)
Definition claims_valid (opts : ParserOptions) (now : time) (tc : tokenClaims) : Prop :=
  match tc_ExpiresAt tc with
  | Some e => now < e + po_Leeway opts
  | None => po_ExpirationRequired opts = false
  end /\
  match tc_IssuedAt tc with
  | Some i => po_IssuedAt opts = true -> i - po_Leeway opts <= now
  | None => True
  end /\
  match tc_NotBefore tc with Some n => n - po_Leeway opts <= now | None => True end /\
  match po_Issuer opts with Some iss => tc_Issuer tc = iss | None => True end /\
  match po_Audience opts with Some aud => aud ∈ tc_Audience tc | None => True end.

(** ** The JWKS cache *)

Record jwk : Type := mkJwk { k_Kty : string; k_Crv : string; k_Kid : string; k_X : string }.

Record jwksCache : Type := mkJwksCache { ck_keys : gmap string bytes; ck_fetchedAt : option time }.

Definition newJWKSCache : jwksCache := mkJwksCache ∅ None.
Definition refreshEvery : Z := 5 * minute.
Definition PublicKeySize : nat := 32.

(** The answer of the JWKS endpoint: a status and the decoded document, absent
    when the request or the JSON fails. *)
Inductive jwks_response : Type :=
| FetchFailed
| Fetched (status : Z) (doc : option (list jwk)).

(** The key of a usable entry of the document. *)
Definition jwk_key (k : jwk) : option bytes :=
  if bool_decide (k_Kty k <> "OKP"%string) || bool_decide (k_Crv k <> "Ed25519"%string)
     || bool_decide (k_Kid k = ""%string) then None
  else
    raw ← rawurl_decode (list_ascii_of_string (k_X k));
    if (length raw =? PublicKeySize)%nat then Some raw else None.

Definition jwk_step (keys : gmap string bytes) (k : jwk) : gmap string bytes :=
  match jwk_key k with Some raw => <[k_Kid k := raw]> keys | None => keys end.

(** [fetch]: the new cache, or none when it is left as it was. *)
Definition fetch (resp : jwks_response) (now : time) : option jwksCache :=
  match resp with
  | FetchFailed => None
  | Fetched status doc =>
      if negb (status =? 200) then None
      else
        doc ← doc;
        let keys := fold_left jwk_step doc ∅ in
        if decide (keys = ∅) then None else Some (mkJwksCache keys (Some now))
  end.

Definition is_fresh (c : jwksCache) (now : time) : bool :=
  match ck_fetchedAt c with Some t => now - t <? refreshEvery | None => false end.

(** [key]: the key of [kid] and the cache afterwards. *)
Definition key (c : jwksCache) (kid : string) (now : time) (resp : jwks_response)
  : option bytes * jwksCache :=
  match ck_keys c !! kid with
  | Some k =>
      if is_fresh c now then (Some k, c)
      else match fetch resp now with
           | None => (Some k, c)
           | Some c' => (ck_keys c' !! kid, c')
           end
  | None =>
      match fetch resp now with
      | None => (None, c)
      | Some c' => (ck_keys c' !! kid, c')
      end
  end.

(** ** The middlewares *)

Record AuthConfig : Type := mkAuthConfig {
  ac_AuthDisabled : bool; ac_ExpectedIssuer : string; ac_ExpectedAudience : string; ac_ClockSkew : Z }.

(** The headers the middleware reads; an absent header is empty. *)
Record AuthHeaders : Type := mkAuthHeaders { h_TenantId : string; h_Authorization : string }.

(** An error response, or the request passed on with its claims. *)
Inductive auth_result : Type :=
| AuthError (status : Z) (code msg : string)
| Next (c : Claims).

Definition unauthorized (msg : string) : auth_result := AuthError 401 "unauthorized" msg.

Section Middleware.
Context `{Parsers, Jwt}.

Definition skew_of (cfg : AuthConfig) : Z :=
  if ac_ClockSkew cfg <=? 0 then DefaultClockSkew else ac_ClockSkew cfg.

Definition parserOpts (cfg : AuthConfig) : ParserOptions :=
  mkParserOptions ["EdDSA"%string] true true (skew_of cfg)
    (if decide (ac_ExpectedIssuer cfg = ""%string) then None else Some (ac_ExpectedIssuer cfg))
    (if decide (ac_ExpectedAudience cfg = ""%string) then None else Some (ac_ExpectedAudience cfg)).

Definition RequireAuth (authDisabled : bool) : AuthConfig := mkAuthConfig authDisabled DefaultIssuer "" 0.

Definition bearer : string := "Bearer ".

(** [RequireAuthConfig]; [lookup] is the [key] of the cache for a non-empty
    [kid]. *)
Definition RequireAuthConfig (cfg : AuthConfig) (now : time) (lookup : string -> option bytes)
  (r : AuthHeaders) : auth_result :=
  if ac_AuthDisabled cfg then
    if decide (h_TenantId r = ""%string)
    then unauthorized "X-Tenant-Id header is required when auth is disabled"
    else match uuid_Parse (h_TenantId r) with
         | None => unauthorized "X-Tenant-Id must be a valid UUID"
         | Some tenantID => Next (mkClaims "dev" tenantID EnvSandbox ["*"%string])
         end
  else if negb (String.prefix bearer (h_Authorization r))
  then unauthorized "Authorization: Bearer token is required"
  else
    let tokenString :=
      TrimSpace (substring (String.length bearer) (String.length (h_Authorization r) - String.length bearer)
                   (h_Authorization r)) in
    match ParseWithClaims (parserOpts cfg) now tokenString
            (fun kid => if decide (kid = ""%string) then None else lookup kid) with
    | None => unauthorized "token is invalid or expired"
    | Some tc =>
        if decide (TrimSpace (tc_Subject tc) = ""%string)
        then unauthorized "token subject (sub) is required"
        else match uuid_Parse (tc_TenantID tc) with
             | None => unauthorized "token tenant_id claim is not a UUID"
             | Some tenantID =>
                 if decide (tc_Environment tc <> EnvSandbox /\ tc_Environment tc <> EnvLive)
                 then unauthorized "token env claim must be sandbox or live"
                 else Next (mkClaims (tc_Subject tc) tenantID (tc_Environment tc) (tc_Scopes tc))
             end
    end.
End Middleware.

(** [RequireScope] on the claims in the context. *)
Definition RequireScope (scope : string) (claims : option Claims) : auth_result :=
  match claims with
  | None => AuthError 401 "unauthorized" "authentication is required"
  | Some c =>
      if HasScope c scope then Next c
      else AuthError 403 "forbidden" ("token is missing the required scope " +:+ scope)
  end.

(** A route of a service: authentication, then the scope of the route. *)
Definition authorize `{Parsers, Jwt} (cfg : AuthConfig) (scope : string) (now : time)
  (lookup : string -> option bytes) (r : AuthHeaders) : auth_result :=
  match RequireAuthConfig cfg now lookup r with
  | Next c => RequireScope scope (Some c)
  | e => e
  end.
