(* ===== verification/Identity.v ===== *)
(** * Identity domain: [services/identity/internal/domain] and the pure parts of
    [services/identity/internal/app]

    Tenants and slugs, API keys and their secrets, signing keys, scopes. SHA-256,
    Ed25519 with its PEM encodings and address parsing are class operations;
    random bytes are arguments. *)

From Stdlib Require Import Ascii String ZArith Lia.
From S2P Require Import Prelude Strconv Errors LedgerDomain LedgerEvents Httpx TxMonad Signature Keycrypt.
From S2P Require Import Base64Url Webhooks Ident.
Local Open Scope Z_scope.

Class Sha256 : Type := { Sum256 : string -> bytes }.

(** ** Tenants: [domain/tenant.go] *)

Inductive TenantStatus : Type := TenantActive | TenantSuspended | TenantPurging | TenantPurged.
#[export] Instance TenantStatus_eq_dec : EqDecision TenantStatus.
Proof. solve_decision. Defined.

Record Tenant : Type := mkTenant {
  tn_ID : uuid; tn_Name : string; tn_Slug : string; tn_Status : TenantStatus; tn_CreatedAt : time;
  tn_ExpiresAt : option time }.

Definition Active (t : Tenant) : bool := bool_decide (tn_Status t = TenantActive).

Definition MaxSlugLength : nat := 100.

Definition slug_char (c : ascii) : bool :=
  let v := byte_val c in ((97 <=? v) && (v <=? 122)) || ((48 <=? v) && (v <=? 57)).

(** [slugPattern]: [^\[a-z0-9\]+(?:-\[a-z0-9\]+)*$] from a point where the last
    character was a letter or digit, or not. *)
Fixpoint slugPattern (after_char : bool) (s : list ascii) : bool :=
  match s with
  | [] => after_char
  | c :: rest =>
      if slug_char c then slugPattern true rest
      else bool_decide (c = "-"%char) && after_char && slugPattern false rest
  end.

Definition ValidSlug (s : string) : bool :=
  bool_decide (s <> ""%string) && (String.length s <=? MaxSlugLength)%nat
  && slugPattern false (list_ascii_of_string s).

Definition ValidEnvironment (s : string) : bool :=
  bool_decide (s = EnvSandbox) || bool_decide (s = EnvLive).

(** ** API keys: [domain/apikey.go] *)

Definition SecretRandomLength : nat := 32.
Definition KeyPrefixLength : nat := 12.
Definition base62Alphabet : list ascii :=
  list_ascii_of_string "0123456789ABCDEFGHIJKLMNOPQRSTUVWXYZabcdefghijklmnopqrstuvwxyz".

Record APIKey : Type := mkAPIKey {
  key_ID : uuid; key_TenantID : uuid; key_Environment : string; key_Name : string; key_Prefix : string;
  key_SecretHash : bytes; key_Scopes : list string; key_CreatedAt : time; key_RevokedAt : option time }.

Definition Revoked (k : APIKey) : bool := bool_decide (is_Some (key_RevokedAt k)).

Definition base62_char (b : Z) : ascii := nth (Z.to_nat (b mod 62)) base62Alphabet "0"%char.

(** [randomBase62]: [reads] are the successive results of [rand.Read] on the
    buffer; running out of them is its error. *)
Fixpoint take_accepted (n : nat) (buf : list Z) : list ascii :=
  match n, buf with
  | O, _ | _, [] => []
  | S n', b :: rest => if 248 <=? b then take_accepted n rest else base62_char b :: take_accepted n' rest
  end.

Fixpoint randomBase62 (n : nat) (reads : list (list Z)) : option (list ascii) :=
  match n with
  | O => Some []
  | S _ =>
      match reads with
      | [] => None
      | buf :: rest =>
          let got := take_accepted n buf in
          tail ← randomBase62 (n - length got) rest;
          Some (got ++ tail)
      end
  end.

Definition NewAPIKeySecret (reads : list (list Z)) (environment : string) : result error string :=
  if negb (ValidEnvironment environment) then Err ErrOther
  else match randomBase62 SecretRandomLength reads with
       | None => Err ErrOther
       | Some random => Ok ("lk_" +:+ environment +:+ "_" +:+ string_of_list_ascii random)%string
       end.

Definition PrefixOf (secret : string) : string :=
  if (String.length secret <? KeyPrefixLength)%nat then secret else substring 0 KeyPrefixLength secret.

Section Secrets.
Context `{Sha256}.

Definition HashSecret (secret : string) : bytes := Sum256 secret.

Definition VerifySecret (k : APIKey) (secret : string) : bool :=
  bool_decide (HashSecret secret = key_SecretHash k).
End Secrets.

(** ** Signing keys: [domain/signingkey.go] *)

Definition AlgorithmEdDSA : string := "EdDSA".

Record SigningKey : Type := mkSigningKey {
  sk_Kid : uuid; sk_PrivateKeyPEM : bytes; sk_PublicKeyPEM : bytes; sk_Algorithm : string;
  sk_CreatedAt : time; sk_Active : bool }.

(** [crypto/ed25519], [crypto/x509] and [encoding/pem]: a fresh pair as PEM
    texts, and the keys decoded from them. *)
Class Ed25519 : Type := {
  GenerateKeyPEM : nat -> option (bytes * bytes);        (* private, public, per random draw *)
  ParsePrivatePEM : bytes -> option bytes;
  ParsePublicPEM : bytes -> option bytes
}.

(** ** Scopes and slugs: [app/service.go] *)

Definition DefaultScopes : list string :=
  [ScopeLedgerRead; ScopeLedgerWrite; ScopeReconRead; ScopeReconWrite; ScopeWebhooksRead; ScopeWebhooksWrite].

Definition AllowedScopes (s : string) : bool := bool_decide (s ∈ DefaultScopes).

Fixpoint normalize_scopes_from (seen : gset string) (requested : list string) : option (list string) :=
  match requested with
  | [] => Some []
  | s :: rest =>
      let s := TrimSpace s in
      if negb (AllowedScopes s) then None
      else if decide (s ∈ seen) then normalize_scopes_from seen rest
      else out ← normalize_scopes_from ({[ s ]} ∪ seen) rest; Some (s :: out)
  end.

Definition normalizeScopes (requested : list string) : result error (list string) :=
  match requested with
  | [] => Ok DefaultScopes
  | _ :: _ => match normalize_scopes_from ∅ requested with Some out => Ok out | None => Err ErrValidation end
  end.

(** The runes of [slugify], byte by byte: every byte of a character outside
    ASCII separates, as the character does; the two letters outside ASCII whose
    lower case is an ASCII letter are not modelled. *)
Fixpoint slug_runes (prevHyphen : bool) (s : list ascii) : list ascii :=
  match s with
  | [] => []
  | c :: rest =>
      if slug_char c then c :: slug_runes false rest
      else if prevHyphen then slug_runes true rest else "-"%char :: slug_runes true rest
  end.

(** [strings.Trim(s, "-")]. *)
Fixpoint trim_hyphens_left (s : list ascii) : list ascii :=
  match s with
  | c :: rest => if decide (c = "-"%char) then trim_hyphens_left rest else s
  | [] => []
  end.
Definition trim_hyphens (s : list ascii) : list ascii :=
  rev (trim_hyphens_left (rev (trim_hyphens_left s))).

Definition slugify_bytes (name : list ascii) : list ascii :=
  let s := trim_hyphens (slug_runes true (ToLowerBytes name)) in
  if (100 <? length s)%nat then trim_hyphens (take 100 s) else s.

Definition slugify (name : string) : string :=
  string_of_list_ascii (slugify_bytes (list_ascii_of_string name)).

(** The slug of a sandbox: the slug of the company, cut to leave room, and the
    first six hexadecimal digits of the tenant id: [app/sandbox.go]. *)
Definition id_suffix `{Render} (id : uuid) : list ascii :=
  take 6 (ToLowerBytes (filter (fun c => c <> "-"%char) (list_ascii_of_string (uuid_String id)))).

Definition sandbox_slug `{Render} (companyName : string) (tenantID : uuid) : string :=
  let base := slugify_bytes (list_ascii_of_string companyName) in
  let base := if decide (base = []) then list_ascii_of_string "sandbox" else base in
  let slug := if (MaxSlugLength - 7 <? length base)%nat then trim_hyphens (take (MaxSlugLength - 7) base) else base in
  string_of_list_ascii (slug ++ "-"%char :: id_suffix tenantID).
