(* ===== verification/IdentitySlug.v ===== *)
(** * Slugs of tenants

    The pattern of a slug against its grammar, and that what [slugify] and the
    sandbox signup derive is a slug. *)

From Stdlib Require Import Ascii String ZArith Lia.
From S2P Require Import Prelude Strconv Errors LedgerDomain Signature Ident Identity.
Local Open Scope Z_scope.

Implicit Types s t : list ascii.

Lemma hyphen_no_char : slug_char "-"%char = false.
Proof. done. Qed.

Lemma slug_char_hyphen c : slug_char c = true -> c <> "-"%char.
Proof. by intros Hc ->. Qed.

(** ** The grammar *)

Fixpoint join_hyphens (parts : list (list ascii)) : list ascii :=
  match parts with
  | [] => []
  | [p] => p
  | p :: rest => p ++ "-"%char :: join_hyphens rest
  end.

(** A part: a nonempty run of letters and digits. *)
Definition word s : Prop := s <> [] /\ Forall (fun c => slug_char c = true) s.

Lemma slugPattern_run b s t :
  Forall (fun c => slug_char c = true) s -> slugPattern b (s ++ t) = slugPattern (b || bool_decide (s <> [])) t.
Proof.
  revert b. induction s as [|c s IH]; intros b Hs.
  - by rewrite bool_decide_eq_false_2, orb_false_r by naive_solver.
  - apply Forall_cons in Hs as [Hc Hs]. cbn [slugPattern app]. rewrite Hc, IH by done. cbn [orb].
    by rewrite (bool_decide_eq_true_2 (c :: s <> [])), orb_true_r.
Qed.

Lemma slugPattern_word b s : word s -> slugPattern b s = true.
Proof.
  intros [Hne Hs]. rewrite <- (app_nil_r s), slugPattern_run by done. cbn.
  by rewrite bool_decide_eq_true_2, orb_true_r.
Qed.

Lemma slugPattern_join parts : parts <> [] -> Forall word parts -> slugPattern false (join_hyphens parts) = true.
Proof.
  induction parts as [|p [|q parts] IH]; intros Hne Hp; [done| |].
  - apply Forall_cons in Hp as [Hp _]. by apply slugPattern_word.
  - apply Forall_cons in Hp as [[Hne' Hp] Hps]. cbn [join_hyphens].
    rewrite slugPattern_run by done. cbn [slugPattern]. rewrite hyphen_no_char.
    rewrite (bool_decide_eq_true_2 (p <> [])), bool_decide_eq_true_2 by done. by apply IH.
Qed.

(** From a point after [acc], a run of letters and digits, a match splits into
    parts. *)
Lemma slugPattern_split acc s :
  Forall (fun c => slug_char c = true) acc -> slugPattern (bool_decide (acc <> [])) s = true ->
  exists parts, parts <> [] /\ Forall word parts /\ acc ++ s = join_hyphens parts.
Proof.
  revert acc. induction s as [|c s IH]; intros acc Hacc Hs; cbn [slugPattern] in Hs.
  - apply bool_decide_eq_true in Hs. exists [acc]. split; [done|].
    split; [by repeat constructor|]. by rewrite app_nil_r.
  - destruct (slug_char c) eqn:Hc.
    + destruct (IH (acc ++ [c])) as (parts & ? & ? & E).
      * apply Forall_app. split; [done|]. by repeat constructor.
      * rewrite bool_decide_eq_true_2; [done|]. by destruct acc.
      * exists parts. split; [done|]. split; [done|]. by rewrite <- E, <- app_assoc.
    + apply andb_true_iff in Hs as [[Hc'%bool_decide_eq_true Hne%bool_decide_eq_true]%andb_true_iff Hs]. subst c.
      destruct (IH [] ltac:(done) Hs) as ([|p parts] & Hp & Hw & E); [done|].
      exists (acc :: p :: parts). split; [done|]. split; [by apply Forall_cons|].
      cbn [app] in E. by rewrite E.
Qed.

Lemma slugPattern_grammar s :
  slugPattern false s = true <-> exists parts, parts <> [] /\ Forall word parts /\ s = join_hyphens parts.
Proof.
  split; [by apply (slugPattern_split [])|]. intros (parts & Hne & Hw & ->). by apply slugPattern_join.
Qed.

(** ** Runs with single hyphens

    [slugPattern] but for a last hyphen. *)

Fixpoint single_hyphens (after_char : bool) (s : list ascii) : bool :=
  match s with
  | [] => true
  | c :: rest =>
      if slug_char c then single_hyphens true rest
      else bool_decide (c = "-"%char) && after_char && single_hyphens false rest
  end.

Lemma slug_runes_single prevHyphen s : single_hyphens (negb prevHyphen) (slug_runes prevHyphen s) = true.
Proof.
  revert prevHyphen. induction s as [|c s IH]; intros p; [done|]. cbn [slug_runes].
  destruct (slug_char c) eqn:Hc; [cbn [single_hyphens]; rewrite Hc; apply (IH false)|].
  destruct p; [apply (IH true)|]. cbn [single_hyphens]. rewrite hyphen_no_char, bool_decide_eq_true_2 by done.
  apply (IH true).
Qed.

Lemma single_take b n s : single_hyphens b s = true -> single_hyphens b (take n s) = true.
Proof.
  revert b n. induction s as [|c s IH]; intros b [|n] Hs; [done..|]. cbn [take single_hyphens] in *.
  destruct (slug_char c); [by apply IH|]. rewrite !andb_true_iff in *. destruct Hs as [Hs Hr]. split; [done|by apply IH].
Qed.

Lemma single_last b s c :
  single_hyphens b (s ++ [c]) = true ->
  (slug_char c = true /\ slugPattern b (s ++ [c]) = true) \/ (c = "-"%char /\ slugPattern b s = true).
Proof.
  revert b. induction s as [|d s IH]; intros b Hs; cbn [single_hyphens slugPattern app] in *.
  - destruct (slug_char c) eqn:Hc; [by left|]. rewrite !andb_true_iff, bool_decide_eq_true in Hs. right. tauto.
  - destruct (slug_char d) eqn:Hd; [by apply IH|].
    rewrite !andb_true_iff in Hs. destruct Hs as [[-> ->] Hs]. cbn [andb]. by apply IH.
Qed.

Lemma pattern_first s : slugPattern false s = true -> exists c r, s = c :: r /\ slug_char c = true.
Proof.
  destruct s as [|c r]; [done|]. cbn [slugPattern]. destruct (slug_char c) eqn:Hc; [eauto|].
  by rewrite andb_false_r.
Qed.

Lemma pattern_last b s c : slugPattern b (s ++ [c]) = true -> slug_char c = true.
Proof.
  revert b. induction s as [|d s IH]; intros b Hs; cbn [slugPattern app] in Hs.
  - destruct (slug_char c); [done|]. by rewrite andb_false_r in Hs.
  - destruct (slug_char d); [by eapply IH|]. apply andb_true_iff in Hs as [_ Hs]. by eapply IH.
Qed.

Lemma trim_slug_id c s : slug_char c = true -> trim_hyphens_left (c :: s) = c :: s.
Proof. intros Hc. cbn. by rewrite decide_False by (by apply slug_char_hyphen). Qed.

Lemma trim_right_id b s : slugPattern b s = true -> rev (trim_hyphens_left (rev s)) = s.
Proof.
  intros Hs. destruct s as [|c s _] using rev_ind; [done|].
  rewrite rev_app_distr. cbn [rev app]. rewrite trim_slug_id by (by eapply pattern_last).
  cbn [rev]. by rewrite rev_involutive.
Qed.

Lemma trim_id s : slugPattern false s = true -> trim_hyphens s = s.
Proof.
  intros Hs. destruct (pattern_first s Hs) as (c & r & -> & Hc). unfold trim_hyphens.
  rewrite (trim_slug_id c r Hc). by eapply trim_right_id.
Qed.

(** Trimming leaves nothing or a slug. *)
Lemma trim_single s :
  single_hyphens false s = true ->
  (trim_hyphens s = [] /\ s = []) \/ (slugPattern false (trim_hyphens s) = true /\
    (length (trim_hyphens s) <= length s)%nat).
Proof.
  intros Hs. destruct s as [|c r]; [by left|]. right.
  assert (Hc : slug_char c = true).
  { cbn [single_hyphens] in Hs. destruct (slug_char c); [done|]. by rewrite andb_false_r in Hs. }
  pose proof (trim_slug_id c r Hc) as El. set (s := c :: r) in *. unfold trim_hyphens. rewrite El. clear El.
  assert (Hne : s <> []) by done. clearbody s. clear c r Hc.
  destruct s as [|d s _] using rev_ind; [done|].
  destruct (single_last false s d Hs) as [[Hd Hp]|[-> Hp]].
  - rewrite (trim_right_id false) by done. split; [done|lia].
  - rewrite rev_app_distr. cbn [rev app]. cbn [trim_hyphens_left]. rewrite decide_True by done.
    rewrite (trim_right_id false) by done. rewrite length_app. cbn. split; [done|lia].
Qed.

(** ** What [slugify] returns *)

Definition has_slug_char s : bool := existsb slug_char (ToLowerBytes s).

Lemma slug_runes_empty p s : slug_runes p s = [] -> existsb slug_char s = false.
Proof.
  revert p. induction s as [|c s IH]; intros p Hs; [done|]. cbn [slug_runes existsb] in *.
  destruct (slug_char c); [done|]. destruct p; [by eapply IH|done].
Qed.

Lemma slug_runes_none p s : existsb slug_char s = false -> slug_runes p s = [] \/ slug_runes p s = ["-"%char].
Proof.
  revert p. induction s as [|c s IH]; intros p Hs; [by left|]. cbn [slug_runes existsb] in *.
  apply orb_false_iff in Hs as [-> Hs]. destruct p; [by apply IH|]. right. f_equal.
  destruct (IH true Hs) as [->|E]; [done|]. pose proof (slug_runes_single true s) as H1. by rewrite E in H1.
Qed.

Lemma slug_runes_true_none s : existsb slug_char s = false -> slug_runes true s = [].
Proof.
  intros Hs. destruct (slug_runes_none true s Hs) as [E|E]; [done|].
  pose proof (slug_runes_single true s) as H1. by rewrite E in H1.
Qed.

(** Nothing without a letter or digit, and a slug of at most 100 characters
    otherwise. *)
Lemma slugify_bytes_ok s :
  if has_slug_char s
  then slugPattern false (slugify_bytes s) = true /\ (length (slugify_bytes s) <= 100)%nat
  else slugify_bytes s = [].
Proof.
  unfold slugify_bytes, has_slug_char. pose proof (slug_runes_single true (ToLowerBytes s)) as H1. cbn [negb] in H1.
  destruct (existsb slug_char (ToLowerBytes s)) eqn:Hs.
  - destruct (trim_single _ H1) as [[_ E]|[Hp _]]; [apply slug_runes_empty in E; congruence|].
    destruct (100 <? _)%nat eqn:El; [|split; [done|by apply Nat.ltb_ge in El]].
    apply Nat.ltb_lt in El. set (r := trim_hyphens _) in *.
    assert (Hr : single_hyphens false r = true).
    { clear -Hp. revert Hp. generalize false as b. induction r as [|c r IH]; intros b Hp; [done|].
      cbn [single_hyphens slugPattern] in *. destruct (slug_char c); [by apply IH|].
      apply andb_true_iff in Hp as [-> Hp]. by apply IH. }
    destruct (trim_single _ (single_take false 100 r Hr)) as [[_ E]|[Hp' Hl]].
    + by destruct r.
    + split; [done|]. rewrite length_take in Hl. lia.
  - rewrite slug_runes_true_none by done. done.
Qed.

Lemma lower_slug_char c : slug_char c = true -> lower_byte c = c.
Proof.
  unfold slug_char, lower_byte. rewrite orb_true_iff, !andb_true_iff, !Z.leb_le. intros Hc.
  destruct ((65 <=? byte_val c) && (byte_val c <=? 90)) eqn:E; [|done].
  rewrite andb_true_iff, !Z.leb_le in E. lia.
Qed.

Lemma pattern_lower b s : slugPattern b s = true -> ToLowerBytes s = s.
Proof.
  revert b. induction s as [|c s IH]; intros b Hs; [done|]. cbn [slugPattern ToLowerBytes map] in *.
  destruct (slug_char c) eqn:Hc.
  - rewrite lower_slug_char by done. f_equal. by eapply IH.
  - apply andb_true_iff in Hs as [[->%bool_decide_eq_true _]%andb_true_iff Hs]. cbn. f_equal. by eapply IH.
Qed.

Lemma pattern_runes b s : slugPattern b s = true -> slug_runes (negb b) s = s.
Proof.
  revert b. induction s as [|c s IH]; intros b Hs; [done|]. cbn [slugPattern slug_runes] in *.
  destruct (slug_char c) eqn:Hc; [f_equal; by apply (IH true)|].
  apply andb_true_iff in Hs as [[->%bool_decide_eq_true ->]%andb_true_iff Hs]. cbn [negb]. f_equal. by apply (IH false).
Qed.

Lemma ValidSlug_bytes s :
  ValidSlug (string_of_list_ascii s) = true <-> slugPattern false s = true /\ (length s <= 100)%nat.
Proof.
  unfold ValidSlug. rewrite list_ascii_of_string_of_list_ascii, !andb_true_iff, bool_decide_eq_true, Nat.leb_le.
  assert (El : String.length (string_of_list_ascii s) = length s)
    by (induction s; [done|cbn; by f_equal]). rewrite El. unfold MaxSlugLength.
  split; [tauto|]. intros [Hp Hl]. destruct s; [done|]. by split_and!.
Qed.

Lemma slugify_id s : slugPattern false s = true -> (length s <= 100)%nat -> slugify_bytes s = s.
Proof.
  intros Hp Hl. unfold slugify_bytes. rewrite (pattern_lower false) by done.
  pose proof (pattern_runes false s Hp) as Hr. cbn [negb] in Hr. rewrite Hr, trim_id by done. by rewrite (proj2 (Nat.ltb_ge 100 (length s))).
Qed.

Lemma pattern_word_end s t : slugPattern false s = true -> word t -> slugPattern false (s ++ "-"%char :: t) = true.
Proof.
  rewrite !slugPattern_grammar. intros (parts & Hne & Hw & ->) Ht. exists (parts ++ [t]).
  split; [by destruct parts|]. split; [by apply Forall_app; split; [|constructor]|].
  clear Hw. induction parts as [|p [|q parts] IH]; [done..|]. cbn [join_hyphens app] in *.
  rewrite <- app_assoc. cbn [app]. do 2 f_equal. by apply IH.
Qed.

Lemma pattern_single b s : slugPattern b s = true -> single_hyphens b s = true.
Proof.
  revert b. induction s as [|c s IH]; intros b Hs; [done|]. cbn [slugPattern single_hyphens] in *.
  destruct (slug_char c); [by apply IH|]. apply andb_true_iff in Hs as [-> Hs]. by apply IH.
Qed.

Section Sandbox.
Context `{Render}.

(** The slug part of a sandbox. *)
Lemma sandbox_slug_base companyName :
  exists base, slugPattern false base = true /\ (length base <= 93)%nat /\
    forall id, sandbox_slug companyName id = string_of_list_ascii (base ++ "-"%char :: id_suffix id).
Proof.
  set (b0 := if decide (slugify_bytes (list_ascii_of_string companyName) = [])
             then list_ascii_of_string "sandbox" else slugify_bytes (list_ascii_of_string companyName)).
  assert (Hp : slugPattern false b0 = true).
  { unfold b0. case_decide as Hd; [done|]. pose proof (slugify_bytes_ok (list_ascii_of_string companyName)) as Hok.
    destruct (has_slug_char _); [apply Hok|done]. }
  exists (if (93 <? length b0)%nat then trim_hyphens (take 93 b0) else b0).
  split; [|split]; [| |intros id; reflexivity].
  - destruct (93 <? length b0)%nat eqn:El; [|done]. apply Nat.ltb_lt in El.
    destruct (trim_single _ (single_take false 93 b0 (pattern_single _ _ Hp))) as [[_ E]|[Hp' _]]; [|done].
    by destruct b0.
  - destruct (93 <? length b0)%nat eqn:El; [|by apply Nat.ltb_ge in El]. apply Nat.ltb_lt in El.
    destruct (trim_single _ (single_take false 93 b0 (pattern_single _ _ Hp))) as [[-> _]|[_ Hl]]; [cbn; lia|].
    rewrite length_take in Hl. lia.
Qed.

Lemma sandbox_slug_valid companyName id :
  length (id_suffix id) = 6%nat -> Forall (fun c => slug_char c = true) (id_suffix id) ->
  ValidSlug (sandbox_slug companyName id) = true.
Proof.
  intros Hlen Hc. destruct (sandbox_slug_base companyName) as (base & Hp & Hl & ->).
  apply ValidSlug_bytes. split.
  - apply pattern_word_end; [done|]. split; [|done]. by destruct (id_suffix id).
  - rewrite length_app. cbn [length]. lia.
Qed.

(** Every slug the service makes is a slug. [ValidSlug] accepts exactly the
    texts of at most 100 bytes that are nonempty runs of lowercase letters and
    digits joined by single hyphens; [slugify] returns nothing for a name
    without a letter or digit and a valid slug for any other, and leaves valid
    slugs as they are; the slug of a sandbox is valid whatever the company's
    name, when ids print as hexadecimal digits. *)
Theorem slugs_well_formed :
  (forall id, length (id_suffix id) = 6%nat /\ Forall (fun c => slug_char c = true) (id_suffix id)) ->
  (forall s, ValidSlug (string_of_list_ascii s) = true <->
     (length s <= MaxSlugLength)%nat /\
     exists parts, parts <> [] /\ Forall word parts /\ s = join_hyphens parts) /\
  (forall name, if has_slug_char (list_ascii_of_string name)
     then ValidSlug (slugify name) = true else slugify name = ""%string) /\
  (forall slug, ValidSlug slug = true -> slugify slug = slug) /\
  (forall companyName id, ValidSlug (sandbox_slug companyName id) = true).
Proof.
  intros Hid. split_and!.
  - intros s. rewrite ValidSlug_bytes, slugPattern_grammar. unfold MaxSlugLength. tauto.
  - intros name. pose proof (slugify_bytes_ok (list_ascii_of_string name)) as Hok. unfold slugify.
    destruct (has_slug_char _); [by apply ValidSlug_bytes|by rewrite Hok].
  - intros s Hs. rewrite <- (string_of_list_ascii_of_string s) in Hs. apply ValidSlug_bytes in Hs as [Hp Hl].
    unfold slugify. rewrite slugify_id by done. apply string_of_list_ascii_of_string.
  - intros companyName id. by apply sandbox_slug_valid; apply Hid.
Qed.
End Sandbox.
