(* ===== verification/IdentityStore.v ===== *)
(** * Identity store and use cases

    [services/identity/internal/adapters/postgres] (the [identity] schema, whose
    tables span tenants) and [services/identity/internal/app]: tenants, API keys,
    token issuance, signing keys, sandbox signup and the sweeper. *)

From Stdlib Require Import Ascii String ZArith Lia.
From S2P Require Import Prelude Strconv Errors LedgerDomain LedgerEvents Httpx TxMonad Signature Keycrypt.
From S2P Require Import Base64Url Webhooks Ident Identity.
Local Open Scope Z_scope.

(** [TenantExpiredPayload] of [app/sandbox.go]. *)
Record TenantExpiredPayload : Type := mkTenantExpired {
  te_TenantID : uuid; te_Slug : string; te_ExpiresAt : time }.

Record SignupRow : Type := mkSignup { su_TenantID : uuid; su_CreatedAt : time }.

(** A row of the outbox, in insertion order. *)
Record IdOutboxRow : Type := mkIdOutbox {
  io_TenantID : uuid; io_Topic : string; io_Envelope : Envelope TenantExpiredPayload;
  io_PublishedAt : option time }.

Record IdentityDB : Type := mkIdentityDB {
  tenants : gmap uuid Tenant; api_keys : gmap uuid APIKey; signing_keys : gmap uuid SigningKey;
  sandbox_signups : gmap string SignupRow; id_outbox : list IdOutboxRow }.

Definition empty_identity : IdentityDB := mkIdentityDB ∅ ∅ ∅ ∅ [].
Definition set_tenants x (db : IdentityDB) :=
  mkIdentityDB x (api_keys db) (signing_keys db) (sandbox_signups db) (id_outbox db).
Definition set_api_keys x (db : IdentityDB) :=
  mkIdentityDB (tenants db) x (signing_keys db) (sandbox_signups db) (id_outbox db).
Definition set_signing_keys x (db : IdentityDB) :=
  mkIdentityDB (tenants db) (api_keys db) x (sandbox_signups db) (id_outbox db).
Definition set_sandbox_signups x (db : IdentityDB) :=
  mkIdentityDB (tenants db) (api_keys db) (signing_keys db) x (id_outbox db).
Definition set_id_outbox x (db : IdentityDB) :=
  mkIdentityDB (tenants db) (api_keys db) (signing_keys db) (sandbox_signups db) x.

Definition ITx := Use IdentityDB.

Definition table_rows {V} (m : gmap uuid V) : list V := map snd (map_to_list m).

(** [net/mail.ParseAddress]: the address. *)
Class MailParse : Type := { mail_ParseAddress : string -> option string }.

Section Store.
Context `{Supply, Render}.

(** ** Tenants *)

Definition insert_tenant (t : Tenant) : ITx unit :=
  db ← read;
  _ ← require (bool_decide (tenants db !! tn_ID t = None)) (ErrPg (UniqueViolation "tenants_pkey"));
  _ ← require (negb (existsb (fun t' => bool_decide (tn_Slug t' = tn_Slug t)) (table_rows (tenants db))))
        (ErrPg (UniqueViolation "tenants_slug_key"));
  write (fun db => set_tenants (<[tn_ID t := t]> (tenants db)) db).

(** The error of a statement, replaced by a sentinel. *)
Definition translate {A} (f : error -> error) (m : ITx A) : ITx A := fun st => map_err f (m st).

Definition CreateTenant_ (t : Tenant) : ITx unit :=
  translate (fun e => match e with ErrPg (UniqueViolation _) => ErrSlugConflict | _ => e end) (insert_tenant t).

Definition GetTenant (id : uuid) : ITx Tenant :=
  db ← read;
  match tenants db !! id with Some t => mret t | None => fail ErrNotFound end.

Definition tenant_key (t : Tenant) : Cursor := mkCursor (tn_CreatedAt t) (tn_ID t).

Definition ListTenants (limit : Z) (cursor : Cursor) : ITx (list Tenant) :=
  db ← read;
  mret (list_page descending tenant_key cursor (Z.to_nat limit) (table_rows (tenants db))).

(** ** API keys *)

Definition insert_api_key (k : APIKey) : ITx unit :=
  db ← read;
  _ ← require (ValidEnvironment (key_Environment k)) (ErrPg (CheckViolation "api_keys_environment_check"));
  _ ← require (bool_decide (api_keys db !! key_ID k = None)) (ErrPg (UniqueViolation "api_keys_pkey"));
  _ ← require (bool_decide (is_Some (tenants db !! key_TenantID k)))
        (ErrPg (ForeignKeyViolation "api_keys_tenant_id_fkey"));
  write (fun db => set_api_keys (<[key_ID k := k]> (api_keys db)) db).

Definition key_row (k : APIKey) (scopes : list string) : APIKey :=
  mkAPIKey (key_ID k) (key_TenantID k) (key_Environment k) (key_Name k) (key_Prefix k) (key_SecretHash k)
    scopes (key_CreatedAt k) None.

Definition CreateAPIKey_ (k : APIKey) : ITx unit := insert_api_key (key_row k (key_Scopes k)).

Definition FindAPIKeysByPrefix (prefix : string) : ITx (list APIKey) :=
  db ← read;
  mret (filter (fun k => key_Prefix k = prefix) (table_rows (api_keys db))).

Definition revoked_row (t : time) (k : APIKey) : APIKey :=
  mkAPIKey (key_ID k) (key_TenantID k) (key_Environment k) (key_Name k) (key_Prefix k) (key_SecretHash k)
    (key_Scopes k) (key_CreatedAt k) (Some t).

Definition RevokeAPIKey (id : uuid) : ITx unit :=
  t ← now;
  db ← read;
  match api_keys db !! id with
  | None => fail ErrNotFound
  | Some k =>
      match key_RevokedAt k with
      | Some _ => mret tt
      | None => write (fun db => set_api_keys (<[id := revoked_row t k]> (api_keys db)) db)
      end
  end.

(** ** Signing keys *)

Definition InsertSigningKey (k : SigningKey) : ITx unit :=
  db ← read;
  _ ← require (bool_decide (sk_Algorithm k = AlgorithmEdDSA)) (ErrPg (CheckViolation "signing_keys_algorithm_check"));
  _ ← require (bool_decide (signing_keys db !! sk_Kid k = None)) (ErrPg (UniqueViolation "signing_keys_pkey"));
  write (fun db => set_signing_keys (<[sk_Kid k := k]> (signing_keys db)) db).

Definition with_private (k : SigningKey) (pem : bytes) : SigningKey :=
  mkSigningKey (sk_Kid k) pem (sk_PublicKeyPEM k) (sk_Algorithm k) (sk_CreatedAt k) (sk_Active k).

Definition UpdateSigningKeyPrivatePEM (kid : uuid) (pem : bytes) : ITx unit :=
  db ← read;
  match signing_keys db !! kid with
  | None => fail ErrNotFound
  | Some k => write (fun db => set_signing_keys (<[kid := with_private k pem]> (signing_keys db)) db)
  end.

Definition signing_key_order (k : SigningKey) : Cursor := mkCursor (sk_CreatedAt k) (sk_Kid k).

Definition active_keys (db : IdentityDB) : list SigningKey :=
  order_rows descending signing_key_order (filter (fun k => sk_Active k = true) (table_rows (signing_keys db))).

Definition ListActiveSigningKeys : ITx (list SigningKey) := db ← read; mret (active_keys db).

(** ** Sandbox signup and sweeper: [postgres/sandbox.go] *)

Definition day : Z := 24 * hour.
(** [date_trunc('day', t)], in UTC. *)
Definition day_start (t : time) : time := t - t mod day.

Definition signups_since (t : time) (db : IdentityDB) : Z :=
  Z.of_nat (length (filter (fun p => t <= su_CreatedAt p.2) (map_to_list (sandbox_signups db)))).

Definition insert_signup (email : string) (row : SignupRow) : ITx unit :=
  db ← read;
  _ ← require (bool_decide (sandbox_signups db !! email = None)) (ErrPg (UniqueViolation "sandbox_signups_pkey"));
  _ ← require (bool_decide (is_Some (tenants db !! su_TenantID row)))
        (ErrPg (ForeignKeyViolation "sandbox_signups_tenant_id_fkey"));
  write (fun db => set_sandbox_signups (<[email := row]> (sandbox_signups db)) db).

Definition isUnique (e : error) (constraint : string) : bool := bool_decide (e = ErrPg (UniqueViolation constraint)).

(** The key of a signup is stored without its scopes: the column's default is
    the empty list. *)
Definition ProvisionSandboxTenant (email : string) (t : Tenant) (k : APIKey) (dailyLimit : Z) : ITx unit :=
  t_now ← now;
  db ← read;
  _ ← require (signups_since (day_start t_now) db <? dailyLimit) ErrSignupLimitReached;
  _ ← translate (fun e => if isUnique e "tenants_slug_key" then ErrSlugConflict else e) (insert_tenant t);
  _ ← insert_api_key (key_row k []);
  translate (fun e => if isUnique e "sandbox_signups_pkey" then ErrEmailTaken else e)
    (insert_signup email (mkSignup (tn_ID t) (tn_CreatedAt t))).

Definition live (s : TenantStatus) : bool := bool_decide (s = TenantActive \/ s = TenantSuspended).

Definition is_expired (now : time) (t : Tenant) : bool :=
  match tn_ExpiresAt t with Some e => (e <? now) && live (tn_Status t) | None => false end.

Definition expiry_key (t : Tenant) : Cursor := mkCursor (default 0 (tn_ExpiresAt t)) (tn_ID t).

Definition ExpiredSandboxTenants (now : time) (db : IdentityDB) : list Tenant :=
  order_rows ascending expiry_key (filter (fun t => is_expired now t = true) (table_rows (tenants db))).

Definition with_status (s : TenantStatus) (t : Tenant) : Tenant :=
  mkTenant (tn_ID t) (tn_Name t) (tn_Slug t) s (tn_CreatedAt t) (tn_ExpiresAt t).

Definition MarkTenantPurging (env : Envelope TenantExpiredPayload) : ITx unit :=
  db ← read;
  match tenants db !! env_TenantID env with
  | Some t =>
      if live (tn_Status t) then
        _ ← write (fun db => set_tenants (<[env_TenantID env := with_status TenantPurging t]> (tenants db)) db);
        write (fun db => set_id_outbox
          (id_outbox db ++ [mkIdOutbox (env_TenantID env) (env_Type env) env None]) db)
      else mret tt
  | None => mret tt
  end.

Definition is_purgeable (cutoff : time) (t : Tenant) : bool :=
  bool_decide (tn_Status t = TenantPurging)
  && match tn_ExpiresAt t with Some e => e <? cutoff | None => false end.

Definition PurgeableTenants (cutoff : time) (db : IdentityDB) : list uuid :=
  map tn_ID (filter (fun t => is_purgeable cutoff t = true) (table_rows (tenants db))).

Definition FinalizeTenantPurge (tenantID : uuid) : ITx Z :=
  db ← read;
  match tenants db !! tenantID with
  | Some t =>
      if decide (tn_Status t = TenantPurging) then
        _ ← write (fun db => set_tenants (<[tenantID := with_status TenantPurged t]> (tenants db)) db);
        _ ← write (fun db => set_api_keys
              (filter (fun p => key_TenantID p.2 <> tenantID) (api_keys db)) db);
        mret (Z.of_nat (size (filter (fun p => key_TenantID p.2 = tenantID) (api_keys db))))
      else mret 0
  | None => mret 0
  end.
End Store.
