(* ===== verification/IdentityService.v ===== *)
(** * Identity use cases: [services/identity/internal/app]

    [service.go], [token.go] and [sandbox.go]. Random draws, nonces and the JWT
    library are arguments or classes. *)

From Stdlib Require Import Ascii String ZArith Lia.
From S2P Require Import Prelude Strconv Errors LedgerDomain LedgerEvents Httpx TxMonad Signature Keycrypt.
From S2P Require Import Base64Url Webhooks Ident Identity IdentityStore.
Local Open Scope Z_scope.

Definition TokenTTL : Z := 15 * minute.
Definition SandboxTTL : Z := 14 * 24 * hour.
Definition PurgeGrace : Z := 24 * hour.
Definition DefaultSignupsPerDay : Z := 20.

Record IssuedToken : Type := mkIssuedToken { it_AccessToken : string; it_TokenType : string; it_ExpiresIn : Z }.

(** [TokenIssuer]; its clock is the service's. *)
Record TokenIssuer : Type := mkTokenIssuer {
  ti_kid : string; ti_key : bytes; ti_ttl : Z; ti_audiences : list string }.

Record JWKSDocument : Type := mkJWKS { jwks_Keys : list jwk }.

Section Service.
Context `{Supply, Render, Parsers, Jwt, Sha256, Ed25519, Aead, MailParse}.

Definition fail_if {A} (b : bool) (e : error) (m : ITx A) : ITx A := if b then fail e else m.

Definition invalid_name (name : string) : bool :=
  bool_decide (name = ""%string) || (255 <? Z.of_nat (String.length name)).

(** ** Tenants and API keys *)

Definition CreateTenant (name slug : string) : ITx Tenant :=
  let name := TrimSpace name in
  fail_if (invalid_name name) ErrValidation (
    let slug := if decide (slug = ""%string) then slugify name else slug in
    fail_if (negb (ValidSlug slug)) ErrValidation (
      id ← newV7;
      createdAt ← now;
      let tenant := mkTenant id name slug TenantActive createdAt None in
      _ ← CreateTenant_ tenant;
      mret tenant)).

Definition CreateAPIKey (reads : list (list Z)) (tenantID : uuid) (environment name : string)
  (scopes : list string) : ITx (APIKey * string) :=
  let name := TrimSpace name in
  fail_if (invalid_name name) ErrValidation (
    fail_if (negb (ValidEnvironment environment)) ErrValidation (
      match normalizeScopes scopes with
      | Err e => fail e
      | Ok grantedScopes =>
          _ ← GetTenant tenantID;
          match NewAPIKeySecret reads environment with
          | Err e => fail e
          | Ok secret =>
              id ← newV7;
              createdAt ← now;
              let k := mkAPIKey id tenantID environment name (PrefixOf secret) (HashSecret secret) grantedScopes
                         createdAt None in
              _ ← CreateAPIKey_ k;
              mret (k, secret)
          end
      end)).

(** ** Token issuance: [service.go] and [token.go] *)

Definition NewTokenIssuer (k : SigningKey) (ttl : Z) : result error TokenIssuer :=
  if decide (sk_Algorithm k <> AlgorithmEdDSA) then Err ErrOther
  else match ParsePrivatePEM (sk_PrivateKeyPEM k) with
       | None => Err ErrOther
       | Some priv => Ok (mkTokenIssuer (uuid_String (sk_Kid k)) priv ttl DefaultAudiences)
       end.

Definition issued_claims (i : TokenIssuer) (apiKeyID tenantID : uuid) (environment : string)
  (scopes : list string) (t : time) (jti : uuid) : tokenClaims :=
  mkTokenClaims (uuid_String tenantID) environment scopes ("api_key:" +:+ uuid_String apiKeyID) DefaultIssuer
    (ti_audiences i) (Some (NewNumericDate t)) (Some (NewNumericDate (t + ti_ttl i))) None (uuid_String jti).

Definition Issue (i : TokenIssuer) (apiKeyID tenantID : uuid) (environment : string) (scopes : list string)
  : ITx IssuedToken :=
  t ← now;
  jti ← newV4;
  match SignedString (ti_key i) (ti_kid i) (issued_claims i apiKeyID tenantID environment scopes t jti) with
  | None => fail ErrOther
  | Some signed => mret (mkIssuedToken signed "Bearer" (ti_ttl i / second))
  end.

Definition IssueToken (issuer : TokenIssuer) (secret : string) : ITx IssuedToken :=
  fail_if (negb (String.prefix "lk_" secret) || (String.length secret <=? KeyPrefixLength)%nat)
    ErrInvalidCredentials (
    candidates ← FindAPIKeysByPrefix (PrefixOf secret);
    match List.find (fun k => VerifySecret k secret) candidates with
    | None => fail ErrInvalidCredentials
    | Some k =>
        fail_if (Revoked k) ErrInvalidCredentials (
          tenant ← translate (fun e => match e with ErrNotFound => ErrInvalidCredentials | _ => e end)
                     (GetTenant (key_TenantID k));
          fail_if (negb (Active tenant)) ErrInvalidCredentials (
            let scopes := if decide (key_Scopes k = []) then DefaultScopes else key_Scopes k in
            Issue issuer (key_ID k) (tn_ID tenant) (key_Environment k) scopes))
    end).

Definition jwk_of (k : SigningKey) : option jwk :=
  pub ← ParsePublicPEM (sk_PublicKeyPEM k);
  Some (mkJwk "OKP" "Ed25519" (uuid_String (sk_Kid k)) (string_of_list_ascii (rawurl_encode pub))).

Definition JWKS : ITx JWKSDocument :=
  keys ← ListActiveSigningKeys;
  match mapM jwk_of keys with None => fail ErrOther | Some docs => mret (mkJWKS docs) end.

(** ** The signing key at startup *)

Definition key_aad (kid : uuid) : bytes := list_ascii_of_string (uuid_String kid).

Definition crypt {A} (r : result crypt_error A) : ITx A :=
  match r with Ok a => mret a | Err _ => fail ErrOther end.

(** One key of the migration; [nonce] is the random nonce drawn for it. *)
Definition reencrypt_key (c : bytes) (nonce : uuid -> option bytes) (k : SigningKey) : ITx unit :=
  if IsEncrypted (sk_PrivateKeyPEM k) then mret tt
  else
    sealed ← crypt (Encrypt (Some c) (nonce (sk_Kid k)) (sk_PrivateKeyPEM k) (key_aad (sk_Kid k)));
    UpdateSigningKeyPrivatePEM (sk_Kid k) sealed.

Definition GenerateSigningKey (draw : nat) : ITx SigningKey :=
  match GenerateKeyPEM draw with
  | None => fail ErrOther
  | Some (priv, pub) => kid ← newV7; t ← now; mret (mkSigningKey kid priv pub AlgorithmEdDSA t true)
  end.

Definition generate_stored (cipher : option bytes) (nonce : uuid -> option bytes) (draw : nat) : ITx SigningKey :=
  k ← GenerateSigningKey draw;
  stored ← match cipher with
           | None => mret k
           | Some c =>
               sealed ← crypt (Encrypt (Some c) (nonce (sk_Kid k)) (sk_PrivateKeyPEM k) (key_aad (sk_Kid k)));
               mret (with_private k sealed)
           end;
  _ ← InsertSigningKey stored;
  mret k.

(** Each update of the migration commits on its own. *)
Definition EnsureSigningKey (cipher : option bytes) (nonce : uuid -> option bytes) (draw : nat)
  (st : UseState IdentityDB) : result error SigningKey * UseState IdentityDB :=
  match active_keys (u_db st) with
  | (newest :: _) as existing =>
      match match cipher with
            | Some c => commit_each existing (reencrypt_key c nonce) st
            | None => (Ok tt, st)
            end with
      | (Err e, st) => (Err e, st)
      | (Ok _, st) =>
          if IsEncrypted (sk_PrivateKeyPEM newest) then
            match identity_Decrypt cipher (sk_PrivateKeyPEM newest) (key_aad (sk_Kid newest)) with
            | Ok plain => (Ok (with_private newest plain), st)
            | Err _ => (Err ErrOther, st)
            end
          else (Ok newest, st)
      end
  | [] => commit (generate_stored cipher nonce draw) st
  end.

(** ** Sandbox signup and sweep: [sandbox.go] *)

Record SandboxSignup : Type := mkSandboxSignup { ss_Tenant : Tenant; ss_Key : APIKey; ss_Secret : string }.

Definition NewSandboxService (dailyLimit : Z) : Z := if dailyLimit <=? 0 then DefaultSignupsPerDay else dailyLimit.

Definition Signup (dailyLimit : Z) (reads : list (list Z)) (email companyName : string) : ITx SandboxSignup :=
  let email := ToLower (TrimSpace email) in
  let companyName := TrimSpace companyName in
  fail_if (bool_decide (email = ""%string) || (320 <? Z.of_nat (String.length email))) ErrValidation (
    fail_if (bool_decide (mail_ParseAddress email <> Some email)) ErrValidation (
      fail_if (invalid_name companyName) ErrValidation (
        tenantID ← newV7;
        let slug := sandbox_slug companyName tenantID in
        t ← now;
        let tenant := mkTenant tenantID companyName slug TenantActive t (Some (t + SandboxTTL)) in
        match NewAPIKeySecret reads EnvSandbox with
        | Err e => fail e
        | Ok secret =>
            keyID ← newV7;
            let k := mkAPIKey keyID tenantID EnvSandbox "sandbox signup key" (PrefixOf secret) (HashSecret secret)
                       DefaultScopes t None in
            _ ← ProvisionSandboxTenant email tenant k dailyLimit;
            mret (mkSandboxSignup tenant k secret)
        end))).

(** Announcing one expired tenant, from the row the scan returned. *)
Definition announce (t : Tenant) : ITx unit :=
  env ← envelope TopicTenantExpired (tn_ID t)
          (mkTenantExpired (tn_ID t) (tn_Slug t) (default 0 (tn_ExpiresAt t)));
  MarkTenantPurging env.

Definition finalize (id : uuid) : ITx unit := _ ← FinalizeTenantPurge id; mret tt.

(** [Sweep]: every announcement and every purge is a transaction of its own. *)
Definition Sweep (st : UseState IdentityDB) : result error unit * UseState IdentityDB :=
  let t := clock_at (u_clock st) in
  let st := mkUse (u_db st) (u_v7 st) (u_v4 st) (S (u_clock st)) in
  match commit_each (ExpiredSandboxTenants t (u_db st)) announce st with
  | (Err e, st) => (Err e, st)
  | (Ok _, st) => commit_each (PurgeableTenants (t - PurgeGrace) (u_db st)) finalize st
  end.
End Service.
