(* ===== verification/IdentityInv.v ===== *)
(** * The identity invariant

    What holds of the tables between transactions, what survives from one state
    to a later one, and that every statement preserves both. *)

From Stdlib Require Import Ascii String ZArith Lia.
From S2P Require Import Prelude Strconv Errors LedgerDomain LedgerEvents Httpx TxMonad Signature Keycrypt.
From S2P Require Import Base64Url Webhooks Ident Identity IdentitySlug IdentityStore IdentityService.
Local Open Scope Z_scope.

(** The lifecycle: live, then purging, then purged. *)
Definition rank (s : TenantStatus) : Z :=
  match s with TenantActive | TenantSuspended => 0 | TenantPurging => 1 | TenantPurged => 2 end.

Definition status_le (s s' : TenantStatus) : Prop := s = s' \/ rank s < rank s'.

Lemma live_rank s : live s = true <-> rank s = 0.
Proof. unfold live. rewrite bool_decide_eq_true. destruct s; cbn; naive_solver lia. Qed.

Definition same_tenant (t t' : Tenant) : Prop :=
  tn_ID t' = tn_ID t /\ tn_Name t' = tn_Name t /\ tn_Slug t' = tn_Slug t /\
  tn_CreatedAt t' = tn_CreatedAt t /\ tn_ExpiresAt t' = tn_ExpiresAt t.

Definition same_key (k k' : APIKey) : Prop :=
  key_ID k' = key_ID k /\ key_TenantID k' = key_TenantID k /\ key_Environment k' = key_Environment k /\
  key_Prefix k' = key_Prefix k /\ key_SecretHash k' = key_SecretHash k /\ key_Scopes k' = key_Scopes k /\
  (is_Some (key_RevokedAt k) -> key_RevokedAt k' = key_RevokedAt k).

(** The announcement of a tenant's expiry. *)
Definition announcement (t : Tenant) (r : IdOutboxRow) : Prop :=
  io_Topic r = TopicTenantExpired /\ env_Type (io_Envelope r) = TopicTenantExpired /\
  env_TenantID (io_Envelope r) = tn_ID t /\
  exists e, tn_ExpiresAt t = Some e /\ env_Data (io_Envelope r) = mkTenantExpired (tn_ID t) (tn_Slug t) e.

Definition announcements (id : uuid) (db : IdentityDB) : list IdOutboxRow :=
  filter (fun r => io_TenantID r = id) (id_outbox db).

Record IInv (db : IdentityDB) : Prop := {
  ii_id : forall id t, tenants db !! id = Some t -> tn_ID t = id;
  ii_slug : forall i j t t', tenants db !! i = Some t -> tenants db !! j = Some t' ->
    tn_Slug t = tn_Slug t' -> i = j;
  ii_valid : forall id t, tenants db !! id = Some t -> ValidSlug (tn_Slug t) = true;
  ii_key : forall id k, api_keys db !! id = Some k -> key_ID k = id /\
    is_Some (tenants db !! key_TenantID k) /\ ValidEnvironment (key_Environment k) = true /\
    (forall s, s ∈ key_Scopes k -> s ∈ DefaultScopes);
  ii_signup : forall e r, sandbox_signups db !! e = Some r -> is_Some (tenants db !! su_TenantID r);
  ii_announced : forall id t, tenants db !! id = Some t ->
    if live (tn_Status t) then announcements id db = []
    else exists r, announcements id db = [r] /\ announcement t r;
  ii_outbox : forall r, r ∈ id_outbox db -> is_Some (tenants db !! io_TenantID r);
  ii_signing : forall kid k, signing_keys db !! kid = Some k -> sk_Kid k = kid
}.

Record ipersists (db db' : IdentityDB) : Prop := {
  ip_tenant : forall id t, tenants db !! id = Some t ->
    exists t', tenants db' !! id = Some t' /\ same_tenant t t' /\ status_le (tn_Status t) (tn_Status t');
  ip_key : forall id k, api_keys db !! id = Some k ->
    (exists k', api_keys db' !! id = Some k' /\ same_key k k') \/
    (exists t', tenants db' !! key_TenantID k = Some t' /\ tn_Status t' = TenantPurged);
  ip_signup : forall e r, sandbox_signups db !! e = Some r -> sandbox_signups db' !! e = Some r;
  ip_outbox : exists ext, id_outbox db' = id_outbox db ++ ext
}.

Definition igood (db db' : IdentityDB) : Prop := IInv db' /\ ipersists db db'.

Lemma status_le_trans s s' s'' : status_le s s' -> status_le s' s'' -> status_le s s''.
Proof. unfold status_le. intros [->|?] [->|?]; auto. right. lia. Qed.

Lemma ipersists_refl db : ipersists db db.
Proof.
  split; [|left; eexists; split; [done|by repeat split]|done|by exists []; rewrite app_nil_r].
  intros id t Ht. exists t. split; [done|]. split; [by repeat split|by left].
Qed.

Lemma purged_final s : status_le TenantPurged s -> s = TenantPurged.
Proof. intros [<-|?]; [done|]. by destruct s; cbn in *. Qed.

Lemma same_tenant_trans t1 t2 t3 : same_tenant t1 t2 -> same_tenant t2 t3 -> same_tenant t1 t3.
Proof. unfold same_tenant. intuition congruence. Qed.

Lemma same_key_trans k1 k2 k3 : same_key k1 k2 -> same_key k2 k3 -> same_key k1 k3.
Proof.
  intros (A1 & A2 & A3 & A4 & A5 & A6 & A7) (B1 & B2 & B3 & B4 & B5 & B6 & B7).
  repeat split; try congruence. intros Hr. rewrite B7; [by apply A7|by rewrite A7].
Qed.

Lemma ipersists_trans db1 db2 db3 : ipersists db1 db2 -> ipersists db2 db3 -> ipersists db1 db3.
Proof.
  intros P Q. split.
  - intros id t Ht. destruct (ip_tenant _ _ P id t Ht) as (t' & Ht' & S & L).
    destruct (ip_tenant _ _ Q id t' Ht') as (t'' & Ht'' & S' & L'). exists t''. split; [done|].
    split; [by eapply same_tenant_trans|by eapply status_le_trans].
  - intros id k Hk. destruct (ip_key _ _ P id k Hk) as [(k' & Hk' & S)|(t' & Ht' & Hp)].
    + destruct (ip_key _ _ Q id k' Hk') as [(k'' & Hk'' & S')|Hp].
      * left. exists k''. split; [done|]. by eapply same_key_trans.
      * right. destruct S as (_ & Et & _). by rewrite <- Et.
    + right. destruct (ip_tenant _ _ Q _ t' Ht') as (t'' & Ht'' & _ & L). exists t''. split; [done|].
      rewrite Hp in L. by apply purged_final.
  - intros e r Hr. by apply Q, P.
  - destruct (ip_outbox _ _ P) as [x Hx], (ip_outbox _ _ Q) as [y Hy]. exists (x ++ y). by rewrite Hy, Hx, app_assoc.
Qed.

Lemma igood_refl db : IInv db -> igood db db.
Proof. intros I. split; [done|apply ipersists_refl]. Qed.

Lemma igood_trans db1 db2 db3 : igood db1 db2 -> (IInv db2 -> igood db2 db3) -> igood db1 db3.
Proof. intros [I P] Hq. destruct (Hq I) as [I' P']. split; [done|]. by eapply ipersists_trans. Qed.

Lemma empty_inv : IInv empty_identity.
Proof. split; cbn; try (intros *; by rewrite lookup_empty). intros r Hr. by apply elem_of_nil in Hr. Qed.

(** ** Changes of the tables *)

Lemma announcements_none id db : IInv db -> tenants db !! id = None -> announcements id db = [].
Proof.
  intros I Hn. apply list_filter_none. intros r Hr <-.
  apply (ii_outbox _ I) in Hr as [t Ht]. congruence.
Qed.

Lemma good_insert_tenant db t :
  IInv db -> tenants db !! tn_ID t = None -> tn_Status t = TenantActive -> ValidSlug (tn_Slug t) = true ->
  (forall id t', tenants db !! id = Some t' -> tn_Slug t' <> tn_Slug t) ->
  igood db (set_tenants (<[tn_ID t := t]> (tenants db)) db).
Proof.
  intros I Hn Ha Hv Hs.
  assert (Hsome : forall id, is_Some (tenants db !! id) -> is_Some (<[tn_ID t := t]> (tenants db) !! id)).
  { intros id Hid. destruct (decide (id = tn_ID t)) as [->|]; [by rewrite lookup_insert_eq|by rewrite lookup_insert_ne]. }
  split; split; cbn [tenants api_keys sandbox_signups id_outbox set_tenants].
  - intros id t'. rewrite lookup_insert_Some. intros [[<- <-]|[_ Ht]]; [done|by apply I].
  - intros i j t1 t2. rewrite !lookup_insert_Some. intros [[<- <-]|[Hi H1]] [[<- <-]|[Hj H2]] E; try done.
    + by destruct (Hs _ _ H2).
    + by destruct (Hs _ _ H1).
    + by eapply (ii_slug _ I).
  - intros id t'. rewrite lookup_insert_Some. intros [[<- <-]|[_ Ht]]; [done|by eapply I].
  - intros id k Hk. destruct (ii_key _ I _ _ Hk) as (? & ? & ?). split; [done|]. split; [by apply Hsome|done].
  - intros e r Hr. by eapply Hsome, I.
  - intros id t'. rewrite lookup_insert_Some. intros [[<- <-]|[_ Ht]].
    + rewrite Ha. cbn. by apply (announcements_none (tn_ID t) db).
    + apply (ii_announced _ I id t' Ht).
  - intros r Hr. by apply Hsome, I.
  - apply I.
  - intros id t' Ht. exists t'. rewrite lookup_insert_ne by congruence.
    split; [done|]. split; [by repeat split|by left].
  - intros id k Hk. left. exists k. split; [done|by repeat split].
  - done.
  - by exists []; rewrite app_nil_r.
Qed.

Lemma good_set_keys db m :
  IInv db ->
  (forall id k, m !! id = Some k -> key_ID k = id /\ is_Some (tenants db !! key_TenantID k) /\
     ValidEnvironment (key_Environment k) = true /\ (forall s, s ∈ key_Scopes k -> s ∈ DefaultScopes)) ->
  (forall id k, api_keys db !! id = Some k -> exists k', m !! id = Some k' /\ same_key k k') ->
  igood db (set_api_keys m db).
Proof.
  intros I Hm Hp. split; split; try (by apply I); try done.
  - intros id t Ht. exists t. split; [done|]. split; [by repeat split|by left].
  - intros id k Hk. left. by apply Hp.
  - by exists []; rewrite app_nil_r.
Qed.

Lemma good_set_signups db email r :
  IInv db -> sandbox_signups db !! email = None -> is_Some (tenants db !! su_TenantID r) ->
  igood db (set_sandbox_signups (<[email := r]> (sandbox_signups db)) db).
Proof.
  intros I Hn Ht. split; split; try (by apply I); cbn [tenants api_keys sandbox_signups id_outbox set_sandbox_signups].
  - intros e r'. rewrite lookup_insert_Some. intros [[_ <-]|[_ Hr]]; [done|by eapply I].
  - intros id t Ht'. exists t. split; [done|]. split; [by repeat split|by left].
  - intros id k Hk. left. exists k. split; [done|by repeat split].
  - intros e r' Hr. rewrite lookup_insert_ne; [done|congruence].
  - by exists []; rewrite app_nil_r.
Qed.

Lemma good_set_signing db m :
  IInv db -> (forall kid k, m !! kid = Some k -> sk_Kid k = kid) -> igood db (set_signing_keys m db).
Proof.
  intros I Hm. split; split; try (by apply I); try done.
  - intros id t Ht. exists t. split; [done|]. split; [by repeat split|by left].
  - intros id k Hk. left. exists k. split; [done|by repeat split].
  - by exists []; rewrite app_nil_r.
Qed.

(** Moving a tenant forward; [rows] are the announcements made with it. *)
Lemma good_set_status db id t s keys rows :
  IInv db -> tenants db !! id = Some t -> status_le (tn_Status t) s -> live s = false ->
  (if live (tn_Status t) then exists r, rows = [r] /\ io_TenantID r = id /\ announcement t r else rows = []) ->
  (forall i k, keys !! i = Some k -> api_keys db !! i = Some k) ->
  (forall i k, api_keys db !! i = Some k -> keys !! i = Some k \/ (key_TenantID k = id /\ s = TenantPurged)) ->
  igood db (mkIdentityDB (<[id := with_status s t]> (tenants db)) keys (signing_keys db) (sandbox_signups db)
              (id_outbox db ++ rows)).
Proof.
  intros I Ht Hle Hs Hrows Hk1 Hk2.
  pose proof (ii_id _ I _ _ Ht) as Hid.
  assert (Hmap : forall i t', <[id := with_status s t]> (tenants db) !! i = Some t' ->
    exists t0, tenants db !! i = Some t0 /\ same_tenant t0 t' /\ (i <> id -> t' = t0)).
  { intros i t'. rewrite lookup_insert_Some. intros [[<- <-]|[Hi Ht']].
    - exists t. split; [done|]. split; [by repeat split|done].
    - exists t'. split; [done|]. split; [by repeat split|done]. }
  assert (Hsome : forall i, is_Some (tenants db !! i) -> is_Some (<[id := with_status s t]> (tenants db) !! i)).
  { intros i Hi. destruct (decide (i = id)) as [->|]; [by rewrite lookup_insert_eq|by rewrite lookup_insert_ne]. }
  assert (Hother : Forall (fun r => io_TenantID r = id) rows).
  { destruct (live (tn_Status t)); [destruct Hrows as (r & -> & E & _); by repeat constructor|by subst]. }
  split; split; cbn [tenants api_keys sandbox_signups id_outbox].
  - intros i t' (t0 & H0 & (-> & _) & _)%Hmap. by apply I.
  - intros i j t1 t2 (a & Ha & Sa & _)%Hmap (b & Hb & Sb & _)%Hmap E. eapply (ii_slug _ I); [exact Ha|exact Hb|].
    unfold same_tenant in *. intuition congruence.
  - intros i t' (t0 & H0 & (_ & _ & -> & _) & _)%Hmap. by eapply I.
  - intros i k Hk%Hk1. destruct (ii_key _ I _ _ Hk) as (? & ? & ?). split; [done|]. split; [by apply Hsome|done].
  - intros e r Hr. by eapply Hsome, I.
  - intros i t' Ht'. unfold announcements. cbn [id_outbox]. rewrite filter_app. fold (announcements i db).
    destruct (decide (i = id)) as [->|Hne].
    + rewrite lookup_insert_eq in Ht'. injection Ht' as <-. cbn [with_status tn_Status]. rewrite Hs.
      rewrite (list_filter_id _ rows) by (by apply Forall_forall). pose proof (ii_announced _ I id t Ht) as Ha.
      destruct (live (tn_Status t)).
      * destruct Hrows as (r & -> & _ & Hr). exists r. by rewrite Ha.
      * destruct Ha as (r & -> & Hr). subst rows. exists r. done.
    + rewrite lookup_insert_ne in Ht' by done. rewrite (list_filter_none _ rows).
      * rewrite app_nil_r. by apply (ii_announced _ I i t').
      * intros r Hr. eapply Forall_forall in Hother; [|exact Hr]. congruence.
  - intros r [Hr|Hr]%elem_of_app; [by apply Hsome, I|].
    eapply Forall_forall in Hother; [|exact Hr]. rewrite Hother, lookup_insert_eq. by eexists.
  - apply I.
  - intros i t' Ht'. destruct (decide (i = id)) as [->|Hne].
    + exists (with_status s t). rewrite lookup_insert_eq. split; [done|]. assert (t' = t) as -> by congruence.
      split; [by repeat split|done].
    + exists t'. rewrite lookup_insert_ne by done. split; [done|]. split; [by repeat split|by left].
  - intros i k Hk. destruct (Hk2 i k Hk) as [Hk'|[<- ->]].
    + left. exists k. split; [done|by repeat split].
    + right. exists (with_status TenantPurged t). by rewrite lookup_insert_eq.
  - done.
  - by eexists.
Qed.
