(* ===== verification/IdentityWorld.v ===== *)
(** * Identity worlds: requests and sweeps

    Every interleaving of requests, of the startup of the signing key, and of
    any number of sweepers, each scanning, announcing and purging one tenant at a
    time, and stopping anywhere. *)

From Stdlib Require Import Ascii String ZArith Lia.
From S2P Require Import Prelude Strconv Errors LedgerDomain LedgerEvents Httpx TxMonad Signature Keycrypt.
From S2P Require Import Base64Url Webhooks Ident Identity IdentitySlug IdentityStore IdentityService IdentityInv.
Local Open Scope Z_scope.

Section World.
Context `{Supply, Render, Parsers, Jwt, Sha256, Ed25519, Aead, MailParse}.
Implicit Types st : UseState IdentityDB.
(** Ids print with at least six hexadecimal digits. *)
Hypothesis id_hex : forall id, length (id_suffix id) = 6%nat /\ Forall (fun c => slug_char c = true) (id_suffix id).

(** ** The statements *)

Lemma translate_ok {A} f (m : ITx A) st r : translate f m st = Ok r -> m st = Ok r.
Proof. unfold translate. by destruct (m st). Qed.

Lemma fail_if_ok {A} b e (m : ITx A) st r : fail_if b e m st = Ok r -> b = false /\ m st = Ok r.
Proof. unfold fail_if. by destruct b. Qed.

Lemma crypt_ok {A} (r : result crypt_error A) st a st' : crypt r st = Ok (a, st') -> r = Ok a /\ st' = st.
Proof. destruct r; cbn; [by intros [= <- <-]|done]. Qed.

Lemma elem_table {V} (m : gmap uuid V) v : v ∈ table_rows m <-> exists id, m !! id = Some v.
Proof.
  unfold table_rows. rewrite list_elem_of_fmap. split.
  - intros ([id x] & -> & Hx%elem_of_map_to_list). by exists id.
  - intros [id Hid]. exists (id, v). by rewrite elem_of_map_to_list.
Qed.

Lemma insert_tenant_ok t st u st' :
  insert_tenant t st = Ok (u, st') ->
  tenants (u_db st) !! tn_ID t = None /\
  (forall id t', tenants (u_db st) !! id = Some t' -> tn_Slug t' <> tn_Slug t) /\
  u_db st' = set_tenants (<[tn_ID t := t]> (tenants (u_db st))) (u_db st).
Proof.
  intros Hr. unfold insert_tenant in Hr.
  apply use_bind_ok in Hr as (? & ? & [-> ->]%read_ok & Hr).
  apply use_bind_ok in Hr as (? & ? & [Hn%bool_decide_eq_true ->]%require_ok & Hr).
  apply use_bind_ok in Hr as (? & ? & [Hs ->]%require_ok & Hr). apply write_ok in Hr as ->.
  split; [done|]. split; [|done]. intros id t' Ht E. apply negb_true_iff in Hs.
  assert (Hx : existsb (fun t' => bool_decide (tn_Slug t' = tn_Slug t)) (table_rows (tenants (u_db st))) = true); [|congruence].
  apply existsb_exists. exists t'. split; [|by apply bool_decide_eq_true].
  apply list_elem_of_In, elem_table. eauto.
Qed.

Lemma insert_tenant_good t st u st' :
  IInv (u_db st) -> tn_Status t = TenantActive -> ValidSlug (tn_Slug t) = true ->
  insert_tenant t st = Ok (u, st') -> igood (u_db st) (u_db st').
Proof. intros I Ha Hv (Hn & Hs & ->)%insert_tenant_ok. by apply good_insert_tenant. Qed.

Lemma insert_api_key_ok k st u st' :
  insert_api_key k st = Ok (u, st') ->
  ValidEnvironment (key_Environment k) = true /\ api_keys (u_db st) !! key_ID k = None /\
  is_Some (tenants (u_db st) !! key_TenantID k) /\
  u_db st' = set_api_keys (<[key_ID k := k]> (api_keys (u_db st))) (u_db st).
Proof.
  intros Hr. unfold insert_api_key in Hr.
  apply use_bind_ok in Hr as (? & ? & [-> ->]%read_ok & Hr).
  apply use_bind_ok in Hr as (? & ? & [He ->]%require_ok & Hr).
  apply use_bind_ok in Hr as (? & ? & [Hn%bool_decide_eq_true ->]%require_ok & Hr).
  apply use_bind_ok in Hr as (? & ? & [Ht%bool_decide_eq_true ->]%require_ok & Hr).
  apply write_ok in Hr as ->. done.
Qed.

Lemma insert_api_key_good k st u st' :
  IInv (u_db st) -> (forall s, s ∈ key_Scopes k -> s ∈ DefaultScopes) ->
  insert_api_key k st = Ok (u, st') -> igood (u_db st) (u_db st').
Proof.
  intros I Hs (He & Hn & Ht & ->)%insert_api_key_ok. apply good_set_keys; [done| |].
  - intros id k'. rewrite lookup_insert_Some. intros [[<- <-]|[_ Hk]]; [done|by apply I].
  - intros id k' Hk. exists k'. rewrite lookup_insert_ne by congruence. split; [done|by repeat split].
Qed.

Lemma RevokeAPIKey_good id st u st' :
  IInv (u_db st) -> RevokeAPIKey id st = Ok (u, st') -> igood (u_db st) (u_db st').
Proof.
  intros I Hr. unfold RevokeAPIKey in Hr.
  apply use_bind_ok in Hr as (t & s1 & Ht & Hr). pose proof (now_ok _ _ _ Ht) as E1.
  apply use_bind_ok in Hr as (? & ? & [-> ->]%read_ok & Hr). rewrite E1 in Hr.
  destruct (api_keys (u_db st) !! id) as [k|] eqn:Hk; [|done].
  destruct (key_RevokedAt k) eqn:Hrev.
  - apply use_ret_ok in Hr as [_ ->]. rewrite E1. by apply igood_refl.
  - apply write_ok in Hr as ->. cbn [u_db]. rewrite E1. apply good_set_keys; [done| |].
    + intros i k'. rewrite lookup_insert_Some. intros [[<- <-]|[_ Hk']]; [|by apply I].
      by apply (ii_key _ I _ _ Hk).
    + intros i k' Hk'. destruct (decide (i = id)) as [->|].
      * exists (revoked_row t k). rewrite lookup_insert_eq. split; [done|]. assert (k' = k) as -> by congruence.
        repeat split. rewrite Hrev. by intros [].
      * exists k'. rewrite lookup_insert_ne by done. split; [done|by repeat split].
Qed.

Lemma InsertSigningKey_ok k st u st' :
  InsertSigningKey k st = Ok (u, st') ->
  sk_Algorithm k = AlgorithmEdDSA /\ signing_keys (u_db st) !! sk_Kid k = None /\
  u_db st' = set_signing_keys (<[sk_Kid k := k]> (signing_keys (u_db st))) (u_db st).
Proof.
  intros Hr. unfold InsertSigningKey in Hr.
  apply use_bind_ok in Hr as (? & ? & [-> ->]%read_ok & Hr).
  apply use_bind_ok in Hr as (? & ? & [Ha%bool_decide_eq_true ->]%require_ok & Hr).
  apply use_bind_ok in Hr as (? & ? & [Hn%bool_decide_eq_true ->]%require_ok & Hr).
  by apply write_ok in Hr as ->.
Qed.

Lemma UpdateSigningKey_ok kid pem st u st' :
  UpdateSigningKeyPrivatePEM kid pem st = Ok (u, st') ->
  exists k, signing_keys (u_db st) !! kid = Some k /\
    u_db st' = set_signing_keys (<[kid := with_private k pem]> (signing_keys (u_db st))) (u_db st).
Proof.
  intros Hr. unfold UpdateSigningKeyPrivatePEM in Hr.
  apply use_bind_ok in Hr as (? & ? & [-> ->]%read_ok & Hr).
  destruct (signing_keys (u_db st) !! kid) as [k|]; [|done]. apply write_ok in Hr as ->. by exists k.
Qed.

(** A transaction that only touches signing keys. *)
Definition only_signing (db db' : IdentityDB) : Prop :=
  db' = set_signing_keys (signing_keys db') db /\
  ((forall kid k, signing_keys db !! kid = Some k -> sk_Kid k = kid) ->
   forall kid k, signing_keys db' !! kid = Some k -> sk_Kid k = kid).

Lemma only_signing_good db db' : IInv db -> only_signing db db' -> igood db db'.
Proof. intros I [E Hk]. rewrite E. apply good_set_signing; [done|]. apply Hk, I. Qed.

Lemma only_signing_insert db k :
  only_signing db (set_signing_keys (<[sk_Kid k := k]> (signing_keys db)) db).
Proof.
  split; [done|]. intros Hk kid k'. cbn. rewrite lookup_insert_Some. intros [[<- <-]|[_ Hk']]; [done|by apply Hk].
Qed.

Lemma reencrypt_key_ok c nonce k st u st' :
  reencrypt_key c nonce k st = Ok (u, st') -> only_signing (u_db st) (u_db st').
Proof.
  intros Hr. unfold reencrypt_key in Hr. destruct (IsEncrypted _).
  - apply use_ret_ok in Hr as [_ ->]. unfold only_signing. by destruct (u_db st).
  - apply use_bind_ok in Hr as (? & ? & [_ ->]%crypt_ok & Hr). apply UpdateSigningKey_ok in Hr as (k' & Hk' & ->).
    split; [done|]. intros Hk kid k0. cbn. rewrite lookup_insert_Some. intros [[<- <-]|[_ Hk0]]; [|by apply Hk].
    by apply (Hk _ k').
Qed.

Lemma GenerateSigningKey_ok draw st k st' :
  GenerateSigningKey draw st = Ok (k, st') ->
  u_db st' = u_db st /\ sk_Algorithm k = AlgorithmEdDSA /\ sk_Active k = true /\
  exists priv pub, GenerateKeyPEM draw = Some (priv, pub) /\ sk_PrivateKeyPEM k = priv /\ sk_PublicKeyPEM k = pub.
Proof.
  intros Hr. unfold GenerateSigningKey in Hr. destruct (GenerateKeyPEM draw) as [[priv pub]|]; [|done].
  apply use_bind_ok in Hr as (kid & s1 & F1%newV7_ok & Hr). apply use_bind_ok in Hr as (t & s2 & F2%now_ok & Hr).
  apply use_ret_ok in Hr as [-> ->]. split; [congruence|]. split; [done|]. split; [done|]. by exists priv, pub.
Qed.

Lemma generate_stored_ok cipher nonce draw st k st' :
  generate_stored cipher nonce draw st = Ok (k, st') -> only_signing (u_db st) (u_db st').
Proof.
  intros Hr. unfold generate_stored in Hr.
  apply use_bind_ok in Hr as (k0 & s1 & (E1 & _)%GenerateSigningKey_ok & Hr).
  apply use_bind_ok in Hr as (stored & s2 & Hst & Hr).
  assert (s2 = s1) as ->.
  { destruct cipher; [|by apply use_ret_ok in Hst as [_ ->]].
    apply use_bind_ok in Hst as (? & ? & [_ ->]%crypt_ok & Hst). by apply use_ret_ok in Hst as [_ ->]. }
  apply use_bind_ok in Hr as (? & s3 & (_ & _ & E3)%InsertSigningKey_ok & Hr).
  apply use_ret_ok in Hr as [_ ->]. rewrite E3, E1. apply only_signing_insert.
Qed.

Lemma MarkTenantPurging_ok env st u st' :
  MarkTenantPurging env st = Ok (u, st') ->
  (exists t, tenants (u_db st) !! env_TenantID env = Some t /\ live (tn_Status t) = true /\
     u_db st' = mkIdentityDB (<[env_TenantID env := with_status TenantPurging t]> (tenants (u_db st)))
                  (api_keys (u_db st)) (signing_keys (u_db st)) (sandbox_signups (u_db st))
                  (id_outbox (u_db st) ++ [mkIdOutbox (env_TenantID env) (env_Type env) env None])) \/
  (u_db st' = u_db st /\ forall t, tenants (u_db st) !! env_TenantID env = Some t -> live (tn_Status t) = false).
Proof.
  intros Hr. unfold MarkTenantPurging in Hr.
  apply use_bind_ok in Hr as (? & ? & [-> ->]%read_ok & Hr).
  destruct (tenants (u_db st) !! env_TenantID env) as [t|] eqn:Ht.
  - destruct (live (tn_Status t)) eqn:Hl.
    + apply use_bind_ok in Hr as (? & ? & ->%write_ok & Hr). apply write_ok in Hr as ->.
      left. by exists t.
    + apply use_ret_ok in Hr as [_ ->]. right. split; [done|]. by intros t' [= <-].
  - apply use_ret_ok in Hr as [_ ->]. by right.
Qed.

Lemma FinalizeTenantPurge_ok id st n st' :
  FinalizeTenantPurge id st = Ok (n, st') ->
  (exists t, tenants (u_db st) !! id = Some t /\ tn_Status t = TenantPurging /\
     u_db st' = mkIdentityDB (<[id := with_status TenantPurged t]> (tenants (u_db st)))
                  (filter (fun p => key_TenantID p.2 <> id) (api_keys (u_db st)))
                  (signing_keys (u_db st)) (sandbox_signups (u_db st)) (id_outbox (u_db st))) \/
  (u_db st' = u_db st /\ forall t, tenants (u_db st) !! id = Some t -> tn_Status t <> TenantPurging).
Proof.
  intros Hr. unfold FinalizeTenantPurge in Hr.
  apply use_bind_ok in Hr as (? & ? & [-> ->]%read_ok & Hr).
  destruct (tenants (u_db st) !! id) as [t|] eqn:Ht.
  - case_decide as Hp.
    + apply use_bind_ok in Hr as (? & ? & ->%write_ok & Hr). apply use_bind_ok in Hr as (? & ? & ->%write_ok & Hr).
      apply use_ret_ok in Hr as [_ ->]. left. by exists t.
    + apply use_ret_ok in Hr as [_ ->]. right. split; [done|]. by intros t' [= <-].
  - apply use_ret_ok in Hr as [_ ->]. by right.
Qed.

(** ** The use cases *)

Lemma announce_good t st u st' :
  IInv (u_db st) ->
  (exists t0, tenants (u_db st) !! tn_ID t = Some t0 /\ same_tenant t0 t) -> is_Some (tn_ExpiresAt t) ->
  announce t st = Ok (u, st') ->
  igood (u_db st) (u_db st') /\
  exists t', tenants (u_db st') !! tn_ID t = Some t' /\ live (tn_Status t') = false.
Proof.
  intros I (t0 & Ht0 & S) [e He] Hr. unfold announce in Hr.
  apply use_bind_ok in Hr as (env & s1 & (Es & Ety & Eten & Edat)%envelope_ok & Hr). rewrite <- Es in *.
  apply MarkTenantPurging_ok in Hr as [(t1 & Ht1 & Hl & E)|[E Hn]];
    [rewrite Eten in Ht1, E|rewrite Eten in Hn]; rewrite ?E.
  - assert (t1 = t0) as -> by congruence. split.
    + apply good_set_status; try done.
      * apply live_rank in Hl. right. cbn. lia.
      * rewrite Hl. eexists. split; [done|]. split; [done|].
        destruct S as (S1 & _ & S3 & _ & S5). unfold announcement. cbn [io_Topic io_Envelope].
        split; [done|]. split; [done|].
        split; [congruence|]. exists e. split; [congruence|]. by rewrite Edat, He, S1, S3.
      * auto.
    + exists (with_status TenantPurging t0). cbn [tenants]. by rewrite lookup_insert_eq.
  - split; [by apply igood_refl|]. exists t0. split; [done|]. by apply Hn.
Qed.

Lemma finalize_good id st u st' :
  IInv (u_db st) -> finalize id st = Ok (u, st') -> igood (u_db st) (u_db st').
Proof.
  intros I Hr. unfold finalize in Hr. apply use_bind_ok in Hr as (n & s1 & Hf & Hr).
  apply use_ret_ok in Hr as [_ ->].
  apply FinalizeTenantPurge_ok in Hf as [(t & Ht & Hp & ->)|[-> _]]; [|by apply igood_refl].
  rewrite <- (app_nil_r (id_outbox (u_db st))). apply good_set_status; try done.
  - rewrite Hp. right. cbn. lia.
  - by rewrite Hp.
  - intros i k. rewrite map_lookup_filter_Some. tauto.
  - intros i k Hk. destruct (decide (key_TenantID k = id)) as [->|Hne]; [by right|].
    left. by apply map_lookup_filter_Some.
Qed.

Lemma DefaultScopes_normal requested granted :
  normalizeScopes requested = Ok granted -> forall s, s ∈ granted -> s ∈ DefaultScopes.
Proof.
  unfold normalizeScopes. destruct requested as [|r rest]; [by intros [= <-]|].
  destruct (normalize_scopes_from ∅ (r :: rest)) as [out|] eqn:E; [|done]. intros [= <-].
  revert E. generalize (∅ : gset string) as seen, (r :: rest) as l. intros seen l. revert seen out.
  induction l as [|x l IH]; intros seen out E; cbn [normalize_scopes_from] in E; [injection E as <-; set_solver|].
  destruct (negb (AllowedScopes (TrimSpace x))) eqn:Ha in E; [done|]. apply negb_false_iff, bool_decide_eq_true in Ha.
  case_decide; [by eapply IH|].
  destruct (normalize_scopes_from _ l) as [out'|] eqn:E'; [|done]. injection E as <-.
  intros s Hs. apply elem_of_cons in Hs as [->|Hs]; [done|by eapply IH].
Qed.

Lemma CreateTenant_ok name slug st t st' :
  CreateTenant name slug st = Ok (t, st') ->
  ValidSlug (tn_Slug t) = true /\ tn_Status t = TenantActive /\ tn_ExpiresAt t = None /\
  tenants (u_db st) !! tn_ID t = None /\
  (forall id t', tenants (u_db st) !! id = Some t' -> tn_Slug t' <> tn_Slug t) /\
  u_db st' = set_tenants (<[tn_ID t := t]> (tenants (u_db st))) (u_db st).
Proof.
  intros Hr. unfold CreateTenant in Hr. apply fail_if_ok in Hr as [_ Hr].
  apply fail_if_ok in Hr as [Hv%negb_false_iff Hr].
  apply use_bind_ok in Hr as (id & s1 & F1%newV7_ok & Hr). apply use_bind_ok in Hr as (c & s2 & F2%now_ok & Hr).
  cbv zeta in Hr. apply use_bind_ok in Hr as (u & s3 & Hc & Hr). apply use_ret_ok in Hr as [-> ->].
  apply translate_ok, insert_tenant_ok in Hc. rewrite F2, F1 in Hc. done.
Qed.

Lemma CreateAPIKey_ok reads tenantID environment name scopes st k secret st' :
  CreateAPIKey reads tenantID environment name scopes st = Ok ((k, secret), st') ->
  key_TenantID k = tenantID /\ key_Environment k = environment /\ normalizeScopes scopes = Ok (key_Scopes k) /\
  NewAPIKeySecret reads environment = Ok secret /\ key_Prefix k = PrefixOf secret /\
  key_SecretHash k = HashSecret secret /\ key_RevokedAt k = None /\
  insert_api_key k (mkUse (u_db st) (u_v7 st') (u_v4 st') (u_clock st')) = Ok (tt, st').
Proof.
  intros Hr. unfold CreateAPIKey in Hr. apply fail_if_ok in Hr as [_ Hr]. apply fail_if_ok in Hr as [_ Hr].
  destruct (normalizeScopes scopes) as [granted|] eqn:Hn; [|done].
  apply use_bind_ok in Hr as (t & s0 & Ht & Hr).
  assert (s0 = st) as ->.
  { unfold GetTenant in Ht. apply use_bind_ok in Ht as (? & ? & [-> ->]%read_ok & Ht).
    destruct (tenants _ !! _); [|done]. by apply use_ret_ok in Ht as [_ ->]. }
  destruct (NewAPIKeySecret reads environment) as [sec|] eqn:Hs; [|done].
  apply use_bind_ok in Hr as (id & s1 & F1%newV7_ok & Hr). apply use_bind_ok in Hr as (c & s2 & F2%now_ok & Hr).
  cbv zeta in Hr. apply use_bind_ok in Hr as ([] & s3 & Hc & Hr). apply use_ret_ok in Hr as [Heq ->].
  injection Heq as -> ->. unfold CreateAPIKey_ in Hc. split_and!; try done.
  pose proof Hc as (_ & _ & _ & E)%insert_api_key_ok.
  assert (s2 = mkUse (u_db st) (u_v7 s3) (u_v4 s3) (u_clock s3)) as ->; [|exact Hc].
  destruct s2 as [db2 v7 v4 cl]. cbn in F2. subst db2. rewrite <- F1. f_equal.
  all: clear -Hc; unfold insert_api_key in Hc; apply use_bind_ok in Hc as (? & ? & [-> ->]%read_ok & Hc);
    do 3 (apply use_bind_ok in Hc as (? & ? & [_ ->]%require_ok & Hc)); by apply write_ok in Hc as ->.
Qed.

Lemma insert_signup_ok email r st u st' :
  insert_signup email r st = Ok (u, st') ->
  sandbox_signups (u_db st) !! email = None /\ is_Some (tenants (u_db st) !! su_TenantID r) /\
  u_db st' = set_sandbox_signups (<[email := r]> (sandbox_signups (u_db st))) (u_db st).
Proof.
  intros Hr. unfold insert_signup in Hr.
  apply use_bind_ok in Hr as (? & ? & [-> ->]%read_ok & Hr).
  apply use_bind_ok in Hr as (? & ? & [Hn%bool_decide_eq_true ->]%require_ok & Hr).
  apply use_bind_ok in Hr as (? & ? & [Ht%bool_decide_eq_true ->]%require_ok & Hr).
  by apply write_ok in Hr as ->.
Qed.

(** What a successful signup stores. *)
Definition provisioned (email : string) (t : Tenant) (k : APIKey) (db : IdentityDB) : IdentityDB :=
  mkIdentityDB (<[tn_ID t := t]> (tenants db)) (<[key_ID k := key_row k []]> (api_keys db)) (signing_keys db)
    (<[email := mkSignup (tn_ID t) (tn_CreatedAt t)]> (sandbox_signups db)) (id_outbox db).

Lemma Provision_ok email t k dailyLimit st u st' :
  ProvisionSandboxTenant email t k dailyLimit st = Ok (u, st') ->
  signups_since (day_start (clock_at (u_clock st))) (u_db st) < dailyLimit /\
  tenants (u_db st) !! tn_ID t = None /\
  (forall id t', tenants (u_db st) !! id = Some t' -> tn_Slug t' <> tn_Slug t) /\
  api_keys (u_db st) !! key_ID k = None /\ sandbox_signups (u_db st) !! email = None /\
  u_db st' = provisioned email t k (u_db st).
Proof.
  intros Hr. unfold ProvisionSandboxTenant in Hr.
  apply use_bind_ok in Hr as (tn & s1 & Ht & Hr). unfold now in Ht. injection Ht as <- <-.
  apply use_bind_ok in Hr as (? & ? & [-> ->]%read_ok & Hr).
  apply use_bind_ok in Hr as (? & ? & [Hl ->]%require_ok & Hr). cbn [u_db] in Hl. apply Z.ltb_lt in Hl.
  apply use_bind_ok in Hr as ([] & s2 & (Hn & Hs & E2)%translate_ok%insert_tenant_ok & Hr).
  apply use_bind_ok in Hr as ([] & s3 & (_ & Hk & _ & E3)%insert_api_key_ok & Hr).
  apply translate_ok, insert_signup_ok in Hr as (He & _ & E4).
  rewrite E3, E2 in He, E4. rewrite E2 in Hk. cbn in *. by split_and!.
Qed.

Lemma Signup_ok dailyLimit reads email companyName st r st' :
  Signup dailyLimit reads email companyName st = Ok (r, st') ->
  exists addr t_now t_db,
    addr = ToLower (TrimSpace email) /\ mail_ParseAddress addr = Some addr /\
    let t := ss_Tenant r in let k := ss_Key r in
    tn_Status t = TenantActive /\ tn_Slug t = sandbox_slug (TrimSpace companyName) (tn_ID t) /\
    tn_CreatedAt t = t_now /\ tn_ExpiresAt t = Some (t_now + SandboxTTL) /\
    key_TenantID k = tn_ID t /\ key_Environment k = EnvSandbox /\ key_Scopes k = DefaultScopes /\
    key_Prefix k = PrefixOf (ss_Secret r) /\ key_SecretHash k = HashSecret (ss_Secret r) /\ key_RevokedAt k = None /\
    t_now = clock_at (u_clock st) /\ t_db = clock_at (S (u_clock st)) /\
    signups_since (day_start t_db) (u_db st) < dailyLimit /\
    tenants (u_db st) !! tn_ID t = None /\
    (forall id t', tenants (u_db st) !! id = Some t' -> tn_Slug t' <> tn_Slug t) /\
    api_keys (u_db st) !! key_ID k = None /\ sandbox_signups (u_db st) !! addr = None /\
    u_db st' = provisioned addr t k (u_db st).
Proof.
  intros Hr. unfold Signup in Hr. cbv zeta in Hr.
  apply fail_if_ok in Hr as [_ Hr]. apply fail_if_ok in Hr as [Hm%bool_decide_eq_false Hr].
  apply fail_if_ok in Hr as [_ Hr].
  apply use_bind_ok in Hr as (id & s1 & F1 & Hr). pose proof (newV7_ok _ _ _ F1) as E1.
  assert (C1 : u_clock s1 = u_clock st).
  { unfold newV7, LedgerDomain.newID in F1. destruct (u_v7 st); cbn in F1; [done|]. by injection F1 as <- <-. }
  apply use_bind_ok in Hr as (t & s2 & F2 & Hr). unfold now in F2. injection F2 as <- <-.
  destruct (NewAPIKeySecret reads EnvSandbox) as [secret|]; [|done].
  apply use_bind_ok in Hr as (kid & s3 & F3 & Hr). pose proof (newV7_ok _ _ _ F3) as E3. cbn in E3.
  assert (C3 : u_clock s3 = S (u_clock s1)).
  { unfold newV7, LedgerDomain.newID in F3. cbn in F3. destruct (u_v7 s1); cbn in F3; [done|].
    injection F3 as _ <-. cbn. lia. }
  apply use_bind_ok in Hr as (u & s4 & Hp%Provision_ok & Hr). apply use_ret_ok in Hr as [-> ->]. cbn.
  rewrite C3, C1, E3, E1 in Hp. rewrite C1.
  eexists _, _, _. split; [done|]. split; [by apply dec_stable|]. split_and!; try done; apply Hp.
Qed.

(** The key a secret is checked against. *)
Definition api_keys_find (db : IdentityDB) (secret : string) : option APIKey :=
  List.find (fun k => VerifySecret k secret)
    (filter (fun k => key_Prefix k = PrefixOf secret) (table_rows (api_keys db))).

(** The scopes a token of the key carries. *)
Definition token_scopes (k : APIKey) : list string :=
  if decide (key_Scopes k = []) then DefaultScopes else key_Scopes k.

Lemma IssueToken_ok issuer secret st tok st' :
  IssueToken issuer secret st = Ok (tok, st') ->
  exists (k : APIKey) (t : Tenant) (jti : uuid), u_db st' = u_db st /\
    String.prefix "lk_" secret = true /\ (KeyPrefixLength < String.length secret)%nat /\
    api_keys_find (u_db st) secret = Some k /\ Revoked k = false /\
    tenants (u_db st) !! key_TenantID k = Some t /\ tn_Status t = TenantActive /\
    SignedString (ti_key issuer) (ti_kid issuer) (issued_claims issuer (key_ID k) (tn_ID t) (key_Environment k)
      (token_scopes k) (clock_at (u_clock st)) jti) = Some (it_AccessToken tok) /\
    it_ExpiresIn tok = ti_ttl issuer / second.
Proof.
  intros Hr. unfold IssueToken in Hr. apply fail_if_ok in Hr as [[Hp Hl]%orb_false_iff Hr].
  apply use_bind_ok in Hr as (cs & s1 & Hf & Hr). unfold FindAPIKeysByPrefix in Hf.
  apply use_bind_ok in Hf as (? & ? & [-> ->]%read_ok & Hf). apply use_ret_ok in Hf as [-> ->].
  fold (api_keys_find (u_db st) secret) in Hr. destruct (api_keys_find (u_db st) secret) as [k|] eqn:Hk; [|done].
  apply fail_if_ok in Hr as [Hrev Hr].
  apply use_bind_ok in Hr as (t & s1 & Ht%translate_ok & Hr). unfold GetTenant in Ht.
  apply use_bind_ok in Ht as (? & ? & [-> ->]%read_ok & Ht).
  destruct (tenants (u_db st) !! key_TenantID k) as [t0|] eqn:E; [|done]. apply use_ret_ok in Ht as [-> ->].
  apply fail_if_ok in Hr as [Ha%negb_false_iff%bool_decide_eq_true Hr]. cbv zeta in Hr. unfold Issue in Hr.
  apply use_bind_ok in Hr as (tn & s2 & Ht & Hr). unfold now in Ht. injection Ht as <- <-.
  apply use_bind_ok in Hr as (jti & s3 & Hj & Hr). unfold newV4 in Hj. injection Hj as _ <-.
  fold (token_scopes k) in Hr. destruct (SignedString _ _ _) as [signed|] eqn:Hs; [|done].
  apply use_ret_ok in Hr as [-> ->]. exists k, t0, jti. apply negb_false_iff in Hp. apply Nat.leb_gt in Hl.
  by split_and!.
Qed.

(** ** Worlds *)

Inductive id_request : Type :=
| IqCreateTenant (name slug : string)
| IqCreateAPIKey (reads : list (list Z)) (tenantID : uuid) (environment name : string) (scopes : list string)
| IqRevoke (id : uuid)
| IqSignup (dailyLimit : Z) (reads : list (list Z)) (email companyName : string)
| IqIssue (issuer : TokenIssuer) (secret : string)
| IqGenerate (cipher : option bytes) (nonce : uuid -> option bytes) (draw : nat)
| IqReencrypt (c : bytes) (nonce : uuid -> option bytes) (k : SigningKey).

Definition id_exec (rq : id_request) : ITx unit :=
  match rq with
  | IqCreateTenant name slug => _ ← CreateTenant name slug; mret tt
  | IqCreateAPIKey reads tenantID environment name scopes =>
      _ ← CreateAPIKey reads tenantID environment name scopes; mret tt
  | IqRevoke id => RevokeAPIKey id
  | IqSignup dailyLimit reads email companyName => _ ← Signup dailyLimit reads email companyName; mret tt
  | IqIssue issuer secret => _ ← IssueToken issuer secret; mret tt
  | IqGenerate cipher nonce draw => _ ← generate_stored cipher nonce draw; mret tt
  | IqReencrypt c nonce k => reencrypt_key c nonce k
  end.

(** The tables, and what running sweeps scanned and have still to do. *)
Record IdWorld : Type := mkIdWorld { iw_db : IdentityDB; iw_expired : list Tenant; iw_purgeable : list uuid }.

Inductive istep : IdWorld -> IdWorld -> Prop :=
| istep_request w rq st st' :
    u_db st = iw_db w -> id_exec rq st = Ok (tt, st') ->
    istep w (mkIdWorld (u_db st') (iw_expired w) (iw_purgeable w))
| istep_scan_expired w now :
    istep w (mkIdWorld (iw_db w) (iw_expired w ++ ExpiredSandboxTenants now (iw_db w)) (iw_purgeable w))
| istep_announce w pre t post st st' :
    iw_expired w = pre ++ t :: post -> u_db st = iw_db w -> announce t st = Ok (tt, st') ->
    istep w (mkIdWorld (u_db st') (pre ++ post) (iw_purgeable w))
| istep_scan_purgeable w cutoff :
    istep w (mkIdWorld (iw_db w) (iw_expired w) (iw_purgeable w ++ PurgeableTenants cutoff (iw_db w)))
| istep_finalize w pre id post st st' :
    iw_purgeable w = pre ++ id :: post -> u_db st = iw_db w -> finalize id st = Ok (tt, st') ->
    istep w (mkIdWorld (u_db st') (iw_expired w) (pre ++ post))
| istep_crash w : istep w (mkIdWorld (iw_db w) [] []).

Inductive ireach : IdWorld -> Prop :=
| ireach_init : ireach (mkIdWorld empty_identity [] [])
| ireach_step w w' : ireach w -> istep w w' -> ireach w'.

(** A scanned tenant is a row, up to its status. *)
Definition scanned (db : IdentityDB) (t : Tenant) : Prop :=
  is_Some (tn_ExpiresAt t) /\ exists t0, tenants db !! tn_ID t = Some t0 /\ same_tenant t0 t.

Definition IWInv (w : IdWorld) : Prop := IInv (iw_db w) /\ Forall (scanned (iw_db w)) (iw_expired w).

Lemma scanned_persists db db' t : ipersists db db' -> scanned db t -> scanned db' t.
Proof.
  intros P [He (t0 & Ht0 & S)]. split; [done|]. destruct (ip_tenant _ _ P _ _ Ht0) as (t1 & Ht1 & S1 & _).
  exists t1. split; [done|]. unfold same_tenant in *. intuition congruence.
Qed.

Lemma id_exec_good rq st u st' : IInv (u_db st) -> id_exec rq st = Ok (u, st') -> igood (u_db st) (u_db st').
Proof.
  intros I Hr. destruct rq; cbn [id_exec] in Hr.
  - apply use_bind_ok in Hr as (t & s1 & (Hv & Ha & _ & Hn & Hs & E)%CreateTenant_ok & Hr).
    apply use_ret_ok in Hr as [_ ->]. rewrite E. by apply good_insert_tenant.
  - apply use_bind_ok in Hr as ([k secret] & s1 & Hc%CreateAPIKey_ok & Hr). apply use_ret_ok in Hr as [_ ->].
    destruct Hc as (_ & _ & Hs & _ & _ & _ & _ & Hc).
    exact (insert_api_key_good k (mkUse (u_db st) _ _ _) tt s1 I (DefaultScopes_normal _ _ Hs) Hc).
  - by eapply RevokeAPIKey_good.
  - apply use_bind_ok in Hr as (r & s1 & (addr & tn & td & _ & _ & Hp)%Signup_ok & Hr).
    apply use_ret_ok in Hr as [_ ->]. cbn zeta in Hp.
    destruct Hp as (Ha & Hslug & _ & _ & Hkt & He & _ & _ & _ & _ & _ & _ & _ & Hn & Hs & Hk & Hem & ->).
    set (t := ss_Tenant r) in *. set (k := ss_Key r) in *.
    eapply igood_trans; [apply (good_insert_tenant _ t I Hn Ha)|]; [|exact Hs|intros I1].
    { rewrite Hslug. by apply sandbox_slug_valid; apply id_hex. }
    eapply igood_trans; [apply (good_set_keys _ (<[key_ID k := key_row k []]> (api_keys (u_db st))) I1)|intros I2].
    + intros i k'. rewrite lookup_insert_Some. intros [[<- <-]|[_ Hk']].
      * split; [done|]. cbn. rewrite Hkt, lookup_insert_eq, He. split; [by eexists|]. split; [done|set_solver].
      * destruct (ii_key _ I1 i k' Hk') as (? & ? & ?). done.
    + intros i k' Hk'. exists k'. rewrite lookup_insert_ne; [split; [done|by repeat split]|].
      intros <-. cbn in Hk'. congruence.
    + apply (good_set_signups _ addr (mkSignup (tn_ID t) (tn_CreatedAt t)) I2); [done|].
      cbn. rewrite lookup_insert_eq. by eexists.
  - apply use_bind_ok in Hr as (tok & s1 & Hi & Hr). apply use_ret_ok in Hr as [_ ->].
    apply IssueToken_ok in Hi as (k & t & jti & E & _). rewrite E. by apply igood_refl.
  - apply use_bind_ok in Hr as (k & s1 & Ho%generate_stored_ok & Hr). apply use_ret_ok in Hr as [_ ->].
    by apply only_signing_good.
  - apply reencrypt_key_ok in Hr. by apply only_signing_good.
Qed.

Lemma scanned_all db db' l : ipersists db db' -> Forall (scanned db) l -> Forall (scanned db') l.
Proof. intros P Hl. eapply Forall_impl; [exact Hl|]. intros t. by apply scanned_persists. Qed.

Lemma ExpiredSandboxTenants_elem now db t :
  t ∈ ExpiredSandboxTenants now db <-> (exists id, tenants db !! id = Some t) /\ is_expired now t = true.
Proof.
  unfold ExpiredSandboxTenants. rewrite order_rows_perm, list_elem_of_filter, elem_table. tauto.
Qed.

Lemma expired_scanned now db : IInv db -> Forall (scanned db) (ExpiredSandboxTenants now db).
Proof.
  intros I. apply Forall_forall. intros t [[id Hid] He]%ExpiredSandboxTenants_elem. split.
  - unfold is_expired in He. by destruct (tn_ExpiresAt t).
  - exists t. rewrite (ii_id _ I _ _ Hid). split; [done|by repeat split].
Qed.

Lemma istep_inv w w' : IWInv w -> istep w w' -> IWInv w' /\ ipersists (iw_db w) (iw_db w').
Proof.
  intros [I Hs] St. destruct St as [w rq st st' E Hr|w t|w pre t post st st' El E Hr|w c|
    w pre id post st st' El E Hr|w]; cbn [iw_db iw_expired iw_purgeable IWInv].
  - rewrite <- E in I, Hs. destruct (id_exec_good rq st tt st' I Hr) as [I' P]. rewrite <- E.
    split; [split; [done|by eapply scanned_all]|done].
  - split; [|apply ipersists_refl]. split; [done|]. apply Forall_app. split; [done|by apply expired_scanned].
  - rewrite El in Hs. apply Forall_app in Hs as [Hpre [[He Ht0] Hpost]%Forall_cons]. rewrite <- E in *.
    destruct (announce_good t st tt st' I Ht0 He Hr) as [[I' P] _]. split; [split; [done|]|done].
    by eapply scanned_all; [|apply Forall_app].
  - split; [|apply ipersists_refl]. by split.
  - rewrite <- E in *. destruct (finalize_good id st tt st' I Hr) as [I' P].
    split; [split; [done|by eapply scanned_all]|done].
  - split; [|apply ipersists_refl]. by split.
Qed.

Lemma ireach_inv w : ireach w -> IWInv w.
Proof.
  induction 1 as [|w w' _ IH St]; [split; [apply empty_inv|by constructor]|]. by eapply istep_inv.
Qed.
End World.
