(* ===== verification/IdentityTokens.v ===== *)
(** * From the identity service to every other: issued tokens and published keys

    A token the identity service issues is accepted by the middleware of every
    service, through the JWKS document, with the tenant and scopes of its key. *)

From Stdlib Require Import Ascii String ZArith Lia.
From S2P Require Import Prelude Strconv Errors LedgerDomain LedgerEvents Httpx TxMonad Signature Keycrypt.
From S2P Require Import Base64Url Webhooks Ident Identity IdentitySlug IdentityStore IdentityService IdentityInv.
From S2P Require Import IdentityWorld.
Local Open Scope Z_scope.

(** ** Headers *)

Lemma prefix_append a b : String.prefix a (a +:+ b)%string = true.
Proof.
  induction a as [|c a IH]; [by destruct b|]. change ((String c a +:+ b)%string) with (String c (a +:+ b)%string).
  cbn. destruct (ascii_dec c c); [apply IH|done].
Qed.

Lemma length_append a b : String.length (a +:+ b)%string = (String.length a + String.length b)%nat.
Proof.
  induction a as [|c a IH]; [done|]. change (S (String.length (a +:+ b)) = S (String.length a + String.length b))%nat.
  by rewrite IH.
Qed.

Lemma substring_append a b :
  substring (String.length a) (String.length (a +:+ b)%string - String.length a) (a +:+ b)%string = b.
Proof.
  rewrite length_append. replace (String.length a + String.length b - String.length a)%nat with (String.length b) by lia.
  induction a as [|c a IH].
  - change (("" +:+ b)%string) with b. cbn [String.length]. induction b as [|c b IH]; [done|]. cbn. by rewrite IH.
  - change ((String c a +:+ b)%string) with (String c (a +:+ b)%string). cbn. apply IH.
Qed.

Lemma trim_left_keeps c l : c ∈ l -> is_space c = false -> c ∈ trim_left l.
Proof.
  induction l as [|d l IH]; [done|]. intros Hin Hc. cbn [trim_left].
  destruct (is_space d) eqn:Hd; [|done]. apply IH; [|done]. apply elem_of_cons in Hin as [->|]; [congruence|done].
Qed.

Lemma TrimSpace_nonblank c s : is_space c = false -> TrimSpace (String c s) <> ""%string.
Proof.
  intros Hc E. unfold TrimSpace in E. apply (f_equal list_ascii_of_string) in E.
  rewrite list_ascii_of_string_of_list_ascii in E. cbn in E.
  assert (Hin : c ∈ rev (trim_left (rev (trim_left (c :: list_ascii_of_string s))))).
  { apply list_elem_of_In, in_rev. rewrite rev_involutive. apply list_elem_of_In, trim_left_keeps; [|done].
    apply list_elem_of_In, in_rev. rewrite rev_involutive. apply list_elem_of_In, trim_left_keeps; [left|done]. }
  cbn [trim_left] in Hin. rewrite Hc in E, Hin. rewrite E in Hin. by apply elem_of_nil in Hin.
Qed.

(** ** Scopes *)

Lemma no_wildcard : ScopeWildcard ∉ DefaultScopes.
Proof. by apply (bool_decide_eq_false_1 (ScopeWildcard ∈ DefaultScopes)). Qed.

(** ** The published keys *)

Lemma jwk_fold_lookup l m kid pub :
  (m !! kid = Some pub \/ exists j, j ∈ l /\ k_Kid j = kid) ->
  (forall j, j ∈ l -> k_Kid j = kid -> jwk_key j = Some pub) ->
  fold_left jwk_step l m !! kid = Some pub.
Proof.
  revert m. induction l as [|j l IH]; intros m Hor Hall; cbn [fold_left].
  - by destruct Hor as [?|(j & Hj%elem_of_nil & _)].
  - apply IH; [|intros i Hi; apply Hall; by right].
    unfold jwk_step. destruct (decide (k_Kid j = kid)) as [E|Hne].
    + rewrite (Hall j) by (done || left). left. by rewrite E, lookup_insert_eq.
    + assert (Hm : forall raw, <[k_Kid j := raw]> m !! kid = m !! kid) by (intros raw; by rewrite lookup_insert_ne).
      destruct Hor as [Hm'|(i & Hi & Hk)]; [left; destruct (jwk_key j); by rewrite ?Hm|].
      right. exists i. split; [|done]. apply elem_of_cons in Hi as [->|]; [by destruct Hne|done].
Qed.

Section Tokens.
Context `{Supply, Render, Parsers, Jwt, Sha256, Ed25519, Aead, MailParse}.
Implicit Types st : UseState IdentityDB.

(** Which private and public keys belong together. *)
Variable matching : bytes -> bytes -> Prop.

(** What is relied on: the JWT library accepts a token it signed, under the
    matching key and when its checks of the claims pass, and only then, with the
    claims that were signed; tokens hold no spaces; dates are truncated to the
    second; ids are parsed back and print as hexadecimal. *)
Hypothesis parse_signed : forall opts now kid priv pub tc tok keyfunc,
  po_ValidMethods opts = ["EdDSA"%string] -> matching priv pub -> SignedString priv kid tc = Some tok ->
  keyfunc kid = Some pub -> claims_valid opts now tc -> ParseWithClaims opts now tok keyfunc = Some tc.
Hypothesis parse_checks : forall opts now kid priv tc tok keyfunc tc',
  SignedString priv kid tc = Some tok -> ParseWithClaims opts now tok keyfunc = Some tc' ->
  tc' = tc /\ claims_valid opts now tc.
Hypothesis token_text : forall priv kid tc tok, SignedString priv kid tc = Some tok -> TrimSpace tok = tok.
Hypothesis numeric_date : forall t, t - second < NewNumericDate t <= t.
Hypothesis uuid_roundtrip : forall u, uuid_Parse (uuid_String u) = Some u.
Hypothesis id_hex : forall id, length (id_suffix id) = 6%nat /\ Forall (fun c => slug_char c = true) (id_suffix id).

Lemma uuid_String_nonempty u : uuid_String u <> ""%string.
Proof. intros E. destruct (id_hex u) as [Hl _]. unfold id_suffix in Hl. by rewrite E in Hl. Qed.

Lemma uuid_String_inj u v : uuid_String u = uuid_String v -> u = v.
Proof. intros E. pose proof (uuid_roundtrip u) as Hu. rewrite E, uuid_roundtrip in Hu. congruence. Qed.

Lemma active_keys_elem db k :
  k ∈ active_keys db <-> (exists kid, signing_keys db !! kid = Some k) /\ sk_Active k = true.
Proof. unfold active_keys. rewrite order_rows_perm, list_elem_of_filter, elem_table. tauto. Qed.

(** Fetching the JWKS document gives every active key under its id. *)
Lemma jwks_lookup st doc st' k pub :
  IInv (u_db st) -> k ∈ active_keys (u_db st) -> JWKS st = Ok (doc, st') ->
  ParsePublicPEM (sk_PublicKeyPEM k) = Some pub -> length pub = PublicKeySize ->
  fold_left jwk_step (jwks_Keys doc) ∅ !! uuid_String (sk_Kid k) = Some pub.
Proof.
  intros I Hk Hr Hpub Hlen. unfold JWKS in Hr.
  apply use_bind_ok in Hr as (ks & s1 & Hl & Hr). unfold ListActiveSigningKeys in Hl.
  apply use_bind_ok in Hl as (? & ? & [-> ->]%read_ok & Hl). apply use_ret_ok in Hl as [-> ->].
  destruct (mapM jwk_of (active_keys (u_db st))) as [docs|] eqn:Hm; [|done].
  apply use_ret_ok in Hr as [-> _]. cbn [jwks_Keys]. apply mapM_Some in Hm.
  assert (Hof : forall k' j, jwk_of k' = Some j -> k_Kid j = uuid_String (sk_Kid k') /\
    exists p, ParsePublicPEM (sk_PublicKeyPEM k') = Some p /\ j = mkJwk "OKP" "Ed25519" (uuid_String (sk_Kid k'))
      (string_of_list_ascii (rawurl_encode p))).
  { intros k' j Hj. unfold jwk_of in Hj. destruct (ParsePublicPEM (sk_PublicKeyPEM k')) as [p|]; [|done].
    cbn in Hj. injection Hj as <-. split; [done|by exists p]. }
  apply jwk_fold_lookup.
  - right. apply list_elem_of_lookup in Hk as [i Hi].
    destruct (Forall2_lookup_l _ _ _ _ _ Hm Hi) as (j & Hj & Ej). exists j.
    split; [by eapply list_elem_of_lookup_2|]. by apply Hof in Ej as [-> _].
  - intros j Hj Ekid. apply list_elem_of_lookup in Hj as [i Hi].
    destruct (Forall2_lookup_r _ _ _ _ _ Hm Hi) as (k' & Hk'%list_elem_of_lookup_2 & (Ek & p & Hp & ->)%Hof).
    assert (k' = k) as ->.
    { rewrite Ek in Ekid. apply uuid_String_inj in Ekid.
      apply active_keys_elem in Hk as [[i1 H1'] _]. apply active_keys_elem in Hk' as [[i2 H2'] _].
      rewrite (ii_signing _ I _ _ H1'), (ii_signing _ I _ _ H2') in Ekid. congruence. }
    rewrite Hpub in Hp. injection Hp as <-. unfold jwk_key. cbn [k_Kty k_Crv k_Kid k_X].
    rewrite (bool_decide_eq_false_2 (uuid_String (sk_Kid k) = ""%string)) by apply uuid_String_nonempty. cbn.
    rewrite list_ascii_of_string_of_list_ascii, rawurl_roundtrip. cbn. by rewrite (proj2 (Nat.eqb_eq _ _)).
Qed.

Lemma key_cached c kid pub now resp :
  ck_keys c !! kid = Some pub -> (forall c', fetch resp now = Some c' -> ck_keys c' !! kid = Some pub) ->
  (key c kid now resp).1 = Some pub.
Proof.
  intros Hk Hf. unfold key. rewrite Hk. destruct (is_fresh c now); [done|].
  destruct (fetch resp now) as [c'|]; [|done]. by apply Hf.
Qed.

Lemma fetch_keys doc t c : fetch (Fetched 200 (Some doc)) t = Some c -> ck_keys c = fold_left jwk_step doc ∅.
Proof. cbn. case_decide; [done|]. by intros [= <-]. Qed.

(** ** A request with a token *)

Definition service_config (aud : string) : AuthConfig := mkAuthConfig false DefaultIssuer aud 0.
Definition with_token (tok : string) : AuthHeaders := mkAuthHeaders "" ("Bearer " +:+ tok).

Lemma RequireAuth_token aud now lookup tok :
  TrimSpace tok = tok ->
  RequireAuthConfig (service_config aud) now lookup (with_token tok) =
    match ParseWithClaims (parserOpts (service_config aud)) now tok
            (fun kid => if decide (kid = ""%string) then None else lookup kid) with
    | None => unauthorized "token is invalid or expired"
    | Some tc =>
        if decide (TrimSpace (tc_Subject tc) = ""%string)
        then unauthorized "token subject (sub) is required"
        else match uuid_Parse (tc_TenantID tc) with
             | None => unauthorized "token tenant_id claim is not a UUID"
             | Some tenantID =>
                 if decide (tc_Environment tc <> EnvSandbox /\ tc_Environment tc <> EnvLive)
                 then unauthorized "token env claim must be sandbox or live"
                 else Next (mkClaims (tc_Subject tc) tenantID (tc_Environment tc) (tc_Scopes tc))
             end
    end.
Proof.
  intros Ht. unfold RequireAuthConfig, with_token, service_config. cbn [ac_AuthDisabled h_Authorization].
  unfold bearer. rewrite prefix_append. cbn [negb]. by rewrite substring_append, Ht.
Qed.

Lemma HasScope_exact c scope :
  ScopeWildcard ∉ cl_Scopes c -> HasScope c scope = bool_decide (scope ∈ cl_Scopes c).
Proof.
  intros Hw. unfold HasScope. apply eq_true_iff_eq. rewrite existsb_exists, bool_decide_eq_true. split.
  - intros (s & Hin%list_elem_of_In & [E%bool_decide_eq_true|E%bool_decide_eq_true]%orb_true_iff); by subst.
  - intros Hin. exists scope. split; [by apply list_elem_of_In|]. by rewrite bool_decide_eq_true_2.
Qed.

Lemma issued_valid issuer apiKeyID tenantID env scopes issued jti aud now :
  ti_audiences issuer = DefaultAudiences -> aud ∈ DefaultAudiences ->
  let tc := issued_claims issuer apiKeyID tenantID env scopes issued jti in
  (issued - 60 * second <= now < issued + ti_ttl issuer + 59 * second -> claims_valid (parserOpts (service_config aud)) now tc) /\
  (issued + ti_ttl issuer + 60 * second <= now -> ~ claims_valid (parserOpts (service_config aud)) now tc).
Proof.
  intros Ha Hin tc.
  assert (Hleeway : po_Leeway (parserOpts (service_config aud)) = 60 * second) by done.
  assert (Hs : 0 < second) by done.
  pose proof (numeric_date issued) as N1. pose proof (numeric_date (issued + ti_ttl issuer)) as N2. split.
  - intros Hnow. unfold claims_valid. rewrite Hleeway. cbn [tc issued_claims tc_ExpiresAt tc_IssuedAt tc_NotBefore tc_Issuer tc_Audience].
    split; [lia|]. split; [intros _; lia|]. split; [done|].
    split; [cbn [parserOpts po_Issuer service_config ac_ExpectedIssuer]; by case_decide|].
    cbn [parserOpts po_Audience service_config ac_ExpectedAudience]. case_decide; [done|]. by rewrite Ha.
  - intros Hnow [He _]. rewrite Hleeway in He. cbn in He. lia.
Qed.

(** C23: tokens work everywhere and only as granted. A token is
    issued only for an unrevoked key of an active tenant, and every service
    accepts it whichever the state of the JWKS cache once it holds the published
    document: the request runs as the key's tenant and environment, and exactly
    the routes whose scope the key carries let it through, the others answering
    403. The verifiers allow a minute of clock skew: the token is accepted from a
    minute before its issue, and for 59 seconds after its expiry still; a minute
    after the expiry every route answers 401. In the second between the two the
    outcome depends on the truncation of the expiry to whole seconds. *)
Theorem issued_token_authorizes w issuer k ttl priv pub secret st tok st1 w' stj doc stj' tf c aud resp :
  ireach w -> u_db st = iw_db w -> NewTokenIssuer k ttl = Ok issuer ->
  ParsePrivatePEM (sk_PrivateKeyPEM k) = Some priv -> ParsePublicPEM (sk_PublicKeyPEM k) = Some pub ->
  length pub = PublicKeySize -> matching priv pub ->
  IssueToken issuer secret st = Ok (tok, st1) ->
  ireach w' -> u_db stj = iw_db w' ->
  (exists k', k' ∈ active_keys (iw_db w') /\ sk_Kid k' = sk_Kid k /\ sk_PublicKeyPEM k' = sk_PublicKeyPEM k) ->
  JWKS stj = Ok (doc, stj') -> fetch (Fetched 200 (Some (jwks_Keys doc))) tf = Some c ->
  resp = FetchFailed \/ resp = Fetched 200 (Some (jwks_Keys doc)) -> aud ∈ DefaultAudiences ->
  let issued := clock_at (u_clock st) in
  let request scope now := authorize (service_config aud) scope now (fun kid => (key c kid now resp).1)
                             (with_token (it_AccessToken tok)) in
  exists id key, api_keys (u_db st) !! id = Some key /\ key_SecretHash key = HashSecret secret /\
    key_RevokedAt key = None /\ (exists t, tenants (u_db st) !! key_TenantID key = Some t /\ tn_Status t = TenantActive) /\
    (forall scope now, issued - 60 * second <= now < issued + ttl + 59 * second ->
       request scope now =
         if bool_decide (scope ∈ token_scopes key)
         then Next (mkClaims ("api_key:" +:+ uuid_String (key_ID key)) (key_TenantID key) (key_Environment key)
                      (token_scopes key))
         else AuthError 403 "forbidden" ("token is missing the required scope " +:+ scope)) /\
    (forall scope now, issued + ttl + 60 * second <= now ->
       request scope now = unauthorized "token is invalid or expired").
Proof.
  intros [I _]%(ireach_inv id_hex) Edb Hiss Hpriv Hpub Hlen Hmat Hi [I' _]%(ireach_inv id_hex) Edb' Hk' Hj Hfetch Hresp Haud
    issued request.
  unfold NewTokenIssuer in Hiss. case_decide; [done|]. rewrite Hpriv in Hiss. injection Hiss as <-.
  apply IssueToken_ok in Hi as (key & t & jti & _ & _ & _ & Hfind & Hrev & Ht & Hact & Hsign & _).
  rewrite <- Edb in I. apply List.find_some in Hfind as [Hin Hv].
  apply list_elem_of_In, list_elem_of_filter in Hin as [_ [id Hkey]%elem_table]. exists id, key.
  split; [done|]. split; [symmetry; by apply bool_decide_eq_true in Hv|]. split.
  { unfold Revoked in Hrev. apply bool_decide_eq_false in Hrev. by apply eq_None_not_Some. }
  split; [by exists t|]. rewrite (ii_id _ I _ _ Ht) in Hsign.
  cbn [ti_key ti_kid] in Hsign. fold issued in Hsign.
  set (issuer := mkTokenIssuer (uuid_String (sk_Kid k)) priv ttl DefaultAudiences) in *.
  set (tc := issued_claims issuer (key_ID key) (key_TenantID key) (key_Environment key) (token_scopes key) issued jti) in *.
  assert (Hlook : forall now, (Ident.key c (uuid_String (sk_Kid k)) now resp).1 = Some pub).
  { destruct Hk' as (k' & Hk' & Ekid & Epub). rewrite <- Edb' in I', Hk'.
    pose proof (jwks_lookup stj doc stj' k' pub I' Hk' Hj) as Hl. rewrite Epub, Ekid in Hl.
    specialize (Hl Hpub Hlen). intros now. apply key_cached.
    - by rewrite (fetch_keys _ _ _ Hfetch).
    - intros c' Hc'. destruct Hresp as [->| ->]; [done|]. by rewrite (fetch_keys _ _ _ Hc'). }
  pose proof (fun now => issued_valid issuer (key_ID key) (key_TenantID key) (key_Environment key) (token_scopes key)
    issued jti aud now eq_refl Haud) as Hvalid. cbn [ti_ttl issuer] in Hvalid.
  destruct (ii_key _ I _ _ Hkey) as (_ & _ & Henv & Hsc).
  assert (Hwild : ScopeWildcard ∉ token_scopes key).
  { unfold token_scopes. case_decide; [apply no_wildcard|]. intros Hw. by apply no_wildcard, Hsc. }
  split; intros scope now Hnow; unfold request, authorize; rewrite (RequireAuth_token aud now) by (by eapply token_text).
  - rewrite (parse_signed _ now (uuid_String (sk_Kid k)) priv pub tc); [|done|done|done| |by apply Hvalid].
    2:{ rewrite decide_False by apply uuid_String_nonempty. apply Hlook. }
    cbn [tc issued_claims tc_Subject tc_TenantID tc_Environment tc_Scopes].
    rewrite decide_False by (change (TrimSpace (String "a" ("pi_key:" +:+ uuid_String (key_ID key))) <> ""%string);
                             by apply TrimSpace_nonblank).
    rewrite uuid_roundtrip, decide_False.
    + cbn [RequireScope]. rewrite HasScope_exact by done. cbn [cl_Scopes]. by case_bool_decide.
    + unfold ValidEnvironment in Henv. apply orb_true_iff in Henv. rewrite !bool_decide_eq_true in Henv. tauto.
  - destruct (ParseWithClaims _ _ _ _) as [tc'|] eqn:Hp; [|done]. exfalso.
    destruct (parse_checks _ _ _ _ _ _ _ _ Hsign Hp) as [_ Hc]. by apply Hvalid in Hc.
Qed.
End Tokens.
