(* ===== verification/IdentitySandbox.v ===== *)
(** * Sandbox tenants: signup, collision, sweep

    What a signup stores and who may sign up again; when two signups of one
    company collide; and what one sweep does to every tenant. *)

From Stdlib Require Import Ascii String ZArith Lia.
From S2P Require Import Prelude Strconv Errors LedgerDomain LedgerEvents Httpx TxMonad Signature Keycrypt.
From S2P Require Import Base64Url Webhooks Ident Identity IdentitySlug IdentityStore IdentityService.
From S2P Require Import IdentityInv IdentityWorld.
Local Open Scope Z_scope.

Section Sandbox.
Context `{Supply, Render, Parsers, Jwt, Sha256, Ed25519, Aead, MailParse}.
(** ** Running statements *)

Lemma run_bind {S A B} (m : Use S A) (f : A -> Use S B) st a st1 :
  m st = Ok (a, st1) -> (m ≫= f) st = f a st1.
Proof. intros E. unfold mbind, Use_bind. by rewrite E. Qed.

Lemma run_bind_err {S A B} (m : Use S A) (f : A -> Use S B) st e :
  m st = Err e -> (m ≫= f) st = Err e.
Proof. intros E. unfold mbind, Use_bind. by rewrite E. Qed.

Lemma newV7_run {S} (st : UseState S) id ids :
  u_v7 st = id :: ids -> newV7 st = Ok (id, mkUse (u_db st) ids (u_v4 st) (u_clock st)).
Proof. intros E. unfold newV7. by rewrite E. Qed.

Lemma now_run {S} (st : UseState S) :
  now st = Ok (clock_at (u_clock st), mkUse (u_db st) (u_v7 st) (u_v4 st) (u_clock st + 1)).
Proof. done. Qed.

Lemma read_run {S} (st : UseState S) : read st = Ok (u_db st, st).
Proof. done. Qed.

Lemma write_run {S} f (st : UseState S) :
  write f st = Ok (tt, mkUse (f (u_db st)) (u_v7 st) (u_v4 st) (u_clock st)).
Proof. done. Qed.

Lemma require_run {S} b e (st : UseState S) : b = true -> require b e st = Ok (tt, st).
Proof. by intros ->. Qed.

(** ** Signup *)

Implicit Types st : UseState IdentityDB.

Lemma signups_since_insert t email row db :
  sandbox_signups db !! email = None ->
  signups_since t (set_sandbox_signups (<[email := row]> (sandbox_signups db)) db) <= signups_since t db + 1.
Proof.
  intros Hn. unfold signups_since. cbn [sandbox_signups set_sandbox_signups].
  rewrite (map_to_list_insert _ _ _ Hn), filter_cons. case_decide; cbn; lia.
Qed.

(** The state of the tables a later world has. *)
Inductive later (w : IdWorld) : IdWorld -> Prop :=
| later_refl : later w w
| later_step w1 w2 : later w w1 -> istep w1 w2 -> later w w2.

Lemma later_ipersists w w' :
  (forall id, length (id_suffix id) = 6%nat /\ Forall (fun c => slug_char c = true) (id_suffix id)) ->
  ireach w -> later w w' -> ireach w' /\ ipersists (iw_db w) (iw_db w').
Proof.
  intros Hid R. induction 1 as [|w1 w2 _ [R1 P1] St]; [split; [done|apply ipersists_refl]|].
  split; [by eapply ireach_step|]. eapply ipersists_trans; [exact P1|].
  by eapply istep_inv; [|apply ireach_inv|].
Qed.

(** C28: a signup provisions one sandbox, once per address. A successful signup
    adds exactly one tenant, one key and one signup record and changes nothing
    else; the tenant is active with a valid, unused slug and expires 14 days
    later; the key is a sandbox key with the hash of the returned secret; the
    address had no signup before and can have none in any later world; and the
    signups since the database's midnight, this one included, stay within the
    daily limit. *)
Theorem Signup_provisions w dailyLimit reads email companyName st r st' :
  (forall id, length (id_suffix id) = 6%nat /\ Forall (fun c => slug_char c = true) (id_suffix id)) ->
  ireach w -> u_db st = iw_db w -> Signup dailyLimit reads email companyName st = Ok (r, st') ->
  let addr := ToLower (TrimSpace email) in let t := ss_Tenant r in let k := ss_Key r in
  u_db st' = provisioned addr t k (u_db st) /\
  tenants (u_db st) !! tn_ID t = None /\ api_keys (u_db st) !! key_ID k = None /\
  sandbox_signups (u_db st) !! addr = None /\
  tn_Status t = TenantActive /\ ValidSlug (tn_Slug t) = true /\
  (forall id t', tenants (u_db st) !! id = Some t' -> tn_Slug t' <> tn_Slug t) /\
  tn_ExpiresAt t = Some (tn_CreatedAt t + 14 * 24 * hour) /\
  key_TenantID k = tn_ID t /\ key_Environment k = EnvSandbox /\ key_SecretHash k = HashSecret (ss_Secret r) /\
  signups_since (day_start (clock_at (S (u_clock st)))) (u_db st') <= dailyLimit /\
  (forall w' dailyLimit' reads' email' companyName' st2 r2 st2',
     later (mkIdWorld (u_db st') (iw_expired w) (iw_purgeable w)) w' -> u_db st2 = iw_db w' ->
     ToLower (TrimSpace email') = addr ->
     Signup dailyLimit' reads' email' companyName' st2 <> Ok (r2, st2')).
Proof.
  intros Hid R Edb Hr addr t k. pose proof Hr as (a & tn & td & -> & _ & Hp)%Signup_ok. cbn zeta in Hp. fold addr t k in Hp.
  destruct Hp as (Ha & Hslug & Etn & Hex & Hkt & He & _ & _ & Hh & _ & _ & -> & Hl & Hn & Hs & Hk & Hem & E).
  split; [done|]. split; [done|]. split; [done|]. split; [done|]. split; [done|].
  split; [rewrite Hslug; by apply sandbox_slug_valid; apply Hid|]. split; [done|].
  split; [by rewrite Hex, Etn|]. split; [done|]. split; [done|]. split; [done|]. split.
  - rewrite E. pose proof (signups_since_insert (day_start (clock_at (S (u_clock st)))) addr
      (mkSignup (tn_ID t) (tn_CreatedAt t)) (u_db st) Hem) as Hle.
    unfold signups_since in *. cbn [sandbox_signups set_sandbox_signups provisioned] in *. lia.
  - intros w' dl' reads' email' company' st2 r2 st2' L Edb2 Eaddr Hr2.
    assert (R' : ireach (mkIdWorld (u_db st') (iw_expired w) (iw_purgeable w))).
    { eapply ireach_step; [exact R|].
      apply (istep_request w (IqSignup dailyLimit reads email companyName) st st' Edb).
      cbn [id_exec]. unfold mbind, Use_bind. by rewrite Hr. }
    destruct (later_ipersists _ _ Hid R' L) as [_ P]. cbn [iw_db] in P.
    apply Signup_ok in Hr2 as (a2 & ? & ? & -> & _ & Hp2). cbn zeta in Hp2. rewrite Eaddr in Hp2.
    destruct Hp2 as (_ & _ & _ & _ & _ & _ & _ & _ & _ & _ & _ & _ & _ & _ & _ & _ & Hem2 & _).
    rewrite Edb2 in Hem2. erewrite (ip_signup _ _ P addr) in Hem2; [done|].
    rewrite E. cbn. apply lookup_insert_eq.
Qed.

(** Two companies of one name collide. The suffix of a sandbox slug is the
    first six hexadecimal digits of a UUIDv7, the high 24 bits of its millisecond
    timestamp; while they stay the same, for up to 2^24 ms, another signup for the
    same company name fails with [ErrSlugConflict], and nothing is stored. *)
Theorem same_name_signups_collide dailyLimit reads email companyName st id1 t1 id2 keyID ids secret :
  (forall u v, u / 2 ^ 104 = v / 2 ^ 104 -> id_suffix u = id_suffix v) ->
  tenants (u_db st) !! id1 = Some t1 -> tn_Slug t1 = sandbox_slug (TrimSpace companyName) id1 ->
  u_v7 st = id2 :: keyID :: ids -> id1 / 2 ^ 80 / 2 ^ 24 = id2 / 2 ^ 80 / 2 ^ 24 ->
  tenants (u_db st) !! id2 = None ->
  let addr := ToLower (TrimSpace email) in
  addr <> ""%string -> (String.length addr <= 320)%nat -> mail_ParseAddress addr = Some addr ->
  TrimSpace companyName <> ""%string -> (String.length (TrimSpace companyName) <= 255)%nat ->
  NewAPIKeySecret reads EnvSandbox = Ok secret ->
  signups_since (day_start (clock_at (S (u_clock st)))) (u_db st) < dailyLimit ->
  Signup dailyLimit reads email companyName st = Err ErrSlugConflict.
Proof.
  intros Hhex Ht Hslug Hids Hms Hfresh addr Ha1 Ha2 Ha3 Hc1 Hc2 Hsec Hlim.
  assert (Hsuf : id_suffix id2 = id_suffix id1).
  { apply Hhex. rewrite !Z.div_div in Hms by done. by rewrite <- !Z.pow_add_r in Hms. }
  unfold Signup. fold addr. unfold fail_if.
  rewrite (bool_decide_eq_false_2 (addr = ""%string)) by done. rewrite (proj2 (Z.ltb_ge _ _)) by lia. cbn [orb].
  rewrite (bool_decide_eq_false_2 (mail_ParseAddress addr <> Some addr)) by (intros Hx; by apply Hx).
  unfold invalid_name. rewrite (bool_decide_eq_false_2 (TrimSpace companyName = ""%string)) by done.
  rewrite (proj2 (Z.ltb_ge _ _)) by lia. cbn [orb].
  rewrite (run_bind _ _ _ _ _ (newV7_run st _ _ Hids)). cbv beta zeta.
  rewrite (run_bind _ _ _ _ _ (now_run (S:=IdentityDB) _)). cbv beta. rewrite Hsec.
  rewrite (run_bind _ _ _ _ _ (newV7_run (mkUse (u_db st) (keyID :: ids) (u_v4 st) (u_clock st + 1)) keyID ids eq_refl)). cbv beta zeta. cbn [u_db u_v7 u_v4 u_clock].
  apply run_bind_err. unfold ProvisionSandboxTenant.
  rewrite (run_bind _ _ _ _ _ (now_run (S:=IdentityDB) _)). cbn [u_db u_v7 u_v4 u_clock].
  rewrite (run_bind _ _ _ _ _ (read_run (S:=IdentityDB) _)). cbn [u_db]. rewrite <- plus_n_Sm, <- plus_n_O.
  rewrite (run_bind _ _ _ _ _ (require_run (S:=IdentityDB) _ _ _ (proj2 (Z.ltb_lt _ _) Hlim))).
  apply run_bind_err. unfold translate, insert_tenant.
  rewrite (run_bind _ _ _ _ _ (read_run (S:=IdentityDB) _)). cbn [u_db tn_ID tn_Slug].
  rewrite (run_bind _ _ _ _ _ (require_run (S:=IdentityDB) _ _ _ (bool_decide_eq_true_2 _ Hfresh))).
  match goal with |- context [existsb ?f ?l] => assert (Hx : existsb f l = true) end.
  { apply existsb_exists. exists t1. split; [apply list_elem_of_In, elem_table; eauto|].
    apply bool_decide_eq_true. rewrite Hslug. unfold sandbox_slug. by rewrite Hsuf. }
  by rewrite Hx.
Qed.
End Sandbox.

(** ** The sweeper

    One sweep is a run of the steps of a world, and moves every tenant to the
    status its deadline demands. *)

Section Sweep.
Context `{Supply, Render, Parsers, Jwt, Sha256, Ed25519, Aead, MailParse}.
Implicit Types st : UseState IdentityDB.

(** ** Runs *)

Lemma announce_run t st i ids :
  tenants (u_db st) !! tn_ID t = Some t -> live (tn_Status t) = true -> u_v7 st = i :: ids ->
  exists env, announce t st = Ok (tt, mkUse (mkIdentityDB
    (<[tn_ID t := with_status TenantPurging t]> (tenants (u_db st))) (api_keys (u_db st)) (signing_keys (u_db st))
    (sandbox_signups (u_db st)) (id_outbox (u_db st) ++ [mkIdOutbox (tn_ID t) TopicTenantExpired env None]))
    ids (u_v4 st) (u_clock st + 1)).
Proof.
  intros Ht Hl Hids. unfold announce, envelope, NewEnvelope, MarkTenantPurging, mbind at 1, Use_bind. rewrite Hids.
  cbn [LedgerDomain.newID mbind result_bind]. eexists. unfold read, mbind, Use_bind. cbn [u_db env_TenantID].
  rewrite Ht, Hl. reflexivity.
Qed.

Lemma commit_ok {A} (m : ITx A) st a st' : m st = Ok (a, st') -> commit m st = (Ok a, st').
Proof. unfold commit. by intros ->. Qed.

Definition marked (s : TenantStatus) (ids : list uuid) (db : IdentityDB) (id : uuid) : option Tenant :=
  if decide (id ∈ ids) then with_status s <$> (tenants db !! id) else tenants db !! id.

Lemma marked_insert s t ids db id :
  tenants db !! tn_ID t = Some t -> tn_ID t ∉ ids ->
  forall db', tenants db' = <[tn_ID t := with_status s t]> (tenants db) ->
  marked s ids db' id = marked s (tn_ID t :: ids) db id.
Proof.
  intros Ht Hn db' E. unfold marked. rewrite E. destruct (decide (id = tn_ID t)) as [->|Hne].
  - rewrite decide_False by done. rewrite decide_True by left. by rewrite lookup_insert_eq, Ht.
  - rewrite lookup_insert_ne by done.
    destruct (decide (id ∈ ids)); [rewrite decide_True by (by right)|rewrite decide_False by set_solver]; done.
Qed.

Lemma announce_each l st :
  NoDup (map tn_ID l) -> (forall t, t ∈ l -> tenants (u_db st) !! tn_ID t = Some t /\ live (tn_Status t) = true) ->
  (length l <= length (u_v7 st))%nat ->
  exists st', commit_each l announce st = (Ok tt, st') /\ api_keys (u_db st') = api_keys (u_db st) /\
    forall id, tenants (u_db st') !! id = marked TenantPurging (map tn_ID l) (u_db st) id.
Proof.
  revert st. induction l as [|t l IH]; intros st Hnd Hl Hids; [by exists st|].
  cbn [map] in Hnd. apply NoDup_cons in Hnd as [Hn Hnd]. destruct (u_v7 st) as [|i ids] eqn:E; [cbn in Hids; lia|].
  destruct (Hl t) as [Ht Hlive]; [left|]. destruct (announce_run t st i ids Ht Hlive E) as (env & Hr).
  cbn [commit_each]. rewrite (commit_ok _ _ _ _ Hr). set (st1 := mkUse _ _ _ _).
  destruct (IH st1 Hnd) as (st' & Hst' & Ek & Et); [|cbn in *; lia|].
  - intros t' Ht'. unfold st1; cbn [u_db tenants]. destruct (Hl t') as [Hrow Hlv]; [by right|]. split; [|done].
    rewrite lookup_insert_ne; [done|]. intros Heq. apply Hn. rewrite Heq. by apply list_elem_of_fmap_2.
  - exists st'. split; [exact Hst'|]. split; [exact Ek|]. intros id. rewrite Et. cbn [map].
    by apply marked_insert.
Qed.

Lemma finalize_run id t st :
  tenants (u_db st) !! id = Some t -> tn_Status t = TenantPurging ->
  finalize id st = Ok (tt, mkUse (mkIdentityDB (<[id := with_status TenantPurged t]> (tenants (u_db st)))
    (filter (fun p => key_TenantID p.2 <> id) (api_keys (u_db st))) (signing_keys (u_db st))
    (sandbox_signups (u_db st)) (id_outbox (u_db st))) (u_v7 st) (u_v4 st) (u_clock st)).
Proof.
  intros Ht Hs. unfold finalize, FinalizeTenantPurge, mbind, Use_bind, read. rewrite Ht.
  rewrite decide_True by done. reflexivity.
Qed.

Lemma finalize_each ids st :
  NoDup ids -> (forall id, id ∈ ids -> exists t, tenants (u_db st) !! id = Some t /\ tn_ID t = id /\
    tn_Status t = TenantPurging) ->
  exists st', commit_each ids finalize st = (Ok tt, st') /\
    (forall id, tenants (u_db st') !! id = marked TenantPurged ids (u_db st) id) /\
    forall i, api_keys (u_db st') !! i =
      k ← api_keys (u_db st) !! i; if decide (key_TenantID k ∈ ids) then None else Some k.
Proof.
  revert st. induction ids as [|id ids IH]; intros st Hnd Hids.
  - exists st. split; [done|]. split; [done|]. intros i. by destruct (api_keys (u_db st) !! i).
  - apply NoDup_cons in Hnd as [Hn Hnd]. destruct (Hids id) as (t & Ht & Eid & Hs); [left|].
    cbn [commit_each]. rewrite (commit_ok _ _ _ _ (finalize_run id t st Ht Hs)). set (st1 := mkUse _ _ _ _).
    destruct (IH st1 Hnd) as (st' & Hst' & Et & Ek).
    + intros id' Hid'. unfold st1; cbn [u_db tenants]. rewrite lookup_insert_ne by (intros ->; done). apply Hids. by right.
    + exists st'. split; [exact Hst'|]. split.
      * intros i. rewrite Et. subst id. by apply marked_insert.
      * intros i. rewrite Ek. unfold st1; cbn [u_db api_keys]. rewrite map_lookup_filter.
        destruct (api_keys (u_db st) !! i) as [k|]; [|done]. cbn [mbind option_bind snd].
        destruct (decide (key_TenantID k = id)) as [E|Hne].
        -- rewrite option_guard_False by (cbn; tauto). by rewrite decide_True by (rewrite E; left).
        -- rewrite option_guard_True by done. cbn.
           destruct (decide (key_TenantID k ∈ ids)); [rewrite decide_True by (by right)|rewrite decide_False by set_solver]; done.
Qed.

(** ** Sweeps are runs of a world *)

Lemma later_trans w1 w2 w3 : later w1 w2 -> later w2 w3 -> later w1 w3.
Proof. intros L. induction 1 as [|w w' _ IH St]; [done|]. by eapply later_step. Qed.

Lemma announcing_later l st r st' E P pre :
  commit_each l announce st = (r, st') -> E = pre ++ l ->
  exists rest, later (mkIdWorld (u_db st) E P) (mkIdWorld (u_db st') (pre ++ rest) P).
Proof.
  intros Hc ->. revert st Hc. induction l as [|t l IH]; intros st Hc; cbn [commit_each] in Hc.
  - injection Hc as <- <-. exists []. apply later_refl.
  - unfold commit in Hc. destruct (announce t st) as [[[] st1]|e] eqn:Ha.
    + destruct (IH st1 Hc) as (rest & L). exists rest. eapply later_trans; [|exact L].
      eapply later_step; [apply later_refl|]. by eapply (istep_announce (mkIdWorld (u_db st) (pre ++ t :: l) P)).
    + injection Hc as <- <-. exists (t :: l). apply later_refl.
Qed.

Lemma finalizing_later l st r st' E P pre :
  commit_each l finalize st = (r, st') -> P = pre ++ l ->
  exists rest, later (mkIdWorld (u_db st) E P) (mkIdWorld (u_db st') E (pre ++ rest)).
Proof.
  intros Hc ->. revert st Hc. induction l as [|t l IH]; intros st Hc; cbn [commit_each] in Hc.
  - injection Hc as <- <-. exists []. apply later_refl.
  - unfold commit in Hc. destruct (finalize t st) as [[[] st1]|e] eqn:Ha.
    + destruct (IH st1 Hc) as (rest & L). exists rest. eapply later_trans; [|exact L].
      eapply later_step; [apply later_refl|]. by eapply (istep_finalize (mkIdWorld (u_db st) E (pre ++ t :: l))).
    + injection Hc as <- <-. exists (t :: l). apply later_refl.
Qed.

(** Whatever it ends with, a sweep is a sequence of steps. *)
Lemma Sweep_later st r st' w :
  u_db st = iw_db w -> Sweep st = (r, st') -> exists E P, later w (mkIdWorld (u_db st') E P).
Proof.
  intros Edb Hs. unfold Sweep in Hs. cbv zeta in Hs. cbn [u_db] in Hs.
  set (t := clock_at (u_clock st)) in *. set (st1 := mkUse (u_db st) _ _ _) in Hs.
  assert (L0 : later w (mkIdWorld (u_db st1) (iw_expired w ++ ExpiredSandboxTenants t (u_db st)) (iw_purgeable w))).
  { cbn [u_db st1]. rewrite Edb. eapply later_step; [apply later_refl|]. apply istep_scan_expired. }
  destruct (commit_each _ announce st1) as [[[]|e] st2] eqn:Hc;
    destruct (announcing_later _ _ _ _ _ (iw_purgeable w) (iw_expired w) Hc eq_refl) as (rest & L1).
  - destruct (finalizing_later _ _ _ _ (iw_expired w ++ rest) _ (iw_purgeable w) Hs eq_refl) as (rest2 & L2).
    eexists _, _. eapply later_trans; [exact L0|]. eapply later_trans; [exact L1|].
    eapply later_trans; [|exact L2]. eapply later_step; [apply later_refl|].
    apply (istep_scan_purgeable (mkIdWorld (u_db st2) (iw_expired w ++ rest) (iw_purgeable w))).
  - injection Hs as <- <-. eexists _, _. eapply later_trans; [exact L0|exact L1].
Qed.

(** ** What one sweep does *)

(** Is the deadline more than the grace period ago? *)
Definition overdue (now : time) (t : Tenant) : bool :=
  match tn_ExpiresAt t with Some e => e <? now - PurgeGrace | None => false end.

Definition swept_status (now : time) (t : Tenant) : TenantStatus :=
  if is_expired now t || bool_decide (tn_Status t = TenantPurging)
  then if overdue now t then TenantPurged else TenantPurging
  else tn_Status t.

Lemma table_ids (m : gmap uuid Tenant) (f : Tenant -> bool) :
  (forall i t, m !! i = Some t -> tn_ID t = i) ->
  NoDup (map tn_ID (filter (fun t => f t = true) (table_rows m))).
Proof.
  intros Hm. eapply sublist_NoDup; [|apply (fmap_sublist tn_ID), sublist_filter].
  change (NoDup (map tn_ID (table_rows m))).
  assert (E : map tn_ID (table_rows m) = (map_to_list m).*1); [|rewrite E; apply NoDup_fst_map_to_list].
  unfold table_rows. rewrite map_map. apply map_ext_in. intros [i t] Hin%list_elem_of_In%elem_of_map_to_list. by apply Hm.
Qed.

Lemma with_status_id t : with_status (tn_Status t) t = t.
Proof. by destruct t. Qed.

Lemma expired_row now db id t :
  IInv db -> tenants db !! id = Some t ->
  (id ∈ map tn_ID (ExpiredSandboxTenants now db) <-> is_expired now t = true).
Proof.
  intros I Ht. rewrite list_elem_of_fmap. split.
  - intros (t' & E & [[i Hi] He]%ExpiredSandboxTenants_elem). rewrite (ii_id _ I _ _ Hi) in E. congruence.
  - intros He. exists t. split; [by rewrite (ii_id _ I _ _ Ht)|]. apply ExpiredSandboxTenants_elem. eauto.
Qed.

Lemma purgeable_row cutoff db id t :
  (forall i t', tenants db !! i = Some t' -> tn_ID t' = i) -> tenants db !! id = Some t ->
  (id ∈ PurgeableTenants cutoff db <-> is_purgeable cutoff t = true).
Proof.
  intros Hid Ht. unfold PurgeableTenants. rewrite list_elem_of_fmap. split.
  - intros (t' & E & [He [i Hi]%elem_table]%list_elem_of_filter). rewrite (Hid _ _ Hi) in E. congruence.
  - intros He. exists t. split; [by rewrite (Hid _ _ Ht)|]. apply list_elem_of_filter. split; [done|].
    apply elem_table. eauto.
Qed.

(** C29: a sweep settles every tenant. With an id for each announcement, a sweep
    ends without an error and leaves each tenant with the status its deadline
    demands: purged when it is more than a day past, purging when it is past at
    all, untouched otherwise; it deletes exactly the keys of the tenants it
    purged; and every tenant it moved has its expiry event in the outbox. A
    tenant found a day late is announced and purged at once, with no grace. *)
Theorem Sweep_settles w st :
  (forall id, length (id_suffix id) = 6%nat /\ Forall (fun c => slug_char c = true) (id_suffix id)) ->
  ireach w -> u_db st = iw_db w ->
  let now := clock_at (u_clock st) in
  (length (ExpiredSandboxTenants now (u_db st)) <= length (u_v7 st))%nat ->
  exists st', Sweep st = (Ok tt, st') /\
    (forall id t, tenants (u_db st) !! id = Some t ->
       tenants (u_db st') !! id = Some (with_status (swept_status now t) t) /\
       (swept_status now t <> tn_Status t -> exists r, announcements id (u_db st') = [r] /\ announcement t r)) /\
    (forall i k t, api_keys (u_db st) !! i = Some k -> tenants (u_db st) !! key_TenantID k = Some t ->
       api_keys (u_db st') !! i =
         if bool_decide (swept_status now t = TenantPurged /\ tn_Status t <> TenantPurged) then None else Some k).
Proof.
  intros Hid R Edb now Hids. destruct (ireach_inv Hid _ R) as [I _]. rewrite <- Edb in I.
  set (l := ExpiredSandboxTenants now (u_db st)) in *.
  set (st1 := mkUse (u_db st) (u_v7 st) (u_v4 st) (S (u_clock st))).
  destruct (announce_each l st1) as (st2 & Hc & Ek & Et).
  { unfold l, ExpiredSandboxTenants. rewrite order_rows_perm. apply table_ids, I. }
  { intros t [[i Hi] He]%ExpiredSandboxTenants_elem. rewrite (ii_id _ I _ _ Hi). split; [done|].
    unfold is_expired in He. destruct (tn_ExpiresAt t); [|done]. by apply andb_true_iff in He as [_ He]. }
  { done. }
  cbn [u_db st1] in Ek, Et.
  assert (Hmid : forall id t, tenants (u_db st) !! id = Some t ->
    tenants (u_db st2) !! id = Some (if is_expired now t then with_status TenantPurging t else t)).
  { intros id t Ht. rewrite Et. unfold marked. pose proof (expired_row now _ _ _ I Ht) as Hx. fold l in Hx.
    destruct (is_expired now t); [rewrite decide_True by tauto|rewrite decide_False by naive_solver]; by rewrite Ht. }
  assert (Hback : forall id t', tenants (u_db st2) !! id = Some t' ->
    exists t, tenants (u_db st) !! id = Some t /\ t' = if is_expired now t then with_status TenantPurging t else t).
  { intros id t' Ht'. destruct (tenants (u_db st) !! id) as [t|] eqn:E.
    - exists t. split; [done|]. rewrite (Hmid id t E) in Ht'. congruence.
    - rewrite Et in Ht'. unfold marked in Ht'. rewrite E in Ht'. by case_decide. }
  assert (Hids2 : forall i t', tenants (u_db st2) !! i = Some t' -> tn_ID t' = i).
  { intros i t' (t & Ht & ->)%Hback. apply (ii_id _ I) in Ht. by destruct (is_expired now t). }
  destruct (finalize_each (PurgeableTenants (now - PurgeGrace) (u_db st2)) st2) as (st3 & Hc3 & Et3 & Ek3).
  { by apply table_ids. }
  { intros id Hin. pose proof Hin as (t' & -> & [Hp [i Hi]%elem_table]%list_elem_of_filter)%list_elem_of_fmap.
    exists t'. rewrite (Hids2 _ _ Hi). split; [done|]. split; [done|].
    unfold is_purgeable in Hp. apply andb_true_iff in Hp as [Hp _]. by apply bool_decide_eq_true in Hp. }
  assert (Hsweep : Sweep st = (Ok tt, st3)).
  { unfold Sweep. cbv zeta. cbn [u_db]. fold now l st1. by rewrite Hc. }
  assert (I3 : IInv (u_db st3)).
  { destruct (Sweep_later _ _ _ w Edb Hsweep) as (E & P & L).
    destruct (later_ipersists _ _ Hid R L) as [R3 _]. by destruct (ireach_inv Hid _ R3) as [I3 _]. }
  assert (Hpt : forall id t, tenants (u_db st) !! id = Some t ->
    (id ∈ PurgeableTenants (now - PurgeGrace) (u_db st2) <->
     (is_expired now t || bool_decide (tn_Status t = TenantPurging)) && overdue now t = true)).
  { intros id t Ht. rewrite (purgeable_row _ _ _ _ Hids2 (Hmid id t Ht)). unfold is_purgeable, overdue.
    by destruct (is_expired now t). }
  assert (Hrow : forall id t, tenants (u_db st) !! id = Some t ->
    tenants (u_db st3) !! id = Some (with_status (swept_status now t) t)).
  { intros id t Ht. rewrite Et3. unfold marked, swept_status. specialize (Hpt id t Ht). rewrite (Hmid id t Ht).
    destruct (decide (id ∈ _)) as [Hin|Hn].
    - apply Hpt, andb_true_iff in Hin as [-> ->]. by destruct (is_expired now t).
    - destruct (is_expired now t || bool_decide (tn_Status t = TenantPurging)) eqn:E.
      + destruct (overdue now t) eqn:Eo; [exfalso; by apply Hn, Hpt|].
        apply orb_true_iff in E as [->|E%bool_decide_eq_true]; [done|].
        destruct (is_expired now t); [done|]. by rewrite <- E, with_status_id.
      + apply orb_false_iff in E as [-> _]. by rewrite with_status_id. }
  exists st3. split; [exact Hsweep|]. split.
  - intros id t Ht. split; [by apply Hrow|]. intros Hne. pose proof (ii_announced _ I3 id _ (Hrow id t Ht)) as Ha.
    assert (El : live (swept_status now t) = false); [|by cbn [with_status tn_Status] in Ha; rewrite El in Ha].
    unfold swept_status in *. destruct (_ || _); [by destruct (overdue now t)|by destruct Hne].
  - intros i k t Hk Ht. rewrite Ek3, Ek, Hk. cbn [mbind option_bind].
    assert (Heq : key_TenantID k ∈ PurgeableTenants (now - PurgeGrace) (u_db st2) <->
                  swept_status now t = TenantPurged /\ tn_Status t <> TenantPurged).
    { rewrite (Hpt _ _ Ht). unfold swept_status.
      destruct (is_expired now t || bool_decide (tn_Status t = TenantPurging)) eqn:E; cbn [andb].
      - assert (tn_Status t <> TenantPurged); [|destruct (overdue now t); naive_solver].
        intros Es. unfold is_expired in E. rewrite Es in E. cbn in E. by destruct (tn_ExpiresAt t); rewrite ?andb_false_r in E.
      - naive_solver. }
    destruct (decide _) as [Hin|Hn]; [by rewrite bool_decide_eq_true_2 by tauto|by rewrite bool_decide_eq_false_2 by tauto].
Qed.
End Sweep.
