(* ===== verification/IdentityGuarantees.v ===== *)
(** * What the identity service guarantees

    The lifecycle of tenants and their keys over every interleaving, who gets a
    token, and the signing keys at rest. *)

From Stdlib Require Import Ascii String ZArith Lia.
From S2P Require Import Prelude Strconv Errors LedgerDomain LedgerEvents Httpx TxMonad Signature Keycrypt.
From S2P Require Import Base64Url Webhooks Ident Identity IdentitySlug IdentityStore IdentityService.
From S2P Require Import IdentityInv IdentityWorld IdentityTokens.
Local Open Scope Z_scope.

(** ** Secrets *)

Lemma take_accepted_le n buf : (length (take_accepted n buf) <= n)%nat.
Proof.
  revert n. induction buf as [|b buf IH]; intros [|n]; cbn; try lia.
  destruct (248 <=? b); [apply (IH (S n))|]. cbn. specialize (IH n). lia.
Qed.

Lemma randomBase62_length n reads s : randomBase62 n reads = Some s -> length s = n.
Proof.
  revert n s. induction reads as [|buf reads IH]; intros [|n] s Hr; cbn in Hr; try done; try by injection Hr as <-.
  cbn [randomBase62] in Hr. pose proof (take_accepted_le (S n) buf) as Hle.
  set (got := take_accepted (S n) buf) in *.
  destruct (randomBase62 (S n - length got) reads) as [tail|] eqn:E; [|done]. injection Hr as <-.
  apply IH in E. rewrite length_app, E. lia.
Qed.

Lemma NewAPIKeySecret_shape reads environment secret :
  NewAPIKeySecret reads environment = Ok secret ->
  String.prefix "lk_" secret = true /\ (KeyPrefixLength < String.length secret)%nat.
Proof.
  unfold NewAPIKeySecret. destruct (negb (ValidEnvironment environment)); [done|].
  destruct (randomBase62 _ _) as [r|] eqn:E; [|done]. intros [= <-]. split; [apply prefix_append|].
  apply randomBase62_length in E. unfold SecretRandomLength, KeyPrefixLength in *.
  assert (Hr : String.length (string_of_list_ascii r) = length r) by (clear; induction r; [done|cbn; by f_equal]).
  rewrite !length_append, Hr, E. cbn [String.length]. lia.
Qed.

Section Guarantees.
Context `{Supply, Render, Parsers, Jwt, Sha256, Ed25519, Aead, MailParse}.
Implicit Types st : UseState IdentityDB.

(** C24: the lifecycle of tenants and credentials. In every reachable world,
    however requests and sweeps interleave or stop: slugs are valid and unique;
    every key belongs to a tenant and carries only grantable scopes, never the
    wildcard; a tenant that is purging or purged has exactly one expiry event in
    the outbox, with its slug and its deadline, and any other tenant has none;
    and no step moves a tenant backwards or changes its identity, revives a
    revoked key, drops a key except with its purged tenant, or frees the email
    of a signup. *)
Theorem tenant_lifecycle w :
  (forall id, length (id_suffix id) = 6%nat /\ Forall (fun c => slug_char c = true) (id_suffix id)) ->
  ireach w ->
  (forall i j t t', tenants (iw_db w) !! i = Some t -> tenants (iw_db w) !! j = Some t' ->
     tn_ID t = i /\ ValidSlug (tn_Slug t) = true /\ (tn_Slug t = tn_Slug t' -> i = j)) /\
  (forall id k, api_keys (iw_db w) !! id = Some k -> is_Some (tenants (iw_db w) !! key_TenantID k) /\
     (forall s, s ∈ token_scopes k -> s ∈ DefaultScopes) /\ ScopeWildcard ∉ token_scopes k) /\
  (forall id t, tenants (iw_db w) !! id = Some t ->
     match tn_Status t with
     | TenantActive | TenantSuspended => announcements id (iw_db w) = []
     | TenantPurging | TenantPurged => exists r, announcements id (iw_db w) = [r] /\ announcement t r
     end) /\
  (forall w', istep w w' ->
     (forall id t, tenants (iw_db w) !! id = Some t -> exists t', tenants (iw_db w') !! id = Some t' /\
        same_tenant t t' /\ (tn_Status t' = tn_Status t \/ rank (tn_Status t) < rank (tn_Status t'))) /\
     (forall id k, api_keys (iw_db w) !! id = Some k ->
        (exists k', api_keys (iw_db w') !! id = Some k' /\ same_key k k') \/
        (exists t', tenants (iw_db w') !! key_TenantID k = Some t' /\ tn_Status t' = TenantPurged)) /\
     (forall e r, sandbox_signups (iw_db w) !! e = Some r -> sandbox_signups (iw_db w') !! e = Some r)).
Proof.
  intros Hid [I Hs]%ireach_inv; [|done]. split_and!.
  - intros i j t t' Hi Hj. split; [by apply I|]. split; [by eapply I|]. by eapply (ii_slug _ I).
  - intros id k Hk. destruct (ii_key _ I _ _ Hk) as (_ & Ht & _ & Hsc).
    assert (Hall : forall s, s ∈ token_scopes k -> s ∈ DefaultScopes)
      by (unfold token_scopes; intros s; by case_decide; [|apply Hsc]).
    split; [done|]. split; [done|]. intros Hw. by apply no_wildcard, Hall.
  - intros id t Ht. pose proof (ii_announced _ I id t Ht) as Ha. by destruct (tn_Status t).
  - intros w' St. destruct (istep_inv Hid w w' (conj I Hs) St) as [_ P]. split_and!; [|apply P|apply P].
    intros id t Ht. destruct (ip_tenant _ _ P _ _ Ht) as (t' & Ht' & S & [E|L]); exists t'; auto.
Qed.

Lemma find_unique {A} (f : A -> bool) l x :
  x ∈ l -> f x = true -> (forall y, y ∈ l -> f y = true -> y = x) -> List.find f l = Some x.
Proof.
  induction l as [|y l IH]; intros Hin Hf Hu; [by apply elem_of_nil in Hin|]. cbn.
  destruct (f y) eqn:E; [f_equal; apply Hu; [left|done]|].
  apply elem_of_cons in Hin as [->|Hin]; [congruence|]. apply IH; [done|done|]. intros z Hz. apply Hu. by right.
Qed.

(** A token is issued to whoever holds an unrevoked key of an active tenant,
    and to nobody else. A success names a stored key with the hash of the secret,
    not revoked, of an active tenant, and signs exactly its tenant, environment
    and scopes; and for a secret made for a key whose hash no other key has,
    issuing is signing those claims when the key is not revoked and its tenant is
    active, and [ErrInvalidCredentials] otherwise. Nothing is written. *)
Theorem IssueToken_decides w issuer secret st :
  (forall id, length (id_suffix id) = 6%nat /\ Forall (fun c => slug_char c = true) (id_suffix id)) ->
  ireach w -> u_db st = iw_db w ->
  (forall tok st', IssueToken issuer secret st = Ok (tok, st') ->
     u_db st' = u_db st /\
     exists id k t jti, api_keys (u_db st) !! id = Some k /\ key_SecretHash k = HashSecret secret /\
       key_RevokedAt k = None /\ tenants (u_db st) !! key_TenantID k = Some t /\ tn_Status t = TenantActive /\
       (forall s, s ∈ token_scopes k -> s ∈ DefaultScopes) /\
       SignedString (ti_key issuer) (ti_kid issuer) (issued_claims issuer (key_ID k) (key_TenantID k)
         (key_Environment k) (token_scopes k) (clock_at (u_clock st)) jti) = Some (it_AccessToken tok)) /\
  (forall reads id k t, NewAPIKeySecret reads (key_Environment k) = Ok secret ->
     api_keys (u_db st) !! id = Some k -> key_Prefix k = PrefixOf secret -> key_SecretHash k = HashSecret secret ->
     (forall j k', api_keys (u_db st) !! j = Some k' -> key_SecretHash k' = HashSecret secret -> j = id) ->
     tenants (u_db st) !! key_TenantID k = Some t ->
     IssueToken issuer secret st =
       if Revoked k || negb (Active t) then Err ErrInvalidCredentials
       else Issue issuer (key_ID k) (key_TenantID k) (key_Environment k) (token_scopes k) st).
Proof.
  intros Hid [I _]%ireach_inv Edb; [|done]. rewrite <- Edb in I. split.
  - intros tok st' (k & t & jti & E & _ & _ & Hf & Hrev & Ht & Ha & Hs & _)%IssueToken_ok. split; [done|].
    apply List.find_some in Hf as [Hin Hv]. apply list_elem_of_In, list_elem_of_filter in Hin as [_ [id Hk]%elem_table].
    exists id, k, t, jti. destruct (ii_key _ I _ _ Hk) as (_ & _ & _ & Hsc).
    rewrite <- (ii_id _ I _ _ Ht). split_and!; try done.
    + symmetry. by apply bool_decide_eq_true in Hv.
    + unfold Revoked in Hrev. apply bool_decide_eq_false in Hrev. by apply eq_None_not_Some.
    + rewrite (ii_id _ I _ _ Ht). exact Ht.
    + unfold token_scopes. intros s. by case_decide; [|apply Hsc].
  - intros reads id k t [Hp Hl]%NewAPIKeySecret_shape Hk Hpre Hh Hu Ht.
    unfold IssueToken, fail_if. rewrite Hp. cbn [negb orb]. rewrite (proj2 (Nat.leb_gt _ _) Hl).
    unfold FindAPIKeysByPrefix, mbind, Use_bind, read, mret, Use_ret.
    rewrite (find_unique _ _ k).
    + destruct (Revoked k); [done|]. cbn [orb]. unfold translate, GetTenant, mbind, Use_bind, read. rewrite Ht.
      cbn [map_err mret Use_ret]. unfold mret, Use_ret. cbn [map_err]. destruct (negb (Active t)); [done|].
      by rewrite (ii_id _ I _ _ Ht).
    + apply list_elem_of_filter. split; [done|]. apply elem_table. eauto.
    + unfold VerifySecret. by apply bool_decide_eq_true.
    + intros k' [_ [j Hj]%elem_table]%list_elem_of_filter Hv%bool_decide_eq_true.
      assert (j = id) as -> by (by eapply Hu). congruence.
Qed.
End Guarantees.

(** ** Signing keys at rest

    What the startup of the identity service leaves in the table of signing
    keys, and the key it hands to the token issuer. *)

Section Keys.
Context `{Supply, Render, Parsers, Jwt, Sha256, Ed25519, Aead, MailParse}.
Implicit Types st : UseState IdentityDB.
Variable c : bytes.
Variable nonce : uuid -> option bytes.
(** The AEAD opens what it sealed, and nonces have its nonce size. *)
Hypothesis open_seal : forall key n p a, Open key n (Seal key n p a) a = Some p.
Hypothesis nonce_size : forall kid n, nonce kid = Some n -> length n = NonceSize.

(** [k'] is the stored form of the key [k]: sealed, and opening to what [k]
    holds; nothing else differs. *)
Definition sealed_as (k k' : SigningKey) : Prop :=
  k' = with_private k (sk_PrivateKeyPEM k') /\ IsEncrypted (sk_PrivateKeyPEM k') = true /\
  (IsEncrypted (sk_PrivateKeyPEM k) = true -> k' = k) /\
  (IsEncrypted (sk_PrivateKeyPEM k) = false ->
     identity_Decrypt (Some c) (sk_PrivateKeyPEM k') (key_aad (sk_Kid k)) = Ok (sk_PrivateKeyPEM k)).

Lemma Encrypt_sealed k sealed st st' :
  crypt (Encrypt (Some c) (nonce (sk_Kid k)) (sk_PrivateKeyPEM k) (key_aad (sk_Kid k))) st = Ok (sealed, st') ->
  st' = st /\ IsEncrypted sealed = true /\
  identity_Decrypt (Some c) sealed (key_aad (sk_Kid k)) = Ok (sk_PrivateKeyPEM k).
Proof.
  intros [He ->]%crypt_ok. destruct (nonce (sk_Kid k)) as [n|] eqn:En; [|done].
  destruct (Encrypt_blob c n (sk_PrivateKeyPEM k) (key_aad (sk_Kid k)) (nonce_size _ _ En)) as (blob & Hb & His & Hob).
  rewrite Hb in He. injection He as <-. split; [done|]. split; [done|].
  unfold identity_Decrypt. rewrite His. cbn [negb]. by rewrite Hob, open_seal.
Qed.

Lemma reencrypt_sealed k st u st' :
  signing_keys (u_db st) !! sk_Kid k = Some k -> reencrypt_key c nonce k st = Ok (u, st') ->
  exists k', sealed_as k k' /\ signing_keys (u_db st') = <[sk_Kid k := k']> (signing_keys (u_db st)).
Proof.
  intros Hk Hr. unfold reencrypt_key in Hr. destruct (IsEncrypted (sk_PrivateKeyPEM k)) eqn:E.
  - apply use_ret_ok in Hr as [_ ->]. exists k. split.
    + split; [by destruct k|]. split; [done|]. split; [done|congruence].
    + by rewrite insert_id.
  - apply use_bind_ok in Hr as (sealed & s1 & (-> & His & Hd)%Encrypt_sealed & Hr).
    apply UpdateSigningKey_ok in Hr as (k0 & Hk0 & ->). assert (k0 = k) as -> by congruence.
    exists (with_private k sealed). split; [|done]. split; [done|]. split; [done|]. split; [congruence|done].
Qed.

Lemma reencrypt_each l st u st' :
  NoDup (map sk_Kid l) -> (forall k, k ∈ l -> signing_keys (u_db st) !! sk_Kid k = Some k) ->
  commit_each l (reencrypt_key c nonce) st = (Ok u, st') ->
  forall kid k, signing_keys (u_db st) !! kid = Some k ->
    exists k', signing_keys (u_db st') !! kid = Some k' /\ if decide (kid ∈ map sk_Kid l) then sealed_as k k' else k' = k.
Proof.
  revert st. induction l as [|k l IH]; intros st Hnd Hl Hc kid k0 Hk0; cbn [commit_each] in Hc.
  - injection Hc as _ <-. exists k0. split; [done|]. by rewrite decide_False by apply not_elem_of_nil.
  - cbn [map] in *. apply NoDup_cons in Hnd as [Hn Hnd]. unfold commit in Hc.
    destruct (reencrypt_key c nonce k st) as [[[] st1]|e] eqn:Hr; [|done].
    apply reencrypt_sealed in Hr as (k' & Hs & E1); [|apply Hl; left].
    assert (Hl1 : forall k1, k1 ∈ l -> signing_keys (u_db st1) !! sk_Kid k1 = Some k1).
    { intros k1 Hk1. rewrite E1, lookup_insert_ne; [apply Hl; by right|]. intros Heq. apply Hn. rewrite Heq.
      by apply list_elem_of_fmap_2. }
    destruct (decide (kid = sk_Kid k)) as [->|Hne].
    + destruct (IH st1 Hnd Hl1 Hc (sk_Kid k) k') as (k2 & Hk2 & Hx); [by rewrite E1, lookup_insert_eq|].
      rewrite decide_False in Hx by done. subst k2. exists k'. split; [done|]. rewrite decide_True by left.
      assert (k0 = k) as -> by (rewrite (Hl k) in Hk0 by left; congruence). done.
    + destruct (IH st1 Hnd Hl1 Hc kid k0) as (k2 & Hk2 & Hx); [by rewrite E1, lookup_insert_ne|].
      exists k2. split; [done|].
      destruct (decide (kid ∈ map sk_Kid l)); [rewrite decide_True by (by right)|rewrite decide_False by set_solver]; done.
Qed.

Lemma active_ids db : IInv db -> NoDup (map sk_Kid (active_keys db)) /\
  forall k, k ∈ active_keys db -> signing_keys db !! sk_Kid k = Some k.
Proof.
  intros I. split.
  - unfold active_keys. rewrite order_rows_perm.
    eapply sublist_NoDup; [|apply (fmap_sublist sk_Kid), sublist_filter].
    change (NoDup (map sk_Kid (table_rows (signing_keys db)))).
    assert (E : map sk_Kid (table_rows (signing_keys db)) = (map_to_list (signing_keys db)).*1);
      [|rewrite E; apply NoDup_fst_map_to_list].
    unfold table_rows. rewrite map_map. apply map_ext_in.
    intros [i k] Hin%list_elem_of_In%elem_of_map_to_list. by apply I.
  - intros k [[i Hi] _]%active_keys_elem. by rewrite (ii_signing _ I _ _ Hi).
Qed.

Lemma reencrypt_only l st r st' :
  commit_each l (reencrypt_key c nonce) st = (r, st') ->
  u_db st' = set_signing_keys (signing_keys (u_db st')) (u_db st).
Proof.
  revert st. induction l as [|k l IH]; intros st Hc; cbn [commit_each] in Hc.
  - injection Hc as <- <-. by destruct (u_db st).
  - unfold commit in Hc. destruct (reencrypt_key c nonce k st) as [[[] st1]|e] eqn:Hr.
    + apply reencrypt_key_ok in Hr as [E _]. apply IH in Hc. rewrite Hc, E. done.
    + injection Hc as <- <-. by destruct (u_db st).
Qed.

Lemma generated_sealed draw st k st' :
  (forall priv pub, GenerateKeyPEM draw = Some (priv, pub) -> IsEncrypted priv = false) ->
  generate_stored (Some c) nonce draw st = Ok (k, st') ->
  exists stored, sk_Kid stored = sk_Kid k /\ signing_keys (u_db st) !! sk_Kid k = None /\ sk_Active k = true /\
    sealed_as k stored /\ IsEncrypted (sk_PrivateKeyPEM k) = false /\
    u_db st' = set_signing_keys (<[sk_Kid k := stored]> (signing_keys (u_db st))) (u_db st).
Proof.
  intros Hgen Hr. unfold generate_stored in Hr.
  apply use_bind_ok in Hr as (k0 & s1 & (E1 & _ & Ha & priv & pub & Hg & Hpriv & _)%GenerateSigningKey_ok & Hr).
  apply Hgen in Hg. rewrite <- Hpriv in Hg.
  apply use_bind_ok in Hr as (stored & s2 & Hst & Hr).
  apply use_bind_ok in Hst as (sealed & s3 & (-> & His & Hd)%Encrypt_sealed & Hst).
  apply use_ret_ok in Hst as [-> ->].
  apply use_bind_ok in Hr as (? & s4 & (_ & Hn & E4)%InsertSigningKey_ok & Hr).
  apply use_ret_ok in Hr as [-> ->]. rewrite E1 in *. exists (with_private k0 sealed).
  split; [done|]. split; [done|]. split; [done|]. split; [|done]. split; [done|]. split; [done|].
  split; [congruence|done].
Qed.

(** With a master key, no signing key stays in the clear and the service can
    sign. When startup succeeds, every active key is stored sealed and opens to
    what it held, public halves and inactive keys are as before, and the key
    returned is active in the table and holds the private half that the stored
    one opens to; on failure nothing but signing keys was written. *)
Theorem EnsureSigningKey_seals w draw st r st' :
  (forall id, length (id_suffix id) = 6%nat /\ Forall (fun c => slug_char c = true) (id_suffix id)) ->
  (forall priv pub, GenerateKeyPEM draw = Some (priv, pub) -> IsEncrypted priv = false) ->
  ireach w -> u_db st = iw_db w -> EnsureSigningKey (Some c) nonce draw st = (r, st') ->
  u_db st' = set_signing_keys (signing_keys (u_db st')) (u_db st) /\
  (forall k, r = Ok k ->
     (forall kid k0, signing_keys (u_db st) !! kid = Some k0 ->
        exists k1, signing_keys (u_db st') !! kid = Some k1 /\
          if sk_Active k0 then sealed_as k0 k1 else k1 = k0) /\
     exists stored, signing_keys (u_db st') !! sk_Kid k = Some stored /\ sk_Active stored = true /\
       k = with_private stored (sk_PrivateKeyPEM k) /\ IsEncrypted (sk_PrivateKeyPEM stored) = true /\
       identity_Decrypt (Some c) (sk_PrivateKeyPEM stored) (key_aad (sk_Kid k)) = Ok (sk_PrivateKeyPEM k)).
Proof.
  intros Hid Hgen [I _]%(ireach_inv Hid) Edb Hr. rewrite <- Edb in I.
  destruct (active_ids _ I) as [Hnd Hrows]. unfold EnsureSigningKey in Hr.
  destruct (active_keys (u_db st)) as [|newest rest] eqn:Ea.
  - unfold commit in Hr. destruct (generate_stored (Some c) nonce draw st) as [[k st1]|e] eqn:Hg; injection Hr as <- <-.
    + destruct (generated_sealed draw st k st1 Hgen Hg) as (stored & Hk & Hn & Hact & Hs & Hp & E).
      split; [by rewrite E|]. intros k' [= <-]. rewrite E. cbn [signing_keys set_signing_keys]. split.
      * intros kid k0 Hk0. exists k0. rewrite lookup_insert_ne by congruence. split; [done|].
        destruct (sk_Active k0) eqn:Ek; [|done]. exfalso.
        assert (Hin : k0 ∈ active_keys (u_db st)) by (apply active_keys_elem; eauto).
        rewrite Ea in Hin. by apply elem_of_nil in Hin.
      * exists stored. rewrite lookup_insert_eq. destruct Hs as (Ew & His & _ & Hd). split; [done|].
        rewrite Ew. cbn. split; [done|]. split; [by destruct k|]. split; [done|by apply Hd].
    + split; [by destruct (u_db st)|done].
  - cbv beta iota in Hr. rewrite <- Ea in *. set (existing := active_keys (u_db st)) in *.
    assert (Hnew : newest ∈ existing) by (rewrite Ea; left).
    destruct (commit_each existing (reencrypt_key c nonce) st) as [rc st1] eqn:Hc.
    assert (Eo : u_db st1 = set_signing_keys (signing_keys (u_db st1)) (u_db st)) by (by eapply reencrypt_only).
    destruct rc as [u|e]; [|injection Hr as <- <-; by split].
    pose proof (reencrypt_each existing st u st1 Hnd Hrows Hc) as Hall.
    assert (Hst : st' = st1) by (by destruct (IsEncrypted _); [destruct (identity_Decrypt _ _ _)|]; injection Hr as _ <-).
    subst st'. split; [done|]. intros k ->.
    assert (Hact : forall kid k0, signing_keys (u_db st) !! kid = Some k0 ->
      (kid ∈ map sk_Kid existing <-> sk_Active k0 = true)).
    { intros kid k0 Hk0. rewrite list_elem_of_fmap. split.
      - intros (k1 & -> & Hk1). apply Hrows in Hk1 as Hk1'. assert (k1 = k0) as -> by congruence.
        by apply active_keys_elem in Hk1 as [_ ?].
      - intros Hk0a. exists k0. split; [by rewrite (ii_signing _ I _ _ Hk0)|]. apply active_keys_elem. eauto. }
    split.
    + intros kid k0 Hk0. destruct (Hall kid k0 Hk0) as (k1 & Hk1 & Hx). exists k1. split; [done|].
      pose proof (Hact kid k0 Hk0). by destruct (decide _), (sk_Active k0); naive_solver.
    + pose proof (Hrows newest Hnew) as Hnk. destruct (Hall _ _ Hnk) as (k1 & Hk1 & Hx).
      rewrite decide_True in Hx by (by apply list_elem_of_fmap_2). destruct Hx as (Ew & His & Hsame & Hd).
      assert (Hactive : sk_Active newest = true) by (by apply active_keys_elem in Hnew as [_ ?]).
      destruct (IsEncrypted (sk_PrivateKeyPEM newest)) eqn:En.
      * destruct (identity_Decrypt _ _ _) as [plain|] eqn:Hp in Hr; [|done]. injection Hr as <-.
        exists newest. rewrite (Hsame eq_refl) in Hk1. by split_and!.
      * injection Hr as <-. exists k1. rewrite Hk1, Ew. cbn. split; [by rewrite Ew at 1|].
        split; [done|]. split; [by destruct newest|]. split; [done|by apply Hd].
Qed.
End Keys.
