(* ===== verification/IdentityWitnesses.v ===== *)
(** * The identity theorems at work

    Identifiers, tokens, keys and a clock that satisfy what the identity
    theorems rely on; a short history, a signup and a startup; and the theorems
    of the identity service applied to it. *)

From Stdlib Require Import Ascii String ZArith Lia.
From S2P Require Import Prelude Strconv Errors LedgerDomain LedgerEvents Httpx TxMonad Signature Keycrypt.
From S2P Require Import Base64Url Webhooks Ident Identity IdentitySlug IdentityStore IdentityService.
From S2P Require Import IdentityInv IdentityWorld IdentitySandbox IdentityTokens IdentityGuarantees.
Local Open Scope Z_scope.

(** ** Texts of numbers *)

Fixpoint pos_bits (p : positive) : list ascii :=
  match p with xH => [] | xO p => "0"%char :: pos_bits p | xI p => "1"%char :: pos_bits p end.

Fixpoint bits_pos (s : list ascii) : positive :=
  match s with [] => xH | c :: rest => if decide (c = "0"%char) then xO (bits_pos rest) else xI (bits_pos rest) end.

Lemma bits_roundtrip p : bits_pos (pos_bits p) = p.
Proof.
  induction p as [p IH|p IH|]; cbn [pos_bits bits_pos]; [| |done].
  - rewrite decide_False by done. by rewrite IH.
  - rewrite decide_True by done. by rewrite IH.
Qed.

Lemma pos_bits_plain p c : c ∈ pos_bits p -> is_space c = false /\ slug_char c = true.
Proof.
  induction p as [p IH|p IH|]; cbn [pos_bits]; [| |by intros ?%elem_of_nil];
    (intros [->|Hc]%elem_of_cons; [done|by apply IH]).
Qed.

Lemma trim_left_plain s : (forall c, c ∈ s -> is_space c = false) -> trim_left s = s.
Proof. destruct s as [|c s]; [done|]. intros Hs. cbn. by rewrite (Hs c) by left. Qed.

Lemma TrimSpace_plain s :
  (forall c, c ∈ s -> is_space c = false) -> TrimSpace (string_of_list_ascii s) = string_of_list_ascii s.
Proof.
  intros Hs. unfold TrimSpace. rewrite list_ascii_of_string_of_list_ascii. f_equal.
  rewrite (trim_left_plain s) by done. rewrite trim_left_plain; [apply rev_involutive|].
  intros c Hc. apply Hs. by apply list_elem_of_In, in_rev, list_elem_of_In.
Qed.

(** ** Identifiers *)

Definition hex6 (u : Z) : list ascii := map (fun i => hex_digit (u / 2 ^ 104 / 16 ^ i mod 16)) [5; 4; 3; 2; 1; 0].

Definition id_render : Render := {|
  uuid_String := fun u => string_of_list_ascii (hex6 u ++ pos_bits (encode u)); rfc3339nano := FormatInt |}.
#[export] Existing Instance id_render.
Definition id_parsers : Parsers := {|
  uuid_Parse := fun s => decode (bits_pos (drop 6 (list_ascii_of_string s))); time_Parse := fun _ => None |}.
#[export] Existing Instance id_parsers.

Lemma demo_uuid_roundtrip (u : uuid) : uuid_Parse (uuid_String u) = Some u.
Proof.
  cbn [uuid_Parse uuid_String id_parsers id_render]. rewrite list_ascii_of_string_of_list_ascii.
  rewrite drop_app_length' by done. by rewrite bits_roundtrip, decode_encode.
Qed.

Lemma hex_digit_slug n : 0 <= n < 16 -> slug_char (hex_digit n) = true.
Proof.
  intros Hn. assert (n ∈ seqZ 0 16) as Hin by (apply elem_of_seqZ; lia).
  revert Hin. clear Hn. revert n. apply Forall_forall. by repeat constructor.
Qed.

Lemma hex6_slug u : Forall (fun c => slug_char c = true) (hex6 u).
Proof. unfold hex6. repeat (apply Forall_cons_2; [apply hex_digit_slug, Z.mod_pos_bound; lia|]). apply Forall_nil_2. Qed.

Lemma demo_suffix u : id_suffix u = hex6 u.
Proof.
  unfold id_suffix. cbn [uuid_String id_render]. rewrite list_ascii_of_string_of_list_ascii.
  assert (Hall : Forall (fun c => slug_char c = true) (hex6 u ++ pos_bits (encode u))).
  { apply Forall_app. split; [apply hex6_slug|]. apply Forall_forall. intros c Hc. by apply (pos_bits_plain (encode u)). }
  rewrite list_filter_id by (intros c Hc; eapply Forall_forall in Hall; [by apply slug_char_hyphen|done]).
  assert (El : ToLowerBytes (hex6 u ++ pos_bits (encode u)) = hex6 u ++ pos_bits (encode u)).
  { unfold ToLowerBytes. rewrite <- (map_id (_ ++ _)) at 2. apply map_ext_in. intros c Hc%list_elem_of_In.
    eapply Forall_forall in Hall; [|exact Hc]. by apply lower_slug_char. }
  rewrite El. by rewrite take_app_length'.
Qed.

Lemma demo_id_hex id : length (id_suffix id) = 6%nat /\ Forall (fun c => slug_char c = true) (id_suffix id).
Proof. rewrite demo_suffix. split; [done|apply hex6_slug]. Qed.

Lemma demo_id_high u v : u / 2 ^ 104 = v / 2 ^ 104 -> id_suffix u = id_suffix v.
Proof. intros E. rewrite !demo_suffix. unfold hex6. by rewrite E. Qed.

(** ** Tokens *)

(** A text of texts: each character after a "1", each text closed by a "0". *)
Definition put_text (s : bytes) : bytes := flat_map (fun c => ["1"; c]%char) s ++ ["0"%char].
Definition put_texts (l : list bytes) : bytes := flat_map put_text l.

Fixpoint get_texts (s : bytes) : list bytes :=
  match s with
  | [] => []
  | a :: rest =>
      if decide (a = "0"%char) then [] :: get_texts rest
      else match rest with
           | [] => []
           | c :: rest' => match get_texts rest' with t :: ts => (c :: t) :: ts | [] => [] end
           end
  end.

Lemma get_put_texts l : get_texts (put_texts l) = l.
Proof.
  induction l as [|t l IH]; [done|]. unfold put_texts in *. cbn [flat_map]. induction t as [|c t IHt].
  - cbn. by rewrite IH.
  - change (flat_map put_text l) with (put_texts l) in *.
    change (put_text (c :: t) ++ put_texts l) with ("1"%char :: c :: (put_text t ++ put_texts l)).
    cbn [get_texts]. rewrite decide_False by done. by rewrite IHt.
Qed.

Definition text (s : string) : bytes := list_ascii_of_string s.
Definition text_time (t : option time) : bytes := pos_bits (encode t).
Definition claims_texts (tc : tokenClaims) : list bytes :=
  [text (tc_TenantID tc); text (tc_Environment tc); put_texts (map text (tc_Scopes tc)); text (tc_Subject tc);
   text (tc_Issuer tc); put_texts (map text (tc_Audience tc)); text_time (tc_IssuedAt tc);
   text_time (tc_ExpiresAt tc); text_time (tc_NotBefore tc); text (tc_ID tc)].

Definition texts_claims (l : list bytes) : option tokenClaims :=
  let str := string_of_list_ascii in let time b := decode (bits_pos b) in
  match l with
  | [a; b; c; d; e; f; g; h; i; j] =>
      iat ← time g; exp ← time h; nbf ← time i;
      Some (mkTokenClaims (str a) (str b) (map str (get_texts c)) (str d) (str e) (map str (get_texts f))
              iat exp nbf (str j))
  | _ => None
  end.

Lemma map_text_back l : map string_of_list_ascii (map text l) = l.
Proof. induction l as [|t l IH]; cbn; [done|]. unfold text at 1. by rewrite string_of_list_ascii_of_string, IH. Qed.

Lemma texts_claims_put tc : texts_claims (claims_texts tc) = Some tc.
Proof.
  destruct tc. cbn. unfold text_time. rewrite !bits_roundtrip, !decode_encode. cbn.
  rewrite !get_put_texts, !map_text_back. unfold text. by rewrite !string_of_list_ascii_of_string.
Qed.

#[export] Instance claims_valid_dec opts now tc : Decision (claims_valid opts now tc).
Proof.
  unfold claims_valid. destruct (tc_ExpiresAt tc), (tc_IssuedAt tc), (tc_NotBefore tc), (po_Issuer opts), (po_Audience opts);
    apply _.
Defined.

Definition demo_private : bytes := list_ascii_of_string "PRIVATE KEY".
Definition demo_public : bytes := replicate 32 "u"%char.
Definition demo_matching (priv pub : bytes) : Prop := priv = demo_private /\ pub = demo_public.

Definition token_of (priv : bytes) (kid : string) (tc : tokenClaims) : string :=
  string_of_list_ascii (put_texts (priv :: text kid :: claims_texts tc)).

Definition id_jwt : Jwt := {|
  SignedString := fun priv kid tc => Some (token_of priv kid tc);
  ParseWithClaims := fun opts now tok keyfunc =>
    match get_texts (list_ascii_of_string tok) with
    | priv :: kid :: l =>
        tc ← texts_claims l;
        pub ← keyfunc (string_of_list_ascii kid);
        if decide (demo_matching priv pub /\ claims_valid opts now tc) then Some tc else None
    | _ => None
    end;
  NewNumericDate := fun t => t / second * second |}.
#[export] Existing Instance id_jwt.

Lemma demo_parse opts now priv kid tc keyfunc :
  ParseWithClaims opts now (token_of priv kid tc) keyfunc =
    pub ← keyfunc kid; if decide (demo_matching priv pub /\ claims_valid opts now tc) then Some tc else None.
Proof.
  cbn [ParseWithClaims id_jwt]. unfold token_of. rewrite list_ascii_of_string_of_list_ascii, get_put_texts.
  rewrite texts_claims_put. cbn [mbind option_bind]. unfold text. by rewrite string_of_list_ascii_of_string.
Qed.

Lemma demo_parse_signed opts now kid priv pub tc tok keyfunc :
  po_ValidMethods opts = ["EdDSA"%string] -> demo_matching priv pub -> SignedString priv kid tc = Some tok ->
  keyfunc kid = Some pub -> claims_valid opts now tc -> ParseWithClaims opts now tok keyfunc = Some tc.
Proof. intros _ Hm [= <-] Hk Hv. rewrite demo_parse, Hk. cbn. by rewrite decide_True. Qed.

Lemma demo_parse_checks opts now kid priv tc tok keyfunc tc' :
  SignedString priv kid tc = Some tok -> ParseWithClaims opts now tok keyfunc = Some tc' ->
  tc' = tc /\ claims_valid opts now tc.
Proof.
  intros [= <-]. rewrite demo_parse. destruct (keyfunc kid); [|done]. cbn. case_decide as Hd; [|done].
  intros [= <-]. by split; [|apply Hd].
Qed.

Lemma put_texts_head t l : exists c m, put_texts (t :: l) = c :: m /\ is_space c = false.
Proof. destruct t as [|c t]; [by exists "0"%char, (put_texts l)|by eexists "1"%char, _]. Qed.

Lemma put_texts_last t l : exists m, put_texts (t :: l) = m ++ ["0"%char].
Proof.
  revert t. induction l as [|u l IH]; intros t; unfold put_texts in *; cbn [flat_map].
  - eexists. by rewrite app_nil_r.
  - destruct (IH u) as [m E]. cbn [flat_map] in E. rewrite E. exists (put_text t ++ m). by rewrite app_assoc.
Qed.

Lemma demo_token_text priv kid tc tok : SignedString priv kid tc = Some tok -> TrimSpace tok = tok.
Proof.
  intros [= <-]. unfold token_of, TrimSpace. rewrite list_ascii_of_string_of_list_ascii. f_equal.
  destruct (put_texts_head priv (text kid :: claims_texts tc)) as (c & m & E & Hc).
  destruct (put_texts_last priv (text kid :: claims_texts tc)) as (m' & E').
  assert (Et : trim_left (put_texts (priv :: text kid :: claims_texts tc)) = put_texts (priv :: text kid :: claims_texts tc)).
  { rewrite E. cbn. by rewrite Hc. }
  rewrite Et, E', rev_app_distr. cbn [rev app trim_left is_space]. change (is_space "0") with false. cbn [rev].
  by rewrite rev_involutive.
Qed.

Lemma demo_numeric_date t : t - second < NewNumericDate t <= t.
Proof. cbn [NewNumericDate id_jwt]. assert (0 < second) by done. pose proof (Z.mod_pos_bound t second). pose proof (Z.div_mod t second). lia. Qed.

(** ** Keys, mail, clock *)

Definition id_sha : Sha256 := {| Sum256 := list_ascii_of_string |}.
#[export] Existing Instance id_sha.
Definition id_ed25519 : Ed25519 := {|
  GenerateKeyPEM := fun _ => Some (demo_private, demo_public); ParsePrivatePEM := Some; ParsePublicPEM := Some |}.
#[export] Existing Instance id_ed25519.
#[export] Existing Instance demo_aead.
Definition id_mail : MailParse := {| mail_ParseAddress := Some |}.
#[export] Existing Instance id_mail.
(** The clock advances one hour per reading. *)
Definition id_supply : Supply := {| v4_at := fun n => 9000 + Z.of_nat n; clock_at := fun n => Z.of_nat n * hour |}.
#[export] Existing Instance id_supply.

(** ** A history *)

(** A request with the v7 ids [ids], at the clock reading [t]. *)
Definition id_state (ids : list uuid) (t : nat) (db : IdentityDB) : UseState IdentityDB := mkUse db ids 0 t.

Definition id_after (ids : list uuid) (t : nat) (rq : id_request) (db : IdentityDB) : IdentityDB :=
  match id_exec rq (id_state ids t db) with Ok (_, st') => u_db st' | Err _ => db end.

Lemma id_after_reach ids t rq db E P :
  ireach (mkIdWorld db E P) -> ireach (mkIdWorld (id_after ids t rq db) E P).
Proof.
  intros Hr. unfold id_after. destruct (id_exec rq (id_state ids t db)) as [[[] st']|] eqn:Ex; [|done].
  eapply ireach_step; [exact Hr|]. exact (istep_request (mkIdWorld db E P) rq (id_state ids t db) st' eq_refl Ex).
Qed.

Definition demo_reads : list (list Z) := [replicate 64 7].
Definition demo_cipher : bytes := replicate 32 "k"%char.
Definition demo_nonce (_ : uuid) : option bytes := Some ["n"; "o"]%char.

Definition tenant1 : uuid := 7 * 2 ^ 104.
Definition key1 : uuid := 2 ^ 80 + 11.
Definition signing1 : uuid := 2 ^ 80 + 12.

Definition id_db1 : IdentityDB :=
  id_after [tenant1; key1] 0 (IqSignup 20 demo_reads "Ann@acme.io" "Acme Inc") empty_identity.
(** The signing key of the first startup, in the clear; then the encrypted one. *)
Definition id_db2 : IdentityDB := id_after [signing1] 3 (IqGenerate None demo_nonce 0) id_db1.

Lemma id_db1_reach : ireach (mkIdWorld id_db1 [] []).
Proof. apply id_after_reach, ireach_init. Qed.
Lemma id_db2_reach : ireach (mkIdWorld id_db2 [] []).
Proof. apply id_after_reach, id_db1_reach. Qed.

Definition demo_secret : string := "lk_sandbox_77777777777777777777777777777777".
Definition demo_key : SigningKey :=
  default (mkSigningKey 0 [] [] "" 0 false) (signing_keys id_db2 !! signing1).

(** ** The identity theorems at work

    A company signs up, the service starts and publishes its key, a token is
    issued and used, and a sweep retires the sandbox. *)

Lemma slugs_well_formed_witness : ValidSlug (sandbox_slug "Acme -- Inc" tenant1) = true.
Proof. destruct (slugs_well_formed demo_id_hex) as (_ & _ & _ & Hs). exact (Hs "Acme -- Inc"%string tenant1). Defined.

Lemma tenant_lifecycle_witness : exists t,
  tenants id_db2 !! tenant1 = Some t /\ tn_Status t = TenantActive /\ ValidSlug (tn_Slug t) = true /\
  announcements tenant1 id_db2 = [].
Proof.
  destruct (tenants id_db2 !! tenant1) as [t|] eqn:E; [|exfalso; vm_compute in E; discriminate E].
  destruct (tenant_lifecycle (mkIdWorld id_db2 [] []) demo_id_hex id_db2_reach) as (Ht & _ & Ha & _).
  assert (Hs : tn_Status t = TenantActive) by (clear -E; vm_compute in E; injection E as <-; reflexivity).
  exists t. split; [reflexivity|]. split; [exact Hs|]. split.
  - exact (proj1 (proj2 (Ht tenant1 tenant1 t t E E))).
  - pose proof (Ha tenant1 t E) as Hn. rewrite Hs in Hn. exact Hn.
Defined.

Definition demo_issuer : TokenIssuer :=
  match NewTokenIssuer demo_key TokenTTL with Ok i => i | Err _ => mkTokenIssuer "" [] 0 [] end.
Definition id_st2 : UseState IdentityDB := id_state [] 5 id_db2.

Lemma IssueToken_decides_witness : exists tok st', IssueToken demo_issuer demo_secret id_st2 = Ok (tok, st') /\
  exists id k, api_keys id_db2 !! id = Some k /\ key_SecretHash k = HashSecret demo_secret /\ key_RevokedAt k = None.
Proof.
  destruct (IssueToken demo_issuer demo_secret id_st2) as [[tok st']|] eqn:E; [|exfalso; vm_compute in E; discriminate E].
  exists tok, st'. split; [reflexivity|].
  destruct (IssueToken_decides (mkIdWorld id_db2 [] []) demo_issuer demo_secret id_st2 demo_id_hex id_db2_reach eq_refl)
    as [Hi _].
  destruct (Hi tok st' E) as (_ & id & k & t & jti & Hk & Hh & Hr & _).
  exists id, k. exact (conj Hk (conj Hh Hr)).
Defined.

Definition id_stj : UseState IdentityDB := id_state [] 6 id_db2.
Definition demo_doc : JWKSDocument := match JWKS id_stj with Ok (d, _) => d | Err _ => mkJWKS [] end.
Definition demo_fetched : option jwksCache := fetch (Fetched 200 (Some (jwks_Keys demo_doc))) 0.
Definition demo_cache : jwksCache := default newJWKSCache demo_fetched.

Lemma issued_token_authorizes_witness : exists tok st1,
  IssueToken demo_issuer demo_secret id_st2 = Ok (tok, st1) /\
  authorize (service_config "ledger-core") "billing:admin" (5 * hour)
    (fun kid => (key demo_cache kid (5 * hour) FetchFailed).1) (with_token (it_AccessToken tok))
  = AuthError 403 "forbidden" "token is missing the required scope billing:admin" /\
  authorize (service_config "ledger-core") "ledger:read" (6 * hour)
    (fun kid => (key demo_cache kid (6 * hour) FetchFailed).1) (with_token (it_AccessToken tok))
  = unauthorized "token is invalid or expired".
Proof.
  destruct (IssueToken demo_issuer demo_secret id_st2) as [[tok st1]|] eqn:E; [|exfalso; vm_compute in E; discriminate E].
  exists tok, st1. split; [reflexivity|].
  assert (Ei : NewTokenIssuer demo_key TokenTTL = Ok demo_issuer) by (vm_compute; reflexivity).
  assert (Ea : exists k', k' ∈ active_keys id_db2 /\ sk_Kid k' = sk_Kid demo_key /\ sk_PublicKeyPEM k' = sk_PublicKeyPEM demo_key).
  { exists demo_key. split; [|split; reflexivity]. apply list_elem_of_In. vm_compute. left. reflexivity. }
  assert (Ej : exists st', JWKS id_stj = Ok (demo_doc, st')) by (eexists; vm_compute; reflexivity).
  destruct Ej as [stj' Ej].
  assert (Ef : demo_fetched = Some demo_cache) by (vm_compute; reflexivity).
  destruct (issued_token_authorizes demo_matching demo_parse_signed demo_parse_checks demo_token_text demo_numeric_date
    demo_uuid_roundtrip demo_id_hex (mkIdWorld id_db2 [] []) demo_issuer demo_key TokenTTL demo_private demo_public
    demo_secret id_st2 tok st1 (mkIdWorld id_db2 [] []) id_stj demo_doc stj' 0 demo_cache "ledger-core"%string FetchFailed
    id_db2_reach eq_refl Ei) as (id & k & Hk & Hh & _ & _ & Hin & Hout).
  - vm_compute. reflexivity.
  - vm_compute. reflexivity.
  - reflexivity.
  - split; reflexivity.
  - exact E.
  - exact id_db2_reach.
  - reflexivity.
  - exact Ea.
  - exact Ej.
  - exact Ef.
  - left. reflexivity.
  - apply list_elem_of_In. vm_compute. left. reflexivity.
  - split.
    + rewrite (Hin "billing:admin"%string (5 * hour)) by (vm_compute; split; [discriminate|reflexivity]).
      assert (Es : token_scopes k = DefaultScopes).
      { assert (Hall : map_Forall (fun _ k => token_scopes k = DefaultScopes) (api_keys id_db2))
          by (refine (bool_decide_unpack _ _); vm_compute; exact I).
        exact (Hall id k Hk). }
      rewrite Es. vm_compute. reflexivity.
    + exact (Hout "ledger:read"%string (6 * hour) ltac:(vm_compute; discriminate)).
Defined.

(** A signup of another company, the same day. *)
Definition id_st3 : UseState IdentityDB := id_state [9 * 2 ^ 104; 2 ^ 80 + 13] 7 id_db2.

Lemma Signup_provisions_witness : exists r st',
  Signup 20 demo_reads "bob@acme.io" "Bobs" id_st3 = Ok (r, st') /\
  tn_Status (ss_Tenant r) = TenantActive /\ tenants id_db2 !! tn_ID (ss_Tenant r) = None /\
  sandbox_signups id_db2 !! "bob@acme.io"%string = None.
Proof.
  destruct (Signup 20 demo_reads "bob@acme.io" "Bobs" id_st3) as [[r st']|] eqn:E; [|exfalso; vm_compute in E; discriminate E].
  destruct (Signup_provisions (mkIdWorld id_db2 [] []) 20 demo_reads "bob@acme.io" "Bobs" id_st3 r st'
    demo_id_hex id_db2_reach eq_refl E) as (_ & Ht & _ & He & Hs & _).
  exists r, st'. exact (conj eq_refl (conj Hs (conj Ht He))).
Defined.

(** Another "Acme Inc", 2 ^ 20 ms after the first. *)
Definition id_st4 : UseState IdentityDB := id_state [7 * 2 ^ 104 + 2 ^ 100; 2 ^ 80 + 14] 8 id_db2.

Lemma same_name_signups_collide_witness :
  Signup 20 demo_reads "eve@acme.io" "Acme Inc" id_st4 = Err ErrSlugConflict.
Proof.
  destruct (tenants id_db2 !! tenant1) as [t|] eqn:E; [|exfalso; vm_compute in E; discriminate E].
  assert (Es : tn_Slug t = sandbox_slug "Acme Inc" tenant1)
    by (clear -E; vm_compute in E; injection E as <-; vm_compute; reflexivity).
  apply (same_name_signups_collide 20 demo_reads "eve@acme.io" "Acme Inc" id_st4 tenant1 t (7 * 2 ^ 104 + 2 ^ 100)
    (2 ^ 80 + 14) [] demo_secret demo_id_high E Es).
  - reflexivity.
  - vm_compute. reflexivity.
  - vm_compute. reflexivity.
  - vm_compute. discriminate.
  - vm_compute. lia.
  - vm_compute. reflexivity.
  - vm_compute. discriminate.
  - vm_compute. lia.
  - vm_compute. reflexivity.
  - vm_compute. reflexivity.
Defined.

(** The sweep of the 361st hour: the sandbox, a day past its deadline, goes at once. *)
Definition id_st5 : UseState IdentityDB := id_state [2 ^ 80 + 15] 361 id_db2.

Lemma Sweep_settles_witness : exists t st',
  tenants id_db2 !! tenant1 = Some t /\ tn_Status t = TenantActive /\ Sweep id_st5 = (Ok tt, st') /\
  tenants (u_db st') !! tenant1 = Some (with_status TenantPurged t) /\ api_keys (u_db st') !! key1 = None.
Proof.
  destruct (tenants id_db2 !! tenant1) as [t|] eqn:E; [|exfalso; vm_compute in E; discriminate E].
  destruct (api_keys id_db2 !! key1) as [k|] eqn:Ek; [|exfalso; vm_compute in Ek; discriminate Ek].
  assert (Hl : (length (ExpiredSandboxTenants (clock_at (u_clock id_st5)) (u_db id_st5)) <= length (u_v7 id_st5))%nat)
    by (vm_compute; lia).
  destruct (Sweep_settles (mkIdWorld id_db2 [] []) id_st5 demo_id_hex id_db2_reach eq_refl Hl)
    as (st' & Hs & Ht & Hk).
  assert (Hw : swept_status (clock_at (u_clock id_st5)) t = TenantPurged /\ tn_Status t = TenantActive)
    by (clear -E; vm_compute in E; injection E as <-; vm_compute; split; reflexivity).
  destruct Hw as [Hw Ha].
  assert (Hk1 : key_TenantID k = tenant1) by (clear -Ek; vm_compute in Ek; injection Ek as <-; vm_compute; reflexivity).
  exists t, st'. split; [reflexivity|]. split; [exact Ha|]. split; [exact Hs|]. split.
  - rewrite <- Hw. exact (proj1 (Ht tenant1 t E)).
  - rewrite (Hk key1 k t Ek) by (rewrite Hk1; exact E).
    rewrite Hw, Ha. reflexivity.
Defined.

(** The next startup, now with a master key. *)
Definition id_st6 : UseState IdentityDB := id_state [] 9 id_db2.

Lemma id_open_seal key n p a : Open key n (Seal key n p a) a = Some p.
Proof. exact (demo_open_seal a p). Qed.
Lemma id_nonce_size kid n : demo_nonce kid = Some n -> length n = NonceSize.
Proof. intros [= <-]. reflexivity. Qed.

Lemma EnsureSigningKey_seals_witness : exists k st',
  EnsureSigningKey (Some demo_cipher) demo_nonce 1 id_st6 = (Ok k, st') /\
  exists stored, signing_keys (u_db st') !! sk_Kid k = Some stored /\ IsEncrypted (sk_PrivateKeyPEM stored) = true.
Proof.
  destruct (EnsureSigningKey (Some demo_cipher) demo_nonce 1 id_st6) as [[k|] st'] eqn:E;
    [|exfalso; vm_compute in E; discriminate E].
  assert (Hg : forall priv pub, GenerateKeyPEM 1 = Some (priv, pub) -> IsEncrypted priv = false)
    by (intros priv pub [= <- <-]; vm_compute; reflexivity).
  destruct (EnsureSigningKey_seals demo_cipher demo_nonce id_open_seal id_nonce_size (mkIdWorld id_db2 [] []) 1 id_st6
    (Ok k) st' demo_id_hex Hg id_db2_reach eq_refl E) as (_ & Hk).
  destruct (Hk k eq_refl) as (_ & stored & Hs & _ & _ & He & _).
  exists k, st'. split; [reflexivity|]. exists stored. exact (conj Hs He).
Defined.
