(* ===== verification/Outbox.v ===== *)
(** * The transactional outbox and its pollers

    [services/ledger-core] and [services/identity] drain their outbox with the
    same poller ([internal/adapters/outbox/poller.go]), [services/reconciliation]
    with [Store.DrainOutbox]. Several instances may run. A table is the list of
    its rows in the order of insertion, which is that of the serial ids of the
    first two services, and row [k] is its [k]-th. *)

From Stdlib Require Import ZArith Lia.
From S2P Require Import Prelude Strconv Errors LedgerDomain LedgerEvents.
Local Open Scope Z_scope.

(** What the pollers need of a table: the two columns they read, [published_at]
    and [envelope] (absent when [json.Unmarshal] refuses it), and the update; and
    the [nats.MsgId] a message is published under. *)
Class OutboxTable (R E : Type) : Type := {
  row_published : R -> option time;
  row_envelope : R -> option E;
  row_mark : time -> R -> R;
  msg_id : E -> uuid;
  row_published_mark t r : row_published (row_mark t r) = Some t;
  row_envelope_mark t r : row_envelope (row_mark t r) = row_envelope r
}.

(** [Publisher.Publish]: the broker takes the message, refuses it, or takes it
    while the acknowledgement is lost. Only the first returns no error. What the
    broker does with a message it takes is [OutboxRelay.broker_take]. *)
Inductive pub_answer : Type := Accepted | Refused | Unanswered.

Definition batchSize : nat := 100.

Section Pollers.
Context {R E : Type} `{OutboxTable R E}.

(** [published_at IS NULL FOR UPDATE SKIP LOCKED]. *)
Definition pending_rows (locked : nat -> Prop) `{forall k, Decision (locked k)} (rows : list R) : list (nat * R) :=
  filter (fun p => row_published p.2 = None /\ ~ locked p.1) (imap pair rows).

(** [ORDER BY id LIMIT limit] of the ledger and of identity. *)
Definition select_pending (locked : nat -> Prop) `{forall k, Decision (locked k)} (limit : nat) (rows : list R)
  : list (nat * R) :=
  take limit (pending_rows locked rows).

(** [ORDER BY created_at LIMIT limit] of reconciliation. The column is the
    default [now()], which all the rows of one transaction share: [created] gives
    it for each row, and ties come in the order [scan] visits the rows. *)
Definition older (created : nat -> time) (p q : nat * R) : Prop := created p.1 <= created q.1.
#[export] Instance older_dec created : RelDecision (older created).
Proof. intros p q. unfold older. apply _. Defined.

Definition select_created (created : nat -> time) (scan : list (nat * R) -> list (nat * R))
  (locked : nat -> Prop) `{forall k, Decision (locked k)} (limit : nat) (rows : list R) : list (nat * R) :=
  take limit (merge_sort (older created) (scan (pending_rows locked rows))).

(** [UPDATE outbox SET published_at = now() WHERE id = ANY(done)]. *)
Definition mark_rows (now : time) (done : list nat) (rows : list R) : list R :=
  imap (fun k r => if decide (k ∈ done) then row_mark now r else r) rows.

(** The loop of the pollers over the pending rows: the rows to mark, the
    messages the broker took, and whether publishing failed. A malformed
    row is skipped. *)
Fixpoint publish_rows (pub : E -> pub_answer) (pending : list (nat * R)) : list nat * list (nat * E) * bool :=
  match pending with
  | [] => ([], [], false)
  | (k, r) :: rest =>
      match row_envelope r with
      | None => publish_rows pub rest
      | Some env =>
          match pub env with
          | Accepted => let '(done, sent, failed) := publish_rows pub rest in (k :: done, (k, env) :: sent, failed)
          | Refused => ([], [], true)
          | Unanswered => ([], [(k, env)], true)
          end
      end
  end.

(** What a drain leaves: the count and the error it returns, the table, and the
    messages the broker took. *)
Record Drained : Type := mkDrained {
  dr_published : Z; dr_error : bool; dr_rows : list R; dr_sent : list (nat * E) }.

(** [drainOnce] of the ledger and of identity. *)
Definition drainOnce (locked : nat -> Prop) `{forall k, Decision (locked k)} (pub : E -> pub_answer) (now : time)
  (rows : list R) : Drained :=
  match select_pending locked batchSize rows with
  | [] => mkDrained 0 false rows []
  | pending =>
      let '(done, sent, failed) := publish_rows pub pending in
      mkDrained (Z.of_nat (length done)) failed
        (if decide (done = []) then rows else mark_rows now done rows) sent
  end.

(** The loop of [DrainOutbox]: a row that is not an envelope is marked too, and
    leaves an error behind. *)
Fixpoint drain_rows (pub : E -> pub_answer) (pending : list (nat * R)) (err : bool)
  : list nat * list (nat * E) * bool :=
  match pending with
  | [] => ([], [], err)
  | (k, r) :: rest =>
      match row_envelope r with
      | None => let '(done, sent, failed) := drain_rows pub rest true in (k :: done, sent, failed)
      | Some env =>
          match pub env with
          | Accepted => let '(done, sent, failed) := drain_rows pub rest err in (k :: done, (k, env) :: sent, failed)
          | Refused => ([], [], true)
          | Unanswered => ([], [(k, env)], true)
          end
      end
  end.

(** [Store.DrainOutbox]. *)
Definition DrainOutbox (created : nat -> time) (scan : list (nat * R) -> list (nat * R))
  (locked : nat -> Prop) `{forall k, Decision (locked k)} (pub : E -> pub_answer) (now : time)
  (limit : nat) (rows : list R) : Drained :=
  let '(done, sent, failed) := drain_rows pub (select_created created scan locked limit rows) false in
  mkDrained (Z.of_nat (length done)) failed (mark_rows now done rows) sent.

(** ** Tables *)

Lemma mark_rows_lookup now done rows k :
  mark_rows now done rows !! k =
    (fun r => if decide (k ∈ done) then row_mark now r else r) <$> rows !! k.
Proof. unfold mark_rows. by rewrite list_lookup_imap. Qed.

Lemma mark_rows_nil now rows : mark_rows now [] rows = rows.
Proof.
  apply list_eq. intros k. rewrite mark_rows_lookup. destruct (rows !! k); [|done]. cbn.
  by rewrite decide_False by apply not_elem_of_nil.
Qed.

Lemma mark_rows_length now done rows : length (mark_rows now done rows) = length rows.
Proof. unfold mark_rows. by rewrite length_imap. Qed.

Lemma elem_imap_pair (rows : list R) k r : (k, r) ∈ imap pair rows <-> rows !! k = Some r.
Proof.
  rewrite elem_of_lookup_imap. split.
  - intros (i & x & [= -> ->] & ?). done.
  - intros ?. by exists k, r.
Qed.

Lemma imap_pair_fst (rows : list R) : (imap pair rows).*1 = seq 0 (length rows).
Proof.
  apply list_eq. intros i. rewrite list_lookup_fmap, list_lookup_imap.
  destruct (rows !! i) eqn:Ei.
  - cbn. symmetry. apply lookup_seq. split; [done|]. by eapply lookup_lt_Some.
  - cbn. symmetry. apply lookup_seq_ge. by apply lookup_ge_None.
Qed.

Section Selected.
Variable locked : nat -> Prop.
Context `{forall k, Decision (locked k)}.

Lemma pending_elem rows k r :
  (k, r) ∈ pending_rows locked rows <-> rows !! k = Some r /\ row_published r = None /\ ~ locked k.
Proof. unfold pending_rows. rewrite list_elem_of_filter, elem_imap_pair. cbn. tauto. Qed.

Lemma pending_NoDup rows : NoDup (pending_rows locked rows).*1.
Proof.
  apply (sublist_NoDup _ (seq 0 (length rows))); [apply NoDup_seq|].
  rewrite <- (imap_pair_fst rows). apply fmap_sublist, sublist_filter.
Qed.

(** What a selection returns, in whatever order: pending rows nobody holds. *)
Definition selection (rows : list R) (p : list (nat * R)) : Prop :=
  NoDup p.*1 /\ forall k r, (k, r) ∈ p -> rows !! k = Some r /\ row_published r = None /\ ~ locked k.

Lemma selection_take limit rows l : l ≡ₚ pending_rows locked rows -> selection rows (take limit l).
Proof.
  intros E0. split.
  - apply (sublist_NoDup _ l.*1); [|apply fmap_sublist, sublist_take]. rewrite E0. apply pending_NoDup.
  - intros k r Hin%elem_of_take. destruct Hin as (i & Hin & _). apply pending_elem.
    rewrite <- E0. by eapply list_elem_of_lookup_2.
Qed.

Lemma select_pending_selection limit rows : selection rows (select_pending locked limit rows).
Proof. by apply selection_take. Qed.

Lemma select_created_selection created scan limit rows :
  (forall l, scan l ≡ₚ l) -> selection rows (select_created created scan locked limit rows).
Proof. intros Hs. apply selection_take. by rewrite merge_sort_Permutation, Hs. Qed.
End Selected.
End Pollers.
