(* ===== verification/OutboxRelay.v ===== *)
(** * Any number of outbox pollers against a broker that can fail

    A relay is a table, the batches the running pollers hold, and the broker with
    its stream and its window of deduplication. Business transactions append rows;
    pollers begin, publish row by row, commit or crash, and the window forgets, in
    any interleaving. Accounting for every message is an invariant. *)

From Stdlib Require Import ZArith Lia.
From S2P Require Import Prelude Strconv Errors LedgerDomain LedgerEvents Outbox.
Local Open Scope Z_scope.

(** The transaction of a running poller: the rows it locked, those still to be
    processed, those it will mark and those whose message the broker took. *)
Record Batch (R : Type) : Type := mkBatch {
  b_rows : list nat; b_todo : list (nat * R); b_done : list nat; b_sent : list nat }.
Arguments mkBatch {R} _ _ _ _.
Arguments b_rows {R} _.
Arguments b_todo {R} _.
Arguments b_done {R} _.
Arguments b_sent {R} _.

(** The JetStream side. The stream holds each message with the row it came from.
    A message is published under [nats.MsgId]: while an id is in the window of
    deduplication a message with that id is acknowledged and not stored again.
    The window lasts a limited time; [br_forgotten] lists the ids that left it. *)
Record Broker (E : Type) : Type := mkBroker {
  br_stream : list (nat * E); br_window : gset uuid; br_forgotten : list uuid }.
Arguments mkBroker {E} _ _ _.
Arguments br_stream {E} _.
Arguments br_window {E} _.
Arguments br_forgotten {E} _.

(** [rl_lost]: messages the broker took without their row being marked by the
    poller that sent them, one entry per publication. *)
Record Relay (R E : Type) : Type := mkRelay {
  rl_rows : list R; rl_batches : gmap nat (Batch R); rl_broker : Broker E; rl_lost : list nat }.
Arguments mkRelay {R E} _ _ _ _.
Arguments rl_rows {R E} _.
Arguments rl_batches {R E} _.
Arguments rl_broker {R E} _.
Arguments rl_lost {R E} _.

Definition rl_stream {R E} (w : Relay R E) : list (nat * E) := br_stream (rl_broker w).

Section Occurs.
Context {A : Type} `{EqDecision A}.
Implicit Types (k j : A) (l : list A).

Definition occurs k l : nat := length (filter (fun j => j = k) l).

Lemma occurs_app k l1 l2 : occurs k (l1 ++ l2) = (occurs k l1 + occurs k l2)%nat.
Proof. unfold occurs. by rewrite filter_app, length_app. Qed.
Lemma occurs_zero k l : k ∉ l -> occurs k l = 0%nat.
Proof.
  intros Hn. unfold occurs. rewrite list_filter_none; [done|]. intros j Hj ->. done.
Qed.
Lemma occurs_one k l : NoDup l -> k ∈ l -> occurs k l = 1%nat.
Proof.
  induction 1 as [|j l Hj Hnd IH]; [by intros ?%elem_of_nil|]. intros Hk.
  change (j :: l) with ([j] ++ l). rewrite occurs_app. destruct (decide (j = k)) as [->|Hne].
  - rewrite (occurs_zero k l) by done. unfold occurs. by rewrite filter_cons_True, filter_nil.
  - rewrite IH by set_solver. unfold occurs. by rewrite filter_cons_False, filter_nil.
Qed.
Lemma occurs_self k : occurs k [k] = 1%nat.
Proof. apply occurs_one; [apply NoDup_singleton|set_solver]. Qed.
Lemma occurs_other k j : j <> k -> occurs k [j] = 0%nat.
Proof. intros Hne. apply occurs_zero. set_solver. Qed.
Lemma occurs_pos k l : k ∈ l <-> (0 < occurs k l)%nat.
Proof.
  split; [|destruct (decide (k ∈ l)); [done|by rewrite occurs_zero by done; lia]].
  intros (l1 & l2 & ->)%list_elem_of_split. change (k :: l2) with ([k] ++ l2).
  rewrite !occurs_app, occurs_self. lia.
Qed.
End Occurs.

Section Relay.
Context {R E : Type} `{OutboxTable R E}.
(** Whether malformed rows are marked ([DrainOutbox]) or left pending
    ([drainOnce]). *)
Variable marks_poison : bool.

Definition held (bs : gmap nat (Batch R)) (k : nat) : Prop := ~ map_Forall (fun _ b => k ∉ b_rows b) bs.
#[export] Instance held_dec bs k : Decision (held bs k).
Proof. unfold held. apply _. Defined.

Lemma held_spec bs k : held bs k <-> exists i b, bs !! i = Some b /\ k ∈ b_rows b.
Proof.
  unfold held. split.
  - intros Hn. apply map_not_Forall in Hn as (i & b & Hb & Hk); [|apply _].
    exists i, b. split; [done|]. by apply dec_stable.
  - intros (i & b & Hb & Hk) Hall. by apply (Hall i b).
Qed.

(** The ids in the stream, in order. *)
Definition stream_ids (b : Broker E) : list uuid := map (fun p => msg_id p.2) (br_stream b).

(** A message the broker takes: a duplicate of one in its window, or a new one. *)
Definition broker_take (k : nat) (env : E) (b : Broker E) : Broker E :=
  if decide (msg_id env ∈ br_window b) then b
  else mkBroker (br_stream b ++ [(k, env)]) ({[msg_id env]} ∪ br_window b) (br_forgotten b).

Lemma take_forgotten k env b : br_forgotten (broker_take k env b) = br_forgotten b.
Proof. unfold broker_take. by case_decide. Qed.

Definition broker_takes (sent : list (nat * E)) (b : Broker E) : Broker E :=
  fold_left (fun b p => broker_take p.1 p.2 b) sent b.

Definition begin_batch (p : list (nat * R)) : Batch R := mkBatch p.*1 p [] [].

Definition set_batch (i : nat) (b : Batch R) (w : Relay R E) : Relay R E :=
  mkRelay (rl_rows w) (<[i := b]> (rl_batches w)) (rl_broker w) (rl_lost w).

(** One message: what the poller does with each answer of the broker. *)
Definition after_publish (i : nat) (b : Batch R) (k : nat) (rest : list (nat * R)) (env : E) (a : pub_answer)
  (w : Relay R E) : Relay R E :=
  match a with
  | Accepted => mkRelay (rl_rows w) (<[i := mkBatch (b_rows b) rest (b_done b ++ [k]) (b_sent b ++ [k])]> (rl_batches w))
                  (broker_take k env (rl_broker w)) (rl_lost w)
  | Refused => set_batch i (mkBatch (b_rows b) [] (b_done b) (b_sent b)) w
  | Unanswered => mkRelay (rl_rows w) (<[i := mkBatch (b_rows b) [] (b_done b) (b_sent b)]> (rl_batches w))
                    (broker_take k env (rl_broker w)) (rl_lost w ++ [k])
  end.

(** The id of an envelope is a fresh UUID: no other row of the table has it. *)
Definition id_fresh (rows : list R) (r : R) : Prop :=
  forall e k r' e', row_envelope r = Some e -> rows !! k = Some r' -> row_envelope r' = Some e' -> msg_id e' <> msg_id e.

(** Any selection can start a batch: the order and the limit of the SELECTs do
    not matter here. *)
Inductive relay_step (w : Relay R E) : Relay R E -> Prop :=
| rs_append r :
    row_published r = None -> id_fresh (rl_rows w) r ->
    relay_step w (mkRelay (rl_rows w ++ [r]) (rl_batches w) (rl_broker w) (rl_lost w))
| rs_begin i p :
    rl_batches w !! i = None -> selection (held (rl_batches w)) (rl_rows w) p ->
    relay_step w (set_batch i (begin_batch p) w)
| rs_publish i b k r rest env a :
    rl_batches w !! i = Some b -> b_todo b = (k, r) :: rest -> row_envelope r = Some env ->
    relay_step w (after_publish i b k rest env a w)
| rs_malformed i b k r rest :
    rl_batches w !! i = Some b -> b_todo b = (k, r) :: rest -> row_envelope r = None ->
    relay_step w (set_batch i
      (mkBatch (b_rows b) rest (if marks_poison then b_done b ++ [k] else b_done b) (b_sent b)) w)
| rs_commit i b now :
    rl_batches w !! i = Some b -> b_todo b = [] ->
    relay_step w (mkRelay (mark_rows now (b_done b) (rl_rows w)) (delete i (rl_batches w)) (rl_broker w) (rl_lost w))
| rs_crash i b :
    rl_batches w !! i = Some b ->
    relay_step w (mkRelay (rl_rows w) (delete i (rl_batches w)) (rl_broker w) (rl_lost w ++ b_sent b))
| rs_forget u :
    u ∈ br_window (rl_broker w) ->
    relay_step w (mkRelay (rl_rows w) (rl_batches w)
      (mkBroker (rl_stream w) (br_window (rl_broker w) ∖ {[u]}) (br_forgotten (rl_broker w) ++ [u])) (rl_lost w)).

Definition relay_start : Relay R E := mkRelay [] ∅ (mkBroker [] ∅ []) [].

Inductive relay_reach : Relay R E -> Prop :=
| relay_init : relay_reach relay_start
| relay_next w w' : relay_reach w -> relay_step w w' -> relay_reach w'.

(** ** The invariant *)

Definition in_flight (bs : gmap nat (Batch R)) (k : nat) : Prop :=
  exists i b, bs !! i = Some b /\ k ∈ b_sent b.

Definition marked (rows : list R) (k : nat) : Prop :=
  exists r, rows !! k = Some r /\ is_Some (row_published r) /\ is_Some (row_envelope r).

(** A batch against the table. *)
Record batch_ok (rows : list R) (b : Batch R) : Prop := {
  bo_rows k : k ∈ b_rows b -> exists r, rows !! k = Some r /\ row_published r = None;
  bo_todo k r : (k, r) ∈ b_todo b -> k ∈ b_rows b /\ rows !! k = Some r;
  bo_done k : k ∈ b_done b -> k ∈ b_rows b;
  bo_sent k : k ∈ b_sent b -> k ∈ b_done b;
  bo_nodup : NoDup (b_sent b ++ (b_todo b).*1);
  bo_unsent k r : k ∈ b_done b -> rows !! k = Some r -> k ∉ b_sent b -> row_envelope r = None /\ marks_poison = true;
  bo_wf k r : k ∈ b_sent b -> rows !! k = Some r -> is_Some (row_envelope r)
}.

Definition ids_apart (rows : list R) : Prop :=
  forall j k r r' e e', rows !! j = Some r -> rows !! k = Some r' -> row_envelope r = Some e ->
    row_envelope r' = Some e' -> msg_id e = msg_id e' -> j = k.

(** The broker against the table: an id is in the stream once for each time the
    window let go of it, and once more while the window holds it. *)
Record broker_ok (rows : list R) (b : Broker E) : Prop := {
  bk_stream k e : (k, e) ∈ br_stream b -> exists r, rows !! k = Some r /\ row_envelope r = Some e;
  bk_window u : occurs u (stream_ids b) = (occurs u (br_forgotten b) + if decide (u ∈ br_window b) then 1 else 0)%nat
}.

Record relay_ok (w : Relay R E) : Prop := {
  ro_batch i b : rl_batches w !! i = Some b -> batch_ok (rl_rows w) b;
  ro_apart i j b b' k : rl_batches w !! i = Some b -> rl_batches w !! j = Some b' ->
    k ∈ b_rows b -> k ∈ b_rows b' -> i = j;
  ro_ids : ids_apart (rl_rows w);
  ro_broker : broker_ok (rl_rows w) (rl_broker w);
  ro_marked k : marked (rl_rows w) k \/ in_flight (rl_batches w) k ->
    k ∈ (rl_stream w).*1 /\ (occurs k (rl_stream w).*1 <= S (occurs k (rl_lost w)))%nat;
  ro_pending k : ~ marked (rl_rows w) k -> ~ in_flight (rl_batches w) k ->
    (occurs k (rl_stream w).*1 <= occurs k (rl_lost w))%nat;
  ro_poison k r : rl_rows w !! k = Some r -> is_Some (row_published r) -> row_envelope r = None -> marks_poison = true
}.

Lemma ro_stream w k e : relay_ok w -> (k, e) ∈ rl_stream w -> exists r, rl_rows w !! k = Some r /\ row_envelope r = Some e.
Proof. intros Hok. apply (bk_stream _ _ (ro_broker _ Hok)). Qed.

(** Rows that keep their envelopes keep what is known of ids and broker. *)
Definition same_envelopes (rows rows' : list R) : Prop :=
  forall k, row_envelope <$> rows' !! k = row_envelope <$> rows !! k.

Lemma same_envelopes_mark now done rows : same_envelopes rows (mark_rows now done rows).
Proof.
  intros k. rewrite mark_rows_lookup. destruct (rows !! k) as [r|]; [|done]. cbn.
  case_decide; by rewrite ?row_envelope_mark.
Qed.

Lemma same_envelopes_back rows rows' k r' :
  same_envelopes rows rows' -> rows' !! k = Some r' -> exists r, rows !! k = Some r /\ row_envelope r = row_envelope r'.
Proof.
  intros Hs Hk. specialize (Hs k). rewrite Hk in Hs. destruct (rows !! k) as [r|]; [|done].
  injection Hs as E0. by exists r.
Qed.

Lemma same_envelopes_sym rows rows' : same_envelopes rows rows' -> same_envelopes rows' rows.
Proof. intros Hs k. by rewrite Hs. Qed.

Lemma ids_apart_same rows rows' : same_envelopes rows rows' -> ids_apart rows -> ids_apart rows'.
Proof.
  intros Hs Ha j k r r' e e' Hj Hk He He'.
  destruct (same_envelopes_back _ _ _ _ Hs Hj) as (q & Hq & E1).
  destruct (same_envelopes_back _ _ _ _ Hs Hk) as (q' & Hq' & E2).
  rewrite <- E1 in He. rewrite <- E2 in He'. by apply (Ha j k q q').
Qed.

Lemma broker_ok_same rows rows' b : same_envelopes rows rows' -> broker_ok rows b -> broker_ok rows' b.
Proof.
  intros Hs [B1 B2]. split; [|done]. intros k e (r & Hr & He)%B1.
  destruct (same_envelopes_back _ _ _ _ (same_envelopes_sym _ _ Hs) Hr) as (r' & Hr' & E0).
  exists r'. split; [done|by rewrite E0].
Qed.

(** A message the broker takes. *)
Section Take.
Variables (rows : list R) (b : Broker E) (k : nat) (r : R) (env : E).
Hypotheses (Hids : ids_apart rows) (Hb : broker_ok rows b) (Hr : rows !! k = Some r) (He : row_envelope r = Some env).

(** A message with the id of row [k] is the message of row [k]. *)
Lemma stream_by_id k' e : (k', e) ∈ br_stream b -> msg_id e = msg_id env <-> k' = k.
Proof.
  intros (r' & Hr' & He')%(bk_stream _ _ Hb). split.
  - intros E0. by apply (Hids k' k r' r e env).
  - intros ->. congruence.
Qed.

Lemma occurs_by_id : occurs k (br_stream b).*1 = occurs (msg_id env) (stream_ids b).
Proof.
  unfold occurs, stream_ids. pose proof stream_by_id as Hs. clear Hb Hids.
  induction (br_stream b) as [|[k' e] l IH]; [done|]. cbn [map fmap list_fmap fst snd]. rewrite !filter_cons.
  specialize (IH (fun k0 e0 H0 => Hs k0 e0 (list_elem_of_further _ _ _ H0))).
  pose proof (Hs k' e (list_elem_of_here _ _)). repeat case_decide; cbn; try lia; tauto.
Qed.

Lemma broker_ok_take : broker_ok rows (broker_take k env b).
Proof.
  unfold broker_take. case_decide as Hw; [done|]. split; cbn [br_stream br_window br_forgotten].
  - intros k' e [Hin|[= -> ->]%list_elem_of_singleton]%elem_of_app; [by apply (bk_stream _ _ Hb)|]. by exists r.
  - intros u. unfold stream_ids. cbn [br_stream]. rewrite map_app, occurs_app.
    change (map _ (br_stream b)) with (stream_ids b). rewrite (bk_window _ _ Hb). cbn [map snd].
    destruct (decide (u = msg_id env)) as [->|Hne].
    + rewrite occurs_self, decide_False, decide_True by set_solver. lia.
    + rewrite occurs_other by done. destruct (decide (u ∈ br_window b)); [rewrite decide_True by set_solver|
        rewrite decide_False by set_solver]; lia.
Qed.

(** It is in the stream, which gained at most one copy of it and nothing else. *)
Lemma take_stream :
  k ∈ (br_stream (broker_take k env b)).*1 /\
  (occurs k (br_stream (broker_take k env b)).*1 <= S (occurs k (br_stream b).*1))%nat /\
  (forall j, j <> k -> occurs j (br_stream (broker_take k env b)).*1 = occurs j (br_stream b).*1).
Proof.
  unfold broker_take. case_decide as Hw; cbn [br_stream].
  - split; [|by split; [lia|]]. apply occurs_pos. rewrite occurs_by_id, (bk_window _ _ Hb), decide_True by done. lia.
  - rewrite fmap_app. cbn [fmap list_fmap fst]. split; [set_solver|]. split.
    + rewrite occurs_app, occurs_self. lia.
    + intros j Hj. rewrite occurs_app, occurs_other by done. lia.
Qed.
End Take.

(** Rows may grow, and rows outside a batch may be marked. *)
Lemma batch_ok_rows rows rows' b :
  (forall k, k ∈ b_rows b -> rows' !! k = rows !! k) -> batch_ok rows b -> batch_ok rows' b.
Proof.
  intros E0 []. split; [intros k Hk|intros k r Hk|done|done|done|intros k r Hk|intros k r Hk].
  - rewrite E0 by done. by apply bo_rows0.
  - destruct (bo_todo0 k r Hk). split; [done|]. by rewrite E0.
  - rewrite E0 by auto. by apply bo_unsent0.
  - rewrite E0 by auto. by apply bo_wf0.
Qed.

(** Replacing a batch by one on the same rows. *)
Lemma apart_insert (bs : gmap nat (Batch R)) i b b' :
  bs !! i = Some b -> b_rows b' = b_rows b ->
  (forall j j' c c' k, bs !! j = Some c -> bs !! j' = Some c' -> k ∈ b_rows c -> k ∈ b_rows c' -> j = j') ->
  forall j j' c c' k, <[i := b']> bs !! j = Some c -> <[i := b']> bs !! j' = Some c' ->
    k ∈ b_rows c -> k ∈ b_rows c' -> j = j'.
Proof.
  intros Hb E0 Ha j j' c c' k [[<- <-]|[Hj Hc]]%lookup_insert_Some [[<- <-]|[Hj' Hc']]%lookup_insert_Some Hk Hk';
    rewrite ?E0 in *; eauto.
Qed.

(** What is in flight outside a batch: it does not depend on the batch. *)
Definition elsewhere (bs : gmap nat (Batch R)) (b : Batch R) (k : nat) : Prop :=
  in_flight bs k /\ k ∉ b_rows b.

Section InFlight.
Variables (w : Relay R E) (i : nat) (b : Batch R).
Hypotheses (Hok : relay_ok w) (Hb : rl_batches w !! i = Some b).

Lemma sent_rows j c k : rl_batches w !! j = Some c -> k ∈ b_sent c -> k ∈ b_rows c.
Proof. intros Hc Hk. destruct (ro_batch _ Hok _ _ Hc). auto. Qed.

Lemma in_flight_split k : in_flight (rl_batches w) k <-> k ∈ b_sent b \/ elsewhere (rl_batches w) b k.
Proof.
  split.
  - intros (j & c & Hc & Hk). destruct (decide (j = i)) as [->|Hne].
    + left. assert (c = b) as -> by congruence. done.
    + right. split; [by exists j, c|]. intros Hkb. apply Hne.
      eapply (ro_apart _ Hok); [exact Hc|exact Hb| |exact Hkb]. by eapply sent_rows.
  - intros [Hk|[Hk _]]; [by exists i, b|done].
Qed.

Lemma in_flight_set b' k :
  b_rows b' = b_rows b -> (forall k, k ∈ b_sent b' -> k ∈ b_rows b) ->
  in_flight (<[i := b']> (rl_batches w)) k <-> k ∈ b_sent b' \/ elsewhere (rl_batches w) b k.
Proof.
  intros E0 Hs. split.
  - intros (j & c & [[<- <-]|[Hj Hc]]%lookup_insert_Some & Hk); [by left|]. right. split; [by exists j, c|].
    intros Hkb. apply Hj. eapply (ro_apart _ Hok); [exact Hb|exact Hc|exact Hkb|by eapply sent_rows].
  - intros [Hk|[(j & c & Hc & Hk) Hn]]; [exists i, b'; by rewrite lookup_insert_eq|].
    exists j, c. rewrite lookup_insert_ne; [done|]. intros <-. apply Hn. assert (c = b) as -> by congruence. by eapply sent_rows.
Qed.

Lemma in_flight_delete k : in_flight (delete i (rl_batches w)) k <-> elsewhere (rl_batches w) b k.
Proof.
  split.
  - intros (j & c & [Hj Hc]%lookup_delete_Some & Hk). split; [by exists j, c|].
    intros Hkb. apply Hj. eapply (ro_apart _ Hok); [exact Hb|exact Hc|exact Hkb|by eapply sent_rows].
  - intros [(j & c & Hc & Hk) Hn]. exists j, c. rewrite lookup_delete_ne; [done|].
    intros <-. apply Hn. assert (c = b) as -> by congruence. by eapply sent_rows.
Qed.

Lemma held_pending k : k ∈ b_rows b -> ~ marked (rl_rows w) k.
Proof.
  intros Hk (r & Hr & Hp & _). destruct (bo_rows _ _ (ro_batch _ Hok _ _ Hb) k Hk) as (r' & Hr' & Hn).
  assert (r' = r) as -> by congruence. rewrite Hn in Hp. by destruct Hp.
Qed.

(** Keeping the rows and replacing the batch, when nothing else moves. *)
Lemma relay_ok_set b' :
  batch_ok (rl_rows w) b' -> b_rows b' = b_rows b -> b_sent b' = b_sent b -> relay_ok (set_batch i b' w).
Proof.
  intros Hb' E0 E1.
  assert (HF : forall k, in_flight (<[i := b']> (rl_batches w)) k <-> in_flight (rl_batches w) k).
  { intros k. rewrite in_flight_set, in_flight_split, E1; [done|done|]. rewrite E1. intros j. by apply (sent_rows i). }
  split; cbn [rl_rows rl_batches rl_broker rl_lost set_batch].
  - intros j c [[<- <-]|[_ Hc]]%lookup_insert_Some; [done|by apply (ro_batch _ Hok j)].
  - eapply apart_insert; [exact Hb|exact E0|]. intros j j' c c' k. apply (ro_apart _ Hok).
  - apply (ro_ids _ Hok).
  - apply (ro_broker _ Hok).
  - intros k. rewrite HF. apply (ro_marked _ Hok).
  - intros k. rewrite HF. apply (ro_pending _ Hok).
  - apply (ro_poison _ Hok).
Qed.

(** The broker took the message of the head of the batch. *)
Lemma relay_ok_accepted k r rest env :
  b_todo b = (k, r) :: rest -> row_envelope r = Some env -> relay_ok (after_publish i b k rest env Accepted w).
Proof.
  intros Ht Henv. destruct (ro_batch _ Hok _ _ Hb) as [B1 B2 B3 B4 B5 B6 B7].
  rewrite Ht in B2, B5. cbn [fmap list_fmap fst] in B5.
  destruct (B2 k r) as [Hkr Hrow]; [by left|].
  assert (Hks : k ∉ b_sent b) by (apply NoDup_app in B5 as (_ & Hd & _); intros Hk; eapply Hd; [exact Hk|by left]).
  assert (HF : forall j, in_flight (<[i := mkBatch (b_rows b) rest (b_done b ++ [k]) (b_sent b ++ [k])]> (rl_batches w)) j
                          <-> in_flight (rl_batches w) j \/ j = k).
  { intros j. rewrite in_flight_set, in_flight_split; [cbn; set_solver|done|]. cbn. set_solver. }
  assert (Hpend : ~ marked (rl_rows w) k /\ ~ in_flight (rl_batches w) k).
  { split; [by apply held_pending|]. rewrite in_flight_split. intros [?|[_ ?]]; done. }
  pose proof (ro_pending _ Hok k (proj1 Hpend) (proj2 Hpend)) as Hlost.
  destruct (take_stream (rl_rows w) (rl_broker w) k r env (ro_ids _ Hok) (ro_broker _ Hok) Hrow Henv) as (T1 & T2 & T3).
  split; cbn [rl_rows rl_batches rl_broker rl_lost after_publish].
  - intros j c [[<- <-]|[_ Hc]]%lookup_insert_Some; [|by apply (ro_batch _ Hok j)]. split; cbn.
    + done.
    + intros k' r' Hin. apply B2. by right.
    + set_solver.
    + set_solver.
    + rewrite <- app_assoc. exact B5.
    + intros k' r' Hin Hr' Hn. apply elem_of_app in Hin as [Hin|Hin]; [|set_solver]. apply B6 with k'; set_solver.
    + intros k' r' [Hin| ->%list_elem_of_singleton]%elem_of_app Hr'; [by apply (B7 k')|].
      assert (r' = r) as -> by congruence. eauto.
  - eapply apart_insert; [exact Hb|done|]. intros j j' c c' k'. apply (ro_apart _ Hok).
  - apply (ro_ids _ Hok).
  - exact (broker_ok_take _ _ _ _ _ (ro_ids _ Hok) (ro_broker _ Hok) Hrow Henv).
  - intros k'. rewrite HF. unfold rl_stream in *. cbn [rl_broker]. intros Hm.
    destruct (decide (k' = k)) as [->|Hne]; [split; [done|lia]|].
    destruct (ro_marked _ Hok k') as [M1 M2]; [naive_solver|]. apply occurs_pos in M1. unfold rl_stream in M1, M2.
    rewrite T3 by done. split; [|done]. apply occurs_pos. by rewrite T3.
  - intros k' Hm. rewrite HF. unfold rl_stream. cbn [rl_broker]. intros Hn.
    rewrite T3 by naive_solver. apply (ro_pending _ Hok); naive_solver.
  - apply (ro_poison _ Hok).
Qed.

Lemma emptied_ok : batch_ok (rl_rows w) (mkBatch (b_rows b) [] (b_done b) (b_sent b)).
Proof.
  destruct (ro_batch _ Hok _ _ Hb) as [B1 B2 B3 B4 B5 B6 B7]. split; cbn; try done.
  - by intros k r ?%elem_of_nil.
  - rewrite app_nil_r. by apply NoDup_app in B5 as (? & _).
Qed.

Lemma relay_ok_unanswered k r rest env :
  b_todo b = (k, r) :: rest -> row_envelope r = Some env -> relay_ok (after_publish i b k rest env Unanswered w).
Proof.
  intros Ht Henv. pose proof (relay_ok_set _ emptied_ok eq_refl eq_refl) as Hok'.
  destruct (bo_todo _ _ (ro_batch _ Hok _ _ Hb) k r) as [Hkr Hrow]; [rewrite Ht; by left|].
  destruct (take_stream (rl_rows w) (rl_broker w) k r env (ro_ids _ Hok) (ro_broker _ Hok) Hrow Henv) as (T1 & T2 & T3).
  assert (T4 : forall j, (occurs j (br_stream (broker_take k env (rl_broker w))).*1
                          <= occurs j (br_stream (rl_broker w)).*1 + occurs j [k])%nat).
  { intros j. destruct (decide (j = k)) as [->|Hne]; [rewrite occurs_self; lia|rewrite T3 by done; lia]. }
  destruct Hok' as [R1 R2 R3 R4 R5 R6 R7]. unfold rl_stream in *.
  split; cbn [rl_rows rl_batches rl_broker rl_lost after_publish set_batch] in *.
  - exact R1.
  - exact R2.
  - exact R3.
  - by apply (broker_ok_take _ _ _ r).
  - intros k' Hm. unfold rl_stream. cbn [rl_broker]. destruct (R5 k' Hm) as [H1 H2].
    rewrite occurs_app. specialize (T4 k'). split; [|lia].
    destruct (decide (k' = k)) as [->|Hne]; [done|]. apply occurs_pos. rewrite T3 by done. by apply occurs_pos.
  - intros k' Hm Hf. unfold rl_stream. cbn [rl_broker]. specialize (R6 k' Hm Hf). specialize (T4 k').
    rewrite occurs_app. lia.
  - exact R7.
Qed.

Lemma relay_ok_malformed k r rest :
  b_todo b = (k, r) :: rest -> row_envelope r = None ->
  relay_ok (set_batch i (mkBatch (b_rows b) rest (if marks_poison then b_done b ++ [k] else b_done b) (b_sent b)) w).
Proof.
  intros Ht Henv. apply relay_ok_set; [|done..].
  destruct (ro_batch _ Hok _ _ Hb) as [B1 B2 B3 B4 B5 B6 B7]. rewrite Ht in B2, B5. cbn [fmap list_fmap fst] in B5.
  destruct (B2 k r) as [Hkr Hrow]; [by left|].
  split; cbn [b_rows b_todo b_done b_sent].
  - done.
  - intros k' r' Hin. apply B2. by right.
  - destruct marks_poison; set_solver.
  - destruct marks_poison; set_solver.
  - apply NoDup_app in B5 as (Hs & Hd & Ht'). apply NoDup_app. split; [done|]. split; [|by apply NoDup_cons in Ht' as []].
    intros k' Hk' Hin. apply (Hd k' Hk'). by right.
  - intros k' r' Hin Hr' Hn. destruct marks_poison eqn:Emp; [|by apply (B6 k')].
    apply elem_of_app in Hin as [Hin| ->%list_elem_of_singleton]; [by apply (B6 k')|].
    by assert (r' = r) as -> by congruence.
  - done.
Qed.

Lemma relay_ok_commit now :
  relay_ok (mkRelay (mark_rows now (b_done b) (rl_rows w)) (delete i (rl_batches w)) (rl_broker w) (rl_lost w)).
Proof.
  destruct (ro_batch _ Hok _ _ Hb) as [B1 B2 B3 B4 B5 B6 B7].
  assert (HM : forall k, marked (mark_rows now (b_done b) (rl_rows w)) k <-> marked (rl_rows w) k \/ k ∈ b_sent b).
  { intros k. unfold marked. split.
    - intros (r & Hr & Hp & He). rewrite mark_rows_lookup in Hr. destruct (rl_rows w !! k) as [r0|] eqn:E0; [|done].
      injection Hr as <-. case_decide as Hd; [|by left; exists r0]. right. rewrite row_envelope_mark in He.
      destruct (decide (k ∈ b_sent b)) as [|Hn]; [done|]. destruct (B6 k r0 Hd E0 Hn) as [E1 _].
      rewrite E1 in He. by destruct He.
    - intros [(r & Hr & Hp & He)|Hs].
      + exists (if decide (k ∈ b_done b) then row_mark now r else r). rewrite mark_rows_lookup, Hr. split; [done|].
        case_decide; [|done]. by rewrite row_published_mark, row_envelope_mark.
      + destruct (B1 k) as (r & Hr & _); [auto|]. exists (row_mark now r).
        rewrite mark_rows_lookup, Hr. cbn. rewrite decide_True by auto.
        rewrite row_published_mark, row_envelope_mark. split_and!; eauto. }
  split; cbn [rl_rows rl_batches rl_broker rl_lost].
  - intros j c [Hj Hc]%lookup_delete_Some. eapply batch_ok_rows; [|by apply (ro_batch _ Hok j)].
    intros k Hk. rewrite mark_rows_lookup. destruct (rl_rows w !! k); [|done]. cbn. rewrite decide_False; [done|].
    intros Hd. apply Hj. eapply (ro_apart _ Hok); [exact Hb|exact Hc|by apply B3|exact Hk].
  - intros j j' c c' k [_ Hc]%lookup_delete_Some [_ Hc']%lookup_delete_Some. by apply (ro_apart _ Hok).
  - eapply ids_apart_same; [apply same_envelopes_mark|apply (ro_ids _ Hok)].
  - eapply broker_ok_same; [apply same_envelopes_mark|apply (ro_broker _ Hok)].
  - intros k. rewrite HM, in_flight_delete. intros Hm. apply (ro_marked _ Hok). rewrite in_flight_split. naive_solver.
  - intros k. rewrite HM, in_flight_delete. intros Hm Hf. apply (ro_pending _ Hok); rewrite ?in_flight_split; naive_solver.
  - intros k r Hr Hp He. rewrite mark_rows_lookup in Hr. destruct (rl_rows w !! k) as [r0|] eqn:E0; [|done].
    injection Hr as <-. case_decide as Hd; [|by eapply (ro_poison _ Hok)]. rewrite row_envelope_mark in He.
    destruct (decide (k ∈ b_sent b)) as [Hs|Hn]; [|by destruct (B6 k r0 Hd E0 Hn)].
    destruct (B7 k r0 Hs E0) as [? ?]. congruence.
Qed.

Lemma relay_ok_crash :
  relay_ok (mkRelay (rl_rows w) (delete i (rl_batches w)) (rl_broker w) (rl_lost w ++ b_sent b)).
Proof.
  destruct (ro_batch _ Hok _ _ Hb) as [B1 B2 B3 B4 B5 B6 B7].
  split; cbn [rl_rows rl_batches rl_broker rl_lost].
  - intros j c [_ Hc]%lookup_delete_Some. by apply (ro_batch _ Hok j).
  - intros j j' c c' k [_ Hc]%lookup_delete_Some [_ Hc']%lookup_delete_Some. by apply (ro_apart _ Hok).
  - apply (ro_ids _ Hok).
  - apply (ro_broker _ Hok).
  - intros k. rewrite in_flight_delete, occurs_app. intros Hm.
    destruct (ro_marked _ Hok k) as [H1 H2]; [rewrite in_flight_split; naive_solver|]. split; [done|]. unfold rl_stream in *. cbn. lia.
  - intros k Hm. rewrite in_flight_delete, occurs_app. intros Hf. destruct (decide (k ∈ b_sent b)) as [Hs|Hs].
    + destruct (ro_marked _ Hok k) as [_ H2]; [rewrite in_flight_split; auto|]. unfold rl_stream in *. cbn.
      rewrite (occurs_one k (b_sent b)); [lia| |done]. by apply NoDup_app in B5 as (? & _).
    + unfold rl_stream. cbn. rewrite (occurs_zero k (b_sent b)), Nat.add_0_r by done.
      apply (ro_pending _ Hok k Hm). rewrite in_flight_split. naive_solver.
  - apply (ro_poison _ Hok).
Qed.
End InFlight.

Lemma relay_ok_begin w i p :
  relay_ok w -> rl_batches w !! i = None -> selection (held (rl_batches w)) (rl_rows w) p ->
  relay_ok (set_batch i (begin_batch p) w).
Proof.
  intros Hok Hi [Hnd Hp].
  assert (HF : forall k, in_flight (<[i := begin_batch p]> (rl_batches w)) k <-> in_flight (rl_batches w) k).
  { intros k. unfold in_flight. split.
    - intros (j & c & [[<- <-]|[_ Hc]]%lookup_insert_Some & Hk); [by apply elem_of_nil in Hk|]. by exists j, c.
    - intros (j & c & Hc & Hk). exists j, c. rewrite lookup_insert_ne; [done|]. congruence. }
  assert (Hsel : forall k, k ∈ b_rows (begin_batch p) -> exists r, rl_rows w !! k = Some r /\
    row_published r = None /\ ~ held (rl_batches w) k).
  { intros k ((k0 & r) & -> & Hin)%list_elem_of_fmap. exists r. by apply Hp. }
  assert (Hapart : forall j c k, rl_batches w !! j = Some c -> k ∈ b_rows c -> k ∉ b_rows (begin_batch p)).
  { intros j c k Hc Hk (_ & _ & _ & Hn)%Hsel. apply Hn, held_spec. by exists j, c. }
  split; cbn [rl_rows rl_batches rl_broker rl_lost set_batch].
  - intros j c [[<- <-]|[_ Hc]]%lookup_insert_Some; [|by apply (ro_batch _ Hok j)]. split; cbn.
    + intros k (r & Hr & Hpub & _)%Hsel. by exists r.
    + intros k r Hin. split; [by apply (list_elem_of_fmap_2 fst) in Hin|]. by apply Hp in Hin as (? & _).
    + by intros k ?%elem_of_nil.
    + by intros k ?%elem_of_nil.
    + done.
    + by intros k r ?%elem_of_nil.
    + by intros k r ?%elem_of_nil.
  - intros j j' c c' k [[<- <-]|[Hj Hc]]%lookup_insert_Some [[<- <-]|[Hj' Hc']]%lookup_insert_Some Hk Hk'; [done| | |].
    + exfalso. by eapply Hapart.
    + exfalso. by eapply Hapart.
    + by eapply (ro_apart _ Hok).
  - apply (ro_ids _ Hok).
  - apply (ro_broker _ Hok).
  - intros k. rewrite HF. apply (ro_marked _ Hok).
  - intros k. rewrite HF. apply (ro_pending _ Hok).
  - apply (ro_poison _ Hok).
Qed.

Lemma relay_ok_append w r :
  relay_ok w -> row_published r = None -> id_fresh (rl_rows w) r ->
  relay_ok (mkRelay (rl_rows w ++ [r]) (rl_batches w) (rl_broker w) (rl_lost w)).
Proof.
  intros Hok Hr Hf.
  assert (HM : forall k, marked (rl_rows w ++ [r]) k <-> marked (rl_rows w) k).
  { intros k. unfold marked. split.
    - intros (r' & Hk & Hp & He). apply lookup_app_Some in Hk as [Hk|[_ Hk]]; [by exists r'|].
      apply list_lookup_singleton_Some in Hk as [_ <-]. rewrite Hr in Hp. by destruct Hp.
    - intros (r' & Hk & Hp & He). exists r'. split; [by apply lookup_app_l_Some|done]. }
  split; cbn [rl_rows rl_batches rl_broker rl_lost].
  - intros i b Hb. eapply batch_ok_rows; [|by apply (ro_batch _ Hok i)]. intros k Hk.
    destruct (bo_rows _ _ (ro_batch _ Hok _ _ Hb) k Hk) as (r' & Hr' & _).
    rewrite Hr'. by apply lookup_app_l_Some.
  - apply (ro_apart _ Hok).
  - intros j k q q' e e' Hj Hk He He' E0.
    apply lookup_app_Some in Hj as [Hj|[Hj1 Hj]]; apply lookup_app_Some in Hk as [Hk|[Hk1 Hk]].
    + by apply (ro_ids _ Hok j k q q' e e').
    + apply list_lookup_singleton_Some in Hk as [_ <-]. by destruct (Hf e' j q e).
    + apply list_lookup_singleton_Some in Hj as [_ <-]. by destruct (Hf e k q' e').
    + apply list_lookup_singleton_Some in Hj as [? _], Hk as [? _]. lia.
  - destruct (ro_broker _ Hok) as [B1 B2]. split; [|done].
    intros k e (r' & Hk & He)%B1. exists r'. split; [by apply lookup_app_l_Some|done].
  - intros k. rewrite HM. apply (ro_marked _ Hok).
  - intros k. rewrite HM. apply (ro_pending _ Hok).
  - intros k r' Hk Hp. apply lookup_app_Some in Hk as [Hk|[_ Hk]]; [by eapply (ro_poison _ Hok)|].
    apply list_lookup_singleton_Some in Hk as [_ <-]. rewrite Hr in Hp. by destruct Hp.
Qed.

Lemma relay_ok_forget w u :
  relay_ok w -> u ∈ br_window (rl_broker w) ->
  relay_ok (mkRelay (rl_rows w) (rl_batches w)
    (mkBroker (rl_stream w) (br_window (rl_broker w) ∖ {[u]}) (br_forgotten (rl_broker w) ++ [u])) (rl_lost w)).
Proof.
  intros [R1 R2 R3 [B1 B2] R5 R6 R7] Hu. split; try done. split; [done|]. intros v. cbn [rl_broker br_window br_forgotten].
  change (stream_ids (mkBroker _ _ _)) with (stream_ids (rl_broker w)). rewrite B2, occurs_app.
  destruct (decide (v = u)) as [->|Hne].
  - rewrite occurs_self, decide_True, decide_False by set_solver. lia.
  - rewrite occurs_other by done. destruct (decide (v ∈ br_window (rl_broker w)));
      [rewrite decide_True by set_solver|rewrite decide_False by set_solver]; lia.
Qed.

Lemma relay_step_ok w w' : relay_ok w -> relay_step w w' -> relay_ok w'.
Proof.
  intros Hok [r Hr Hf|i p Hi Hp|i b k r rest env [] Hb Ht He|i b k r rest Hb Ht He|i b now Hb Ht|i b Hb|u Hu].
  - by apply relay_ok_append.
  - by apply relay_ok_begin.
  - by eapply relay_ok_accepted.
  - eapply relay_ok_set; [done|exact Hb|by eapply emptied_ok|done..].
  - by eapply relay_ok_unanswered.
  - by eapply relay_ok_malformed.
  - by apply relay_ok_commit.
  - by eapply relay_ok_crash.
  - by apply relay_ok_forget.
Qed.

Lemma relay_start_ok : relay_ok relay_start.
Proof.
  split; cbn; try (by intros *; rewrite lookup_empty); try done.
  - split; [by intros k e ?%elem_of_nil|]. intros u. cbn. by rewrite decide_False by set_solver.
  - intros k [(r & Hr & _)|(i & b & Hb & _)]; [by rewrite lookup_nil in Hr|by rewrite lookup_empty in Hb].
Qed.

Lemma relay_reach_ok w : relay_reach w -> relay_ok w.
Proof. induction 1; [apply relay_start_ok|by eapply relay_step_ok]. Qed.

(** The copies of a row's message in the stream. *)
Lemma relay_copies w k r e :
  relay_ok w -> rl_rows w !! k = Some r -> row_envelope r = Some e ->
  occurs k (rl_stream w).*1
  = (occurs (msg_id e) (br_forgotten (rl_broker w)) + if decide (msg_id e ∈ br_window (rl_broker w)) then 1 else 0)%nat.
Proof.
  intros Hok Hk He. rewrite <- (bk_window _ _ (ro_broker _ Hok)).
  exact (occurs_by_id (rl_rows w) _ k r e (ro_ids _ Hok) (ro_broker _ Hok) Hk He).
Qed.
End Relay.
