(* ===== verification/OutboxDrain.v ===== *)
(** * What the pollers achieve

    Every message accounted for, whatever interleaves; a drain as a run of the
    relay; and with the broker up, how far repeated drains get. *)

From Stdlib Require Import ZArith Lia.
From S2P Require Import Prelude Strconv Errors LedgerDomain LedgerEvents Outbox OutboxRelay TxMonad Recon.
From S2P Require Import ReconStore Identity IdentityStore.
Local Open Scope Z_scope.

Section Runs.
Context {R E : Type} `{OutboxTable R E}.

(** ** A drain is a run of the relay *)

(** The relay after the loop of a poller: the batch has nothing left to do. *)
Definition processed (i : nat) (b : Batch R) (done : list nat) (sent : list (nat * E)) (w w' : Relay R E) : Prop :=
  exists out lost, w' = mkRelay (rl_rows w) (<[i := mkBatch (b_rows b) [] (b_done b ++ done) out]> (rl_batches w))
                          (broker_takes sent (rl_broker w)) (rl_lost w ++ lost).

Lemma broker_takes_app s1 s2 (b : Broker E) : broker_takes (s1 ++ s2) b = broker_takes s2 (broker_takes s1 b).
Proof. apply fold_left_app. Qed.

Lemma processed_refl i (b : Batch R) (w : Relay R E) :
  rl_batches w !! i = Some b -> b_todo b = [] -> processed i b [] [] w w.
Proof.
  intros Hb Ht. exists (b_sent b), []. destruct w as [rows bs str lost], b as [brows todo done out]. cbn in *. subst todo.
  rewrite !app_nil_r. by rewrite insert_id.
Qed.

(** Processing the rest of a batch after one of its rows. *)
Lemma processed_cons i (b b1 : Batch R) d done s sent out1 lost1 (w w' : Relay R E) :
  b_rows b1 = b_rows b -> b_done b1 = b_done b ++ d -> b_sent b1 = out1 ->
  processed i b1 done sent (mkRelay (rl_rows w) (<[i := b1]> (rl_batches w)) (broker_takes s (rl_broker w)) (rl_lost w ++ lost1)) w' ->
  processed i b (d ++ done) (s ++ sent) w w'.
Proof.
  intros E0 E1 _ (out & lost & ->). exists out, (lost1 ++ lost). cbn.
  by rewrite E0, E1, insert_insert_eq, !app_assoc, broker_takes_app.
Qed.

Lemma publish_rows_run pub pending : forall i (b : Batch R) (w : Relay R E),
  rl_batches w !! i = Some b -> b_todo b = pending ->
  let '(done, sent, _) := publish_rows pub pending in
  exists w', rtc (relay_step false) w w' /\ processed i b done sent w w'.
Proof.
  induction pending as [|[k r] rest IH]; intros i b w Hb Ht; cbn [publish_rows].
  - exists w. split; [done|]. by apply processed_refl.
  - destruct (row_envelope r) as [env|] eqn:He.
    + destruct (pub env) eqn:Hp.
      * specialize (IH i (mkBatch (b_rows b) rest (b_done b ++ [k]) (b_sent b ++ [k]))
          (after_publish i b k rest env Accepted w)). cbn in IH. rewrite lookup_insert_eq in IH.
        specialize (IH eq_refl eq_refl). destruct (publish_rows pub rest) as [[done sent] f].
        destruct IH as (w' & Hs & Hw). exists w'. split.
        -- eapply rtc_l; [|exact Hs]. by eapply (rs_publish false w i b k r rest env Accepted).
        -- eapply (processed_cons i b _ [k] done [(k, env)] sent _ []); [..|rewrite app_nil_r; exact Hw]; done.
      * exists (after_publish i b k rest env Refused w). split.
        -- apply rtc_once. by eapply (rs_publish false w i b k r rest env Refused).
        -- exists (b_sent b), []. cbn. by rewrite !app_nil_r.
      * exists (after_publish i b k rest env Unanswered w). split.
        -- apply rtc_once. by eapply (rs_publish false w i b k r rest env Unanswered).
        -- exists (b_sent b), [k]. cbn. by rewrite app_nil_r.
    + specialize (IH i (mkBatch (b_rows b) rest (b_done b) (b_sent b))
        (set_batch i (mkBatch (b_rows b) rest (b_done b) (b_sent b)) w)). cbn in IH. rewrite lookup_insert_eq in IH.
      specialize (IH eq_refl eq_refl). destruct (publish_rows pub rest) as [[done sent] f].
      destruct IH as (w' & Hs & Hw). exists w'. split.
      * eapply rtc_l; [|exact Hs]. by eapply (rs_malformed false).
      * eapply (processed_cons i b _ [] done [] sent _ []); [..|rewrite !app_nil_r; exact Hw]; cbn; rewrite ?app_nil_r; done.
Qed.

Lemma drain_rows_run pub pending : forall i (b : Batch R) (w : Relay R E) err,
  rl_batches w !! i = Some b -> b_todo b = pending ->
  let '(done, sent, _) := drain_rows pub pending err in
  exists w', rtc (relay_step true) w w' /\ processed i b done sent w w'.
Proof.
  induction pending as [|[k r] rest IH]; intros i b w err Hb Ht; cbn [drain_rows].
  - exists w. split; [done|]. by apply processed_refl.
  - destruct (row_envelope r) as [env|] eqn:He.
    + destruct (pub env) eqn:Hp.
      * specialize (IH i (mkBatch (b_rows b) rest (b_done b ++ [k]) (b_sent b ++ [k]))
          (after_publish i b k rest env Accepted w) err). cbn in IH. rewrite lookup_insert_eq in IH.
        specialize (IH eq_refl eq_refl). destruct (drain_rows pub rest err) as [[done sent] f].
        destruct IH as (w' & Hs & Hw). exists w'. split.
        -- eapply rtc_l; [|exact Hs]. by eapply (rs_publish true w i b k r rest env Accepted).
        -- eapply (processed_cons i b _ [k] done [(k, env)] sent _ []); [..|rewrite app_nil_r; exact Hw]; done.
      * exists (after_publish i b k rest env Refused w). split.
        -- apply rtc_once. by eapply (rs_publish true w i b k r rest env Refused).
        -- exists (b_sent b), []. cbn. by rewrite !app_nil_r.
      * exists (after_publish i b k rest env Unanswered w). split.
        -- apply rtc_once. by eapply (rs_publish true w i b k r rest env Unanswered).
        -- exists (b_sent b), [k]. cbn. by rewrite app_nil_r.
    + specialize (IH i (mkBatch (b_rows b) rest (b_done b ++ [k]) (b_sent b))
        (set_batch i (mkBatch (b_rows b) rest (b_done b ++ [k]) (b_sent b)) w) true). cbn in IH.
      rewrite lookup_insert_eq in IH. specialize (IH eq_refl eq_refl).
      destruct (drain_rows pub rest true) as [[done sent] f].
      destruct IH as (w' & Hs & Hw). exists w'. split.
      * eapply rtc_l; [|exact Hs]. by eapply (rs_malformed true).
      * eapply (processed_cons i b _ [k] done [] sent _ []); [..|rewrite !app_nil_r; exact Hw]; cbn; rewrite ?app_nil_r; done.
Qed.

(** The relay after a whole drain, its batch gone. *)
Definition drained (d : Drained) (w w' : Relay R E) : Prop :=
  exists lost, w' = mkRelay (dr_rows d) (rl_batches w) (broker_takes (dr_sent d) (rl_broker w)) (rl_lost w ++ lost).

Lemma commit_processed poison i b done sent now (w w1 : Relay R E) :
  rl_batches w !! i = None -> b_done b = [] -> processed i b done sent (set_batch i b w) w1 ->
  exists w', relay_step poison w1 w' /\ exists lost,
    w' = mkRelay (mark_rows now done (rl_rows w)) (rl_batches w) (broker_takes sent (rl_broker w)) (rl_lost w ++ lost).
Proof.
  intros Hi Hd (out & lost & ->). rewrite Hd. cbn [app rl_rows rl_batches rl_broker rl_lost set_batch].
  rewrite insert_insert_eq.
  eexists. split; [eapply (rs_commit poison _ i _ now); [apply lookup_insert_eq|done]|].
  exists lost. cbn. by rewrite delete_insert_id.
Qed.

Lemma drainOnce_run pub now i (w : Relay R E) :
  rl_batches w !! i = None ->
  exists w', rtc (relay_step false) w w' /\ drained (drainOnce (held (rl_batches w)) pub now (rl_rows w)) w w'.
Proof.
  intros Hi. pose proof (select_pending_selection (held (rl_batches w)) batchSize (rl_rows w)) as Hsel.
  set (b := begin_batch (select_pending (held (rl_batches w)) batchSize (rl_rows w))).
  pose proof (publish_rows_run pub (b_todo b) i b (set_batch i b w) (lookup_insert_eq _ _ _) eq_refl) as Hrun.
  change (b_todo b) with (select_pending (held (rl_batches w)) batchSize (rl_rows w)) in Hrun.
  unfold drainOnce. destruct (select_pending _ _ _) as [|p pending] eqn:Ep.
  - exists w. split; [done|]. exists []. cbn. rewrite !app_nil_r. by destruct w.
  - destruct (publish_rows pub (p :: pending)) as [[done sent] f]. destruct Hrun as (w1 & Hs & Hw).
    destruct (commit_processed false i b done sent now w w1 Hi eq_refl Hw) as (w' & Hc & lost & ->).
    assert (Em : (if decide (done = []) then rl_rows w else mark_rows now done (rl_rows w)) = mark_rows now done (rl_rows w))
      by (case_decide; [subst; by rewrite mark_rows_nil|done]).
    eexists. split; [|exists lost; cbn [dr_rows dr_sent]; rewrite Em; reflexivity].
    eapply rtc_l; [by eapply (rs_begin false w i)|]. eapply rtc_r; [exact Hs|exact Hc].
Qed.

Lemma DrainOutbox_run created scan pub now limit i (w : Relay R E) :
  (forall l, scan l ≡ₚ l) -> rl_batches w !! i = None ->
  exists w', rtc (relay_step true) w w' /\
    drained (DrainOutbox created scan (held (rl_batches w)) pub now limit (rl_rows w)) w w'.
Proof.
  intros Hscan Hi.
  pose proof (select_created_selection (held (rl_batches w)) created scan limit (rl_rows w) Hscan) as Hsel.
  set (b := begin_batch (select_created created scan (held (rl_batches w)) limit (rl_rows w))).
  pose proof (drain_rows_run pub (b_todo b) i b (set_batch i b w) false (lookup_insert_eq _ _ _) eq_refl) as Hrun.
  change (b_todo b) with (select_created created scan (held (rl_batches w)) limit (rl_rows w)) in Hrun.
  unfold DrainOutbox. destruct (drain_rows pub _ false) as [[done sent] f]. destruct Hrun as (w1 & Hs & Hw).
  destruct (commit_processed true i b done sent now w w1 Hi eq_refl Hw) as (w' & Hc & lost & ->).
  eexists. split; [|by exists lost].
  eapply rtc_l; [by eapply (rs_begin true w i)|]. eapply rtc_r; [exact Hs|exact Hc].
Qed.

Lemma relay_reach_rtc poison (w w' : Relay R E) :
  relay_reach poison w -> rtc (relay_step poison) w w' -> relay_reach poison w'.
Proof. intros Hr Hs. induction Hs; [done|]. apply IHHs. by eapply relay_next. Qed.

(** The drain of each service. *)
Definition drain (poison : bool) (created : nat -> time) (scan : list (nat * R) -> list (nat * R)) (limit : nat)
  (locked : nat -> Prop) `{forall k, Decision (locked k)} (pub : E -> pub_answer) (now : time) (rows : list R) : Drained :=
  if poison then DrainOutbox created scan locked pub now limit rows else drainOnce locked pub now rows.

Lemma drain_run poison created scan limit pub now i (w : Relay R E) :
  (forall l, scan l ≡ₚ l) -> rl_batches w !! i = None ->
  exists w', rtc (relay_step poison) w w' /\
    drained (drain poison created scan limit (held (rl_batches w)) pub now (rl_rows w)) w w'.
Proof. destruct poison; [apply DrainOutbox_run|intros _; apply drainOnce_run]. Qed.

(** The message of a marked row is in the stream. *)
Lemma marked_sent poison (w : Relay R E) k r e :
  relay_reach poison w -> rl_rows w !! k = Some r -> row_envelope r = Some e -> is_Some (row_published r) ->
  (k, e) ∈ rl_stream w /\ (occurs k (rl_stream w).*1 <= S (occurs k (rl_lost w)))%nat.
Proof.
  intros Hr Hk He Hp. pose proof (relay_reach_ok poison w Hr) as Hok.
  destruct (ro_marked _ _ Hok k) as [Hin Hle]; [left; exists r; by rewrite He|]. split; [|done].
  apply list_elem_of_fmap in Hin as ((k' & e') & -> & Hin).
  destruct (ro_stream _ w _ _ Hok Hin) as (r' & Hr' & He'). cbn [fst] in *. by replace e with e' by congruence.
Qed.

(** C20: every message is accounted for. However many pollers run, whatever the
    broker answers and wherever they crash: the message of a row marked published
    is in the stream; the stream holds a message once while its id stays in the
    window of deduplication, once more each time the window forgot it, and at most
    once more than the publications whose poller did not live to record them; a
    pending row outside a batch is in the stream only for such publications; the
    stream holds nothing else; a marked row without an envelope was marked by
    [DrainOutbox]; no two pollers hold one row; and a drain is such a run. *)
Theorem relay_accounts poison (w : Relay R E) :
  relay_reach poison w ->
  (forall k r e, rl_rows w !! k = Some r -> row_envelope r = Some e -> is_Some (row_published r) ->
     (k, e) ∈ rl_stream w /\ (occurs k (rl_stream w).*1 <= S (occurs k (rl_lost w)))%nat /\
     (msg_id e ∉ br_forgotten (rl_broker w) -> occurs k (rl_stream w).*1 = 1%nat)) /\
  (forall k r e, rl_rows w !! k = Some r -> row_envelope r = Some e ->
     occurs k (rl_stream w).*1
     = (occurs (msg_id e) (br_forgotten (rl_broker w)) + if decide (msg_id e ∈ br_window (rl_broker w)) then 1 else 0)%nat) /\
  (forall k r, rl_rows w !! k = Some r -> row_published r = None -> ~ in_flight (rl_batches w) k ->
     (occurs k (rl_stream w).*1 <= occurs k (rl_lost w))%nat) /\
  (forall k e, (k, e) ∈ rl_stream w -> exists r, rl_rows w !! k = Some r /\ row_envelope r = Some e) /\
  (forall k r, rl_rows w !! k = Some r -> is_Some (row_published r) -> row_envelope r = None -> poison = true) /\
  (forall i j b b' k, rl_batches w !! i = Some b -> rl_batches w !! j = Some b' ->
     k ∈ b_rows b -> k ∈ b_rows b' -> i = j) /\
  (forall created scan limit pub now i, (forall l, scan l ≡ₚ l) -> rl_batches w !! i = None ->
     exists w', relay_reach poison w' /\
       drained (drain poison created scan limit (held (rl_batches w)) pub now (rl_rows w)) w w').
Proof.
  intros Hr. pose proof (relay_reach_ok poison w Hr) as Hok. split_and!.
  - intros k r e Hk He Hp. destruct (marked_sent poison w k r e Hr Hk He Hp) as [Hin Hle]. split_and!; [done..|].
    intros Hf. assert (Hpos : (0 < occurs k (rl_stream w).*1)%nat)
      by (apply occurs_pos; exact (list_elem_of_fmap_2 fst _ _ Hin)).
    rewrite (relay_copies poison w k r e Hok Hk He), (occurs_zero _ _ Hf) in *. case_decide; lia.
  - intros k r e. by apply (relay_copies poison).
  - intros k r Hk Hp Hf. apply (ro_pending _ _ Hok); [|done]. intros (r' & Hr' & [t Ht] & _). congruence.
  - intros k e. by apply (ro_stream poison).
  - apply (ro_poison _ _ Hok).
  - apply (ro_apart _ _ Hok).
  - intros created scan limit pub now i Hs Hi.
    destruct (drain_run poison created scan limit pub now i w Hs Hi) as (w' & Hs' & Hd).
    exists w'. split; [by eapply relay_reach_rtc|done].
Qed.

(** ** Progress with the broker up *)

(** Successive drains by a single poller. *)
Fixpoint drains (n : nat) (d : nat -> list R -> Drained (E := E)) (rows : list R) : list R * list (nat * E) :=
  match n with
  | O => (rows, [])
  | S n =>
      let r := d n rows in
      let '(rows', sent) := drains n d (dr_rows r) in (rows', dr_sent r ++ sent)
  end.

(** The pending rows in order, and their messages. *)
Definition queue (rows : list R) : list (nat * R) := filter (fun p => row_published p.2 = None) (imap pair rows).
Definition messages (q : list (nat * R)) : list (nat * E) :=
  omap (fun p => e ← row_envelope p.2; Some (p.1, e)) q.
Definition malformed (q : list (nat * R)) : list (nat * R) := filter (fun p => row_envelope p.2 = None) q.

(** No other poller. *)
Definition alone (k : nat) : Prop := False.

Lemma pending_alone rows : pending_rows alone rows = queue rows.
Proof. unfold pending_rows, queue. apply list_filter_iff. intros p. unfold alone. tauto. Qed.

Lemma select_alone limit rows : select_pending alone limit rows = take limit (queue rows).
Proof. unfold select_pending. by rewrite pending_alone. Qed.

(** The pending rows by [created_at], ties in the order of [scan]. *)
Definition ordered (created : nat -> time) (scan : list (nat * R) -> list (nat * R)) (rows : list R) : list (nat * R) :=
  merge_sort (older created) (scan (queue rows)).

Lemma ordered_Permutation created scan rows : (forall l, scan l ≡ₚ l) -> ordered created scan rows ≡ₚ queue rows.
Proof. intros Hs. unfold ordered. by rewrite merge_sort_Permutation, Hs. Qed.

Lemma ordered_sorted created scan rows : StronglySorted (older created) (ordered created scan rows).
Proof.
  apply StronglySorted_merge_sort.
  - intros p q r Hpq Hqr. unfold older in *. lia.
  - intros p q. unfold older. lia.
Qed.

Lemma messages_app q1 q2 : messages (q1 ++ q2) = messages q1 ++ messages q2.
Proof. apply omap_app. Qed.

Lemma publish_rows_stored (pub : E -> pub_answer) q :
  (forall e, pub e = Accepted) -> publish_rows pub q = ((messages q).*1, messages q, false).
Proof.
  intros Hp. induction q as [|[k r] q IH]; [done|]. cbn [publish_rows]. unfold messages. cbn [omap list_omap snd fst].
  destruct (row_envelope r) as [e|]; cbn; [|exact IH]. rewrite Hp, IH. done.
Qed.

Lemma drain_rows_stored (pub : E -> pub_answer) q err :
  (forall e, pub e = Accepted) -> exists f, drain_rows pub q err = (q.*1, messages q, f).
Proof.
  intros Hp. revert err. induction q as [|[k r] q IH]; intros err; [by exists err|].
  cbn [drain_rows]. unfold messages. cbn [omap list_omap snd fst].
  destruct (row_envelope r) as [e|]; cbn.
  - rewrite Hp. destruct (IH err) as [f ->]. by exists f.
  - destruct (IH true) as [f ->]. by exists f.
Qed.

Lemma queue_NoDup (rows : list R) : NoDup (queue rows).*1.
Proof.
  apply (sublist_NoDup _ (seq 0 (length rows))); [apply NoDup_seq|].
  rewrite <- (imap_pair_fst rows). apply fmap_sublist, sublist_filter.
Qed.

Lemma queue_elem (rows : list R) k r : (k, r) ∈ queue rows <-> rows !! k = Some r /\ row_published r = None.
Proof. unfold queue. rewrite list_elem_of_filter, elem_imap_pair. cbn. tauto. Qed.

Lemma queue_mark now done (rows : list R) :
  queue (mark_rows now done rows) = filter (fun p => p.1 ∉ done) (queue rows).
Proof.
  unfold queue, mark_rows.
  assert (Em : forall f : nat -> R -> R, imap pair (imap f rows) = map (fun p => (p.1, f p.1 p.2)) (imap pair rows)).
  { intros f. apply list_eq. intros k. rewrite list_lookup_fmap, !list_lookup_imap. by destruct (rows !! k). }
  rewrite Em. clear Em. induction (imap pair rows) as [|[k r] l IH]; [done|]. cbn [map fst snd].
  rewrite !filter_cons. cbn [fst snd]. destruct (decide (k ∈ done)) as [Hk|Hk].
  - pose proof (row_published_mark now r) as Em'.
    destruct (decide (row_published (row_mark now r) = None)) as [E1|_]; [congruence|].
    rewrite IH. destruct (decide (row_published r = None)); [|done].
    rewrite filter_cons. by case_decide.
  - destruct (decide (row_published r = None)); [|exact IH]. rewrite filter_cons, IH.
    by case_decide.
Qed.

Lemma messages_fst_elem (q : list (nat * R)) k :
  k ∈ (messages q).*1 <-> exists r, (k, r) ∈ q /\ is_Some (row_envelope r).
Proof.
  unfold messages. split.
  - intros ((k' & e) & -> & ((j & r) & Hin & He)%list_elem_of_omap)%list_elem_of_fmap. cbn in He.
    destruct (row_envelope r) eqn:Er; [|done]. injection He as -> _. exists r. split; [done|by rewrite Er].
  - intros (r & Hin & e & He). apply list_elem_of_fmap. exists (k, e). split; [done|].
    apply list_elem_of_omap. exists (k, r). split; [done|]. cbn. by rewrite He.
Qed.

Lemma fst_unique (q : list (nat * R)) k r r' : NoDup q.*1 -> (k, r) ∈ q -> (k, r') ∈ q -> r = r'.
Proof.
  intros Hnd Hr Hr'. induction q as [|[k0 r0] q IH]; [by apply elem_of_nil in Hr|]. cbn in Hnd.
  apply NoDup_cons in Hnd as [Hn Hnd].
  assert (Hk : forall x, (k, x) ∈ q -> k0 <> k) by (intros x Hx ->; apply Hn; by apply (list_elem_of_fmap_2 fst) in Hx).
  apply elem_of_cons in Hr as [E1|Hr]; apply elem_of_cons in Hr' as [E2|Hr'].
  - congruence.
  - injection E1 as -> ->. by apply Hk in Hr'.
  - injection E2 as -> ->. by apply Hk in Hr.
  - by apply IH.
Qed.

Lemma filter_sent (t d : list (nat * R)) :
  NoDup (t ++ d).*1 -> filter (fun p => p.1 ∉ (messages t).*1) (t ++ d) = malformed t ++ d.
Proof.
  intros Hnd. rewrite filter_app. rewrite fmap_app in Hnd. apply NoDup_app in Hnd as (Ht & Hd & _). f_equal.
  - unfold malformed. apply filter_same.
    intros [k r] Hin. cbn. rewrite messages_fst_elem. split.
    + intros Hn. destruct (row_envelope r) eqn:Er; [|done]. exfalso. apply Hn. exists r. by rewrite Er.
    + intros Er (r' & Hin' & Hs). rewrite (fst_unique t k r' r Ht Hin' Hin), Er in Hs. by destruct Hs.
  - apply list_filter_id. intros [k r] Hin. cbn. rewrite messages_fst_elem. intros (r' & Hin' & _).
    apply (Hd k); [by apply (list_elem_of_fmap_2 fst) in Hin'|by apply (list_elem_of_fmap_2 fst) in Hin].
Qed.

Lemma filter_taken (t d : list (nat * R)) :
  NoDup (t ++ d).*1 -> filter (fun p => p.1 ∉ t.*1) (t ++ d) = d.
Proof.
  intros Hnd. rewrite fmap_app in Hnd. apply NoDup_app in Hnd as (_ & Hd & _). rewrite filter_app.
  rewrite list_filter_none by (intros p Hp Hn; apply Hn; by apply list_elem_of_fmap_2). cbn.
  apply list_filter_id. intros p Hp Hin. apply (Hd p.1 Hin). by apply list_elem_of_fmap_2.
Qed.

(** ** One drain with the broker up *)

Section Up.
Variable pub : E -> pub_answer.
Hypothesis up : forall e, pub e = Accepted.

Lemma drainOnce_up now (rows : list R) :
  let t := take batchSize (queue rows) in
  drainOnce alone pub now rows
  = mkDrained (Z.of_nat (length (messages t))) false (mark_rows now (messages t).*1 rows) (messages t).
Proof.
  cbn zeta. unfold drainOnce. rewrite select_alone. destruct (take batchSize (queue rows)) as [|p t] eqn:Et.
  - cbn. by rewrite mark_rows_nil.
  - rewrite publish_rows_stored by done. rewrite length_fmap. case_decide as Hd; [|done].
    by rewrite Hd, mark_rows_nil.
Qed.

Lemma DrainOutbox_up created scan now limit (rows : list R) :
  let t := take limit (ordered created scan rows) in
  exists f, DrainOutbox created scan alone pub now limit rows
            = mkDrained (Z.of_nat (length t)) f (mark_rows now t.*1 rows) (messages t).
Proof.
  cbn zeta. unfold DrainOutbox, select_created. rewrite pending_alone. fold (ordered created scan rows).
  destruct (drain_rows_stored pub (take limit (ordered created scan rows)) false up) as [f ->].
  exists f. by rewrite length_fmap.
Qed.

(** One drain moves the queue forward. *)
Lemma queue_drainOnce now (rows : list R) :
  queue (dr_rows (drainOnce alone pub now rows))
  = malformed (take batchSize (queue rows)) ++ drop batchSize (queue rows).
Proof.
  rewrite drainOnce_up. cbn [dr_rows]. rewrite queue_mark.
  pose proof (filter_sent (take batchSize (queue rows)) (drop batchSize (queue rows))) as F.
  rewrite take_drop in F. apply F, queue_NoDup.
Qed.

Lemma queue_DrainOutbox created scan now limit (rows : list R) :
  (forall l, scan l ≡ₚ l) ->
  queue (dr_rows (DrainOutbox created scan alone pub now limit rows)) ≡ₚ drop limit (ordered created scan rows).
Proof.
  intros Hs. destruct (DrainOutbox_up created scan now limit rows) as [f ->]. cbn [dr_rows]. rewrite queue_mark.
  pose proof (ordered_Permutation created scan rows Hs) as E0.
  pose proof (filter_taken (take limit (ordered created scan rows)) (drop limit (ordered created scan rows))) as F.
  rewrite take_drop in F. rewrite <- E0 at 1. rewrite F; [done|]. rewrite E0. apply queue_NoDup.
Qed.

Lemma messages_malformed (q : list (nat * R)) : messages (malformed q) = [].
Proof.
  unfold malformed, messages. induction q as [|[k r] q IH]; [done|]. rewrite filter_cons. cbn [snd].
  case_decide as Hn; [|exact IH]. cbn. by rewrite Hn.
Qed.

Lemma messages_length (q : list (nat * R)) : (length (messages q) + length (malformed q))%nat = length q.
Proof.
  unfold malformed, messages. induction q as [|[k r] q IH]; [done|]. rewrite filter_cons. cbn [snd omap list_omap fst].
  destruct (row_envelope r) as [e|]; cbn; [rewrite decide_False by done|rewrite decide_True by done]; cbn; lia.
Qed.

Lemma malformed_idem (q : list (nat * R)) : malformed (malformed q) = malformed q.
Proof. unfold malformed. apply list_filter_id. by intros p [? _]%list_elem_of_filter. Qed.

(** What the drains do to each row. *)
Definition row_after (only_wf : bool) (r r' : R) : Prop :=
  r' = r \/ (row_published r = None /\ (only_wf = true -> is_Some (row_envelope r)) /\ exists now, r' = row_mark now r).

Lemma row_after_trans only_wf r1 r2 r3 : row_after only_wf r1 r2 -> row_after only_wf r2 r3 -> row_after only_wf r1 r3.
Proof.
  intros [->|(H1 & H2 & now & ->)]; [done|]. intros [->|(H3 & _)]; [right; eauto|].
  rewrite row_published_mark in H3. done.
Qed.

Definition rows_after (only_wf : bool) (rows rows' : list R) : Prop :=
  length rows' = length rows /\
  forall k r, rows !! k = Some r -> exists r', rows' !! k = Some r' /\ row_after only_wf r r'.

Lemma rows_after_mark only_wf now (t : list nat) (rows : list R) :
  (forall k r, k ∈ t -> rows !! k = Some r -> row_published r = None /\ (only_wf = true -> is_Some (row_envelope r))) ->
  rows_after only_wf rows (mark_rows now t rows).
Proof.
  intros Ht. split; [apply mark_rows_length|]. intros k r Hk. rewrite mark_rows_lookup, Hk. eexists. split; [done|].
  case_decide as Hd; [|by left]. right. destruct (Ht k r Hd Hk). eauto.
Qed.

Lemma rows_after_refl only_wf rows : rows_after only_wf rows rows.
Proof. split; [done|]. intros k r Hk. exists r. split; [done|by left]. Qed.

Lemma rows_after_trans only_wf rows1 rows2 rows3 :
  rows_after only_wf rows1 rows2 -> rows_after only_wf rows2 rows3 -> rows_after only_wf rows1 rows3.
Proof.
  intros [L1 A1] [L2 A2]. split; [congruence|]. intros k r Hk. destruct (A1 k r Hk) as (r2 & Hk2 & H1).
  destruct (A2 k r2 Hk2) as (r3 & Hk3 & H2). eauto using row_after_trans.
Qed.

Lemma rows_after_drainOnce now (rows : list R) : rows_after true rows (dr_rows (drainOnce alone pub now rows)).
Proof.
  rewrite drainOnce_up. cbn [dr_rows]. apply rows_after_mark. intros k r (r' & Hin & Hs)%messages_fst_elem Hk.
  apply elem_of_take in Hin as (i & Hin%list_elem_of_lookup_2%queue_elem & _).
  destruct Hin as [Hr Hp]. assert (r' = r) as -> by congruence. done.
Qed.

Lemma rows_after_DrainOutbox created scan now limit (rows : list R) :
  (forall l, scan l ≡ₚ l) ->
  rows_after false rows (dr_rows (DrainOutbox created scan alone pub now limit rows)).
Proof.
  intros Hs. destruct (DrainOutbox_up created scan now limit rows) as [f ->]. cbn [dr_rows]. apply rows_after_mark.
  intros k r ((k' & r') & -> & Hin)%list_elem_of_fmap Hk.
  apply elem_of_take in Hin as (i & Hin%list_elem_of_lookup_2 & _).
  rewrite (ordered_Permutation created scan rows Hs) in Hin. apply queue_elem in Hin as [Hr Hp]. cbn in *. by assert (r' = r) as -> by congruence.
Qed.

Lemma queue_length (rows : list R) : (length (queue rows) <= length rows)%nat.
Proof. unfold queue. etransitivity; [apply length_filter|]. by rewrite length_imap. Qed.

Lemma drains_drainOnce now n : forall rows,
  (length (messages (queue rows)) <= n)%nat -> (length (malformed (queue rows)) < batchSize)%nat ->
  let '(rows', sent) := drains n (fun i => drainOnce alone pub (now i)) rows in
  sent = messages (queue rows) /\ messages (queue rows') = [] /\ rows_after true rows rows'.
Proof.
  induction n as [|n IH]; intros rows Hn Hm; cbn [drains].
  - assert (E0 : messages (queue rows) = []) by (apply nil_length_inv; lia). rewrite E0. split_and!; [done..|apply rows_after_refl].
  - set (d := drainOnce alone pub (now n) rows).
    assert (Eq : queue (dr_rows d) = malformed (take batchSize (queue rows)) ++ drop batchSize (queue rows))
      by apply queue_drainOnce.
    assert (Es : dr_sent d = messages (take batchSize (queue rows))) by (unfold d; by rewrite drainOnce_up).
    assert (Em : messages (queue (dr_rows d)) = messages (drop batchSize (queue rows)))
      by (rewrite Eq, messages_app, messages_malformed; done).
    assert (Ef : malformed (queue (dr_rows d)) = malformed (queue rows)).
    { rewrite Eq. unfold malformed at 1. rewrite filter_app. fold (malformed (malformed (take batchSize (queue rows)))).
      rewrite malformed_idem. rewrite <- (take_drop batchSize (queue rows)) at 3. unfold malformed. by rewrite filter_app. }
    assert (Ea : messages (queue rows) = dr_sent d ++ messages (queue (dr_rows d)))
      by (rewrite Es, Em, <- messages_app, take_drop; done).
    specialize (IH (dr_rows d)). destruct (drains n _ (dr_rows d)) as [rows' sent].
    destruct IH as (-> & E0 & Ha).
    + (* a drain sends something while there is something to send *)
      rewrite Ea, length_app in Hn.
      destruct (decide (length (queue rows) <= batchSize)%nat) as [Hle|Hgt].
      { rewrite Em, drop_ge by lia. cbn. lia. }
      assert (0 < length (dr_sent d))%nat; [|lia]. rewrite Es.
      pose proof (messages_length (take batchSize (queue rows))) as HL. rewrite length_take in HL.
      assert (length (malformed (take batchSize (queue rows))) <= length (malformed (queue rows)))%nat; [|lia].
      rewrite <- (take_drop batchSize (queue rows)) at 2. unfold malformed. rewrite filter_app, length_app. lia.
    + by rewrite Ef.
    + split; [by rewrite Ea|]. split; [done|]. eapply rows_after_trans; [|exact Ha]. by apply rows_after_drainOnce.
Qed.

(** The messages of the queue, each once, oldest [created_at] first. *)
Definition by_creation (created : nat -> time) (rows : list R) (sent : list (nat * E)) : Prop :=
  exists q, q ≡ₚ queue rows /\ StronglySorted (older created) q /\ sent = messages q.

Lemma drains_DrainOutbox created (scan : nat -> list (nat * R) -> list (nat * R)) now limit n :
  (forall i l, scan i l ≡ₚ l) -> (0 < limit)%nat -> forall rows,
  (length (queue rows) <= n)%nat ->
  let '(rows', sent) := drains n (fun i => DrainOutbox created (scan i) alone pub (now i) limit) rows in
  by_creation created rows sent /\ queue rows' = [] /\ rows_after false rows rows'.
Proof.
  intros Hs Hl. induction n as [|n IH]; intros rows Hn; cbn [drains].
  - assert (E0 : queue rows = []) by (apply nil_length_inv; lia).
    split_and!; [|done|apply rows_after_refl]. exists []. rewrite E0. split_and!; [done|constructor|done].
  - set (d := DrainOutbox created (scan n) alone pub (now n) limit rows).
    pose proof (queue_DrainOutbox created (scan n) (now n) limit rows (Hs n)) as Eq. fold d in Eq.
    pose proof (ordered_Permutation created (scan n) rows (Hs n)) as Ep.
    pose proof (ordered_sorted created (scan n) rows) as So.
    assert (Es : dr_sent d = messages (take limit (ordered created (scan n) rows)))
      by (unfold d; by destruct (DrainOutbox_up created (scan n) (now n) limit rows) as [f ->]).
    rewrite <- (take_drop limit (ordered created (scan n) rows)) in Ep, So.
    specialize (IH (dr_rows d)). destruct (drains n _ (dr_rows d)) as [rows' sent].
    destruct IH as ((q & Hq & Hsq & ->) & E0 & Ha).
    + rewrite Eq, length_drop. rewrite take_drop in Ep. rewrite Ep. lia.
    + split_and!; [|done|eapply rows_after_trans; [|exact Ha]; by apply rows_after_DrainOutbox].
      exists (take limit (ordered created (scan n) rows) ++ q). rewrite Es, messages_app.
      split_and!; [by rewrite Hq, Eq| |done].
      apply StronglySorted_app in So as (Hc & Ht & _). apply StronglySorted_app_2; [|done..].
      intros x y Hx Hy. apply Hc; [done|]. by rewrite <- Eq, <- Hq.
Qed.
End Up.

Lemma publish_rows_malformed (pub : E -> pub_answer) q :
  Forall (fun p => row_envelope p.2 = None) q -> publish_rows pub q = ([], [], false).
Proof. induction 1 as [|[k r] q Hr _ IH]; [done|]. cbn in *. by rewrite Hr. Qed.

(** C21: the queue moves while the broker answers, unless it is wedged. With the
    broker up and a single poller, as many drains as there are rows hand every
    pending message to the broker, once each, and mark exactly their rows: those
    of the ledger and identity in the order of the ids, provided fewer than
    [batchSize] pending rows are malformed; those of reconciliation in the order
    of [created_at], rows of one instant in any order, with the malformed rows
    marked too and the queue left empty. When the first [batchSize] pending rows
    of [drainOnce] are malformed, no drain sends anything, now or after any
    insertion. *)
Theorem drains_progress (pub : E -> pub_answer) (now : nat -> time) (rows : list R) :
  (forall e, pub e = Accepted) ->
  ((length (malformed (queue rows)) < batchSize)%nat ->
   let '(rows', sent) := drains (length rows) (fun i => drainOnce alone pub (now i)) rows in
   sent = messages (queue rows) /\ messages (queue rows') = [] /\ rows_after true rows rows') /\
  ((batchSize <= length (queue rows))%nat ->
   Forall (fun p => row_envelope p.2 = None) (take batchSize (queue rows)) ->
   forall new pub' t, drainOnce alone pub' t (rows ++ new) = mkDrained 0 false (rows ++ new) []) /\
  (forall created (scan : nat -> list (nat * R) -> list (nat * R)) limit,
   (forall i l, scan i l ≡ₚ l) -> (0 < limit)%nat ->
   let '(rows', sent) := drains (length rows) (fun i => DrainOutbox created (scan i) alone pub (now i) limit) rows in
   (exists q, q ≡ₚ queue rows /\ StronglySorted (older created) q /\ sent = messages q) /\
   queue rows' = [] /\ rows_after false rows rows').
Proof.
  intros up. split_and!.
  - intros Hm. apply drains_drainOnce; [done| |done].
    pose proof (messages_length (queue rows)). pose proof (queue_length rows). lia.
  - intros Hl Hall new pub' t. unfold drainOnce. rewrite select_alone.
    assert (Eq : take batchSize (queue (rows ++ new)) = take batchSize (queue rows)).
    { unfold queue. rewrite imap_app, filter_app, take_app_le; [done|exact Hl]. }
    rewrite Eq. destruct (take batchSize (queue rows)) as [|p q]; [done|]. by rewrite publish_rows_malformed.
  - intros created scan limit Hs Hl. apply drains_DrainOutbox; [done..|apply queue_length].
Qed.
End Runs.

(** ** The outboxes of identity and reconciliation

    The tables the pollers of the other two services drain, the loops that
    drain them, and what the services put in their outbox reaching the stream. *)

(** [json.Unmarshal] gives back the envelopes both services marshal. *)
#[export] Program Instance identity_outbox : OutboxTable IdOutboxRow (Envelope TenantExpiredPayload) := {|
  msg_id := env_ID;
  row_published := io_PublishedAt;
  row_envelope := fun r => Some (io_Envelope r);
  row_mark := fun t r => mkIdOutbox (io_TenantID r) (io_Topic r) (io_Envelope r) (Some t) |}.
Solve All Obligations with done.

#[export] Program Instance reconciliation_outbox : OutboxTable ReconOutboxRow (Envelope discrepancyDetectedPayload) := {|
  msg_id := env_ID;
  row_published := ro_PublishedAt;
  row_envelope := fun r => Some (ro_Envelope r);
  row_mark := fun t r => mkReconOutbox (ro_Envelope r) (Some t) |}.
Solve All Obligations with done.

(** [outbox.DefaultBatchSize] of reconciliation. *)
Definition RunBatchSize : nat := 100.

Section Loops.
Context {R E : Type} `{OutboxTable R E}.
Variables (pub : E -> pub_answer) (now : nat -> time).

(** [Poller.Run] of the ledger and of identity over [ticks] ticks: what one
    tick leaves unpublished the next retries. *)
Definition PollerRun (ticks : nat) (rows : list R) : list R * list (nat * E) :=
  drains ticks (fun i => drainOnce alone pub (now i)) rows.

(** [outbox.Run] of reconciliation. *)
Definition ReconRun_ (created : nat -> time) (scan : nat -> list (nat * R) -> list (nat * R)) (ticks : nat)
  (rows : list R) : list R * list (nat * E) :=
  drains ticks (fun i => DrainOutbox created (scan i) alone pub (now i) RunBatchSize) rows.

Hypothesis up : forall e, pub e = Accepted.
Hypothesis marshalled : forall r : R, is_Some (row_envelope r).

Lemma malformed_marshalled (q : list (nat * R)) : malformed q = [].
Proof. apply list_filter_none. intros [k r] _. cbn. destruct (marshalled r) as [e ->]. done. Qed.

(** Tables whose rows were marshalled by the service are never wedged. *)
Lemma PollerRun_empties rows :
  let '(rows', sent) := PollerRun (length rows) rows in
  sent = messages (queue rows) /\ messages (queue rows') = [] /\ rows_after true rows rows'.
Proof.
  apply drains_drainOnce; [done| |].
  - pose proof (messages_length (queue rows)). pose proof (queue_length rows). lia.
  - rewrite malformed_marshalled. unfold batchSize. cbn. lia.
Qed.

Lemma ReconRun_empties created scan rows :
  (forall i l, scan i l ≡ₚ l) ->
  let '(rows', sent) := ReconRun_ created scan (length rows) rows in
  by_creation created rows sent /\ queue rows' = [] /\ rows_after false rows rows'.
Proof. intros Hs. apply drains_DrainOutbox; [done..|unfold RunBatchSize; lia|apply queue_length]. Qed.
End Loops.

(** Every announcement of an expired tenant, and every discrepancy, is handed to
    the broker after as many ticks as there are rows. *)
Lemma identity_announcements_sent pub now (db : IdentityDB) k r :
  (forall e, pub e = Accepted) -> id_outbox db !! k = Some r -> io_PublishedAt r = None ->
  (k, io_Envelope r) ∈ (PollerRun pub now (length (id_outbox db)) (id_outbox db)).2.
Proof.
  intros up Hk Hp. pose proof (PollerRun_empties pub now up ltac:(by eexists) (id_outbox db)) as Hr.
  destruct (PollerRun _ _ _ _) as [rows' sent]. destruct Hr as [-> _]. apply list_elem_of_omap.
  exists (k, r). split; [|done]. by apply queue_elem.
Qed.

Lemma discrepancies_sent pub now created scan (db : ReconDB) k r :
  (forall e, pub e = Accepted) -> (forall i l, scan i l ≡ₚ l) ->
  recon_outbox db !! k = Some r -> ro_PublishedAt r = None ->
  (k, ro_Envelope r) ∈ (ReconRun_ pub now created scan (length (recon_outbox db)) (recon_outbox db)).2.
Proof.
  intros up Hs Hk Hp. pose proof (ReconRun_empties pub now up created scan (recon_outbox db) Hs) as Hr.
  destruct (ReconRun_ _ _ _ _ _ _) as [rows' sent]. destruct Hr as [(q & Hq & _ & ->) _]. apply list_elem_of_omap.
  exists (k, r). split; [|done]. rewrite Hq. by apply queue_elem.
Qed.
