(* ===== verification/EventStream.v ===== *)
(** * The event stream: [libs/go/events/nats.go] and the durable consumers

    The one JetStream stream all services share: how a publisher makes sure it
    exists with the canonical subjects, how an envelope is published, and which
    durable consumers of which service read which topic. JetStream itself is a
    class; the laws of it the theorems use are a class of their own. *)

From Stdlib Require Import Ascii String ZArith Lia.
From S2P Require Import Prelude Strconv Errors LedgerDomain LedgerEvents Signature Webhooks.
Local Open Scope string_scope.
Local Open Scope list_scope.

(** ** The stream *)

Definition StreamName : string := "LEDGERCORE".
Definition streamSubjects : list string := ["ledger.>"; "recon.>"; "identity.>"].

(** The topics of [events.go]. *)
Definition topics : list string :=
  [TopicTransactionPosted; TopicTransactionReversed; TopicHoldCreated; TopicHoldCaptured; TopicHoldReleased;
   TopicDiscrepancyDetected; TopicTenantExpired].

Inductive js_error : Type := ErrStreamNotFound | js_other.

(** A message as it is published; [msg_Id] is the header JetStream deduplicates
    by. *)
Record Message : Type := mkMessage { msg_Subject : string; msg_Id : string; msg_Data : bytes }.

(** JetStream over the states [B] of a server: the context of a connection, the
    subjects of a stream, and what the calls of the code do. [covers] says
    whether the filter of a stream or consumer takes a subject. *)
Class JetStream (B : Type) : Type := {
  JetStreamContext : B -> result js_error unit;
  StreamInfo : string -> B -> result js_error (list string);
  AddStream : string -> list string -> B -> result js_error unit * B;
  UpdateStream : string -> list string -> B -> result js_error unit * B;
  js_Publish : Message -> B -> result js_error unit * B;
  covers : string -> string -> bool }.

Definition wildcard_free (subject : string) : bool :=
  forallb (fun c => negb (bool_decide (c = "*"%char) || bool_decide (c = ">"%char))) (list_ascii_of_string subject).

(** What JetStream documents of them: a stream has the subjects it was last
    given, a filter without wildcards takes itself, and [p.>] takes what lies
    below [p]. *)
Class JetStreamLaws (B : Type) `{JetStream B} : Prop := {
  AddStream_ok name subjects b b' :
    AddStream name subjects b = (Ok tt, b') -> StreamInfo name b' = Ok subjects;
  UpdateStream_ok name subjects b b' :
    UpdateStream name subjects b = (Ok tt, b') -> StreamInfo name b' = Ok subjects;
  covers_literal filter subject :
    wildcard_free filter = true -> covers filter subject = bool_decide (filter = subject);
  covers_below p subject :
    wildcard_free p = true ->
    covers (p +:+ ".>") subject =
      String.prefix (p +:+ ".") subject && (String.length p + 1 <? String.length subject)%nat }.

(** [sameSubjects], over the set of the elements of [a]. *)
Definition sameSubjects (a b : list string) : bool :=
  let set : gset string := list_to_set a in
  bool_decide (length a = length b) && forallb (fun s => bool_decide (s ∈ set)) b.

Section Publisher.
Context {B : Type} `{JetStream B}.

(** [NewNATSPublisher]: creates the stream, or gives it the canonical
    subjects. *)
Definition NewNATSPublisher (b : B) : result js_error unit * B :=
  match JetStreamContext b with
  | Err e => (Err e, b)
  | Ok _ =>
      match StreamInfo StreamName b with
      | Err ErrStreamNotFound => AddStream StreamName streamSubjects b
      | Err e => (Err e, b)
      | Ok subjects =>
          if sameSubjects subjects streamSubjects then (Ok tt, b)
          else UpdateStream StreamName streamSubjects b
      end
  end.

(** [NATSPublisher.Publish], [Marshal] being [json.Marshal] of an envelope. *)
Definition Publish {D} `{Render} (Marshal : Envelope D -> option bytes) (env : Envelope D) (b : B)
  : result js_error unit * B :=
  match Marshal env with
  | None => (Err js_other, b)
  | Some body => js_Publish (mkMessage (env_Type env) (uuid_String (env_ID env)) body) b
  end.
End Publisher.

(** ** The durable consumers *)

Record consumer : Type := mkConsumer { cs_Durable : string; cs_Filter : string }.

(** [events.SubscribeTenantExpired] under a name. *)
Definition tenant_expired_consumer (durable : string) : consumer := mkConsumer durable TopicTenantExpired.

Definition PurgeDurable : string := "ledger-purge".
Definition ledger_consumers : list consumer := [tenant_expired_consumer PurgeDurable].

Definition DurableName : string := "recon-mirror".
Definition recon_Durable : string := "recon-purge".
Definition recon_consumers : list consumer :=
  [mkConsumer DurableName TopicTransactionPosted; tenant_expired_consumer recon_Durable].

Definition subscriptionSpecs : list consumer :=
  [mkConsumer "webhooks-ledger" "ledger.>"; mkConsumer "webhooks-recon" "recon.>"].
Definition wh_Durable : string := "webhooks-purge".
Definition wh_consumers : list consumer := subscriptionSpecs ++ [tenant_expired_consumer wh_Durable].

Definition consumers : list consumer := ledger_consumers ++ recon_consumers ++ wh_consumers.

(** The consumers that get a message of a topic. *)
Definition readers {B} `{JetStream B} (topic : string) : list string :=
  map cs_Durable (List.filter (fun c => covers (cs_Filter c) topic) consumers).

(** ** What is proved *)

Lemma sameSubjects_spec a b : sameSubjects a b = true <-> length a = length b /\ forall s, s ∈ b -> s ∈ a.
Proof.
  unfold sameSubjects. rewrite andb_true_iff, bool_decide_eq_true, forallb_forall.
  split; (intros [Hl Hs]; split; [done|]); intros s Hin.
  - specialize (Hs s (proj1 (list_elem_of_In _ _) Hin)). by apply bool_decide_eq_true, elem_of_list_to_set in Hs.
  - apply bool_decide_eq_true, elem_of_list_to_set, Hs. by apply list_elem_of_In.
Qed.

(** Against a list without duplicates, the test is equality up to order. *)
Lemma sameSubjects_permutation a b : NoDup b -> sameSubjects a b = true <-> a ≡ₚ b.
Proof.
  intros Hb. rewrite sameSubjects_spec. split.
  - intros [Hl Hs]. symmetry. apply submseteq_length_Permutation; [by apply NoDup_submseteq|lia].
  - intros Hp. split; [by apply Permutation_length|]. intros s. by rewrite Hp.
Qed.

Lemma streamSubjects_NoDup : NoDup streamSubjects.
Proof. by apply (bool_decide_unpack (NoDup streamSubjects)). Qed.

Section Routes.
Context {B : Type} `{JetStreamLaws B}.

(** Decides which filters take a topic. *)
Ltac routed :=
  rewrite ?(covers_below (B := B) "ledger"), ?(covers_below (B := B) "recon"), ?(covers_below (B := B) "identity")
    by reflexivity; rewrite ?(covers_literal (B := B)) by reflexivity.

Lemma readers_of topic :
  readers topic =
    (if decide (topic = TopicTenantExpired) then [PurgeDurable] else []) ++
    (if decide (topic = TopicTransactionPosted) then [DurableName] else []) ++
    (if decide (topic = TopicTenantExpired) then [recon_Durable] else []) ++
    (if covers "ledger.>" topic then ["webhooks-ledger"] else []) ++
    (if covers "recon.>" topic then ["webhooks-recon"] else []) ++
    (if decide (topic = TopicTenantExpired) then [wh_Durable] else []).
Proof.
  unfold readers. cbn [consumers ledger_consumers recon_consumers wh_consumers subscriptionSpecs app List.filter
    tenant_expired_consumer cs_Filter].
  rewrite !(covers_literal TopicTenantExpired), !(covers_literal TopicTransactionPosted) by reflexivity.
  unfold bool_decide. repeat case_decide; subst; try congruence;
    destruct (covers "ledger.>" _), (covers "recon.>" _); reflexivity.
Qed.

Lemma stream_takes topic : topic ∈ topics -> exists s, s ∈ streamSubjects /\ covers s topic = true.
Proof.
  intros Ht. assert (Hc : covers "ledger.>" topic || covers "recon.>" topic || covers "identity.>" topic = true).
  { routed. revert topic Ht. apply Forall_forall. repeat (apply Forall_cons_2; [reflexivity|]). apply Forall_nil_2. }
  apply orb_true_iff in Hc as [[Hc|Hc]%orb_true_iff|Hc]; eexists; (split; [|exact Hc]); set_solver.
Qed.

(** C30: every event has its stream and its readers. A publisher that is made
    leaves the stream with the canonical subjects, up to order, and does not
    touch a stream that has them; every topic of the platform falls under one of
    them, so whatever is published is stored. No two consumers share a durable
    name. A posted transaction is read by the mirror and by webhooks; the other
    ledger events and detected discrepancies by webhooks alone; the expiry of a
    tenant by the purge of each of the three services and by nothing else. Every
    event type a webhook subscription can name is read by exactly one consumer
    of webhooks. *)
Theorem stream_routes :
  (forall b b', NewNATSPublisher b = (Ok tt, b') ->
     exists subjects, StreamInfo StreamName b' = Ok subjects /\ subjects ≡ₚ streamSubjects /\
       forall topic, topic ∈ topics -> exists s, s ∈ subjects /\ covers s topic = true) /\
  (forall b subjects, StreamInfo StreamName b = Ok subjects -> subjects ≡ₚ streamSubjects ->
     (NewNATSPublisher b).2 = b) /\
  NoDup (map cs_Durable consumers) /\
  readers TopicTransactionPosted = [DurableName; "webhooks-ledger"] /\
  (forall topic, topic ∈ [TopicTransactionReversed; TopicHoldCreated; TopicHoldCaptured; TopicHoldReleased] ->
     readers topic = ["webhooks-ledger"]) /\
  readers TopicDiscrepancyDetected = ["webhooks-recon"] /\
  readers TopicTenantExpired = [PurgeDurable; recon_Durable; wh_Durable] /\
  (forall t, t ∈ KnownEventTypes ->
     t ∈ topics /\ length (filter (fun c => covers (cs_Filter c) t = true) wh_consumers) = 1%nat).
Proof.
  split_and!.
  - intros b b' Hn. assert (Hs : exists subjects, StreamInfo StreamName b' = Ok subjects /\ subjects ≡ₚ streamSubjects).
    { unfold NewNATSPublisher in Hn. destruct (JetStreamContext b); [|done].
      destruct (StreamInfo StreamName b) as [subjects|[]] eqn:Ei; [|by apply AddStream_ok in Hn; eauto|done].
      destruct (sameSubjects subjects streamSubjects) eqn:Es; [|by apply UpdateStream_ok in Hn; eauto].
      injection Hn as <-. exists subjects. split; [done|].
      by apply sameSubjects_permutation in Es; [|apply streamSubjects_NoDup]. }
    destruct Hs as (subjects & Hi & Hp). exists subjects. split_and!; [done|done|].
    intros topic (s & Hin & Hc)%stream_takes. exists s. by rewrite Hp.
  - intros b subjects Hi Hp. unfold NewNATSPublisher. destruct (JetStreamContext b); [|done]. rewrite Hi.
    by rewrite (proj2 (sameSubjects_permutation _ _ streamSubjects_NoDup) Hp).
  - by apply (bool_decide_unpack (NoDup (map cs_Durable consumers))).
  - rewrite readers_of. routed. reflexivity.
  - apply Forall_forall. repeat apply Forall_cons_2; [..|apply Forall_nil_2]; rewrite readers_of; routed; reflexivity.
  - rewrite readers_of. routed. reflexivity.
  - rewrite readers_of. routed. reflexivity.
  - apply Forall_forall. repeat apply Forall_cons_2; [..|apply Forall_nil_2]; (split; [set_solver|]); unfold wh_consumers;
      cbn [subscriptionSpecs app]; rewrite !filter_cons, filter_nil; cbn [cs_Filter tenant_expired_consumer]; routed;
      reflexivity.
Qed.
End Routes.

(** ** A server *)

(** One stream, absent or with its subjects; the filters as documented. *)
#[local] Instance demo_stream : JetStream (option (list string)) := {|
  JetStreamContext := fun _ => Ok tt;
  StreamInfo := fun _ b => match b with Some subjects => Ok subjects | None => Err ErrStreamNotFound end;
  AddStream := fun _ subjects _ => (Ok tt, Some subjects);
  UpdateStream := fun _ subjects _ => (Ok tt, Some subjects);
  js_Publish := fun _ b => (Ok tt, b);
  covers := fun filter subject =>
    if wildcard_free filter then bool_decide (filter = subject)
    else let p := String.substring 0 (String.length filter - 2) filter in
         String.prefix (p +:+ ".") subject && (String.length p + 1 <? String.length subject)%nat |}.

Lemma string_length_app a b : String.length (a +:+ b) = (String.length a + String.length b)%nat.
Proof. induction a as [|c a IH]; [done|]. exact (f_equal S IH). Qed.
Lemma substring_app a b : String.substring 0 (String.length a) (a +:+ b) = a.
Proof. induction a as [|c a IH]; [by destruct b|]. exact (f_equal (String c) IH). Qed.
Lemma wildcard_app a : wildcard_free (a +:+ ".>") = false.
Proof.
  induction a as [|c a IH]; [done|]. unfold wildcard_free in *.
  change (String c a +:+ ".>") with (String c (a +:+ ".>")). cbn. by rewrite IH, andb_false_r.
Qed.

#[local] Instance demo_stream_laws : JetStreamLaws (option (list string)).
Proof.
  split.
  - by intros name subjects b b' [= <-].
  - by intros name subjects b b' [= <-].
  - intros filter subject Hw. cbn. by rewrite Hw.
  - intros p subject _. unfold covers, demo_stream. rewrite wildcard_app, string_length_app.
    replace (String.length p + String.length ".>" - 2)%nat with (String.length p) by (cbn; lia).
    by rewrite substring_app.
Qed.

(** A stream made before [identity] announced anything gets its subject. *)
Lemma stream_routes_witness : exists b' subjects,
  NewNATSPublisher (Some ["recon.>"; "ledger.>"]) = (Ok tt, b') /\ StreamInfo StreamName b' = Ok subjects /\
  exists s, s ∈ subjects /\ covers s TopicTenantExpired = true.
Proof.
  destruct (stream_routes (B := option (list string))) as (Hn & _).
  destruct (Hn (Some ["recon.>"; "ledger.>"]) (Some streamSubjects) eq_refl) as (subjects & Hi & _ & Ht).
  exists (Some streamSubjects), subjects. split; [reflexivity|]. split; [exact Hi|].
  apply Ht. vm_compute. do 6 right. left.
Defined.
