(* ===== verification/LedgerAnnounce.v ===== *)
(** * What the ledger announces

    The content of the outbox against the tables: an event of
    [ledger.transaction.posted] describes a posted transaction and its postings,
    in every reachable state, and no other envelope carries that type. *)

From Stdlib Require Import Ascii String ZArith Lia.
From S2P Require Import Prelude Strconv Errors Money LedgerDomain LedgerEvents LedgerDb Httpx.
From S2P Require Import LedgerStore LedgerReports LedgerService LedgerSpec LedgerInv.
From S2P Require Import LedgerBalance LedgerLinks LedgerRefine LedgerTheorems LedgerGuarantees.
Local Open Scope Z_scope.

(** The transaction [t0] of an event, as the tables hold it. *)
Definition posted_as (db : DB) (t0 : Transaction) (at_ : time) : Prop :=
  exists t, transactions db !! t_ID t0 = Some t /\
    t_TenantID t = t_TenantID t0 /\ t_IdempotencyKey t = t_IdempotencyKey t0 /\
    t_ReversesID t = None /\ is_firm (t_Status t) = true /\ t_PostedAt t = Some at_ /\
    Permutation (t_Postings t0) (map posting_of_row (rows_of db (t_ID t0))).

Definition announces (db : DB) (env : Envelope payload) : Prop :=
  match env_Data env with
  | PTransactionPosted e =>
      env_Type env = TopicTransactionPosted /\ env_TenantID env <> uuid_Nil /\
      exists t0 at_, e = NewTransactionPostedEvent t0 at_ /\ t_TenantID t0 = env_TenantID env /\ posted_as db t0 at_
  | _ => env_Type env <> TopicTransactionPosted
  end.

Definition outbox_announces (db : DB) : Prop := Forall (fun r => announces db (ob_Envelope r)) (outbox db).

Lemma firm_forward t t' : tx_forward t t' -> is_firm (t_Status t) = true -> lifecycle_wf t' -> is_firm (t_Status t') = true.
Proof.
  intros (_ & Hr & _) Hf Hl. unfold lifecycle_wf in Hl.
  destruct (t_Status t), (t_Status t'); cbn in *; try done; lia.
Qed.

Lemma posted_as_persists db db' t0 at_ :
  persists db db' -> wf db' -> posted_as db t0 at_ -> posted_as db' t0 at_.
Proof.
  intros P W (t & Ht & E1 & E2 & E3 & Hf & Hp & Hperm).
  destruct (pe_transactions _ _ P _ _ Ht) as (t' & Ht' & F). exists t'. split; [done|].
  pose proof F as (E & _ & HP & _). destruct (wf_transactions _ W _ _ Ht') as (_ & _ & Hl & _).
  split_and!.
  - by rewrite E.
  - by rewrite E.
  - by rewrite E.
  - by eapply firm_forward.
  - rewrite HP; [done|]. by rewrite Hp.
  - rewrite (pe_rows _ _ P); [done|]. by exists t.
Qed.

Lemma announces_persists db db' env : persists db db' -> wf db' -> announces db env -> announces db' env.
Proof.
  intros P W. unfold announces. destruct (env_Data env); [|done..].
  intros (? & ? & t0 & at_ & ? & ? & ?). split_and!; [done..|]. exists t0, at_. eauto using posted_as_persists.
Qed.

Lemma posting_row_back t ps : map posting_of_row (map (posting_row t) ps) = ps.
Proof. rewrite map_map. rewrite <- (map_id ps) at 2. apply map_ext. by intros [? ? ? []]. Qed.

(** The row a change appends announces the state it leads to. *)
Lemma announces_change tenant db db' :
  tenant <> uuid_Nil -> change tenant db db' -> wf db -> outbox_announces db -> outbox_announces db'.
Proof.
  intros Hnil C W A. pose proof (persists_change _ _ _ C W) as P. pose proof (wf_change _ _ _ C W) as W'.
  assert (A' : Forall (fun r => announces db' (ob_Envelope r)) (outbox db)).
  { eapply Forall_impl; [exact A|]. intros r. by apply announces_persists. }
  assert (new_row : forall ev, outbox db' = outbox db ++ [ev] -> announces db' (ob_Envelope ev) -> outbox_announces db').
  { intros ev E Hev. unfold outbox_announces. rewrite E. apply Forall_app. split; [done|]. by constructor. }
  destruct C as [| |t l m hash Ht Hs Hpa Hrb Hrv Hl Hlt Hlegs Hfr HB
                |t l m hash ev at_ Ht Hs Hpa Hrb Hrv Hl Hlt Hlegs Hfr HB Hlen Hev
                |id0 t m now ev Hid Ht Hs HB Hev
                |id0 t rev m hash reason now ev Hid Ht Hs Hrb Hrt Hrl Hrs Hrp Hrr Hri Hm Hfr HB Hlen Hev
                |h a m hash ev Ht Hs Hf Ha Hat Hal Hu Hav Hk HB Hlen Hev
                |id0 r status captured m topic data ev Hid Ht Hs Hst Hc HB Hcl Hev].
  - exact A'.
  - exact A'.
  - unfold outbox_announces. cbn. by rewrite app_nil_r.
  - destruct Hev as (eid & enow & ->). eapply new_row; [done|]. cbn.
    split_and!; [done..|]. exists t, at_. split_and!; [done..|]. exists (transaction_row t).
    split_and!; [cbn; by rewrite lookup_insert_eq|done|done|done|cbn; by rewrite Hs|done|].
    erewrite rows_of_record; [|exact W|apply Hfr|reflexivity]. by rewrite decide_True, posting_row_back.
  - destruct Hev as (eid & enow & ->). eapply new_row; [done|].
    destruct (wf_transactions _ W _ _ Hid) as (Eid & _ & Hlc & _). unfold lifecycle_wf in Hlc. rewrite Hs in Hlc.
    cbn. split_and!; [done..|].
    exists (set_lifecycle (with_postings t (loadPostings tenant id0 db)) TransactionPosted (Some now) (t_ReversedByID t)), now.
    split_and!; [done..|]. exists (set_lifecycle t TransactionPosted (Some now) (t_ReversedByID t)).
    split_and!; [cbn; by rewrite Eid, lookup_insert_eq|done|done|apply Hlc|done|done|].
    cbn. rewrite Eid. by eapply loadPostings_perm.
  - destruct Hev as (eid & enow & ->). by eapply new_row.
  - destruct Hev as (eid & enow & ->). by eapply new_row.
  - destruct Hev as (eid & enow & ->). eapply new_row; [done|].
    destruct Hcl as [(_ & -> & ? & ? & ? & ->)|(_ & -> & ? & ->)]; done.
Qed.

Section Histories.
Context `{Render, Digest}.

Lemma WithTenantTx_nil {A} (fn : Tx A) ids now db : WithTenantTx uuid_Nil fn ids now db = Err ErrOther.
Proof. done. Qed.

(** A request without a tenant changes nothing. *)
Lemma exec_nil seen r ids now db resp db' :
  request_wf r -> exec seen uuid_Nil r ids now db = Ok (resp, db') -> db' = db.
Proof.
  intros Hwf Hrun. destruct r as [i|i|i|id|id i|i|id i|id]; cbn [exec] in Hrun.
  - apply bind_ok in Hrun as ([l d] & H1 & [= _ <-]). unfold svc_CreateLedger in H1.
    destruct (bad_name _); [done|]. apply bind_ok in H1 as ([id ids'] & _ & H1).
    by apply bind_ok in H1 as ([u d'] & H1 & [= _ <-]).
  - apply bind_ok in Hrun as ([a d] & H1 & [= _ <-]). unfold svc_CreateAccount in H1.
    destruct (bad_name _); [done|]. destruct (negb _); [done|]. destruct (negb _); [done|].
    destruct (_ =? _); [done|]. apply bind_ok in H1 as ([id ids'] & _ & H1).
    by apply bind_ok in H1 as ([u d'] & H1 & [= _ <-]).
  - apply bind_ok in Hrun as ([[t b] d] & H1 & [= _ <-]).
    apply svc_CreateTransaction_ok in H1 as (t0 & ids' & _ & E & _ & H1); [|done].
    unfold CreateTransaction in H1. rewrite E in H1. done.
  - by apply bind_ok in Hrun as ([t d] & H1 & [= _ <-]).
  - apply bind_ok in Hrun as ([[t b] d] & H1 & [= _ <-]). unfold svc_ReverseTransaction in H1.
    destruct (255 <? _); [done|]. by destruct (1024 <? _).
  - apply bind_ok in Hrun as ([[h b] d] & H1 & [= _ <-]).
    apply svc_CreateHold_ok in H1 as (h0 & ids' & _ & E & _ & _ & _ & _ & H1); [|done].
    unfold CreateHold in H1. rewrite E in H1. done.
  - apply bind_ok in Hrun as ([h d] & H1 & [= _ <-]). unfold svc_CaptureHold in H1. by pass_guard H1.
  - by apply bind_ok in Hrun as ([h d] & H1 & [= _ <-]).
Qed.

Lemma history_announces hs db : history hs -> db ∈ hs -> outbox_announces db.
Proof.
  intros Hh. revert db. induction Hh as [|db past seen tenant r ids now resp db' Hh IH _ Hwf Hrun]; intros d Hd.
  - apply list_elem_of_singleton in Hd as ->. constructor.
  - apply elem_of_cons in Hd as [->|Hd]; [|by apply IH].
    assert (I : Inv db) by (eapply history_elem; [exact Hh|by left]).
    destruct (exec_change _ _ _ _ _ _ _ _ I Hwf Hrun) as [-> | Hc]; [by apply IH; left|].
    destruct (decide (tenant = uuid_Nil)) as [->|Hn].
    + apply exec_nil in Hrun as ->; [by apply IH; left|done].
    + eapply announces_change; [exact Hn|exact Hc|apply I|by apply IH; left].
Qed.
End Histories.
