(* ===== verification/ReconMirror.v ===== *)
(** * The mirror consumer: [adapters/natsconsumer/consumer.go], and frames

    It turns [ledger.transaction.posted] events into mirror entries. Encoding
    and decoding JSON keeps the fields of a payload by their tags, so a message
    is its decoded envelope, absent when decoding fails. The second part frames
    programs: what a use case leaves alone, as that only the consumer writes the
    mirror. *)

From Stdlib Require Import Ascii String ZArith Lia.
From S2P Require Import Prelude Strconv Errors Money LedgerDomain LedgerEvents Httpx Recon ReconMatch.
From S2P Require Import TxMonad ReconStore ReconRun ReconInv.
Local Open Scope Z_scope.

Record moneyPayload : Type := mkMoneyPayload { mo_Asset : string; mo_Amount : string }.
Record postingPayload : Type := mkPostingPayload {
  po_AccountID : uuid; po_Direction : string; po_Amount : moneyPayload }.
Record transactionPostedPayload : Type := mkPostedPayload {
  tp_TransactionID : uuid; tp_LedgerID : uuid; tp_IdempotencyKey : string; tp_Description : string;
  tp_Postings : list postingPayload; tp_Metadata : metadata; tp_PostedAt : time }.

(** [uuid.NewSHA1] of the uuid package. *)
Class UuidV5 : Type := { NewSHA1 : uuid -> string -> uuid }.

(** What the broker is told about a message. *)
Inductive ack : Type := Ack | Nak | Term.

Section Consumer.
Context `{Supply, Render, UuidV5}.

Definition postingNamespace : uuid := 0xa2c1f0b48d3e4f6a9b7c1e5d2a8c4f60.

Definition posting_name (transactionID : uuid) (index : nat) : string :=
  "ledgercore:posting:" +:+ uuid_String transactionID +:+ "#" +:+ FormatInt (Z.of_nat index).

Definition PostingID (transactionID : uuid) (index : nat) : uuid :=
  NewSHA1 postingNamespace (posting_name transactionID index).

(** The loop over the postings; [None] when an amount is not an integer. *)
Fixpoint mirror_entries_of (tenantID : uuid) (payload : transactionPostedPayload) (i : nat)
  (ps : list postingPayload) : option (list MirrorEntry) :=
  match ps with
  | [] => Some []
  | p :: rest =>
      units ← ParseInt (mo_Amount (po_Amount p));
      entries ← mirror_entries_of tenantID payload (S i) rest;
      Some (mkMirror (PostingID (tp_TransactionID payload) i) tenantID (tp_TransactionID payload)
              (po_AccountID p) (po_Direction p) units (mo_Asset (po_Amount p))
              (tp_IdempotencyKey payload) (tp_PostedAt payload) :: entries)
  end.

(** [handle]: the acknowledgement and the database left behind. *)
Definition handle (msg : option (Envelope (option transactionPostedPayload)))
  (st : UseState ReconDB) : ack * ReconDB :=
  match msg with
  | None => (Term, u_db st)
  | Some env =>
      if negb (bool_decide (env_Type env = TopicTransactionPosted)) then (Ack, u_db st)
      else if env_TenantID env =? uuid_Nil then (Term, u_db st)
      else
        match env_Data env with
        | None => (Term, u_db st)
        | Some payload =>
            match mirror_entries_of (env_TenantID env) payload 0 (tp_Postings payload) with
            | None => (Term, u_db st)
            | Some entries =>
                match InsertMirrorEntries (env_TenantID env) entries st with
                | Ok (_, st') => (Ack, u_db st')
                | Err _ => (Nak, u_db st)
                end
            end
        end
  end.

(** ** The wire *)

(** The ledger's payload as the consumer decodes it: same tags, field by field. *)
Definition wire (e : TransactionPostedEvent) : transactionPostedPayload :=
  {| tp_TransactionID := tpe_TransactionID e; tp_LedgerID := tpe_LedgerID e;
     tp_IdempotencyKey := tpe_IdempotencyKey e; tp_Description := tpe_Description e;
     tp_Postings := map (fun p => mkPostingPayload (ep_AccountID p) (ep_Direction p)
                          (mkMoneyPayload (em_Asset (ep_Amount p)) (em_Amount (ep_Amount p))))
                      (tpe_Postings e);
     tp_Metadata := tpe_Metadata e; tp_PostedAt := tpe_PostedAt e |}.

Definition wire_envelope (env : Envelope payload) : Envelope (option transactionPostedPayload) :=
  mkEnvelope (env_ID env) (env_Type env) (env_TenantID env) (env_OccurredAt env) (env_Version env)
    (match env_Data env with PTransactionPosted e => Some (wire e) | _ => None end).

(** The mirror entry of the [i]-th posting of a transaction. *)
Definition entry_for (t : Transaction) (postedAt : time) (i : nat) (p : Posting) : MirrorEntry :=
  mkMirror (PostingID (t_ID t) i) (t_TenantID t) (t_ID t) (p_AccountID p)
    (Direction_string (p_Direction p)) (Units (p_Amount p)) (Asset (p_Amount p))
    (t_IdempotencyKey t) postedAt.

(** ** Inserting a batch *)

Definition add_entry (m : gmap uuid MirrorEntry) (e : MirrorEntry) : gmap uuid MirrorEntry :=
  match m !! m_ID e with Some _ => m | None => <[m_ID e := e]> m end.

Definition entry_valid (tenant : uuid) (e : MirrorEntry) : Prop :=
  m_TenantID e = tenant /\ (m_Direction e = dir_debit \/ m_Direction e = dir_credit).

Lemma insert_mirror_valid tenant e (st : UseState ReconDB) :
  entry_valid tenant e ->
  insert_mirror tenant e st
  = Ok (tt, mkUse (set_mirror (add_entry (mirror (u_db st)) e) (u_db st)) (u_v7 st) (u_v4 st) (u_clock st)).
Proof.
  intros [Ht Hd]. unfold insert_mirror, owned, require.
  rewrite (bool_decide_eq_true_2 _ Ht), (bool_decide_eq_true_2 _ Hd).
  destruct st as [[? ? ? entries ? ? ?] ? ? ?]. unfold add_entry.
  unfold mbind, Use_bind, mret, Use_ret, write. simpl. destruct (entries !! m_ID e); reflexivity.
Qed.

Lemma insert_mirror_inv tenant e (st : UseState ReconDB) u st' :
  insert_mirror tenant e st = Ok (u, st') -> entry_valid tenant e.
Proof. unfold insert_mirror, owned. intros Hr. inv_use Hr. by split. Qed.

Lemma insert_batch_valid tenant es (st : UseState ReconDB) :
  Forall (entry_valid tenant) es ->
  each es (insert_mirror tenant) st
  = Ok (tt, mkUse (set_mirror (fold_left add_entry es (mirror (u_db st))) (u_db st))
              (u_v7 st) (u_v4 st) (u_clock st)).
Proof.
  intros Hall. revert st. induction Hall as [|e es He _ IH]; intros st; cbn [each fold_left].
  - by destruct st as [[] ? ? ?].
  - unfold mbind, Use_bind. rewrite insert_mirror_valid by done. by rewrite IH.
Qed.

Lemma insert_batch_inv tenant es (st : UseState ReconDB) u st' :
  each es (insert_mirror tenant) st = Ok (u, st') -> Forall (entry_valid tenant) es.
Proof.
  revert st. induction es as [|e es IH]; intros st Hr; [constructor|]. cbn [each] in Hr.
  apply use_bind_ok in Hr as (v & st1 & He%insert_mirror_inv & Hr). constructor; eauto.
Qed.

Lemma add_entry_keeps es m id e : m !! id = Some e -> fold_left add_entry es m !! id = Some e.
Proof.
  revert m. induction es as [|e0 es IH]; intros m Hm; [done|]. cbn [fold_left]. apply IH.
  unfold add_entry. destruct (m !! m_ID e0) eqn:E; [done|]. rewrite lookup_insert_ne; congruence.
Qed.

Lemma add_entry_other es m id : id ∉ map m_ID es -> fold_left add_entry es m !! id = m !! id.
Proof.
  revert m. induction es as [|e0 es IH]; intros m Hn; [done|]. cbn [fold_left map] in *.
  rewrite IH by set_solver. unfold add_entry. destruct (m !! m_ID e0); [done|].
  apply lookup_insert_ne. set_solver.
Qed.

Lemma add_entry_new es m e :
  NoDup (map m_ID es) -> (forall e, e ∈ es -> m !! m_ID e = None) -> e ∈ es ->
  fold_left add_entry es m !! m_ID e = Some e.
Proof.
  revert m. induction es as [|e0 es IH]; intros m Hnd Hf He; [set_solver|]. cbn [fold_left map] in *.
  apply NoDup_cons in Hnd as [Hn Hnd]. unfold add_entry at 2. rewrite (Hf e0) by set_solver.
  apply elem_of_cons in He as [->|He].
  - apply add_entry_keeps, lookup_insert_eq.
  - apply IH; [done| |done]. intros e' He'. rewrite lookup_insert_ne; [apply Hf; set_solver|].
    intros Heq. apply Hn. rewrite Heq. by apply (list_elem_of_fmap_2 m_ID).
Qed.

Lemma add_entry_present es m : (forall e, e ∈ es -> is_Some (m !! m_ID e)) -> fold_left add_entry es m = m.
Proof.
  induction es as [|e0 es IH]; intros Hp; [done|]. cbn [fold_left]. unfold add_entry at 2.
  destruct (Hp e0) as [e' ->]; [set_solver|]. apply IH. set_solver.
Qed.

Lemma add_entry_all es m e : e ∈ es -> is_Some (fold_left add_entry es m !! m_ID e).
Proof.
  revert m. induction es as [|e0 es IH]; intros m He; [set_solver|]. cbn [fold_left].
  apply elem_of_cons in He as [->|He]; [|by apply IH].
  destruct (m !! m_ID e0) as [e1|] eqn:E.
  - exists e1. apply add_entry_keeps. unfold add_entry. by rewrite E.
  - exists e0. apply add_entry_keeps. unfold add_entry. rewrite E. apply lookup_insert_eq.
Qed.

(** Handling an event whose entries are valid stores them all. *)
Lemma handle_entries env es (st : UseState ReconDB) :
  env_Type env = TopicTransactionPosted -> env_TenantID env <> uuid_Nil ->
  Forall (entry_valid (env_TenantID env)) es ->
  (exists payload, env_Data env = Some payload /\
     mirror_entries_of (env_TenantID env) payload 0 (tp_Postings payload) = Some es) ->
  handle (Some env) st = (Ack, set_mirror (fold_left add_entry es (mirror (u_db st))) (u_db st)).
Proof.
  intros Hty Hnil Hv (payload & Hd & He). unfold handle.
  rewrite (bool_decide_eq_true_2 _ Hty), (proj2 (Z.eqb_neq _ _) Hnil), Hd, He. cbn [negb].
  unfold InsertMirrorEntries, within. destruct es as [|e0 es'].
  - unfold mret, Use_ret. by destruct st as [[] ? ? ?].
  - unfold mbind, Use_bind, require. rewrite (proj2 (Z.eqb_neq _ _) Hnil). cbn [negb mret Use_ret].
    by rewrite insert_batch_valid.
Qed.

(** ** Redelivery *)

(** Redeliveries are harmless. Once a message was acknowledged, handling it
    again in any later state that still has the mirror entries of the first
    handling - they are never updated - acknowledges it and changes nothing. *)
Theorem handle_redelivery msg st1 db1 st2 :
  handle msg st1 = (Ack, db1) ->
  (forall id e, mirror db1 !! id = Some e -> mirror (u_db st2) !! id = Some e) ->
  handle msg st2 = (Ack, u_db st2).
Proof.
  unfold handle. destruct msg as [env|]; [|done].
  destruct (negb _); [done|]. destruct (env_TenantID env =? uuid_Nil) eqn:En; [done|].
  destruct (env_Data env) as [payload|]; [|done].
  destruct (mirror_entries_of _ _ _ _) as [es|]; [|done].
  unfold InsertMirrorEntries, within. destruct es as [|e0 es']; [done|]. set (es := e0 :: es').
  unfold mbind, Use_bind, require. rewrite En. cbn [negb mret Use_ret].
  destruct (each es (insert_mirror (env_TenantID env)) st1) as [[u st1']|e] eqn:E1; [|done].
  intros [= <-] Hm. apply insert_batch_inv in E1 as Hv.
  rewrite insert_batch_valid in E1 by done. injection E1 as _ <-. cbn [u_db mirror set_mirror] in Hm.
  rewrite insert_batch_valid by done. rewrite add_entry_present.
  - by destruct st2 as [[] ? ? ?].
  - intros e He. destruct (add_entry_all es (mirror (u_db st1)) e He) as [e' He'].
    exists e'. by apply Hm.
Qed.

(** ** The mirror of a posted transaction *)

Lemma FormatInt_inj a b :
  in_int64 a = true -> in_int64 b = true -> FormatInt a = FormatInt b -> a = b.
Proof. intros Ha%ParseInt_FormatInt_aux Hb%ParseInt_FormatInt_aux E. rewrite E in Ha. congruence. Qed.

Lemma string_app_inj (p a b : string) : (p +:+ a) = (p +:+ b) -> a = b.
Proof. induction p as [|c p IH]; cbn; [done|]. intros [= E]. by apply IH. Qed.

(** No collision of SHA-1 among the names of the first [n] postings. *)
Definition names_apart (id : uuid) (n : nat) : Prop :=
  forall i j, (i < n)%nat -> (j < n)%nat -> PostingID id i = PostingID id j ->
    posting_name id i = posting_name id j.

Lemma PostingID_inj id n i j :
  names_apart id n -> (i < n)%nat -> (j < n)%nat -> Z.of_nat n <= max_int64 ->
  PostingID id i = PostingID id j -> i = j.
Proof.
  intros Hinj Hi Hj Hn E%Hinj; [|done..]. unfold posting_name in E. do 3 apply string_app_inj in E.
  apply FormatInt_inj in E; [lia|apply in_int64_spec; unfold64; lia..].
Qed.

Lemma entries_of_event t postedAt ps i :
  Forall (fun p => in_int64 (Units (p_Amount p)) = true) ps ->
  mirror_entries_of (t_TenantID t) (wire (NewTransactionPostedEvent t postedAt)) i
    (map (fun p => mkPostingPayload (ep_AccountID p) (ep_Direction p)
                     (mkMoneyPayload (em_Asset (ep_Amount p)) (em_Amount (ep_Amount p))))
       (map (fun p => mkEventPosting (p_AccountID p) (Direction_string (p_Direction p))
                        (NewEventMoney (p_Amount p))) ps))
  = Some (imap (fun j p => entry_for t postedAt (i + j) p) ps).
Proof.
  intros Hall. revert i. induction Hall as [|p ps Hp _ IH]; intros i; [done|].
  cbn [map mirror_entries_of mo_Amount po_Amount em_Amount ep_Amount NewEventMoney].
  rewrite ParseInt_FormatInt_aux by done. cbn [mbind option_bind]. rewrite IH. cbn [mbind option_bind imap].
  rewrite Nat.add_0_r. do 2 f_equal. apply imap_ext. intros j q _. cbn. by rewrite Nat.add_succ_r.
Qed.

Lemma batch_ids t postedAt n ps :
  names_apart (t_ID t) n -> (length ps <= n)%nat -> Z.of_nat n <= max_int64 ->
  NoDup (map m_ID (imap (entry_for t postedAt) ps)).
Proof.
  intros Hinj Hl Hn. apply NoDup_alt. intros i j id Hi Hj.
  rewrite list_lookup_fmap, list_lookup_imap in Hi, Hj.
  destruct (ps !! i) as [p|] eqn:Ei; [|done]. destruct (ps !! j) as [q|] eqn:Ej; [|done].
  cbn in Hi, Hj. apply lookup_lt_Some in Ei, Ej.
  apply (PostingID_inj (t_ID t) n); [done|lia|lia|done|congruence].
Qed.

(** A transaction the ledger posts: amounts of 64 bits, the two directions. *)
Definition mirrorable (p : Posting) : Prop :=
  in_int64 (Units (p_Amount p)) = true /\ Direction_Valid (p_Direction p) = true.

Lemma entries_valid t postedAt ps :
  Forall mirrorable ps -> Forall (entry_valid (t_TenantID t)) (imap (entry_for t postedAt) ps).
Proof.
  intros Hps. apply Forall_lookup. intros i e He. rewrite list_lookup_imap in He.
  destruct (ps !! i) as [p|] eqn:Ei; [|done]. injection He as <-.
  eapply Forall_lookup in Hps as [_ Hd]; [|done]. split; [done|]. cbn.
  destruct (p_Direction p); [by left|by right|done].
Qed.

(** The mirror holds what the ledger posted. Handling the envelope the
    ledger publishes for a posted transaction acknowledges it and stores, for
    its [i]-th posting, one entry with the deterministic id and exactly the
    transaction's account, direction, amount, asset and idempotency key; every
    other entry stays as it was. *)
Theorem handle_posted t postedAt env (st : UseState ReconDB) :
  env_Type env = TopicTransactionPosted ->
  env_TenantID env = t_TenantID t -> t_TenantID t <> uuid_Nil ->
  env_Data env = PTransactionPosted (NewTransactionPostedEvent t postedAt) ->
  Forall mirrorable (t_Postings t) ->
  Z.of_nat (length (t_Postings t)) <= max_int64 ->
  names_apart (t_ID t) (length (t_Postings t)) ->
  (forall i, (i < length (t_Postings t))%nat -> mirror (u_db st) !! PostingID (t_ID t) i = None) ->
  exists m', handle (Some (wire_envelope env)) st = (Ack, set_mirror m' (u_db st)) /\
    (forall i p, t_Postings t !! i = Some p ->
       m' !! PostingID (t_ID t) i = Some (entry_for t postedAt i p)) /\
    (forall id, (forall i, (i < length (t_Postings t))%nat -> id <> PostingID (t_ID t) i) ->
       m' !! id = mirror (u_db st) !! id).
Proof.
  intros Hty Hte Hnil Hdata Hps Hlen Hinj Hfresh. set (es := imap (entry_for t postedAt) (t_Postings t)).
  exists (fold_left add_entry es (mirror (u_db st))).
  assert (Hlook : forall i e, es !! i = Some e ->
    exists p, t_Postings t !! i = Some p /\ e = entry_for t postedAt i p).
  { intros i e He. unfold es in He. rewrite list_lookup_imap in He.
    destruct (t_Postings t !! i); [|done]. injection He as <-. eauto. }
  assert (Hsome : forall e, e ∈ es -> exists i, (i < length (t_Postings t))%nat /\ m_ID e = PostingID (t_ID t) i).
  { intros e (i & (p & Hp & ->)%Hlook)%list_elem_of_lookup. exists i.
    split; [by eapply lookup_lt_Some|done]. }
  split_and!.
  - apply handle_entries; change (env_TenantID (wire_envelope env)) with (env_TenantID env);
      rewrite ?Hte; [done|done|by apply entries_valid|].
    exists (wire (NewTransactionPostedEvent t postedAt)). split; [cbn; by rewrite Hdata|].
    apply (entries_of_event t postedAt (t_Postings t) 0).
    eapply Forall_impl; [exact Hps|]. by intros p [].
  - intros i p Hp. change (PostingID (t_ID t) i) with (m_ID (entry_for t postedAt i p)).
    apply add_entry_new; [by eapply batch_ids| |].
    + intros e (j & Hj & ->)%Hsome. by apply Hfresh.
    + apply list_elem_of_lookup. exists i. unfold es. by rewrite list_lookup_imap, Hp.
  - intros id Hid. apply add_entry_other. intros (e & -> & (i & Hi & He)%Hsome)%list_elem_of_fmap.
    by apply (Hid i Hi).
Qed.
End Consumer.

(** ** A concrete event *)

Definition mirror_supply : Supply := {| v4_at := fun n => 9000 + Z.of_nat n; clock_at := Z.of_nat |}.
#[local] Existing Instance mirror_supply.
Definition mirror_render : Render := {| uuid_String := FormatInt; rfc3339nano := FormatInt |}.
#[local] Existing Instance mirror_render.
(** A hash without collisions on short names. *)
Definition mirror_uuid5 : UuidV5 :=
  {| NewSHA1 := fun ns s => fold_left (fun h c => 256 * h + Z.of_nat (nat_of_ascii c)) (list_ascii_of_string s) ns |}.
#[local] Existing Instance mirror_uuid5.

Definition posted_transaction : Transaction :=
  {| t_ID := 10; t_LedgerID := 1; t_TenantID := 7; t_IdempotencyKey := "k1"; t_Reference := "r";
     t_Description := ""; t_Status := TransactionPosted; t_EffectiveAt := 5;
     t_EffectiveAtProvided := false; t_PostedAt := Some 6; t_ReversedByID := None; t_ReversesID := None;
     t_CreatedAt := 5;
     t_Postings := [mkPosting 11 2 DirectionDebit (mkAmount "USD" 500);
                    mkPosting 12 3 DirectionCredit (mkAmount "USD" 500)];
     t_Metadata := None |}.

Definition posted_envelope : Envelope payload :=
  mkEnvelope 30 TopicTransactionPosted 7 6 1
    (PTransactionPosted (NewTransactionPostedEvent posted_transaction 6)).

Definition mirror_start : UseState ReconDB := mkUse empty_recon [] 0 0.

Lemma handle_redelivery_witness : exists db,
  handle (Some (wire_envelope posted_envelope)) mirror_start = (Ack, db) /\
  handle (Some (wire_envelope posted_envelope)) (mkUse db [] 0 0) = (Ack, db).
Proof.
  destruct (handle (Some (wire_envelope posted_envelope)) mirror_start) as [a db] eqn:E.
  assert (Ha : a = Ack) by (change a with (fst (a, db)); rewrite <- E; vm_compute; reflexivity). subst a.
  exists db. split; [reflexivity|].
  exact (handle_redelivery _ _ _ (mkUse db [] 0 0) E (fun id e H => H)).
Defined.

Lemma handle_posted_witness : exists db,
  handle (Some (wire_envelope posted_envelope)) mirror_start = (Ack, db) /\
  mirror db !! PostingID 10 1
  = Some (mkMirror (PostingID 10 1) 7 10 3 "CREDIT" 500 "USD" "k1" 6).
Proof.
  destruct (handle_posted posted_transaction 6 posted_envelope mirror_start) as (m & Hh & Hm & _).
  - reflexivity.
  - reflexivity.
  - discriminate.
  - reflexivity.
  - repeat constructor.
  - discriminate.
  - intros i j Hi Hj. cbn in Hi, Hj.
    destruct i as [|[|i]], j as [|[|j]]; try lia; vm_compute; congruence.
  - intros i _. apply lookup_empty.
  - exists (set_mirror m empty_recon). split; [exact Hh|].
    exact (Hm 1%nat (mkPosting 12 3 DirectionCredit (mkAmount "USD" 500)) eq_refl).
Defined.

(** ** What a use case leaves alone

    [keeps pi m]: a successful run of [m] does not change the part [pi] of the
    tables. Programs are framed by their structure; the hint database [frame]
    does it. The mirror is written by the consumer of ledger events only. *)

Section Frame.
Context {S X : Type} `{Supply} (pi : S -> X).

Definition keeps {A} (m : Use S A) : Prop :=
  forall st a st', m st = Ok (a, st') -> pi (u_db st') = pi (u_db st).

Lemma keeps_ret {A} (a : A) : keeps (mret a).
Proof. by intros st b st' [-> ->]%use_ret_ok. Qed.
Lemma keeps_fail {A} e : keeps (fail (A := A) e).
Proof. done. Qed.
Lemma keeps_bind {A B} (m : Use S A) (f : A -> Use S B) : keeps m -> (forall a, keeps (f a)) -> keeps (m ≫= f).
Proof. intros Hm Hf st b st' (a & st1 & Ha & Hb)%use_bind_ok. rewrite (Hf a _ _ _ Hb). by eapply Hm. Qed.
Lemma keeps_require b e : keeps (require b e).
Proof. unfold require. destruct b; [apply keeps_ret|apply keeps_fail]. Qed.
Lemma keeps_read : keeps read.
Proof. by intros st a st' [-> ->]%read_ok. Qed.
Lemma keeps_write f : (forall db, pi (f db) = pi db) -> keeps (write f).
Proof. intros Hf st a st' ->%write_ok. apply Hf. Qed.
Lemma keeps_now : keeps now.
Proof. by intros st a st' [= <- <-]. Qed.
Lemma keeps_newV4 : keeps newV4.
Proof. by intros st a st' [= <- <-]. Qed.
Lemma keeps_newV7 : keeps newV7.
Proof. intros st a st' ([id ids] & _ & [= <- <-])%bind_ok. done. Qed.
Lemma keeps_newV7_or_V4 : keeps newV7_or_V4.
Proof. intros st a st' Hr. unfold newV7_or_V4 in Hr. destruct (u_v7 st); [by apply keeps_newV4 in Hr|by apply keeps_newV7 in Hr]. Qed.
Lemma keeps_envelope {D} topic tenant (d : D) : keeps (envelope topic tenant d).
Proof. intros st a st' ([id ids] & _ & [= <- <-])%bind_ok. done. Qed.
Lemma keeps_each {A} (l : list A) f : (forall a, keeps (f a)) -> keeps (each l f).
Proof. intros Hf. induction l as [|a l IH]; cbn [each]; [apply keeps_ret|]. by apply keeps_bind. Qed.
Lemma keeps_collect {A B} (l : list A) (f : A -> Use S B) : (forall a, keeps (f a)) -> keeps (collect_each l f).
Proof.
  intros Hf. induction l as [|a l IH]; cbn [collect_each]; [apply keeps_ret|].
  apply keeps_bind; [done|]. intros b. apply keeps_bind; [done|]. intros bs. apply keeps_ret.
Qed.
End Frame.

Create HintDb frame.
#[export] Hint Resolve keeps_ret keeps_fail keeps_require keeps_read keeps_now keeps_newV4 keeps_newV7
  keeps_newV7_or_V4 keeps_envelope : frame.

(** Frames a program by its structure. *)
Ltac frame :=
  repeat match goal with
  | |- keeps _ (_ ≫= _) => apply keeps_bind; [|intros ?]
  | |- keeps _ (each _ _) => apply keeps_each; intros ?
  | |- keeps _ (collect_each _ _) => apply keeps_collect; intros ?
  | |- keeps _ (write _) => apply keeps_write; intros ?
  | |- keeps _ (if ?b then _ else _) => destruct b
  | |- keeps _ (match ?x with _ => _ end) => destruct x
  | |- keeps _ (within _ _) => unfold within
  | |- keeps _ (let _ := _ in _) => cbv zeta
  | |- keeps _ _ => solve [eauto with frame]
  | |- _ (match ?x with _ => _ end) = _ => destruct x
  | |- _ = _ => reflexivity
  end.

Section Mirror.
Context `{Supply, Render}.

Lemma keeps_update_external tenant id f : keeps mirror (update_external tenant id f).
Proof. unfold update_external. frame. Qed.
Lemma keeps_InsertImport tenant imp : keeps mirror (InsertImport tenant imp).
Proof. unfold InsertImport, owned, require_fresh. frame. Qed.
Lemma keeps_InsertExternals tenant txs : keeps mirror (InsertExternalTransactions tenant txs).
Proof. unfold InsertExternalTransactions, insert_external, owned, require_fresh. frame. Qed.
Lemma keeps_record_finding tenant run f : keeps mirror (record_finding tenant run f).
Proof.
  unfold record_finding, MarkExternalDisputed, discrepancyFromFinding, InsertDiscrepancy, discrepancyEnvelope,
    InsertOutboxEnvelope, owned, require_fresh. frame; apply keeps_update_external.
Qed.

(** Only the consumer of ledger events writes the mirror. *)
Lemma recon_exec_mirror tenant rq :
  match rq with RqMirror _ => True | _ => keeps mirror (recon_exec tenant rq) end.
Proof.
  destruct rq; [| | | |done]; cbn [recon_exec]; apply keeps_bind; try (intros ?; apply keeps_ret).
  - unfold CreateSource, InsertSource, owned, require_fresh. frame.
  - unfold ImportStatement, GetSource. frame; first [apply keeps_InsertImport|apply keeps_InsertExternals].
  - unfold StartRun, GetSource, InsertRun, UpdateRun, owned, require_fresh, ListUnmatchedExternals, ListMirrorEntries,
      record_match, MarkExternalMatched. frame; first [apply keeps_update_external|apply keeps_record_finding].
  - unfold svc_UpdateDiscrepancy, GetDiscrepancy, UpdateDiscrepancy_. frame.
Qed.
End Mirror.
