(* ===== verification/Pipeline.v ===== *)
(** * From the ledger to the mirror

    The ledger, its outbox, the pollers, the stream and the reconciliation
    service composed: requests to either service, poller steps and deliveries,
    repeated or not, interleave in any order. The mirror follows the ledger. *)

From Stdlib Require Import Ascii String ZArith Lia.
From S2P Require Import Prelude Strconv Errors Money LedgerDomain LedgerEvents LedgerDb Httpx LedgerStore.
From S2P Require Import LedgerReports LedgerService LedgerSpec LedgerInv LedgerBalance.
From S2P Require Import LedgerLinks LedgerRefine LedgerTheorems LedgerGuarantees LedgerAnnounce TxMonad.
From S2P Require Import Recon ReconStore ReconInv ReconMirror Outbox OutboxRelay OutboxDrain.
From S2P Require Import LedgerWitnesses.
Local Open Scope Z_scope.

(** The outbox of the ledger: [insertOutbox] stores the JSON of an envelope,
    which [json.Unmarshal] gives back. *)
#[export] Program Instance ledger_outbox : OutboxTable OutboxRow (Envelope payload) := {|
  msg_id := env_ID;
  row_published := ob_PublishedAt;
  row_envelope := fun r => Some (ob_Envelope r);
  row_mark := fun t r => mkOutboxRow (ob_TenantID r) (ob_Topic r) (ob_Envelope r) (Some t) |}.
Solve All Obligations with done.

Record Pipeline : Type := mkPipe {
  pp_history : list DB; pp_relay : Relay OutboxRow (Envelope payload); pp_recon : ReconDB; pp_delivered : list nat }.

(** The current tables of the ledger. *)
Definition pp_db (w : Pipeline) : DB := default empty_db (head (pp_history w)).

Definition append_rows (new : list OutboxRow) (r : Relay OutboxRow (Envelope payload)) :=
  mkRelay (rl_rows r ++ new) (rl_batches r) (rl_broker r) (rl_lost r).

Definition envelopes (db : DB) : list (Envelope payload) := map ob_Envelope (outbox db).

(** The ids of the events: fresh UUIDs, so never repeated. *)
Definition event_ids (db : DB) : list uuid := map env_ID (envelopes db).

Section Pipeline.
Context `{Render, Digest, UuidV5, Supply}.

(** [pp_delivered] lists the rows whose message was acknowledged. *)
Inductive pipe_step (w : Pipeline) : Pipeline -> Prop :=
| pipe_ledger db' new :
    history (db' :: pp_history w) -> outbox db' = outbox (pp_db w) ++ new -> NoDup (event_ids db') ->
    pipe_step w (mkPipe (db' :: pp_history w) (append_rows new (pp_relay w)) (pp_recon w) (pp_delivered w))
| pipe_poller r' :
    relay_step false (pp_relay w) r' -> length (rl_rows r') = length (rl_rows (pp_relay w)) ->
    pipe_step w (mkPipe (pp_history w) r' (pp_recon w) (pp_delivered w))
| pipe_deliver k env st a db' :
    (k, env) ∈ rl_stream (pp_relay w) -> u_db st = pp_recon w ->
    handle (Some (wire_envelope env)) st = (a, db') ->
    pipe_step w (mkPipe (pp_history w) (pp_relay w) db'
                   (match a with Ack => k :: pp_delivered w | _ => pp_delivered w end))
| pipe_recon tenant rq st st' :
    (forall entries, rq <> RqMirror entries) -> u_db st = pp_recon w -> recon_exec tenant rq st = Ok (tt, st') ->
    pipe_step w (mkPipe (pp_history w) (pp_relay w) (u_db st') (pp_delivered w)).

Definition pipe_start : Pipeline := mkPipe [empty_db] relay_start empty_recon [].

Inductive pipe_reach : Pipeline -> Prop :=
| pipe_init : pipe_reach pipe_start
| pipe_next w w' : pipe_reach w -> pipe_step w w' -> pipe_reach w'.

(** ** The entries of an envelope *)

(** What the consumer makes of an envelope. *)
Definition entries_of (env : Envelope payload) : list MirrorEntry :=
  match env_Data env with
  | PTransactionPosted e =>
      default [] (mirror_entries_of (env_TenantID env) (wire e) 0 (tp_Postings (wire e)))
  | _ => []
  end.

Lemma posting_row_mirrorable db t0 at_ : wf db -> posted_as db t0 at_ -> Forall mirrorable (t_Postings t0).
Proof.
  intros W (t & _ & _ & _ & _ & _ & _ & Hp). apply Forall_forall. intros p Hin. rewrite Hp in Hin.
  apply list_elem_of_fmap in Hin as (r & -> & [_ Hr]%list_elem_of_filter).
  destruct (wf_postings _ W r Hr) as (Ha & Hd & _). split; [|done]. cbn. apply in_int64_spec. unfold64. unfold max_int64 in Ha. lia.
Qed.

(** Handling an announced envelope: always acknowledged, its entries added. *)
Lemma handle_announced db env (st : UseState ReconDB) :
  wf db -> announces db env ->
  handle (Some (wire_envelope env)) st
  = (Ack, set_mirror (fold_left add_entry (entries_of env) (mirror (u_db st))) (u_db st)) /\
  Forall (entry_valid (env_TenantID env)) (entries_of env).
Proof.
  intros W A. unfold announces in A. unfold entries_of.
  destruct (env_Data env) as [e| | | |] eqn:Ed; [|unfold handle; cbn [wire_envelope env_Type];
    rewrite bool_decide_eq_false_2 by exact A; cbn [negb]; split; [by destruct (u_db st)|constructor]..].
  destruct A as (Hty & Hnil & t0 & at_ & -> & Ht & Hp).
  assert (Hm : Forall mirrorable (t_Postings t0)) by by eapply posting_row_mirrorable.
  assert (Ee : mirror_entries_of (env_TenantID env) (wire (NewTransactionPostedEvent t0 at_)) 0
                 (tp_Postings (wire (NewTransactionPostedEvent t0 at_))) = Some (imap (entry_for t0 at_) (t_Postings t0))).
  { rewrite <- Ht. apply (entries_of_event t0 at_ (t_Postings t0) 0). eapply Forall_impl; [exact Hm|]. by intros p []. }
  rewrite Ee. cbn [default].
  assert (Hv : Forall (entry_valid (env_TenantID env)) (imap (entry_for t0 at_) (t_Postings t0)))
    by (rewrite <- Ht; by apply entries_valid).
  split; [|done]. apply handle_entries; [done|done|exact Hv|].
  exists (wire (NewTransactionPostedEvent t0 at_)). split; [cbn; by rewrite Ed|exact Ee].
Qed.

Lemma entries_of_posted db env t0 at_ :
  wf db -> t_TenantID t0 = env_TenantID env -> posted_as db t0 at_ ->
  env_Data env = PTransactionPosted (NewTransactionPostedEvent t0 at_) ->
  entries_of env = imap (entry_for t0 at_) (t_Postings t0).
Proof.
  intros W Ht Hp Ed. unfold entries_of. rewrite Ed, <- Ht.
  assert (Hm : Forall mirrorable (t_Postings t0)) by by eapply posting_row_mirrorable.
  change (tp_Postings (wire (NewTransactionPostedEvent t0 at_))) with
    (map (fun p => mkPostingPayload (ep_AccountID p) (ep_Direction p)
           (mkMoneyPayload (em_Asset (ep_Amount p)) (em_Amount (ep_Amount p))))
       (map (fun p => mkEventPosting (p_AccountID p) (Direction_string (p_Direction p))
              (NewEventMoney (p_Amount p))) (t_Postings t0))).
  rewrite (entries_of_event t0 at_ (t_Postings t0) 0); [done|].
  eapply Forall_impl; [exact Hm|]. by intros p [].
Qed.

Lemma add_entry_origin es m id e :
  fold_left add_entry es m !! id = Some e -> m !! id = Some e \/ (e ∈ es /\ m_ID e = id).
Proof.
  revert m. induction es as [|e0 es IH]; intros m Hl; [by left|]. cbn [fold_left] in Hl.
  apply IH in Hl as [Hl|[Hin Hid]]; [|right; split; [by right|done]].
  unfold add_entry in Hl. destruct (m !! m_ID e0); [by left|].
  apply lookup_insert_Some in Hl as [[<- <-]|[_ Hl]]; [right; split; [by left|done]|by left].
Qed.

(** ** The invariant *)

(** Entries with one id are one entry. *)
Definition entries_apart (db : DB) : Prop :=
  forall env env' e e', env ∈ envelopes db -> env' ∈ envelopes db -> e ∈ entries_of env -> e' ∈ entries_of env' ->
    m_ID e = m_ID e' -> e = e'.

Record pipe_ok (w : Pipeline) : Prop := {
  po_history : history (pp_history w);
  po_relay : relay_reach false (pp_relay w);
  po_rows : map ob_Envelope (rl_rows (pp_relay w)) = envelopes (pp_db w);
  po_mirror id e : mirror (pp_recon w) !! id = Some e ->
    m_ID e = id /\ exists env, env ∈ envelopes (pp_db w) /\ e ∈ entries_of env;
  po_delivered : entries_apart (pp_db w) -> forall k r e, k ∈ pp_delivered w -> rl_rows (pp_relay w) !! k = Some r ->
    e ∈ entries_of (ob_Envelope r) -> mirror (pp_recon w) !! m_ID e = Some e;
  po_known k : k ∈ pp_delivered w -> (k < length (rl_rows (pp_relay w)))%nat
}.

Lemma pp_db_elem w : history (pp_history w) -> pp_db w ∈ pp_history w.
Proof. unfold pp_db. destruct 1; cbn; by left. Qed.

Lemma relay_append_reach new (r : Relay OutboxRow (Envelope payload)) :
  Forall (fun row => ob_PublishedAt row = None) new ->
  NoDup (map (fun row => env_ID (ob_Envelope row)) (rl_rows r ++ new)) ->
  relay_reach false r -> relay_reach false (append_rows new r).
Proof.
  intros Hnew. revert r. induction Hnew as [|row new Hrow _ IH]; intros r Hnd Hr.
  - unfold append_rows. rewrite app_nil_r. by destruct r.
  - assert (E : append_rows (row :: new) r = append_rows new (append_rows [row] r))
      by (unfold append_rows; cbn; by rewrite <- app_assoc).
    rewrite E. apply IH; [cbn; by rewrite <- app_assoc|]. eapply relay_next; [exact Hr|].
    apply (rs_append false r row); [done|]. intros e k r' e' [= <-] Hk [= <-] Heq.
    rewrite map_app in Hnd. apply NoDup_app in Hnd as (_ & Hd & _).
    apply (Hd (env_ID (ob_Envelope row))); [|by left].
    apply list_elem_of_fmap. exists r'. split; [done|]. by eapply list_elem_of_lookup_2.
Qed.

(** The rows a request appends are unpublished. *)
Lemma exec_unpublished seen tenant rq ids now db resp db' new :
  Inv db -> request_wf rq -> exec seen tenant rq ids now db = Ok (resp, db') -> outbox db' = outbox db ++ new ->
  Forall (fun row => ob_PublishedAt row = None) new.
Proof.
  intros I Hwf Hrun E. destruct (exec_change _ _ _ _ _ _ _ _ I Hwf Hrun) as [-> | C].
  - rewrite <- (app_nil_r (outbox db)) in E at 1. apply app_inv_head in E as <-. constructor.
  - destruct C as [| |t l m hash ???????????|t l m hash ev at_ ??????????? Hev|? t m now0 ev ???? Hev
                  |? t rev m hash reason now0 ev ?????????????? Hev
                  |h a m hash ev ??????????? Hev|? r status captured m topic data ev ??????? Hev].
    1, 2: cbn in E; rewrite <- (app_nil_r (outbox db)) in E at 1; apply app_inv_head in E as <-; constructor.
    1: cbn in E; apply app_inv_head in E as <-; constructor.
    all: cbn in E; apply app_inv_head in E as <-; destruct Hev as (? & ? & ->); by repeat constructor.
Qed.

Lemma history_cons_inv db' h :
  history (db' :: h) -> h <> [] -> exists db past seen tenant rq ids now resp,
    h = db :: past /\ history h /\ Inv db /\ request_wf rq /\ exec seen tenant rq ids now db = Ok (resp, db').
Proof.
  intros Hh Hn. destruct (history_pop _ _ Hh Hn) as (db & past & seen & tenant & rq & ids & now & resp & -> & Hp & _ & Hwf & Hrun).
  exists db, past, seen, tenant, rq, ids, now, resp. split_and!; try done. eapply history_elem; [exact Hp|by left].
Qed.

(** The rows of the relay outlive its steps. *)
Lemma relay_step_rows (r r' : Relay OutboxRow (Envelope payload)) :
  relay_step false r r' -> length (rl_rows r') = length (rl_rows r) ->
  map ob_Envelope (rl_rows r') = map ob_Envelope (rl_rows r).
Proof.
  intros Hs Hl. destruct Hs as [row Hrow Hf|i p Hi Hp|i b k row rest env [] Hb Ht He|i b k row rest Hb Ht He|i b now Hb Ht|i b Hb|u Hu];
    try done.
  - cbn in Hl. rewrite length_app in Hl. cbn in Hl. lia.
  - cbn. apply list_eq. intros j. rewrite !list_lookup_fmap, mark_rows_lookup.
    destruct (rl_rows r !! j); [|done]. cbn. by case_decide.
Qed.

Lemma row_back (rows rows' : list OutboxRow) k row' :
  map ob_Envelope rows' = map ob_Envelope rows -> rows' !! k = Some row' ->
  exists row, rows !! k = Some row /\ ob_Envelope row = ob_Envelope row'.
Proof.
  intros E Hk. apply (f_equal (fun l => l !! k)) in E. rewrite !list_lookup_fmap, Hk in E. cbn in E.
  destruct (rows !! k) as [row|]; [|done]. injection E as E. by exists row.
Qed.

Lemma entries_apart_earlier db db' : (exists new, outbox db' = outbox db ++ new) -> entries_apart db' -> entries_apart db.
Proof.
  intros [new E] A env env' e e' Hin Hin'. apply A; unfold envelopes; rewrite E, map_app, elem_of_app; by left.
Qed.

(** A row of the relay announces. *)
Lemma row_announces w k r : pipe_ok w -> rl_rows (pp_relay w) !! k = Some r ->
  wf (pp_db w) /\ announces (pp_db w) (ob_Envelope r) /\ ob_Envelope r ∈ envelopes (pp_db w).
Proof.
  intros Hok Hk. pose proof (pp_db_elem w (po_history _ Hok)) as Hd.
  assert (Hin : ob_Envelope r ∈ envelopes (pp_db w)).
  { rewrite <- (po_rows _ Hok). apply list_elem_of_fmap. exists r. split; [done|]. by eapply list_elem_of_lookup_2. }
  split; [apply (history_elem _ _ (po_history _ Hok) Hd)|]. split; [|done].
  pose proof (history_announces _ _ (po_history _ Hok) Hd) as A. unfold outbox_announces in A. rewrite Forall_forall in A.
  apply list_elem_of_fmap in Hin as (row & E & Hrow). rewrite E. by apply A.
Qed.

Lemma pipe_ok_ledger w db' new :
  pipe_ok w -> history (db' :: pp_history w) -> outbox db' = outbox (pp_db w) ++ new -> NoDup (event_ids db') ->
  pipe_ok (mkPipe (db' :: pp_history w) (append_rows new (pp_relay w)) (pp_recon w) (pp_delivered w)).
Proof.
  intros Hok Hh E Hids.
  assert (Hne : pp_history w <> []) by (pose proof (pp_db_elem w (po_history _ Hok)) as Hd; intros E0; rewrite E0 in Hd; by apply elem_of_nil in Hd).
  destruct (history_cons_inv _ _ Hh Hne) as (db & past & seen & tenant & rq & ids & now & resp & Eh & _ & I & Hwf & Hrun).
  assert (Edb : pp_db w = db) by (unfold pp_db; by rewrite Eh). rewrite Edb in E.
  assert (Hsub : forall env, env ∈ envelopes (pp_db w) -> env ∈ envelopes db')
    by (intros env Hin; unfold envelopes; rewrite E, map_app, elem_of_app; left; by rewrite <- Edb).
  split; cbn [pp_history pp_relay pp_recon pp_delivered].
  - exact Hh.
  - apply relay_append_reach; [by eapply exec_unpublished| |apply (po_relay _ Hok)].
    rewrite map_app, <- (map_map ob_Envelope env_ID), (po_rows _ Hok), Edb.
    rewrite <- (map_map ob_Envelope env_ID), <- map_app. unfold event_ids, envelopes in *.
    by rewrite <- map_app, <- E.
  - cbn. rewrite map_app, (po_rows _ Hok), Edb. unfold envelopes. by rewrite E, map_app.
  - intros id e (Hid & env & Hin & He)%(po_mirror _ Hok). split; [done|]. exists env. split; [by apply Hsub|done].
  - intros A k r e Hk Hr He. apply (po_delivered _ Hok) with k r; [|done| |done].
    + rewrite Edb. eapply entries_apart_earlier; [by exists new|exact A].
    + cbn in Hr. rewrite lookup_app_l in Hr; [done|by apply (po_known _ Hok)].
  - intros k Hk. cbn. rewrite length_app. pose proof (po_known _ Hok k Hk). lia.
Qed.

Lemma pipe_ok_deliver w k env st a db' :
  pipe_ok w -> (k, env) ∈ rl_stream (pp_relay w) -> u_db st = pp_recon w ->
  handle (Some (wire_envelope env)) st = (a, db') ->
  pipe_ok (mkPipe (pp_history w) (pp_relay w) db' (match a with Ack => k :: pp_delivered w | _ => pp_delivered w end)).
Proof.
  intros Hok Hin Hst Hrun.
  destruct (ro_stream _ _ k env (relay_reach_ok false _ (po_relay _ Hok)) Hin) as (row & Hrow & [= Eenv]).
  destruct (row_announces w k row Hok Hrow) as (W & A & Henv). rewrite Eenv in A, Henv.
  destruct (handle_announced (pp_db w) env st W A) as [Hh _]. rewrite Hh in Hrun. injection Hrun as <- <-.
  rewrite Hst. split; cbn [pp_history pp_relay pp_recon pp_delivered].
  - apply (po_history _ Hok).
  - apply (po_relay _ Hok).
  - apply (po_rows _ Hok).
  - intros id e [Hm|[He <-]]%add_entry_origin; [by apply (po_mirror _ Hok)|]. split; [done|]. by exists env.
  - intros Ap j r e Hj Hr He. cbn [mirror set_mirror]. apply elem_of_cons in Hj as [->|Hj].
    + assert (r = row) as -> by congruence. rewrite Eenv in He.
      destruct (add_entry_all (entries_of env) (mirror (pp_recon w)) e He) as [e' He']. rewrite He'. f_equal.
      apply add_entry_origin in He' as [(Hid & env' & Hin' & He')%(po_mirror _ Hok)|[He' Hid]].
      * by apply (Ap env' env).
      * by apply (Ap env env).
    + apply add_entry_keeps. by apply (po_delivered _ Hok Ap j r).
  - intros j [->|Hj]%elem_of_cons; [by eapply lookup_lt_Some|by apply (po_known _ Hok)].
Qed.

Lemma pipe_step_ok w w' : pipe_ok w -> pipe_step w w' -> pipe_ok w'.
Proof.
  intros Hok [db' new Hh E Hids|r' Hs Hl|k env st a db' Hin Hst Hrun|tenant rq st st' Hq Hst Hrun].
  - by apply pipe_ok_ledger.
  - pose proof (relay_step_rows _ _ Hs Hl) as E. destruct Hok as [P1 P2 P3 P4 P5 P6].
    split; cbn [pp_history pp_relay pp_recon pp_delivered]; try done.
    + by eapply relay_next.
    + by rewrite E.
    + intros A k r e Hk Hr He. destruct (row_back _ _ _ _ E Hr) as (row & Hrow & Ee). rewrite <- Ee in He.
      by apply (P5 A k row).
    + intros k Hk. rewrite Hl. by apply P6.
  - by eapply pipe_ok_deliver.
  - assert (Em : mirror (u_db st') = mirror (pp_recon w)).
    { pose proof (recon_exec_mirror tenant rq) as K. rewrite <- Hst. destruct rq; try (by eapply K). by destruct (Hq entries). }
    destruct Hok as [P1 P2 P3 P4 P5 P6]. split; cbn [pp_history pp_relay pp_recon pp_delivered]; rewrite ?Em; done.
Qed.

Lemma pipe_reach_ok w : pipe_reach w -> pipe_ok w.
Proof.
  induction 1; [|by eapply pipe_step_ok]. split.
  - apply history_init.
  - apply relay_init.
  - done.
  - intros id e Hm. cbn in Hm. by rewrite lookup_empty in Hm.
  - by intros _ k r e ?%elem_of_nil.
  - by intros k ?%elem_of_nil.
Qed.

(** ** Events and entries of one transaction *)

Lemma count_positive f (rows : list OutboxRow) : 0 < count_events f rows -> exists r, r ∈ rows /\ f r = true.
Proof.
  unfold count_events. induction rows as [|r rows IH]; cbn; [lia|]. intros Hc. destruct (f r) eqn:E.
  - exists r. split; [by left|done].
  - destruct IH as (r' & Hin & Hr'); [lia|]. exists r'. split; [by right|done].
Qed.

Lemma count_unique f (rows : list OutboxRow) k k' r r' :
  count_events f rows <= 1 -> rows !! k = Some r -> rows !! k' = Some r' -> f r = true -> f r' = true -> k = k'.
Proof.
  unfold count_events. revert k k'. induction rows as [|r0 rows IH]; intros k k' Hc Hk Hk' Hf Hf'; [done|]. cbn in Hc.
  assert (Hn : forall j q, rows !! j = Some q -> f q = true -> 1 <= sumZ (fun r => if f r then 1 else 0) rows).
  { clear. induction rows as [|r0 rows IH]; intros j q Hj Hq; [done|]. cbn.
    assert (0 <= sumZ (fun r => if f r then 1 else 0) rows) by (apply sumZ_nonneg; intros a _; destruct (f a); lia).
    destruct j as [|j]; cbn in Hj; [injection Hj as ->; rewrite Hq; lia|].
    specialize (IH j q Hj Hq). destruct (f r0); lia. }
  destruct k as [|k], k' as [|k']; cbn in Hk, Hk'; [done| | |].
  - injection Hk as ->. rewrite Hf in Hc. specialize (Hn _ _ Hk' Hf'). lia.
  - injection Hk' as ->. rewrite Hf' in Hc. specialize (Hn _ _ Hk Hf). lia.
  - f_equal. eapply IH; try done. destruct (f r0); lia.
Qed.

(** The ids of the postings of posted transactions do not collide. *)
Definition postings_apart (db : DB) : Prop :=
  forall id id' i j, is_Some (transactions db !! id) -> is_Some (transactions db !! id') ->
    (i < length (rows_of db id))%nat -> (j < length (rows_of db id'))%nat ->
    PostingID id i = PostingID id' j -> id = id' /\ i = j.

(** An entry of an announced envelope, by its transaction and index. *)
Lemma entry_of_announced db env e :
  wf db -> announces db env -> e ∈ entries_of env ->
  exists t0 at_ i p, env_Data env = PTransactionPosted (NewTransactionPostedEvent t0 at_) /\ posted_as db t0 at_ /\
    entries_of env = imap (entry_for t0 at_) (t_Postings t0) /\
    t_Postings t0 !! i = Some p /\ e = entry_for t0 at_ i p.
Proof.
  intros W A He. unfold announces in A. destruct (env_Data env) as [ev| | | |] eqn:Ed;
    [|unfold entries_of in He; rewrite Ed in He; by apply elem_of_nil in He..].
  destruct A as (_ & _ & t0 & at_ & -> & Ht & Hp). exists t0, at_.
  rewrite (entries_of_posted db env t0 at_ W Ht Hp Ed) in He |- *.
  apply elem_of_lookup_imap in He as (i & p & -> & Hi). by exists i, p.
Qed.

Lemma posted_length db t0 at_ : posted_as db t0 at_ -> length (t_Postings t0) = length (rows_of db (t_ID t0)).
Proof. intros (t & _ & _ & _ & _ & _ & _ & Hp). rewrite Hp. apply length_map. Qed.

(** Two envelopes about one transaction are one. *)
Lemma one_event hs db env env' t0 t0' at_ at_' :
  history hs -> db ∈ hs -> env ∈ envelopes db -> env' ∈ envelopes db ->
  env_Data env = PTransactionPosted (NewTransactionPostedEvent t0 at_) ->
  env_Data env' = PTransactionPosted (NewTransactionPostedEvent t0' at_') -> t_ID t0 = t_ID t0' -> env = env'.
Proof.
  intros Hh Hin (r & -> & Hr)%list_elem_of_fmap (r' & -> & Hr')%list_elem_of_fmap Ed Ed' E.
  apply list_elem_of_lookup in Hr as [k Hr]. apply list_elem_of_lookup in Hr' as [k' Hr'].
  assert (Hc : count_events (is_posted_event (t_ID t0)) (outbox db) <= 1).
  { rewrite (proj1 (inv_events _ (history_elem _ _ Hh Hin) (t_ID t0))). unfold expected_posted.
    destruct (transactions db !! t_ID t0); [|lia]. destruct (_ && _); lia. }
  assert (k = k') as <-.
  { eapply count_unique; [exact Hc|exact Hr|exact Hr'| |]; unfold is_posted_event.
    - rewrite Ed. apply Z.eqb_refl.
    - rewrite Ed', E. apply Z.eqb_refl. }
  congruence.
Qed.

Lemma entries_apart_of w : pipe_ok w -> postings_apart (pp_db w) -> entries_apart (pp_db w).
Proof.
  intros Hok Hap env env' e e' Hin Hin' He He' Hid.
  pose proof (pp_db_elem w (po_history _ Hok)) as Hd. pose proof (history_elem _ _ (po_history _ Hok) Hd) as I.
  pose proof (history_announces _ _ (po_history _ Hok) Hd) as A. unfold outbox_announces in A. rewrite Forall_forall in A.
  assert (HA : forall env, env ∈ envelopes (pp_db w) -> announces (pp_db w) env)
    by (intros env0 (r & -> & Hr)%list_elem_of_fmap; by apply A).
  destruct (entry_of_announced _ _ _ (inv_wf _ I) (HA _ Hin) He) as (t0 & at_ & i & p & Ed & Hp & El & Hi & ->).
  destruct (entry_of_announced _ _ _ (inv_wf _ I) (HA _ Hin') He') as (t0' & at_' & j & p' & Ed' & Hp' & El' & Hj & ->).
  cbn in Hid. pose proof (posted_length _ _ _ Hp) as L. pose proof (posted_length _ _ _ Hp') as L'.
  destruct (Hap (t_ID t0) (t_ID t0') i j) as [E ->]; [| | | |exact Hid|].
  - destruct Hp as (t & Ht & _). by exists t.
  - destruct Hp' as (t & Ht & _). by exists t.
  - rewrite <- L. by eapply lookup_lt_Some.
  - rewrite <- L'. by eapply lookup_lt_Some.
  - pose proof (one_event _ _ _ _ _ _ _ _ (po_history _ Hok) Hd Hin Hin' Ed Ed' E) as <-.
    assert (El2 : imap (entry_for t0 at_) (t_Postings t0) !! j = imap (entry_for t0' at_') (t_Postings t0') !! j) by congruence.
    rewrite !list_lookup_imap, Hi, Hj in El2. cbn in El2. congruence.
Qed.

(** The state of a reachable world, as its lemmas use it. *)
Lemma pipe_facts w : pipe_reach w ->
  pipe_ok w /\ pp_db w ∈ pp_history w /\ Inv (pp_db w) /\
  (forall env, env ∈ envelopes (pp_db w) -> announces (pp_db w) env).
Proof.
  intros Hr. pose proof (pipe_reach_ok w Hr) as Hok. pose proof (pp_db_elem w (po_history _ Hok)) as Hd.
  split_and!; [done|done|by eapply history_elem; [apply Hok|]|].
  pose proof (history_announces _ _ (po_history _ Hok) Hd) as A. unfold outbox_announces in A. rewrite Forall_forall in A.
  intros env (r & -> & Hr0)%list_elem_of_fmap. by apply A.
Qed.

(** The row that announces a transaction. *)
Lemma announced_row w id t :
  pipe_reach w -> transactions (pp_db w) !! id = Some t -> is_firm (t_Status t) = true -> t_ReversesID t = None ->
  exists k row t0 at_, rl_rows (pp_relay w) !! k = Some row /\ ob_Envelope row ∈ envelopes (pp_db w) /\
    env_Data (ob_Envelope row) = PTransactionPosted (NewTransactionPostedEvent t0 at_) /\ t_ID t0 = id /\
    t_TenantID t0 = env_TenantID (ob_Envelope row) /\ posted_as (pp_db w) t0 at_.
Proof.
  intros Hr Ht Hf Hrv. destruct (pipe_facts w Hr) as (Hok & _ & I & HA).
  assert (Hc : 0 < count_events (is_posted_event id) (outbox (pp_db w))).
  { rewrite (proj1 (inv_events _ I id)). unfold expected_posted. by rewrite Ht, Hf, bool_decide_eq_true_2. }
  destruct (count_positive _ _ Hc) as (r0 & Hr0 & Hev).
  assert (Hin : ob_Envelope r0 ∈ envelopes (pp_db w)) by (by apply list_elem_of_fmap_2).
  pose proof (HA _ Hin) as Ha. unfold is_posted_event in Hev. unfold announces in Ha.
  destruct (env_Data (ob_Envelope r0)) as [ev| | | |] eqn:Ed; try done. apply Z.eqb_eq in Hev.
  destruct Ha as (_ & _ & t0 & at_ & -> & Htn & Hp). cbn in Hev.
  pose proof Hin as Hin2. rewrite <- (po_rows _ Hok) in Hin2. apply list_elem_of_fmap in Hin2 as (row & E & Hrow).
  apply list_elem_of_lookup in Hrow as [k Hrow]. exists k, row, t0, at_. by rewrite <- E.
Qed.

(** Once that row is delivered the mirror holds the postings, and only them. *)
Lemma delivered_entries w k row t0 at_ :
  pipe_reach w -> postings_apart (pp_db w) -> k ∈ pp_delivered w -> rl_rows (pp_relay w) !! k = Some row ->
  ob_Envelope row ∈ envelopes (pp_db w) ->
  env_Data (ob_Envelope row) = PTransactionPosted (NewTransactionPostedEvent t0 at_) ->
  t_TenantID t0 = env_TenantID (ob_Envelope row) -> posted_as (pp_db w) t0 at_ ->
  (forall i p, t_Postings t0 !! i = Some p -> mirror (pp_recon w) !! PostingID (t_ID t0) i = Some (entry_for t0 at_ i p)) /\
  (forall x e, mirror (pp_recon w) !! x = Some e -> m_TransactionID e = t_ID t0 ->
     exists i p, t_Postings t0 !! i = Some p /\ x = PostingID (t_ID t0) i /\ e = entry_for t0 at_ i p).
Proof.
  intros Hr Hap Hdel Hrow Hin Ed Htn Hp. destruct (pipe_facts w Hr) as (Hok & Hd & I & HA). pose proof (inv_wf _ I) as W.
  pose proof (entries_of_posted _ _ _ _ W Htn Hp Ed) as El. split.
  - intros i p Hi. change (PostingID (t_ID t0) i) with (m_ID (entry_for t0 at_ i p)).
    apply (po_delivered _ Hok (entries_apart_of w Hok Hap) k row); [done|done|]. rewrite El.
    apply elem_of_lookup_imap. by exists i, p.
  - intros x e (Hid & env & Hin' & He)%(po_mirror _ Hok) Htx.
    destruct (entry_of_announced _ _ _ W (HA _ Hin') He) as (t1 & at1 & i & p & Ed' & Hp' & El' & Hi & ->).
    cbn in Hid, Htx. pose proof (one_event _ _ _ _ _ _ _ _ (po_history _ Hok) Hd Hin' Hin Ed' Ed Htx) as E. rewrite E in *.
    assert (El2 : imap (entry_for t1 at1) (t_Postings t1) !! i = imap (entry_for t0 at_) (t_Postings t0) !! i) by congruence.
    rewrite !list_lookup_imap, Hi in El2. destruct (t_Postings t0 !! i) as [q|] eqn:Eq; [|done].
    assert (El3 : entry_for t1 at1 i p = entry_for t0 at_ i q) by by apply (inj Some).
    exists i, q. split; [done|]. rewrite <- Hid, El3, <- Htx. by split.
Qed.

(** C19: the mirror follows the ledger. In every reachable state of the composed
    system, whatever was retried, crashed, deduplicated, redelivered or reordered
    (event ids, being fresh UUIDs, never repeat): every entry
    of the mirror is a posting of a posted transaction that is not a reversal,
    with its account, direction, amount, asset, key and instant; every such
    transaction has a row in the outbox whose message, once published, is in the
    stream and is always acknowledged; and once acknowledged, the mirror holds
    exactly one entry for each posting of the transaction. *)
Theorem mirror_follows_ledger w :
  pipe_reach w -> postings_apart (pp_db w) ->
  (forall id e, mirror (pp_recon w) !! id = Some e -> exists t row,
     transactions (pp_db w) !! m_TransactionID e = Some t /\ is_firm (t_Status t) = true /\ t_ReversesID t = None /\
     row ∈ rows_of (pp_db w) (m_TransactionID e) /\ m_TenantID e = t_TenantID t /\
     m_AccountID e = pr_AccountID row /\ m_Direction e = Direction_string (pr_Direction row) /\
     m_Amount e = pr_Amount row /\ m_Asset e = pr_Asset row /\
     m_Reference e = t_IdempotencyKey t /\ t_PostedAt t = Some (m_PostedAt e)) /\
  (forall id t, transactions (pp_db w) !! id = Some t -> is_firm (t_Status t) = true -> t_ReversesID t = None ->
     exists k row t0 at_, rl_rows (pp_relay w) !! k = Some row /\
       env_Data (ob_Envelope row) = PTransactionPosted (NewTransactionPostedEvent t0 at_) /\ t_ID t0 = id /\
       Permutation (t_Postings t0) (map posting_of_row (rows_of (pp_db w) id)) /\
       (is_Some (ob_PublishedAt row) -> (k, ob_Envelope row) ∈ rl_stream (pp_relay w)) /\
       (forall st, (handle (Some (wire_envelope (ob_Envelope row))) st).1 = Ack) /\
       (k ∈ pp_delivered w ->
          (forall i p, t_Postings t0 !! i = Some p ->
             mirror (pp_recon w) !! PostingID id i = Some (entry_for t0 at_ i p)) /\
          (forall x e, mirror (pp_recon w) !! x = Some e -> m_TransactionID e = id ->
             exists i p, t_Postings t0 !! i = Some p /\ x = PostingID id i /\ e = entry_for t0 at_ i p))).
Proof.
  intros Hr Hap. destruct (pipe_facts w Hr) as (Hok & _ & I & HA). pose proof (inv_wf _ I) as W. split.
  - intros id e (_ & env & Hin & He)%(po_mirror _ Hok).
    destruct (entry_of_announced _ _ _ W (HA _ Hin) He) as (t0 & at_ & i & p & _ & Hp & _ & Hi & ->).
    destruct Hp as (t & Ht & E1 & E2 & E3 & Hf & Hat & Hperm). apply list_elem_of_lookup_2 in Hi.
    rewrite Hperm in Hi. apply list_elem_of_fmap in Hi as (row & -> & Hrow).
    exists t, row. cbn. by split_and!.
  - intros id t Ht Hf Hrv.
    destruct (announced_row w id t Hr Ht Hf Hrv) as (k & row & t0 & at_ & Hrow & Hin & Ed & <- & Htn & Hp).
    exists k, row, t0, at_. split_and!; [done..|by destruct Hp as (? & _ & _ & _ & _ & _ & _ & ?)| | |].
    + intros Hpub. by apply (marked_sent false (pp_relay w) k row (ob_Envelope row) (po_relay _ Hok)).
    + intros st. by destruct (handle_announced _ _ st W (HA _ Hin)) as [-> _].
    + intros Hdel. by eapply delivered_entries.
Qed.

(** ** Histories in the composed system *)

Definition empty_broker : Broker (Envelope payload) := mkBroker [] ∅ [].

(** Any history of the ledger, with nothing published yet. *)
Lemma pipe_of_history hs :
  history hs -> NoDup (event_ids (default empty_db (head hs))) ->
  pipe_reach (mkPipe hs (mkRelay (outbox (default empty_db (head hs))) ∅ empty_broker []) empty_recon []).
Proof.
  intros Hh. induction Hh as [|db past seen tenant rq ids now resp db' Hh IH Hseen Hwf Hrun]; intros Hnd; [apply pipe_init|].
  assert (I : Inv db) by (eapply history_elem; [exact Hh|by left]).
  destruct (pe_outbox _ _ (exec_persists _ _ _ _ _ _ _ _ I Hwf Hrun)) as [new E].
  change (NoDup (event_ids db')) in Hnd.
  assert (Hnd0 : NoDup (event_ids db)).
  { unfold event_ids, envelopes in *. rewrite E, !map_app in Hnd. by apply NoDup_app in Hnd as (? & _). }
  pose proof (pipe_ledger (mkPipe (db :: past) (mkRelay (outbox db) ∅ empty_broker []) empty_recon []) db' new
    (history_step _ _ _ _ _ _ _ _ _ Hh Hseen Hwf Hrun) E Hnd) as Hs.
  specialize (IH Hnd0). cbn in IH, Hs |- *. rewrite E. exact (pipe_next _ _ IH Hs).
Qed.

(** The only row of an outbox is published and its message delivered. *)
Lemma pipe_deliver_one hs r st a db' :
  history hs -> outbox (default empty_db (head hs)) = [r] -> ob_PublishedAt r = None -> u_db st = empty_recon ->
  handle (Some (wire_envelope (ob_Envelope r))) st = (a, db') ->
  pipe_reach (mkPipe hs (mkRelay [row_mark 0 r] ∅ (broker_take 0 (ob_Envelope r) empty_broker) []) db'
                (match a with Ack => [0%nat] | _ => [] end)).
Proof.
  intros Hh Eo Hn Hst Hrun.
  assert (Hnd : NoDup (event_ids (default empty_db (head hs))))
    by (unfold event_ids, envelopes; rewrite Eo; apply NoDup_singleton).
  pose proof (pipe_of_history hs Hh Hnd) as R0. rewrite Eo in R0.
  set (w0 := mkRelay [r] ∅ empty_broker [] : Relay OutboxRow (Envelope payload)) in *.
  set (b0 := begin_batch [(0%nat, r)] : Batch OutboxRow).
  assert (Hsel : selection (held (rl_batches w0)) (rl_rows w0) [(0%nat, r)]).
  { split; [apply NoDup_singleton|]. intros k r' [= -> ->]%list_elem_of_singleton. split_and!; [done..|].
    rewrite held_spec. intros (i & b & Hb & _). cbn in Hb. by rewrite lookup_empty in Hb. }
  set (w1 := set_batch 0 b0 w0).
  assert (R1 : pipe_reach (mkPipe hs w1 empty_recon [])).
  { eapply pipe_next; [exact R0|]. eapply (pipe_poller (mkPipe hs w0 empty_recon [])); [|done].
    by apply (rs_begin false w0 0%nat [(0%nat, r)]). }
  set (w2 := after_publish 0 b0 0 [] (ob_Envelope r) Accepted w1).
  assert (R2 : pipe_reach (mkPipe hs w2 empty_recon [])).
  { eapply pipe_next; [exact R1|]. eapply (pipe_poller (mkPipe hs w1 empty_recon [])); [|done].
    by eapply (rs_publish false w1 0%nat b0 0%nat r []); [apply lookup_insert_eq|..]. }
  set (w3 := mkRelay [row_mark 0 r] ∅ (broker_take 0 (ob_Envelope r) empty_broker) [] : Relay OutboxRow (Envelope payload)).
  assert (R3 : pipe_reach (mkPipe hs w3 empty_recon [])).
  { eapply pipe_next; [exact R2|]. eapply (pipe_poller (mkPipe hs w2 empty_recon []) w3); [|done].
    assert (E3 : w3 = mkRelay (mark_rows 0 [0%nat] (rl_rows w2)) (delete 0%nat (rl_batches w2)) (rl_broker w2) (rl_lost w2)).
    { unfold w3, w2, w1. cbn [rl_rows rl_batches rl_broker rl_lost after_publish set_batch w0 b0].
      by rewrite insert_insert_eq, delete_insert_id. }
    rewrite E3. eapply (rs_commit false w2 0%nat (mkBatch [0%nat] [] [0%nat] [0%nat]) 0); [|done].
    unfold w2, w1. cbn. apply lookup_insert_eq. }
  assert (Hin : (0%nat, ob_Envelope r) ∈ rl_stream (pp_relay (mkPipe hs w3 empty_recon []))).
  { unfold rl_stream, w3, broker_take. cbn [pp_relay rl_broker]. rewrite decide_False; [by left|].
    unfold empty_broker. cbn [br_window]. set_solver. }
  pose proof (pipe_deliver (mkPipe hs w3 empty_recon []) 0%nat (ob_Envelope r) st a db' Hin Hst Hrun) as Hs.
  exact (pipe_next _ _ R3 Hs).
Qed.
End Pipeline.

(** ** The pipeline at work

    The transaction of the demo history travels from the ledger to the mirror;
    the pollers on the outbox of the whole demo. *)

#[local] Existing Instance mirror_supply.
#[local] Existing Instance mirror_uuid5.

(** The fourth call posts the transaction 10. *)
Definition pipe_recon_db : ReconDB :=
  match outbox (demo_db 4) with
  | r :: _ => (handle (Some (wire_envelope (ob_Envelope r))) (mkUse empty_recon [] 0 0)).2
  | [] => empty_recon
  end.

Lemma demo_head : default empty_db (head (demo_hs 4)) = demo_db 4.
Proof. unfold demo_db. destruct (demo_hs 4); reflexivity. Qed.

Lemma pipe_demo : exists r, rl_rows (mkRelay [row_mark 0 r] ∅ (broker_take 0 (ob_Envelope r) empty_broker) [] : Relay OutboxRow (Envelope payload))
    = [row_mark 0 r] /\
  pipe_reach (mkPipe (demo_hs 4) (mkRelay [row_mark 0 r] ∅ (broker_take 0 (ob_Envelope r) empty_broker) []) pipe_recon_db [0%nat]).
Proof.
  destruct (outbox (demo_db 4)) as [|r [|r' rest]] eqn:E; [vm_compute in E; discriminate E| |vm_compute in E; discriminate E].
  exists r. split; [reflexivity|].
  assert (Hn : ob_PublishedAt r = None) by (clear -E; vm_compute in E; injection E as <-; reflexivity).
  destruct (handle (Some (wire_envelope (ob_Envelope r))) (mkUse empty_recon [] 0 0)) as [a db] eqn:Eh.
  assert (Ea : a = Ack).
  { change a with (fst (a, db)). rewrite <- Eh. clear -E. vm_compute in E. injection E as <-. vm_compute. reflexivity. }
  assert (Edb : pipe_recon_db = db) by (unfold pipe_recon_db; rewrite E, Eh; reflexivity).
  rewrite Edb. subst a. rewrite <- demo_head in E.
  exact (pipe_deliver_one (demo_hs 4) r (mkUse empty_recon [] 0 0) Ack db (demo_history 4) E Hn eq_refl Eh).
Qed.

Lemma pipe_demo_apart : postings_apart (demo_db 4).
Proof.
  intros id id' i j [t Ht] [t' Ht'].
  assert (Hall : map_Forall (fun id _ => id = 10) (transactions (demo_db 4)))
    by (refine (bool_decide_unpack _ _); vm_compute; exact I).
  assert (E : id = 10) by exact (Hall id t Ht). assert (E' : id' = 10) by exact (Hall id' t' Ht'). subst id id'.
  assert (El : length (rows_of (demo_db 4) 10) = 2%nat) by (vm_compute; reflexivity). rewrite El. intros Hi Hj Hp.
  split; [reflexivity|]. destruct i as [|[|i]], j as [|[|j]]; try lia; vm_compute in Hp; discriminate Hp.
Qed.

Lemma mirror_follows_ledger_witness : exists t0 at_ p0 p1,
  t_ID t0 = 10 /\ t_Postings t0 = [p0; p1] /\
  mirror pipe_recon_db !! PostingID 10 0 = Some (entry_for t0 at_ 0 p0) /\
  mirror pipe_recon_db !! PostingID 10 1 = Some (entry_for t0 at_ 1 p1).
Proof.
  destruct pipe_demo as (r & _ & Hr).
  destruct (transactions (demo_db 4) !! 10) as [t|] eqn:Et; [|exfalso; vm_compute in Et; discriminate Et].
  assert (Ht : is_firm (t_Status t) = true /\ t_ReversesID t = None)
    by (clear -Et; vm_compute in Et; injection Et as <-; split; reflexivity).
  pose proof (mirror_follows_ledger _ Hr) as T. unfold pp_db in T. cbn [pp_history pp_relay pp_recon pp_delivered] in T.
  rewrite demo_head in T. destruct (T pipe_demo_apart) as [_ Hc]. clear T.
  destruct (Hc 10 t Et (proj1 Ht) (proj2 Ht)) as (k & row & t0 & at_ & Hk & _ & E0 & Hp & _ & _ & Hd).
  assert (Ek : k = 0%nat) by (destruct k as [|k]; [reflexivity|]; cbn in Hk; discriminate Hk). subst k.
  destruct (Hd ltac:(left)) as [Hm _].
  assert (Hl : length (t_Postings t0) = 2%nat).
  { pose proof (Permutation_length Hp) as L. rewrite L. vm_compute. reflexivity. }
  destruct (t_Postings t0) as [|p0 [|p1 [|p2 rest]]] eqn:Eps; try (cbn in Hl; discriminate Hl).
  exists t0, at_, p0, p1. exact (conj E0 (conj Eps (conj (Hm 0%nat p0 eq_refl) (Hm 1%nat p1 eq_refl)))).
Defined.

(** ** Pollers *)

Definition demo_outbox : list OutboxRow := outbox (demo_db 9).

Lemma relay_accounts_witness : exists (w : Relay OutboxRow (Envelope payload)) k r,
  rl_rows w !! k = Some r /\ is_Some (ob_PublishedAt r) /\ occurs k (rl_stream w).*1 = 1%nat.
Proof.
  destruct pipe_demo as (r & _ & Hr). pose proof (po_relay _ (pipe_reach_ok _ Hr)) as Hrelay. cbn [pp_relay] in Hrelay.
  destruct (relay_accounts false _ Hrelay) as [Hs _].
  exists (mkRelay [row_mark 0 r] ∅ (broker_take 0 (ob_Envelope r) empty_broker) []), 0%nat, (row_mark 0 r).
  split; [reflexivity|]. split; [exists 0; reflexivity|].
  destruct (Hs 0%nat (row_mark 0 r) (ob_Envelope r) eq_refl eq_refl (ex_intro _ 0 eq_refl)) as (_ & _ & Hone).
  apply Hone. cbn [rl_broker]. rewrite take_forgotten. apply not_elem_of_nil.
Defined.

Lemma drains_progress_witness :
  let '(rows', sent) := drains (length demo_outbox) (fun i => drainOnce alone (fun _ => Accepted) (Z.of_nat i)) demo_outbox in
  sent = messages (queue demo_outbox) /\ messages (queue rows') = [].
Proof.
  destruct (drains_progress (fun _ : Envelope payload => Accepted) Z.of_nat demo_outbox (fun _ => eq_refl)) as (Hd & _).
  destruct (drains _ _ _) as [rows' sent].
  destruct (Hd ltac:(vm_compute; lia)) as (Hs & Hq & _). exact (conj Hs Hq).
Defined.
