(* ===== verification/Purge.v ===== *)
(** * Erasing an expired tenant

    The acknowledgement protocol of [libs/go/events/purge.go] and what each
    service runs behind it: [PurgeTenant] of [services/ledger-core] with the SQL
    function of migration 0007, [purge.Tenant] of [services/reconciliation] and
    of [services/webhooks]. *)

From Stdlib Require Import Ascii String ZArith Lia.
From S2P Require Import Prelude Strconv Errors Money LedgerDomain LedgerEvents LedgerDb TxMonad.
From S2P Require Import Recon ReconStore ReconMirror Signature Webhooks WebhooksStore Ident.
Local Open Scope Z_scope.

(** ** Consumers of [identity.tenant.expired] *)

Definition SubscribeTenantExpired {S D} (purge : uuid -> S -> result error (Z * S))
  (msg : option (Envelope D)) (db : S) : ack * S :=
  match msg with
  | None => (Term, db)
  | Some env =>
      if negb (bool_decide (env_Type env = TopicTenantExpired)) then (Ack, db)
      else if env_TenantID env =? uuid_Nil then (Term, db)
      else
        match purge (env_TenantID env) db with
        | Ok (_, db') => (Ack, db')
        | Err _ => (Nak, db)
        end
  end.

(** ** DELETE FROM t WHERE tenant_id = $1 *)

Section Delete.
Context {K V : Type} `{Countable K}.
Variables (tenantOf : K -> V -> uuid) (tenant : uuid).

Definition spare (m : gmap K V) : gmap K V := filter (fun p => tenantOf p.1 p.2 <> tenant) m.
Definition is_gone (m : gmap K V) (id : K) : bool :=
  match m !! id with Some v => bool_decide (tenantOf id v = tenant) | None => false end.

(** The statement on the table [get]: [refs] lists the foreign keys of the rows
    that remain, by constraint; a deleted row must not be among them. The checks
    ignore row-level security. The result counts the deleted rows. *)
Definition delete_from {S} (get : S -> gmap K V) (set : gmap K V -> S -> S) (refs : S -> list (string * list K))
  (db : S) : result error (Z * S) :=
  let db' := set (spare (get db)) db in
  match List.find (fun r => existsb (is_gone (get db)) r.2) (refs db') with
  | Some (name, _) => Err (ErrPg (ForeignKeyViolation name))
  | None => Ok (Z.of_nat (size (get db) - size (spare (get db))), db')
  end.
End Delete.

Definition spare_list {A} (tenantOf : A -> uuid) (tenant : uuid) (l : list A) : list A :=
  filter (fun r => tenantOf r <> tenant) l.
Definition delete_list {S A} (tenantOf : A -> uuid) (tenant : uuid) (get : S -> list A) (set : list A -> S -> S)
  (db : S) : result error (Z * S) :=
  let kept := spare_list tenantOf tenant (get db) in
  Ok (Z.of_nat (length (get db) - length kept), set kept db).

(** The loop over the statements of a purge: the rows each one deleted. *)
Definition delete_statement (S : Type) : Type := string * (S -> result error (Z * S)).
Fixpoint run_statements {S} (statements : list (delete_statement S)) (db : S) : result error (list (string * Z) * S) :=
  match statements with
  | [] => Ok ([], db)
  | (table, delete) :: rest =>
      '(n, db) ← delete db;
      '(counts, db) ← run_statements rest db;
      Ok ((table, n) :: counts, db)
  end.

Definition total (counts : list (string * Z)) : Z := sumZ snd counts.

Definition no_refs {S K} (db : S) : list (string * list K) := [].

(** ** Ledger *)

Definition optional (o : option uuid) : list uuid := match o with Some id => [id] | None => [] end.
Definition references {V} (column : V -> list uuid) (m : gmap uuid V) : list uuid := flat_map column (map snd (map_to_list m)).

Section Ledger.
Variable p_tenant : uuid.

Definition transaction_refs (db : DB) : list (string * list uuid) :=
  [("postings_transaction_id_fkey", map pr_TransactionID (postings db));
   ("holds_captured_transaction_id_fkey", references (fun r => optional (h_CapturedTransactionID (hr_Hold r))) (holds db));
   ("transactions_reversed_by_id_fkey", references (fun t => optional (t_ReversedByID t)) (transactions db));
   ("transactions_reverses_id_fkey", references (fun t => optional (t_ReversesID t)) (transactions db))]%string.

Definition account_refs (db : DB) : list (string * list uuid) :=
  [("postings_account_id_fkey", map pr_AccountID (postings db));
   ("account_balances_account_id_fkey", map (fun kr => kr.1.1) (map_to_list (account_balances db)));
   ("holds_account_id_fkey", references (fun r => [h_AccountID (hr_Hold r)]) (holds db))]%string.

Definition ledger_refs (db : DB) : list (string * list uuid) :=
  [("accounts_ledger_id_fkey", references (fun a => [a_LedgerID a]) (accounts db));
   ("transactions_ledger_id_fkey", references (fun t => [t_LedgerID t]) (transactions db));
   ("holds_ledger_id_fkey", references (fun r => [h_LedgerID (hr_Hold r)]) (holds db))]%string.

Definition ledger_statements : list (delete_statement DB) :=
  [("postings", delete_list pr_TenantID p_tenant postings set_postings);
   ("idempotency_keys", delete_from (fun k _ => k.1) p_tenant idempotency_keys set_idempotency_keys no_refs);
   ("holds", delete_from (fun _ r => h_TenantID (hr_Hold r)) p_tenant holds set_holds no_refs);
   ("account_balances", delete_from (fun _ r => br_TenantID r) p_tenant account_balances set_account_balances no_refs);
   ("transactions", delete_from (fun _ t => t_TenantID t) p_tenant transactions set_transactions transaction_refs);
   ("accounts", delete_from (fun _ a => a_TenantID a) p_tenant accounts set_accounts account_refs);
   ("ledgers", delete_from (fun _ l => l_TenantID l) p_tenant ledgers set_ledgers ledger_refs);
   ("outbox", delete_list ob_TenantID p_tenant outbox set_outbox)]%string.

Definition owns_live (db : DB) : bool :=
  exists_in (fun l => bool_decide (l_TenantID l = p_tenant /\ l_Environment l = EnvLive)) (ledgers db).

(** The function runs as [ledgercore_maint], which the append-only guards let
    through. *)
Definition purge_expired_sandbox_tenant (db : DB) : result error (Z * DB) :=
  if owns_live db then Err ErrOther
  else
    '(counts, db) ← run_statements ledger_statements db;
    Ok (total counts, db).
End Ledger.

Definition PurgeTenant (tenantID : uuid) (db : DB) : result error (Z * DB) :=
  WithTenantTx tenantID (fun st =>
    '(n, db) ← purge_expired_sandbox_tenant tenantID (tx_db st);
    Ok (n, mkTx db (touched st) (supply st) (clock st))) [] 0 db.

(** ** Reconciliation *)

Definition recon_purge_statements (tenant : uuid) : list (delete_statement ReconDB) :=
  [("discrepancies", delete_from (fun _ d => d_TenantID d) tenant discrepancies set_discrepancies no_refs);
   ("reconciliation_runs", delete_from (fun _ r => r_TenantID r) tenant runs set_runs (fun db =>
      [("discrepancies_run_id_fkey", references (fun d => [d_RunID d]) (discrepancies db))]));
   ("external_transactions", delete_from (fun _ x => x_TenantID x) tenant externals set_externals no_refs);
   ("imports", delete_from (fun _ i => i_TenantID i) tenant imports set_imports (fun db =>
      [("external_transactions_import_id_fkey", references (fun x => [x_ImportID x]) (externals db))]));
   ("sources", delete_from (fun _ s => s_TenantID s) tenant sources set_sources (fun db =>
      [("imports_source_id_fkey", references (fun i => [i_SourceID i]) (imports db));
       ("external_transactions_source_id_fkey", references (fun x => [x_SourceID x]) (externals db));
       ("reconciliation_runs_source_id_fkey", references (fun r => [r_SourceID r]) (runs db))]));
   ("ledger_entries_mirror", delete_from (fun _ e => m_TenantID e) tenant mirror set_mirror no_refs);
   ("outbox", delete_list (fun r => env_TenantID (ro_Envelope r)) tenant recon_outbox set_recon_outbox)]%string.

(** [purge.Tenant] in its transaction. *)
Definition Tenant_ {S} (statements : uuid -> list (delete_statement S)) (tenantID : uuid) (db : S) : result error (Z * S) :=
  if tenantID =? uuid_Nil then Err ErrOther
  else
    '(counts, db) ← run_statements (statements tenantID) db;
    Ok (total counts, db).

Definition recon_purge : uuid -> ReconDB -> result error (Z * ReconDB) := Tenant_ recon_purge_statements.

(** ** Webhooks *)

(** Deleting a subscription deletes its deliveries. *)
Definition delete_subscriptions (tenant : uuid) (db : WebhookDB) : result error (Z * WebhookDB) :=
  let kept := spare (fun _ s => sub_TenantID s) tenant (subscriptions db) in
  Ok (Z.of_nat (size (subscriptions db) - size kept),
      mkWebhookDB kept (filter (fun p => is_gone (fun _ s => sub_TenantID s) tenant (subscriptions db)
                                           (dl_SubscriptionID p.2) = false) (deliveries db))).

Definition webhooks_purge_statements (tenant : uuid) : list (delete_statement WebhookDB) :=
  [("deliveries", delete_from (fun _ d => dl_TenantID d) tenant deliveries set_deliveries no_refs);
   ("subscriptions", delete_subscriptions tenant)]%string.

Definition webhooks_purge : uuid -> WebhookDB -> result error (Z * WebhookDB) := Tenant_ webhooks_purge_statements.

(** ** What is left *)

Definition ledger_without (t : uuid) (db : DB) : DB :=
  mkDB (spare (fun _ l => l_TenantID l) t (ledgers db)) (spare (fun _ a => a_TenantID a) t (accounts db))
    (spare (fun _ x => t_TenantID x) t (transactions db)) (spare_list pr_TenantID t (postings db))
    (spare (fun _ r => br_TenantID r) t (account_balances db)) (spare (fun _ r => h_TenantID (hr_Hold r)) t (holds db))
    (spare (fun k _ => k.1) t (idempotency_keys db)) (spare_list ob_TenantID t (outbox db)).

Definition recon_without (t : uuid) (db : ReconDB) : ReconDB :=
  mkReconDB (spare (fun _ s => s_TenantID s) t (sources db)) (spare (fun _ i => i_TenantID i) t (imports db))
    (spare (fun _ x => x_TenantID x) t (externals db)) (spare (fun _ e => m_TenantID e) t (mirror db))
    (spare (fun _ r => r_TenantID r) t (runs db)) (spare (fun _ d => d_TenantID d) t (discrepancies db))
    (spare_list (fun r => env_TenantID (ro_Envelope r)) t (recon_outbox db)).

Definition webhooks_without (t : uuid) (db : WebhookDB) : WebhookDB :=
  mkWebhookDB (spare (fun _ s => sub_TenantID s) t (subscriptions db)) (spare (fun _ d => dl_TenantID d) t (deliveries db)).

(** ** Lemmas on deletions *)

Section DeleteLemmas.
Context {K V : Type} `{Countable K}.
Implicit Types (tenantOf : K -> V -> uuid) (m : gmap K V).

Lemma spare_lookup tenantOf t m k v : spare tenantOf t m !! k = Some v <-> m !! k = Some v /\ tenantOf k v <> t.
Proof. unfold spare. by rewrite map_lookup_filter_Some. Qed.

Lemma spare_idem tenantOf t m : spare tenantOf t (spare tenantOf t m) = spare tenantOf t m.
Proof.
  apply map_eq. intros k. apply option_eq. intros v. rewrite !spare_lookup. tauto.
Qed.

Lemma is_gone_true tenantOf t m k : is_gone tenantOf t m k = true <-> exists v, m !! k = Some v /\ tenantOf k v = t.
Proof.
  unfold is_gone. destruct (m !! k) as [v|]; [rewrite bool_decide_eq_true|]; [|naive_solver].
  split; [by exists v|]. by intros (v' & [= <-] & ?).
Qed.

(** A deletion goes through when no remaining row refers to a row it deletes. *)
Lemma delete_from_ok {S} tenantOf t (get : S -> gmap K V) set refs db :
  Forall (fun r => forall id v, id ∈ r.2 -> get db !! id = Some v -> tenantOf id v <> t)
    (refs (set (spare tenantOf t (get db)) db)) ->
  exists n, delete_from tenantOf t get set refs db = Ok (n, set (spare tenantOf t (get db)) db).
Proof.
  intros Hr. unfold delete_from. destruct (List.find _ _) as [[name ids]|] eqn:E; [|eauto].
  exfalso. apply find_some in E as [Hin Hex]. apply existsb_exists in Hex as (id & Hid & Hg).
  apply is_gone_true in Hg as (v & Hv & Ht). rewrite Forall_forall in Hr.
  apply (Hr (name, ids) ltac:(by apply list_elem_of_In) id v); [by apply list_elem_of_In|done|done].
Qed.
End DeleteLemmas.

Lemma spare_list_elem {A} (f : A -> uuid) t l x : x ∈ spare_list f t l <-> x ∈ l /\ f x <> t.
Proof. unfold spare_list. rewrite list_elem_of_filter. tauto. Qed.

Lemma spare_list_idem {A} (f : A -> uuid) t l : spare_list f t (spare_list f t l) = spare_list f t l.
Proof. apply list_filter_id. by intros x [_ ?]%spare_list_elem. Qed.

Lemma references_elem {V} (column : V -> list uuid) (m : gmap uuid V) id :
  id ∈ references column m <-> exists k v, m !! k = Some v /\ id ∈ column v.
Proof.
  unfold references. rewrite list_elem_of_In, in_flat_map. split.
  - intros (v & Hin & Hid%list_elem_of_In). apply in_map_iff in Hin as ([k v'] & <- & Hin).
    apply list_elem_of_In, elem_of_map_to_list in Hin. by exists k, v'.
  - intros (k & v & Hm & Hid). exists v. split; [|by apply list_elem_of_In].
    apply in_map_iff. exists (k, v). split; [done|]. by apply list_elem_of_In, elem_of_map_to_list.
Qed.

Lemma optional_elem o id : id ∈ optional o <-> o = Some id.
Proof. destruct o; cbn; set_solver. Qed.

(** Statements one after the other. *)
Lemma run_statements_cons {S} (table : string) (del : S -> result error (Z * S)) rest db db1 db2 :
  (exists n, del db = Ok (n, db1)) -> (exists counts, run_statements rest db1 = Ok (counts, db2)) ->
  exists counts, run_statements ((table, del) :: rest) db = Ok (counts, db2).
Proof.
  intros [n Hd] [counts Hr]. exists ((table, n) :: counts). cbn. rewrite Hd. cbn. by rewrite Hr.
Qed.

(** ** Deliveries *)

(** What holds before a delivery and after every successful purge holds after it. *)
Lemma SubscribeTenantExpired_keeps {S D} (P : S -> Prop) purge (msg : option (Envelope D)) (db : S) a db' :
  P db -> (forall t n db1, purge t db = Ok (n, db1) -> P db1) ->
  SubscribeTenantExpired purge msg db = (a, db') -> P db'.
Proof.
  intros HP Hp Hr. unfold SubscribeTenantExpired in Hr. destruct msg as [env|]; [|by injection Hr as <- <-].
  destruct (negb _); [by injection Hr as <- <-|]. destruct (_ =? _); [by injection Hr as <- <-|].
  destruct (purge _ db) as [[n db1]|e] eqn:E; [|by injection Hr as <- <-]. injection Hr as <- <-. by eapply Hp.
Qed.

(** The delivery of an announcement. *)
Lemma SubscribeTenantExpired_announced {S D} purge (env : Envelope D) (db : S) :
  env_Type env = TopicTenantExpired -> env_TenantID env <> uuid_Nil ->
  SubscribeTenantExpired purge (Some env) db =
    match purge (env_TenantID env) db with Ok (_, db') => (Ack, db') | Err _ => (Nak, db) end.
Proof.
  intros Ht Hn. unfold SubscribeTenantExpired. rewrite bool_decide_eq_true_2 by done. cbn [negb].
  by rewrite (proj2 (Z.eqb_neq _ _)).
Qed.
