(* ===== verification/PurgeLedger.v ===== *)
(** * The purge of the ledger

    On every reachable database the purge either refuses a tenant with a live
    ledger or leaves exactly the rows of the other tenants; no foreign key stands
    in its way, and every invariant survives it. *)

From Stdlib Require Import Ascii String ZArith Lia.
From S2P Require Import Prelude Strconv Errors Money LedgerDomain LedgerEvents LedgerDb Httpx.
From S2P Require Import LedgerStore LedgerReports LedgerService LedgerSpec LedgerInv.
From S2P Require Import LedgerBalance LedgerLinks LedgerRefine TxMonad Ident ReconMirror Purge.
Local Open Scope Z_scope.

(** Takes apart membership in a list of references. *)
Ltac refs_cases :=
  let id := fresh "id" in let v := fresh "v" in let Hid := fresh "Hid" in let Hv := fresh "Hv" in
  repeat (apply Forall_cons; split; [intros id v Hid Hv; cbn in Hid, Hv|]); [..|apply Forall_nil_2].

Section Purge.
Variables (t : uuid) (db : DB).
Hypothesis I : Inv db.

(** The tables when the transactions are deleted: what refers to them is gone. *)
Definition before_transactions : DB :=
  set_account_balances (spare (fun _ r => br_TenantID r) t (account_balances db))
    (set_holds (spare (fun _ r => h_TenantID (hr_Hold r)) t (holds db))
      (set_idempotency_keys (spare (fun k _ => k.1) t (idempotency_keys db))
        (set_postings (spare_list pr_TenantID t (postings db)) db))).

Lemma transactions_deletable :
  exists n, delete_from (fun _ x => t_TenantID x) t transactions set_transactions transaction_refs before_transactions =
    Ok (n, set_transactions (spare (fun _ x => t_TenantID x) t (transactions before_transactions)) before_transactions).
Proof.
  apply delete_from_ok. refs_cases.
  - apply list_elem_of_fmap in Hid as (r & -> & [Hr Ht]%spare_list_elem).
    destruct (wf_postings _ (inv_wf _ I) r Hr) as (_ & _ & x & Hx & E & _). congruence.
  - apply references_elem in Hid as (k & r & [Hr Ht]%spare_lookup & Hc%optional_elem).
    destruct (inv_captures _ I _ _ _ Hr Hc) as (x & Hx & E). congruence.
  - apply references_elem in Hid as (k & x & [Hx Ht]%spare_lookup & Hc%optional_elem).
    destruct (inv_reversals _ I _ _ Hx) as [Hr _]. destruct (Hr _ Hc) as (rev & Hrev & _ & E & _). congruence.
  - apply references_elem in Hid as (k & x & [Hx Ht]%spare_lookup & Hc%optional_elem).
    destruct (inv_reversals _ I _ _ Hx) as [_ Ho]. destruct (Ho _ Hc) as (o & Ho' & Hob).
    destruct (inv_reversals _ I _ _ Ho') as [Hr _]. destruct (Hr _ Hob) as (x' & Hx' & _ & E & _). congruence.
Qed.

Lemma purge_statements_run : exists counts, run_statements (ledger_statements t) db = Ok (counts, ledger_without t db).
Proof.
  unfold ledger_statements. pose proof (inv_wf _ I) as W.
  do 4 (eapply run_statements_cons; [first [apply delete_from_ok; constructor|by eexists]|]).
  eapply run_statements_cons; [apply transactions_deletable|].
  eapply run_statements_cons; [apply delete_from_ok; refs_cases|].
  - apply list_elem_of_fmap in Hid as (r & -> & [Hr Ht]%spare_list_elem).
    destruct (wf_postings _ W r Hr) as (_ & _ & x & _ & _ & _ & a & Ha & E & _). congruence.
  - apply list_elem_of_fmap in Hid as ([k r] & -> & [Hr Ht]%elem_of_map_to_list%spare_lookup).
    destruct (wf_balances _ W _ _ Hr) as (_ & a & Ha & E). cbn in *. congruence.
  - apply references_elem in Hid as (k & r & [Hr Ht]%spare_lookup & ->%list_elem_of_singleton).
    destruct (wf_holds _ W _ _ Hr) as (_ & _ & a & Ha & E & _). congruence.
  - eapply run_statements_cons; [apply delete_from_ok; refs_cases|].
    + apply references_elem in Hid as (k & a & [Ha Ht]%spare_lookup & ->%list_elem_of_singleton).
      destruct (wf_accounts _ W _ _ Ha) as (_ & _ & l & Hl & E). congruence.
    + apply references_elem in Hid as (k & x & [Hx Ht]%spare_lookup & ->%list_elem_of_singleton).
      destruct (wf_transactions _ W _ _ Hx) as (_ & _ & _ & (l & Hl & E) & _). congruence.
    + apply references_elem in Hid as (k & r & [Hr Ht]%spare_lookup & ->%list_elem_of_singleton).
      destruct (wf_holds _ W _ _ Hr) as (_ & _ & a & Ha & E & El).
      destruct (wf_accounts _ W _ _ Ha) as (_ & _ & l & Hl & E'). rewrite El in Hl. congruence.
    + eapply run_statements_cons; [by eexists|]. by exists [].
Qed.


(** ** The invariants of what is left *)

Lemma rows_without id x : transactions db !! id = Some x -> t_TenantID x <> t -> rows_of (ledger_without t db) id = rows_of db id.
Proof.
  intros Hx Hn. unfold rows_of, ledger_without, spare_list. cbn. rewrite list_filter_filter.
  apply filter_same. intros r Hr. split; [tauto|]. intros E. split; [done|].
  destruct (wf_postings _ (inv_wf _ I) r Hr) as (_ & _ & x' & Hx' & Et & _). congruence.
Qed.

Lemma wf_without : wf (ledger_without t db).
Proof.
  pose proof (inv_wf _ I) as W. split; cbn.
  - intros id l [Hl _]%spare_lookup. by apply (wf_ledgers _ W).
  - intros id a [Ha Ht]%spare_lookup. destruct (wf_accounts _ W _ _ Ha) as (? & ? & l & Hl & E).
    split_and!; [done..|]. exists l. split; [|done]. apply spare_lookup. split; [done|congruence].
  - intros id x [Hx Ht]%spare_lookup. destruct (wf_transactions _ W _ _ Hx) as (? & ? & ? & (l & Hl & E) & Hr).
    unfold transaction_wf. rewrite (rows_without id x Hx Ht). split_and!; [done..| |apply Hr|apply Hr].
    exists l. split; [|done]. apply spare_lookup. split; [done|congruence].
  - intros r [Hr Ht]%spare_list_elem. destruct (wf_postings _ W r Hr) as (? & ? & x & Hx & E & ? & a & Ha & E' & ?).
    split_and!; [lia|lia|done|]. exists x. split_and!; [apply spare_lookup; split; [done|congruence]|done|done|].
    exists a. split_and!; [apply spare_lookup; split; [done|congruence]|done|done].
  - eapply sublist_NoDup; [apply (wf_posting_ids _ W)|]. apply (fmap_sublist pr_ID), sublist_filter.
  - intros id r [Hr Ht]%spare_lookup. destruct (wf_holds _ W _ _ Hr) as (? & ? & a & Ha & E & El).
    split_and!; [done|tauto|tauto|]. exists a. split; [|done]. apply spare_lookup. split; [done|congruence].
  - intros k r [Hr Ht]%spare_lookup. destruct (wf_balances _ W _ _ Hr) as (? & a & Ha & E).
    split; [done|]. exists a. split; [|done]. apply spare_lookup. split; [done|congruence].
Qed.

Lemma status_without r : r ∈ postings db -> pr_TenantID r <> t ->
  status_of (ledger_without t db) (pr_TransactionID r) = status_of db (pr_TransactionID r).
Proof.
  intros Hr Hn. destruct (wf_postings _ (inv_wf _ I) r Hr) as (_ & _ & x & Hx & E & _).
  unfold status_of, ledger_without. cbn. rewrite Hx.
  assert (E1 : spare (fun _ x => t_TenantID x) t (transactions db) !! pr_TransactionID r = Some x)
    by (apply spare_lookup; split; [done|congruence]). by rewrite E1.
Qed.

(** The rows that count under a key are those of the tenant of its account. *)
Definition erased (k : uuid * string) : Prop := exists a, accounts db !! k.1 = Some a /\ a_TenantID a = t.

#[local] Instance erased_dec k : Decision (erased k).
Proof.
  unfold erased. destruct (accounts db !! k.1) as [a|]; [|right; naive_solver].
  destruct (decide (a_TenantID a = t)); [left; eauto|right; naive_solver].
Qed.

Lemma erased_of k a t' : accounts db !! k.1 = Some a -> a_TenantID a = t' -> erased k <-> t' = t.
Proof.
  intros Ha <-. split; [intros (a' & Ha' & <-); congruence|]. intros E. by exists a.
Qed.

Lemma posted_sum_without c k :
  posted_sum (ledger_without t db) c k = if decide (erased k) then 0 else posted_sum db c k.
Proof.
  unfold posted_sum, ledger_without. cbn [postings]. fold (ledger_without t db). unfold spare_list. rewrite sumZ_filter.
  assert (Hk : forall r, r ∈ postings db -> pkey (posting_of_row r) = k -> erased k <-> pr_TenantID r = t).
  { intros r Hr <-. destruct (wf_postings _ (inv_wf _ I) r Hr) as (_ & _ & x & _ & _ & _ & a & Ha & E & _).
    by apply (erased_of _ a). }
  case_decide as He; [apply sumZ_zero|apply sumZ_ext]; intros r Hr; specialize (Hk r Hr); case_decide as Hn.
  - unfold contrib. case_decide as Ek; [|done]. by destruct Hn; apply Hk.
  - done.
  - unfold status_of. fold (status_of (ledger_without t db) (pr_TransactionID r)). by rewrite status_without.
  - unfold contrib. case_decide as Ek; [|done]. destruct He. by apply Hk.
Qed.

Lemma held_sum_without k : held_sum (ledger_without t db) k = if decide (erased k) then 0 else held_sum db k.
Proof.
  unfold held_sum, ledger_without. cbn [holds]. unfold spare. rewrite map_to_list_filter, sumZ_filter.
  assert (Hk : forall kr, kr ∈ map_to_list (holds db) ->
            (h_AccountID (hr_Hold kr.2), Asset (h_Amount (hr_Hold kr.2))) = k ->
            erased k <-> h_TenantID (hr_Hold kr.2) = t).
  { intros [id r] Hr%elem_of_map_to_list <-. destruct (wf_holds _ (inv_wf _ I) _ _ Hr) as (_ & _ & a & Ha & E & _).
    by apply (erased_of _ a). }
  case_decide as He; [apply sumZ_zero|apply sumZ_ext]; intros kr Hr; specialize (Hk kr Hr); case_decide as Hn.
  - unfold hold_contrib. case_decide as Ek; [|done]. destruct Hn. apply Hk; [apply Ek|exact He].
  - done.
  - done.
  - unfold hold_contrib. case_decide as Ek; [|done]. destruct He. apply Hk; [apply Ek|exact Hn].
Qed.

Lemma consistent_without : consistent (ledger_without t db).
Proof.
  intros c k. transitivity (if decide (erased k) then 0 else stored c (account_balances db) k).
  - unfold stored, ledger_without. cbn [account_balances].
    destruct (account_balances db !! k) as [r|] eqn:Er.
    + destruct (wf_balances _ (inv_wf _ I) _ _ Er) as (_ & a & Ha & E). case_decide as He.
      * destruct (spare _ t (account_balances db) !! k) eqn:E'; [|done]. apply spare_lookup in E' as [E' Hn].
        destruct He as (a' & Ha' & ?). congruence.
      * assert (E' : spare (fun _ r => br_TenantID r) t (account_balances db) !! k = Some r); [|by rewrite E'].
        apply spare_lookup. split; [done|]. intros Ht. destruct He. exists a. split; [done|congruence].
    + destruct (spare _ t (account_balances db) !! k) eqn:E'; [|by case_decide].
      apply spare_lookup in E' as [E' _]. congruence.
  - rewrite (inv_consistent _ I c k). unfold computed.
    destruct c; by rewrite ?posted_sum_without, ?held_sum_without.
Qed.

Lemma reversals_without : reversals_ok (ledger_without t db).
Proof.
  intros id x [Hx Ht]%spare_lookup. destruct (inv_reversals _ I _ _ Hx) as [Hb Ho]. split.
  - intros rid E. destruct (Hb rid E) as (rev & Hr & E1 & E2 & E3 & Hc). exists rev.
    assert (Hn : t_TenantID rev <> t) by congruence.
    split_and!; [by apply spare_lookup|done..|]. intros k.
    by rewrite (rows_without rid rev Hr Hn), (rows_without id x Hx Ht).
  - intros oid E. destruct (Ho oid E) as (o & Hoid & Hb'). exists o. split; [|done]. apply spare_lookup. split; [done|].
    destruct (inv_reversals _ I _ _ Hoid) as [Hr _]. destruct (Hr _ Hb') as (x' & Hx' & _ & E2 & _). congruence.
Qed.

Lemma keys_without : keys_ok (ledger_without t db).
Proof.
  destruct (inv_keys _ I) as [K1 K2]. split.
  - intros id x [Hx Ht]%spare_lookup. destruct (K1 id x Hx) as (row & Hr & E). exists row.
    split; [by apply spare_lookup|done].
  - intros tenant key row [Hr Ht]%spare_lookup. destruct (K2 _ _ _ Hr) as (Hl & x & Hx & E1 & E2).
    split; [done|]. exists x. split; [|done]. apply spare_lookup. cbn in Ht. split; [done|congruence].
Qed.

Lemma count_without f id : (forall r, f r = true -> is_posted_event id r || is_reversed_event id r = true) ->
  count_events f (spare_list ob_TenantID t (outbox db)) =
    match spare (fun _ x => t_TenantID x) t (transactions db) !! id with Some _ => count_events f (outbox db) | None => 0 end.
Proof.
  intros Hf. unfold count_events, spare_list. rewrite sumZ_filter.
  assert (Ho : forall r, r ∈ outbox db -> f r = true ->
            ob_TenantID r <> t <-> is_Some (spare (fun _ x => t_TenantID x) t (transactions db) !! id)).
  { intros r Hr He. destruct (inv_owners _ I r id Hr (Hf r He)) as (x & Hx & E). split.
    - intros Hn. exists x. apply spare_lookup. split; [done|congruence].
    - intros [x' [Hx' Hn]%spare_lookup]. congruence. }
  destruct (spare _ t (transactions db) !! id) as [x|] eqn:Ex; [apply sumZ_ext|apply sumZ_zero];
    intros r Hr; specialize (Ho r Hr); destruct (f r); try (by case_decide); specialize (Ho eq_refl).
  - rewrite decide_True; [done|]. by apply Ho.
  - rewrite decide_False; [done|]. intros Hn. by apply Ho in Hn as [? [=]].
Qed.

Lemma events_without : events_ok (ledger_without t db).
Proof.
  intros id. destruct (inv_events _ I id) as [E1 E2]. unfold expected_posted, expected_reversed in *.
  unfold ledger_without. cbn [outbox transactions].
  rewrite (count_without _ id), (count_without _ id), E1, E2
    by (intros r Hr; rewrite Hr; first [done|apply orb_true_r]).
  destruct (spare _ t (transactions db) !! id) as [x|] eqn:Ex; [|done]. apply spare_lookup in Ex as [-> _]. done.
Qed.

Lemma Inv_without : Inv (ledger_without t db).
Proof.
  split; [apply wf_without|apply consistent_without|apply reversals_without|apply keys_without| |apply events_without| |].
  - intros id id' r r' [Hr _]%spare_lookup [Hr' _]%spare_lookup. by apply (inv_hold_keys _ I).
  - intros id r tid [Hr Ht]%spare_lookup Hc. destruct (inv_captures _ I _ _ _ Hr Hc) as (x & Hx & E).
    exists x. split; [|done]. apply spare_lookup. split; [done|congruence].
  - intros r id [Hr Ht]%spare_list_elem He. destruct (inv_owners _ I _ _ Hr He) as (x & Hx & E).
    exists x. split; [|done]. apply spare_lookup. split; [done|congruence].
Qed.

(** The purge refuses a tenant with a live ledger and otherwise never fails. *)
Lemma PurgeTenant_run :
  if decide (t = uuid_Nil \/ owns_live t db = true) then PurgeTenant t db = Err ErrOther
  else exists n, PurgeTenant t db = Ok (n, ledger_without t db).
Proof.
  destruct purge_statements_run as [counts Hrun]. unfold PurgeTenant, WithTenantTx, purge_expired_sandbox_tenant. cbn [tx_db].
  destruct (Z.eqb_spec t uuid_Nil) as [->|Hn]; [by rewrite decide_True by auto|].
  destruct (owns_live t db); [by rewrite decide_True by auto|]. rewrite decide_False by naive_solver.
  rewrite Hrun. cbn. by eexists.
Qed.
End Purge.

Lemma ledger_without_idem t db : ledger_without t (ledger_without t db) = ledger_without t db.
Proof. unfold ledger_without. cbn [ledgers accounts transactions postings account_balances holds idempotency_keys outbox]. f_equal; first [apply spare_idem|apply spare_list_idem]. Qed.

Lemma owns_live_without t db : owns_live t (ledger_without t db) = false.
Proof.
  apply not_true_iff_false. unfold owns_live, exists_in. rewrite existsb_exists. intros ([id l] & Hin & Hl).
  apply list_elem_of_In, elem_of_map_to_list, spare_lookup in Hin as [_ Ht].
  apply bool_decide_eq_true in Hl as [Hl _]. done.
Qed.

(** ** The ledger with purges in its life *)

Section Life.
Context `{Render, Digest}.

(** Calls and deliveries of expiry messages, any message any number of times. *)
Inductive ledger_life : DB -> Prop :=
| life_empty : ledger_life empty_db
| life_call db seen tenant r ids now resp db' :
    ledger_life db -> request_wf r -> exec seen tenant r ids now db = Ok (resp, db') -> ledger_life db'
| life_purge {D} db (msg : option (Envelope D)) a db' :
    ledger_life db -> SubscribeTenantExpired PurgeTenant msg db = (a, db') -> ledger_life db'.

Lemma ledger_life_inv db : ledger_life db -> Inv db.
Proof.
  induction 1 as [|db seen tenant r ids now resp db' _ I Hwf Hrun|D db msg a db' _ I Hrun]; [apply Inv_empty| |].
  - destruct (exec_change _ _ _ _ _ _ _ _ I Hwf Hrun) as [-> | C]; [done|by eapply Inv_change].
  - eapply SubscribeTenantExpired_keeps; [exact I| |exact Hrun]. intros t n db1 Hp.
    pose proof (PurgeTenant_run t db I) as Hr. rewrite Hp in Hr. case_decide; [done|].
    destruct Hr as [n' [= <- ->]]. by apply Inv_without.
Qed.
End Life.
