(* ===== verification/PurgeSatellites.v ===== *)
(** * The purges of reconciliation and webhooks

    References of the reconciliation tables never leave their tenant, so its
    purge is never stopped by a foreign key; both purges leave the rows of the
    other tenants and keep the invariants, with every step of the services
    interleaved. *)

From Stdlib Require Import Ascii String ZArith Lia.
From S2P Require Import Prelude Strconv Errors Money LedgerDomain LedgerEvents Httpx Recon ReconMatch.
From S2P Require Import TxMonad ReconStore ReconRun ReconInv ReconMirror.
From S2P Require Import Signature Keycrypt Webhooks WebhooksStore WebhooksService WebhooksInv WebhooksWorld.
From S2P Require Import Ident PurgeLedger Purge.
Local Open Scope Z_scope.

(** ** References of the reconciliation tables *)

Definition source_of (db : ReconDB) (tenant id : uuid) : Prop :=
  exists s, sources db !! id = Some s /\ s_TenantID s = tenant.
Definition import_of (db : ReconDB) (tenant id : uuid) : Prop :=
  exists i, imports db !! id = Some i /\ i_TenantID i = tenant.

Record RRefs (db : ReconDB) : Prop := {
  rr_imports id i : imports db !! id = Some i -> source_of db (i_TenantID i) (i_SourceID i);
  rr_externals id x : externals db !! id = Some x ->
    import_of db (x_TenantID x) (x_ImportID x) /\ source_of db (x_TenantID x) (x_SourceID x);
  rr_runs id r : runs db !! id = Some r -> source_of db (r_TenantID r) (r_SourceID r) }.

Lemma RRefs_empty : RRefs empty_recon.
Proof. by split; intros ? ?; cbn; rewrite lookup_empty. Qed.

(** Rows may be added as long as the new ones refer to their tenant. *)
Lemma RRefs_grow db db' :
  RRefs db -> sources db ⊆ sources db' -> imports db ⊆ imports db' ->
  (forall id i, imports db' !! id = Some i -> imports db !! id = Some i \/ source_of db' (i_TenantID i) (i_SourceID i)) ->
  (forall id x, externals db' !! id = Some x ->
     (exists x0, externals db !! id = Some x0 /\ x_TenantID x = x_TenantID x0 /\ x_ImportID x = x_ImportID x0 /\
        x_SourceID x = x_SourceID x0) \/
     import_of db' (x_TenantID x) (x_ImportID x) /\ source_of db' (x_TenantID x) (x_SourceID x)) ->
  (forall id r, runs db' !! id = Some r -> runs db !! id = Some r \/ source_of db' (r_TenantID r) (r_SourceID r)) ->
  RRefs db'.
Proof.
  intros R Hs Hi HI HX HR.
  assert (GS : forall t id, source_of db t id -> source_of db' t id)
    by (intros t id (s & Hl & E); exists s; split; [by eapply lookup_weaken|done]).
  assert (GI : forall t id, import_of db t id -> import_of db' t id)
    by (intros t id (s & Hl & E); exists s; split; [by eapply lookup_weaken|done]).
  split.
  - intros id i Hl. destruct (HI id i Hl) as [Hl'|?]; [|done]. by eapply GS, rr_imports.
  - intros id x Hl. destruct (HX id x Hl) as [(x0 & Hl' & -> & -> & ->)|?]; [|done].
    destruct (rr_externals _ R id x0 Hl'). auto.
  - intros id r Hl. destruct (HR id r Hl) as [Hl'|?]; [|done]. by eapply GS, rr_runs.
Qed.

Section Preserved.
Context `{Supply, Render}.

(** The part of the tables the references live in. *)
Definition linked (db : ReconDB) := (sources db, imports db, externals db, runs db).

Lemma RRefs_linked db db' : linked db' = linked db -> RRefs db -> RRefs db'.
Proof.
  unfold linked. intros [= E1 E2 E3 E4] [R1 R2 R3]. unfold source_of, import_of in *.
  split; unfold source_of, import_of; rewrite ?E1, ?E2, ?E3, ?E4; done.
Qed.

Lemma keeps_linked_mirror tenant entries : keeps linked (InsertMirrorEntries tenant entries).
Proof.
  unfold InsertMirrorEntries, insert_mirror, ReconStore.owned. frame.
Qed.

Lemma keeps_linked_triage tenant id status note : keeps linked (svc_UpdateDiscrepancy tenant id status note).
Proof. unfold svc_UpdateDiscrepancy, GetDiscrepancy, UpdateDiscrepancy_. frame. Qed.

Lemma find_source_of tenant id (db : ReconDB) s : find_source tenant id db = Some s -> source_of db tenant id.
Proof.
  unfold find_source, source_of. destruct (sources db !! id) as [s'|]; cbn; [|done].
  destruct (decide (s_TenantID s' = tenant)); [|done]. by exists s'.
Qed.

Lemma CreateSource_refs tenant name kind (st : UseState ReconDB) s st' :
  RRefs (u_db st) -> CreateSource tenant name kind st = Ok (s, st') -> RRefs (u_db st').
Proof.
  intros R Hr. unfold CreateSource, within in Hr.
  apply use_bind_ok in Hr as (? & st1 & [_ ->]%require_ok & Hr).
  apply use_bind_ok in Hr as (? & st2 & [_ ->]%require_ok & Hr).
  apply use_bind_ok in Hr as (id & st3 & Hid%newV7_or_V4_ok & Hr).
  apply use_bind_ok in Hr as (t & st4 & Hclk%now_ok & Hr). cbv zeta in Hr.
  apply use_bind_ok in Hr as (? & st5 & Hi & Hr). inv_use Hr.
  apply use_bind_ok in Hi as (? & st6 & [_ ->]%require_ok & Hi).
  unfold InsertSource, ReconStore.owned, require_fresh in Hi. inv_use Hi. rewrite Hclk, Hid in *.
  eapply RRefs_grow; [exact R|cbn; by apply insert_subseteq|done|auto| |auto].
  intros i y Hy. left. by exists y.
Qed.

Lemma InsertImport_refs tenant imp (st : UseState ReconDB) u st' :
  RRefs (u_db st) -> source_of (u_db st) tenant (i_SourceID imp) -> InsertImport tenant imp st = Ok (u, st') ->
  RRefs (u_db st') /\ import_of (u_db st') tenant (i_ID imp) /\ source_of (u_db st') tenant (i_SourceID imp).
Proof.
  intros R Hs Hi. unfold InsertImport, ReconStore.owned, require_fresh in Hi. inv_use Hi.
  split; [|split; [eexists; cbn; by rewrite lookup_insert_eq|done]].
  eapply RRefs_grow; [exact R|done|cbn; by apply insert_subseteq| | |auto].
  - cbn. intros id i [[<- <-]|[_ Hl]]%lookup_insert_Some; [right; exact Hs|by left].
  - intros i y Hy. left. by exists y.
Qed.

Lemma InsertExternals_refs tenant txs (st : UseState ReconDB) u st' :
  Forall (fun x => import_of (u_db st) tenant (x_ImportID x) /\ source_of (u_db st) tenant (x_SourceID x)) txs ->
  RRefs (u_db st) -> InsertExternalTransactions tenant txs st = Ok (u, st') -> RRefs (u_db st').
Proof.
  revert st. induction txs as [|x txs IH]; intros st Hall R Hr; cbn [InsertExternalTransactions each] in Hr.
  - by inv_use Hr.
  - apply Forall_cons in Hall as [[Hi Hs] Hall]. apply use_bind_ok in Hr as (v & st1 & Hx & Hr).
    unfold insert_external, ReconStore.owned, require_fresh in Hx. inv_use Hx.
    eapply IH; [| |exact Hr]; [exact Hall|].
    eapply RRefs_grow; [exact R|done|done|auto| |auto].
    cbn. intros id y [[<- <-]|[_ Hl]]%lookup_insert_Some; [right; by split|left; by exists y].
Qed.

Lemma new_externals_refs tenant source imp rs (st : UseState ReconDB) txs st' :
  collect_each rs (fun row => xid ← newV7_or_V4; mret (new_external tenant source imp xid row)) st
    = Ok (txs, st') ->
  u_db st' = u_db st /\ Forall (fun x => x_ImportID x = imp /\ x_SourceID x = source) txs.
Proof.
  apply (collect_each_ok _ (fun _ txs st1 => u_db st1 = u_db st /\
    Forall (fun x => x_ImportID x = imp /\ x_SourceID x = source) txs)); [|done].
  intros row dn bs x s1 s2 [E HF] Hr. apply use_bind_ok in Hr as (id & s3 & Hid & Hr).
  apply newV7_or_V4_ok in Hid. inv_use Hr. split; [congruence|].
  apply Forall_app. split; [done|]. by repeat constructor.
Qed.

Lemma ImportStatement_refs pt tenant src fn body (st : UseState ReconDB) imp st' :
  RRefs (u_db st) -> ImportStatement pt tenant src fn body st = Ok (imp, st') -> RRefs (u_db st').
Proof.
  intros R Hr. unfold ImportStatement, within in Hr.
  apply use_bind_ok in Hr as (? & st1 & [_ ->]%require_ok & Hr). cbv zeta in Hr.
  apply use_bind_ok in Hr as (id & st2 & Hid%newV7_or_V4_ok & Hr).
  apply use_bind_ok in Hr as (t & st3 & Hclk%now_ok & Hr).
  apply use_bind_ok in Hr as (? & st4 & [_ ->]%require_ok & Hr).
  apply use_bind_ok in Hr as (s & st5 & [Hf ->]%GetSource_ok & Hr).
  assert (E : u_db st3 = u_db st) by congruence. rewrite <- E in R. clear E Hid Hclk.
  apply find_source_of in Hf.
  destruct (ParseStatementCSV _ _ _) as [rs|e].
  - apply use_bind_ok in Hr as (? & st6 & Hi & Hr). apply InsertImport_refs in Hi as (R6 & Hi6 & Hs6); [|done|done].
    apply use_bind_ok in Hr as (txs & st7 & [E HF]%new_externals_refs & Hr).
    apply use_bind_ok in Hr as (? & st8 & Hx & Hr). inv_use Hr. cbn in *.
    eapply InsertExternals_refs; [|by rewrite E|exact Hx]. rewrite E.
    eapply Forall_impl; [exact HF|]. by intros y [-> ->].
  - apply use_bind_ok in Hr as (? & st6 & Hi & Hr). inv_use Hr. by apply InsertImport_refs in Hi as (? & _).
Qed.

Lemma StartRun_refs tenant src (st : UseState ReconDB) r st' :
  RInv (u_db st) -> RRefs (u_db st) -> StartRun tenant src st = Ok (r, st') -> RRefs (u_db st').
Proof.
  intros I R Hr. apply StartRun_ok in Hr as (ds & evs & RE).
  destruct RE as [[s Rs] (Rt & Rsrc & _) Rfr Rruns (_ & _ & Rx & _) _ _ _ _ _ (S1 & S2 & _)].
  eapply RRefs_grow; [exact R|by rewrite S1|by rewrite S2|rewrite S2; auto| |].
  - rewrite Rx. intros id x Hx. left. apply (run_externals tenant src (u_db st) I) in Hx as (x0 & Hx0 & Hc).
    exists x0. split; [done|]. by destruct Hc as [->|(_ & _ & _ & _ & _ & ->)].
  - rewrite Rruns. intros id r' [[<- <-]|[_ Hl]]%lookup_insert_Some; [right|by left].
    unfold source_of. rewrite S1, Rt, Rsrc. by eapply find_source_of.
Qed.

Lemma recon_exec_refs tenant rq (st : UseState ReconDB) u st' :
  RInv (u_db st) -> RRefs (u_db st) -> recon_exec tenant rq st = Ok (u, st') -> RRefs (u_db st').
Proof.
  intros I R Hr. destruct rq; cbn [recon_exec] in Hr;
    try (apply use_bind_ok in Hr as (v & st1 & Hv & Hr); inv_use Hr).
  - by eapply CreateSource_refs.
  - by eapply ImportStatement_refs.
  - by eapply StartRun_refs.
  - eapply RRefs_linked; [|exact R]. by eapply keeps_linked_triage.
  - eapply RRefs_linked; [|exact R]. by eapply keeps_linked_mirror.
Qed.
End Preserved.

(** ** The purge of reconciliation *)

Section ReconPurge.
Variables (t : uuid) (db : ReconDB).
Hypotheses (I : RInv db) (R : RRefs db).

Lemma recon_statements_run :
  exists counts, run_statements (recon_purge_statements t) db = Ok (counts, recon_without t db).
Proof.
  unfold recon_purge_statements.
  eapply run_statements_cons; [apply delete_from_ok; constructor|].
  eapply run_statements_cons; [apply delete_from_ok; refs_cases|].
  { apply references_elem in Hid as (k & d & [Hd Ht]%spare_lookup & ->%list_elem_of_singleton).
    destruct (ri_run_of _ I _ _ Hd) as (r & Hr & E). congruence. }
  eapply run_statements_cons; [apply delete_from_ok; constructor|].
  eapply run_statements_cons; [apply delete_from_ok; refs_cases|].
  { apply references_elem in Hid as (k & x & [Hx Ht]%spare_lookup & ->%list_elem_of_singleton).
    destruct (rr_externals _ R _ _ Hx) as [(i & Hi & E) _]. congruence. }
  eapply run_statements_cons; [apply delete_from_ok; refs_cases|].
  1: { apply references_elem in Hid as (k & i & [Hi Ht]%spare_lookup & ->%list_elem_of_singleton).
    destruct (rr_imports _ R _ _ Hi) as (s & Hs & E). congruence. }
  1: { apply references_elem in Hid as (k & x & [Hx Ht]%spare_lookup & ->%list_elem_of_singleton).
    destruct (rr_externals _ R _ _ Hx) as [_ (s & Hs & E)]. congruence. }
  1: { apply references_elem in Hid as (k & r & [Hr Ht]%spare_lookup & ->%list_elem_of_singleton).
    destruct (rr_runs _ R _ _ Hr) as (s & Hs & E). congruence. }
  eapply run_statements_cons; [apply delete_from_ok; constructor|].
  eapply run_statements_cons; [by eexists|]. by exists [].
Qed.

Lemma keyed_spare {V} (idOf : V -> uuid) f (m : gmap uuid V) : keyed idOf m -> keyed idOf (spare f t m).
Proof. intros Hk id v [Hv _]%spare_lookup. by apply Hk. Qed.

Lemma event_tenant r d : r ∈ recon_outbox db -> discrepancies db !! dp_DiscrepancyID (data_of r) = Some d ->
  env_TenantID (ro_Envelope r) = d_TenantID d.
Proof. intros Hr Hd. destruct (ri_event_data _ I _ Hr) as (d' & Hd' & E & _). congruence. Qed.

Lemma RInv_without : RInv (recon_without t db).
Proof.
  destruct I as [K1 K2 K3 K4 K5 Hm Hc Hro Hnd He Hed].
  split; cbn [recon_without sources externals mirror runs discrepancies recon_outbox]; try by apply keyed_spare.
  - intros id x [Hx Ht]%spare_lookup. pose proof (Hm _ _ Hx) as Hok. unfold match_ok in *.
    destruct (x_MatchStatus x); [done| |done]. destruct Hok as (eid & e & E1 & He' & Ete & Hrest).
    exists eid, e. split_and!; try tauto. apply spare_lookup. split; [done|congruence].
  - intros id r [Hr _]%spare_lookup. by eapply Hc.
  - intros id d [Hd Ht]%spare_lookup. destruct (Hro _ _ Hd) as (r & Hr & E). exists r. split; [|done].
    apply spare_lookup. split; [done|congruence].
  - eapply sublist_NoDup; [exact Hnd|]. apply fmap_sublist, sublist_filter.
  - intros id. split.
    + intros (r & -> & [Hr Ht]%spare_list_elem)%list_elem_of_fmap.
      destruct (proj1 (He (dp_DiscrepancyID (data_of r)))) as (d & Hd & Hk); [apply list_elem_of_fmap; by exists r|].
      exists d. split; [|done]. apply spare_lookup. split; [done|]. by rewrite <- (event_tenant r d).
    + intros (d & [Hd Ht]%spare_lookup & Hk).
      pose proof (proj2 (He id) (ex_intro _ d (conj Hd Hk))) as (r & -> & Hr)%list_elem_of_fmap.
      apply list_elem_of_fmap. exists r. split; [done|]. apply spare_list_elem. split; [done|].
      by rewrite (event_tenant r d).
  - intros r [Hr Ht]%spare_list_elem. destruct (Hed r Hr) as (d & Hd & E & Hrest). exists d.
    split; [|done]. apply spare_lookup. split; [done|congruence].
Qed.

Lemma RRefs_without : RRefs (recon_without t db).
Proof.
  assert (GS : forall tn id, tn <> t -> source_of db tn id -> source_of (recon_without t db) tn id).
  { intros tn id Hn (s & Hs & E). exists s. split; [|done]. apply spare_lookup. split; [done|congruence]. }
  assert (GI : forall tn id, tn <> t -> import_of db tn id -> import_of (recon_without t db) tn id).
  { intros tn id Hn (s & Hs & E). exists s. split; [|done]. apply spare_lookup. split; [done|congruence]. }
  split.
  - intros id i [Hi Ht]%spare_lookup. by eapply GS, rr_imports.
  - intros id x [Hx Ht]%spare_lookup. destruct (rr_externals _ R _ _ Hx). auto.
  - intros id r [Hr Ht]%spare_lookup. by eapply GS, rr_runs.
Qed.

Lemma recon_purge_run :
  if decide (t = uuid_Nil) then recon_purge t db = Err ErrOther
  else exists n, recon_purge t db = Ok (n, recon_without t db).
Proof.
  destruct recon_statements_run as [counts Hrun]. unfold recon_purge, Tenant_.
  destruct (Z.eqb_spec t uuid_Nil) as [->|Hn]; [by rewrite decide_True by done|]. rewrite decide_False by done.
  rewrite Hrun. cbn. by eexists.
Qed.
End ReconPurge.

Lemma recon_without_idem t db : recon_without t (recon_without t db) = recon_without t db.
Proof.
  unfold recon_without. cbn [sources imports externals mirror runs discrepancies recon_outbox].
  f_equal; first [apply spare_idem|apply spare_list_idem].
Qed.

Section ReconLife.
Context `{Supply, Render}.

(** The service with expiry messages among its steps. *)
Inductive recon_life : ReconDB -> Prop :=
| rlife_empty : recon_life empty_recon
| rlife_step tenant rq (st st' : UseState ReconDB) :
    recon_life (u_db st) -> recon_exec tenant rq st = Ok (tt, st') -> recon_life (u_db st')
| rlife_purge {D} db (msg : option (Envelope D)) a db' :
    recon_life db -> SubscribeTenantExpired recon_purge msg db = (a, db') -> recon_life db'.

Lemma recon_life_inv db : recon_life db -> RInv db /\ RRefs db.
Proof.
  induction 1 as [|tenant rq st st' _ [I R] Hr|D db msg a db' _ [I R] Hr]; [split; [apply RInv_empty|apply RRefs_empty]| |].
  - split; [by eapply recon_exec_good|by eapply recon_exec_refs].
  - apply (SubscribeTenantExpired_keeps (fun db => RInv db /\ RRefs db) _ _ _ _ _ (conj I R)) in Hr; [exact Hr|]. intros t n db1 Hp.
    pose proof (recon_purge_run t db I R) as Hq. rewrite Hp in Hq. case_decide; [done|].
    destruct Hq as [n' [= <- ->]]. split; [by apply RInv_without|by apply RRefs_without].
Qed.
End ReconLife.

(** ** The purge of webhooks *)

Section WebhooksPurge.
Variables (t : uuid) (db : WebhookDB).
Hypothesis I : DInv db.

(** Deleting the subscriptions cascades to no delivery that is still there. *)
Lemma webhooks_statements_run :
  exists counts, run_statements (webhooks_purge_statements t) db = Ok (counts, webhooks_without t db).
Proof.
  unfold webhooks_purge_statements. eapply run_statements_cons; [apply delete_from_ok; constructor|].
  eapply run_statements_cons; [|by exists []]. eexists. unfold delete_subscriptions, webhooks_without.
  do 2 f_equal. cbn [subscriptions deliveries set_deliveries]. f_equal. apply map_filter_id.
  intros id d [Hd Ht]%spare_lookup. cbn. apply not_true_iff_false. rewrite is_gone_true.
  intros (s & Hs & E). destruct (di_sub _ I _ _ Hd) as (s' & Hs' & E'). congruence.
Qed.

Lemma DInv_without : DInv (webhooks_without t db).
Proof.
  destruct I as [K1 K2 Hs Hu Hb Ht0]. split; cbn [webhooks_without subscriptions deliveries].
  - intros id d [Hd _]%spare_lookup. auto.
  - intros id s [Hl _]%spare_lookup. auto.
  - intros id d [Hd Ht]%spare_lookup. destruct (Hs _ _ Hd) as (s & Hl & E). exists s. split; [|done].
    apply spare_lookup. split; [done|congruence].
  - intros i j d d' [Hd _]%spare_lookup [Hd' _]%spare_lookup. by apply Hu.
  - intros id d [Hd _]%spare_lookup. eauto.
  - intros id d [Hd _]%spare_lookup. eauto.
Qed.

Lemma webhooks_purge_run :
  if decide (t = uuid_Nil) then webhooks_purge t db = Err ErrOther
  else exists n, webhooks_purge t db = Ok (n, webhooks_without t db).
Proof.
  destruct webhooks_statements_run as [counts Hrun]. unfold webhooks_purge, Tenant_.
  destruct (Z.eqb_spec t uuid_Nil) as [->|Hn]; [by rewrite decide_True by done|]. rewrite decide_False by done.
  rewrite Hrun. cbn. by eexists.
Qed.
End WebhooksPurge.

Lemma webhooks_without_idem t db : webhooks_without t (webhooks_without t db) = webhooks_without t db.
Proof. unfold webhooks_without. cbn [subscriptions deliveries]. f_equal; apply spare_idem. Qed.

Section WebhooksLife.
Context `{Supply, Render, Aead, Jsonb, UrlParse}.
Variable cipher : option bytes.

(** The service with expiry messages among its steps; deliveries may be in
    flight while their rows are erased. *)
Inductive webhooks_life : World -> Prop :=
| wlife_empty : webhooks_life (mkWorld empty_webhooks [])
| wlife_step w w' : webhooks_life w -> wstep cipher w w' -> webhooks_life w'
| wlife_purge {D} w (msg : option (Envelope D)) a db' :
    webhooks_life w -> SubscribeTenantExpired webhooks_purge msg (w_db w) = (a, db') ->
    webhooks_life (mkWorld db' (w_inflight w)).

Lemma webhooks_life_inv w : webhooks_life w ->
  DInv (w_db w) /\ Forall (fun c => 0 <= c_Attempts c < MaxAttempts) (w_inflight w).
Proof.
  induction 1 as [|w w' _ [I Hc] Hs|D w msg a db' _ [I Hc] Hr].
  - split; [split; cbn; intros *; by rewrite lookup_empty|constructor].
  - destruct Hs as [w tenant rq st st' E Hr|w locked limit lease st claims st' E Hr|
      w pre c post outcome st st' El E Hr|w pre c post El].
    + rewrite <- E in I. by apply wh_exec_good in Hr as [I' _].
    + rewrite <- E in I. apply ClaimDue_good in Hr as [[I' _] Hcl]; [|done]. split; [done|].
      cbn. apply Forall_app. split; [done|]. eapply Forall_impl; [exact Hcl|]. by intros c [? _].
    + rewrite <- E in I. rewrite El in Hc. apply Forall_app in Hc as [Hpre [Hone Hpost]%Forall_cons].
      apply process_good in Hr as [I' _]; [|done..]. split; [done|]. by apply Forall_app.
    + rewrite El in Hc. apply Forall_app in Hc as [Hpre [Hone Hpost]%Forall_cons]. split; [done|]. by apply Forall_app.
  - split; [|done]. eapply SubscribeTenantExpired_keeps; [exact I| |exact Hr]. intros t n db1 Hp.
    pose proof (webhooks_purge_run t (w_db w) I) as Hq. rewrite Hp in Hq. case_decide; [done|].
    destruct Hq as [n' [= <- ->]]. by apply DInv_without.
Qed.

Lemma webhooks_life_reach w : wreach cipher w -> webhooks_life w.
Proof. induction 1 as [|w w' _ IH Hs]; [constructor|by eapply wlife_step]. Qed.
End WebhooksLife.
