(* ===== verification/PurgeTheorems.v ===== *)
(** * The expiry of a tenant, end to end

    From the announcement in the outbox of identity to the tables of the three
    other services, and what the ledger still guarantees with purges in its
    life. *)

From Stdlib Require Import Ascii String ZArith Lia.
From S2P Require Import Prelude Strconv Errors Money LedgerDomain LedgerEvents LedgerDb Httpx LedgerStore.
From S2P Require Import LedgerReports LedgerService LedgerSpec LedgerInv LedgerBalance.
From S2P Require Import LedgerLinks LedgerRefine TxMonad Recon ReconStore ReconInv ReconMirror Signature.
From S2P Require Import Keycrypt Webhooks WebhooksStore WebhooksService WebhooksInv WebhooksWorld Ident.
From S2P Require Import Identity IdentityStore IdentityInv Purge PurgeLedger PurgeSatellites.
From S2P Require Import LedgerTheorems LedgerGuarantees LedgerWitnesses WebhooksWitnesses.
Local Open Scope Z_scope.

(** An announcement in the outbox is that of a tenant that left service. *)
Lemma announced_tenant (db : IdentityDB) r :
  IInv db -> r ∈ id_outbox db ->
  exists tn, tenants db !! io_TenantID r = Some tn /\ live (tn_Status tn) = false /\
    env_Type (io_Envelope r) = TopicTenantExpired /\ env_TenantID (io_Envelope r) = io_TenantID r /\
    announcements (io_TenantID r) db = [r].
Proof.
  intros I Hr. destruct (ii_outbox _ I r Hr) as [tn Htn]. exists tn. split; [done|].
  assert (Ha : r ∈ announcements (io_TenantID r) db) by (apply list_elem_of_filter; done).
  pose proof (ii_announced _ I _ _ Htn) as Hann. destruct (live (tn_Status tn)).
  - rewrite Hann in Ha. by apply elem_of_nil in Ha.
  - destruct Hann as (r' & E & (_ & Ety & Eten & _)). rewrite E in Ha. apply list_elem_of_singleton in Ha as ->.
    split_and!; [done|done| |done]. by rewrite Eten, (ii_id _ I _ _ Htn).
Qed.

Section Expiry.
Context `{Supply, Render, Digest, Aead, Jsonb, UrlParse}.
Variable cipher : option bytes.

(** C25: the expiry of a tenant is announced once, after it left service, and
    every service that receives the announcement, in whatever state its life
    (earlier purges included) brought it to, erases exactly the rows of that
    tenant: no foreign key stands in the way, the message is acknowledged, and
    delivering it again changes nothing. The one refusal is the ledger's, for a
    tenant that owns a live ledger: the message stays unacknowledged. *)
Theorem expired_tenant_erased (idb : IdentityDB) (r : IdOutboxRow) (l : DB) (c : ReconDB) (w : World) :
  IInv idb -> r ∈ id_outbox idb -> ledger_life l -> recon_life c -> webhooks_life cipher w ->
  let t := io_TenantID r in let msg := Some (io_Envelope r) in
  t <> uuid_Nil ->
  (exists tn, tenants idb !! t = Some tn /\ live (tn_Status tn) = false /\ announcements t idb = [r]) /\
  SubscribeTenantExpired PurgeTenant msg l = (if owns_live t l then (Nak, l) else (Ack, ledger_without t l)) /\
  SubscribeTenantExpired recon_purge msg c = (Ack, recon_without t c) /\
  SubscribeTenantExpired webhooks_purge msg (w_db w) = (Ack, webhooks_without t (w_db w)) /\
  SubscribeTenantExpired PurgeTenant msg (ledger_without t l) = (Ack, ledger_without t l) /\
  SubscribeTenantExpired recon_purge msg (recon_without t c) = (Ack, recon_without t c) /\
  SubscribeTenantExpired webhooks_purge msg (webhooks_without t (w_db w)) = (Ack, webhooks_without t (w_db w)).
Proof.
  intros I Hr Hl Hc Hw. cbv zeta. intros Hn.
  destruct (announced_tenant idb r I Hr) as (tn & Htn & Hlive & Ety & Eten & Hann).
  apply ledger_life_inv in Hl. apply recon_life_inv in Hc as [Ic Rc]. apply webhooks_life_inv in Hw as [Iw _].
  split; [by exists tn|]. rewrite <- Eten in Hn |- *. set (t := env_TenantID (io_Envelope r)) in *.
  rewrite !SubscribeTenantExpired_announced by done. fold t.
  split_and!.
  - pose proof (PurgeTenant_run t l Hl) as Hp. destruct (owns_live t l) eqn:El.
    + rewrite decide_True in Hp by auto. by rewrite Hp.
    + rewrite decide_False in Hp by naive_solver. by destruct Hp as [n ->].
  - pose proof (recon_purge_run t c Ic Rc) as Hp. rewrite decide_False in Hp by done. by destruct Hp as [n ->].
  - pose proof (webhooks_purge_run t (w_db w) Iw) as Hp. rewrite decide_False in Hp by done. by destruct Hp as [n ->].
  - pose proof (PurgeTenant_run t _ (Inv_without t l Hl)) as Hp. rewrite owns_live_without in Hp.
    rewrite decide_False in Hp by naive_solver. destruct Hp as [n ->]. by rewrite ledger_without_idem.
  - pose proof (recon_purge_run t _ (RInv_without t c Ic) (RRefs_without t c Rc)) as Hp.
    rewrite decide_False in Hp by done. destruct Hp as [n ->]. by rewrite recon_without_idem.
  - pose proof (webhooks_purge_run t _ (DInv_without t (w_db w) Iw)) as Hp.
    rewrite decide_False in Hp by done. destruct Hp as [n ->]. by rewrite webhooks_without_idem.
Qed.

(** What the books of a ledger must satisfy, tenant by tenant. *)
Record books_ok (db : DB) : Prop := {
  bk_balanced id x : transactions db !! id = Some x ->
    (2 <= length (LedgerInv.rows_of db id))%nat /\ rows_balanced (LedgerInv.rows_of db id) /\
    Forall (fun r => pr_TenantID r = t_TenantID x) (LedgerInv.rows_of db id);
  bk_balances col k : stored col (account_balances db) k = computed db col k;
  bk_reversal id x rid : transactions db !! id = Some x -> t_ReversedByID x = Some rid ->
    exists rev, transactions db !! rid = Some rev /\ t_ReversesID rev = Some id /\ t_TenantID rev = t_TenantID x;
  bk_account r : r ∈ postings db -> exists a, accounts db !! pr_AccountID r = Some a /\ a_TenantID a = pr_TenantID r;
  bk_capture id h tid : holds db !! id = Some h -> h_CapturedTransactionID (hr_Hold h) = Some tid ->
    exists x, transactions db !! tid = Some x /\ t_TenantID x = h_TenantID (hr_Hold h) }.

Lemma Inv_books db : Inv db -> books_ok db.
Proof.
  intros I. pose proof (inv_wf _ I) as W. split.
  - intros id x Hx. destruct (wf_transactions _ W _ _ Hx) as (_ & _ & _ & _ & Hlen & Hbal). split_and!; [done|done|].
    apply Forall_forall. intros r [E Hr]%list_elem_of_filter.
    destruct (wf_postings _ W r Hr) as (_ & _ & x' & Hx' & E' & _). congruence.
  - apply (inv_consistent _ I).
  - intros id x rid Hx Hb. destruct (inv_reversals _ I _ _ Hx) as [Hr _].
    destruct (Hr _ Hb) as (rev & ? & ? & ? & _). by exists rev.
  - intros r Hr. destruct (wf_postings _ W r Hr) as (_ & _ & x & _ & _ & _ & a & ? & ? & _). by exists a.
  - apply (inv_captures _ I).
Qed.

(** The rows of the other tenants survive the deletions. *)
Lemma filter_spare {K V} `{Countable K} (tenantOf : K -> V -> uuid) t u (m : gmap K V) :
  u <> t -> filter (fun kv => tenantOf kv.1 kv.2 = u) (spare tenantOf t m) = filter (fun kv => tenantOf kv.1 kv.2 = u) m.
Proof.
  intros Hu. apply map_eq. intros k. apply option_eq. intros v.
  rewrite !map_lookup_filter_Some, spare_lookup. cbn. naive_solver.
Qed.

Lemma filter_spare_list {A} (f : A -> uuid) t u (l : list A) :
  u <> t -> filter (fun r => f r = u) (spare_list f t l) = filter (fun r => f r = u) l.
Proof.
  intros Hu. unfold spare_list. rewrite list_filter_filter. apply list_filter_iff. intros x. naive_solver.
Qed.

Lemma view_without t u db : u <> t -> view u (ledger_without t db) = view u db.
Proof.
  intros Hu. unfold view, ledger_without.
  cbn [ledgers accounts transactions postings account_balances holds idempotency_keys outbox]. f_equal.
  - exact (filter_spare (fun _ l => l_TenantID l) t u (ledgers db) Hu).
  - exact (filter_spare (fun _ a => a_TenantID a) t u (accounts db) Hu).
  - exact (filter_spare (fun _ x => t_TenantID x) t u (transactions db) Hu).
  - by apply filter_spare_list.
  - exact (filter_spare (fun _ r => br_TenantID r) t u (account_balances db) Hu).
  - exact (filter_spare (fun _ r => h_TenantID (hr_Hold r)) t u (holds db) Hu).
  - exact (filter_spare (fun k _ => k.1) t u (idempotency_keys db) Hu).
  - by apply filter_spare_list.
Qed.

(** What a delivery does to the tables of the ledger. *)
Lemma delivery_cases {D} (msg : option (Envelope D)) db a db' :
  Inv db -> SubscribeTenantExpired PurgeTenant msg db = (a, db') ->
  db' = db \/ exists env, msg = Some env /\ db' = ledger_without (env_TenantID env) db.
Proof.
  intros I Hrun. unfold SubscribeTenantExpired in Hrun. destruct msg as [env|]; [|left; congruence].
  destruct (negb _); [left; congruence|]. destruct (_ =? _); [left; congruence|].
  pose proof (PurgeTenant_run (env_TenantID env) db I) as Hp.
  destruct (PurgeTenant (env_TenantID env) db) as [[n db1]|e]; [|left; congruence].
  case_decide; [done|]. destruct Hp as [n' [= <- ->]]. right. exists env. split; congruence.
Qed.

(** C26: purges leave the books of everyone else right. In every database of a
    life of calls and purges: each transaction has at least two postings, all of
    its own tenant, and balances in each asset; stored balances are the sums of
    postings and active holds; reversals, captures and accounts stay inside
    their tenant. Delivering any message to the purge consumer keeps all of it,
    and leaves to every tenant the message does not name exactly the rows it
    could see: ledgers, accounts, transactions, postings, balances, holds, keys
    and events. *)
Theorem ledger_life_sound {D} (db : DB) (msg : option (Envelope D)) a db' :
  ledger_life db -> SubscribeTenantExpired PurgeTenant msg db = (a, db') ->
  books_ok db /\ books_ok db' /\
  forall u, (forall env, msg = Some env -> env_TenantID env <> u) ->
    view u db' = view u db /\
    (forall id x, transactions db !! id = Some x -> t_TenantID x = u ->
       transactions db' !! id = Some x /\ LedgerInv.rows_of db' id = LedgerInv.rows_of db id).
Proof.
  intros Hl Hrun. apply ledger_life_inv in Hl. split; [by apply Inv_books|].
  destruct (delivery_cases msg db a db' Hl Hrun) as [->|(env & -> & ->)]; [by split; [apply Inv_books|]|].
  split; [by apply Inv_books, Inv_without|]. intros u Hu. specialize (Hu env eq_refl).
  split; [by apply view_without|]. intros id x Hx <-. split.
  - cbn. by apply spare_lookup.
  - by apply (rows_without (env_TenantID env) db Hl id x Hx).
Qed.
End Expiry.

(** ** A purge at work

    The tenant of the demo history expires: identity announces it, and the three
    services erase it. *)

#[local] Existing Instance wh_supply.
#[local] Existing Instance wh_render.
#[local] Existing Instance demo_aead.
#[local] Existing Instance wh_json.
#[local] Existing Instance wh_url.

(** ** States *)

Lemma history_life hs db : history hs -> head hs = Some db -> ledger_life db.
Proof.
  intros Hh. revert db. induction Hh as [|db past seen tn r ids t resp db' _ IH _ Hwf Hrun]; intros d [= <-].
  - constructor.
  - eapply life_call; [by apply IH|exact Hwf|exact Hrun].
Qed.

Lemma demo_life n : ledger_life (demo_db n).
Proof.
  pose proof (demo_history n) as Hh. unfold demo_db. destruct (demo_hs n) as [|db past] eqn:E; [inversion Hh|].
  by eapply history_life; [exact Hh|].
Qed.

Definition mirrored : MirrorEntry := mkMirror 71 7 10 2 dir_debit 500 "USD" "k1" 4000.
Definition recon_db7 : ReconDB :=
  match recon_exec 7 (RqMirror [mirrored]) (mkUse empty_recon [] 0 0) with
  | Ok (_, st) => u_db st | Err _ => empty_recon end.

Lemma recon_db7_life : recon_life recon_db7.
Proof.
  unfold recon_db7. destruct (recon_exec 7 _ _) as [[[] st]|] eqn:E; [|constructor].
  eapply rlife_step; [|exact E]. constructor.
Qed.

Definition expiry_row : IdOutboxRow :=
  mkIdOutbox 7 TopicTenantExpired (mkEnvelope 99 TopicTenantExpired 7 5000000 1 (mkTenantExpired 7 "acme" 4000000)) None.
Definition expired_db : IdentityDB :=
  mkIdentityDB {[ 7 := mkTenant 7 "Acme" "acme" TenantPurging 1000 (Some 4000000) ]} ∅ ∅ ∅ [expiry_row].

Lemma expired_inv : IInv expired_db.
Proof.
  split; cbn.
  - intros id tn [<- <-]%lookup_singleton_Some. reflexivity.
  - intros i j tn tn' [<- <-]%lookup_singleton_Some [<- <-]%lookup_singleton_Some _. reflexivity.
  - intros id tn [<- <-]%lookup_singleton_Some. vm_compute. reflexivity.
  - intros id k. by rewrite lookup_empty.
  - intros e r. by rewrite lookup_empty.
  - intros id tn [<- <-]%lookup_singleton_Some. cbn. exists expiry_row. split; [reflexivity|].
    repeat split. exists 4000000. split; reflexivity.
  - intros r ->%list_elem_of_singleton. by eexists.
  - intros kid k. by rewrite lookup_empty.
Qed.

Lemma expired_tenant_erased_witness :
  SubscribeTenantExpired PurgeTenant (Some (io_Envelope expiry_row)) (demo_db 9) = (Ack, ledger_without 7 (demo_db 9)) /\
  SubscribeTenantExpired recon_purge (Some (io_Envelope expiry_row)) recon_db7 = (Ack, recon_without 7 recon_db7) /\
  SubscribeTenantExpired webhooks_purge (Some (io_Envelope expiry_row)) wh_db2 = (Ack, webhooks_without 7 wh_db2) /\
  is_Some (transactions (demo_db 9) !! 10) /\ transactions (ledger_without 7 (demo_db 9)) !! 10 = None.
Proof.
  destruct (expired_tenant_erased wh_cipher expired_db expiry_row (demo_db 9) recon_db7 (mkWorld wh_db2 [])
    expired_inv ltac:(left) (demo_life 9) recon_db7_life
    (webhooks_life_reach wh_cipher _ wh_db2_reach) ltac:(discriminate)) as (_ & Hl & Hr & Hw & _).
  assert (El : owns_live (io_TenantID expiry_row) (demo_db 9) = false) by (vm_compute; reflexivity).
  rewrite El in Hl. split; [exact Hl|]. split; [exact Hr|]. split; [exact Hw|].
  split; [|vm_compute; reflexivity].
  destruct (transactions (demo_db 9) !! 10) eqn:E; [by eexists|exfalso; vm_compute in E; discriminate E].
Defined.

(** Tenant 8 expires; tenant 7 keeps its books. *)
Definition other_expiry : Envelope TenantExpiredPayload :=
  mkEnvelope 98 TopicTenantExpired 8 5000000 1 (mkTenantExpired 8 "other" 4000000).

Lemma ledger_life_sound_witness :
  SubscribeTenantExpired PurgeTenant (Some other_expiry) (demo_db 9) = (Ack, ledger_without 8 (demo_db 9)) /\
  books_ok (demo_db 9) /\ view 7 (ledger_without 8 (demo_db 9)) = view 7 (demo_db 9).
Proof.
  destruct (SubscribeTenantExpired PurgeTenant (Some other_expiry) (demo_db 9)) as [a db'] eqn:E.
  assert (E' : (a, db') = (Ack, ledger_without 8 (demo_db 9)))
    by (rewrite <- E; clear E; vm_compute; reflexivity).
  injection E' as -> ->. split; [reflexivity|].
  destruct (ledger_life_sound (demo_db 9) (Some other_expiry) _ _ (demo_life 9) E) as (H1 & _ & H3).
  split; [exact H1|]. apply H3. intros env [= <-]. discriminate.
Defined.
