(* ===== verification/TenantScope.v ===== *)
(** * Writes stay in their tenant

    Whatever a use case of reconciliation or webhooks writes for a tenant, the
    tables without the rows of that tenant are the same before and after. *)

From Stdlib Require Import Ascii String ZArith Lia.
From S2P Require Import Prelude Strconv Errors Money LedgerDomain LedgerEvents Httpx Recon ReconMatch.
From S2P Require Import TxMonad ReconStore ReconRun ReconInv ReconMirror Purge.
From S2P Require Import Signature Keycrypt Webhooks WebhooksStore WebhooksService WebhooksInv WebhooksWorld.
Local Open Scope Z_scope.

(** A row of the tenant may be put where there was none, or one of its own. *)
Lemma spare_insert {V} (f : uuid -> V -> uuid) t (m : gmap uuid V) k v :
  f k v = t -> (forall v0, m !! k = Some v0 -> f k v0 = t) -> spare f t (<[k := v]> m) = spare f t m.
Proof.
  intros Hv Hm. apply map_eq. intros j. apply option_eq. intros w. rewrite !spare_lookup, lookup_insert_Some.
  split; [intros [[[<- <-]|[_ Hw]] Hn]; done|]. intros [Hw Hn]. split; [|done]. right. split; [|done].
  intros <-. by apply Hn, Hm.
Qed.

Lemma spare_list_snoc {A} (f : A -> uuid) t l x : f x = t -> spare_list f t (l ++ [x]) = spare_list f t l.
Proof.
  intros Hx. unfold spare_list. rewrite filter_app, filter_cons_False, filter_nil, app_nil_r by (by intros []). done.
Qed.

Section Recon.
Context `{Supply, Render}.
Variable tenant : uuid.

(** Closes the write of one statement. *)
Ltac scoped_write :=
  cbn [u_db]; unfold recon_without; f_equal; apply spare_insert; [done|congruence].

Lemma scoped_InsertSource s : keeps (recon_without tenant) (InsertSource tenant s).
Proof. intros st u st' Hr. unfold InsertSource, ReconStore.owned, require_fresh in Hr. inv_use Hr. scoped_write. Qed.

Lemma scoped_InsertImport imp : keeps (recon_without tenant) (InsertImport tenant imp).
Proof. intros st u st' Hr. unfold InsertImport, ReconStore.owned, require_fresh in Hr. inv_use Hr. scoped_write. Qed.

Lemma scoped_insert_external x : keeps (recon_without tenant) (insert_external tenant x).
Proof. intros st u st' Hr. unfold insert_external, ReconStore.owned, require_fresh in Hr. inv_use Hr. scoped_write. Qed.

Lemma scoped_InsertRun r : keeps (recon_without tenant) (InsertRun tenant r).
Proof. intros st u st' Hr. unfold InsertRun, ReconStore.owned, require_fresh in Hr. inv_use Hr. scoped_write. Qed.

Lemma scoped_InsertDiscrepancy d : keeps (recon_without tenant) (InsertDiscrepancy tenant d).
Proof. intros st u st' Hr. unfold InsertDiscrepancy, ReconStore.owned, require_fresh in Hr. inv_use Hr. scoped_write. Qed.

(** An update of the row found for the tenant. *)
Lemma find_owned {V} (f : V -> uuid) (m : gmap uuid V) id v :
  (s ← m !! id; if decide (f s = tenant) then Some s else None) = Some v -> m !! id = Some v /\ f v = tenant.
Proof. destruct (m !! id) as [s|]; cbn; [|done]. case_decide; [|done]. by intros [= <-]. Qed.

Lemma scoped_update_external id f :
  (forall x, x_TenantID (f x) = x_TenantID x) -> keeps (recon_without tenant) (update_external tenant id f).
Proof.
  intros Hf. apply keeps_write. intros db. destruct (find_external tenant id db) as [x|] eqn:E; [|done].
  apply find_owned in E as [E Ht]. unfold recon_without, set_externals. cbn. f_equal.
  apply spare_insert; [by rewrite Hf|congruence].
Qed.

Lemma scoped_UpdateRun r : keeps (recon_without tenant) (UpdateRun tenant r).
Proof.
  unfold UpdateRun. apply keeps_bind; [apply keeps_require|intros _]. apply keeps_write. intros db.
  destruct (find_run tenant (r_ID r) db) as [old|] eqn:E; [|done].
  apply find_owned in E as [E Ht]. unfold recon_without, set_runs. cbn. f_equal. apply spare_insert; [done|congruence].
Qed.

Lemma scoped_UpdateDiscrepancy d : keeps (recon_without tenant) (UpdateDiscrepancy_ tenant d).
Proof.
  unfold UpdateDiscrepancy_. apply keeps_bind; [apply keeps_require|intros _]. apply keeps_write. intros db.
  destruct (find_discrepancy tenant (d_ID d) db) as [old|] eqn:E; [|done].
  apply find_owned in E as [E Ht]. unfold recon_without, set_discrepancies. cbn. f_equal.
  apply spare_insert; [done|congruence].
Qed.

Lemma scoped_insert_mirror e : keeps (recon_without tenant) (insert_mirror tenant e).
Proof.
  intros st u st' Hr. unfold insert_mirror, ReconStore.owned in Hr. inv_use Hr. cbn.
  destruct (mirror (u_db st) !! m_ID e) eqn:E; [done|]. scoped_write.
Qed.

Lemma scoped_emit run disc f :
  r_TenantID run = tenant -> keeps (recon_without tenant) (env ← discrepancyEnvelope run disc f; InsertOutboxEnvelope env).
Proof.
  intros Hr st u st' (env & st1 & He & Hi)%use_bind_ok. unfold discrepancyEnvelope in He.
  destruct (eventKind _); [|done]. apply envelope_ok in He as (E & _ & Ht & _).
  unfold InsertOutboxEnvelope in Hi. inv_use Hi. unfold recon_without. cbn. rewrite E. f_equal.
  apply spare_list_snoc. cbn. congruence.
Qed.
#[local] Hint Resolve scoped_InsertSource scoped_InsertImport scoped_insert_external scoped_InsertRun
  scoped_InsertDiscrepancy scoped_UpdateRun scoped_UpdateDiscrepancy scoped_insert_mirror : frame.

Lemma scoped_record_finding run f : r_TenantID run = tenant -> keeps (recon_without tenant) (record_finding tenant run f).
Proof.
  intros Hr. unfold record_finding, MarkExternalDisputed, discrepancyFromFinding.
  apply keeps_bind; [destruct (decide _); [by apply scoped_update_external|apply keeps_ret]|intros _].
  apply keeps_bind; [frame|intros disc]. apply keeps_bind; [apply scoped_InsertDiscrepancy|intros _].
  destruct (eventKind (f_Kind f)); [by apply scoped_emit|apply keeps_ret].
Qed.

(** A use case of reconciliation writes rows of its tenant only. *)
Lemma recon_exec_scoped rq : keeps (recon_without tenant) (recon_exec tenant rq).
Proof.
  destruct rq; cbn [recon_exec]; try (apply keeps_bind; [|intros ?; apply keeps_ret]).
  - unfold CreateSource. frame.
  - unfold ImportStatement, GetSource, InsertExternalTransactions. frame.
  - unfold StartRun, GetSource, ListUnmatchedExternals, ListMirrorEntries, record_match, MarkExternalMatched.
    frame; first [by apply scoped_update_external|by apply scoped_record_finding].
  - unfold svc_UpdateDiscrepancy, GetDiscrepancy. frame.
  - unfold InsertMirrorEntries. frame.
Qed.
End Recon.

Lemma keeps_lift {X A} (pi : WebhookDB -> X) (r : result error A) : keeps pi (lift r).
Proof. intros st a st' Hl. by apply lift_ok in Hl as [_ ->]. Qed.
#[export] Hint Resolve keeps_lift : frame.

Section Webhooks.
Context `{Supply, Render, Aead, Jsonb, UrlParse}.
Variables (cipher : option bytes) (tenant : uuid).

Lemma scoped_put_subscription db id s s0 :
  find_subscription tenant id db = Some s0 -> sub_TenantID s = sub_TenantID s0 ->
  webhooks_without tenant (set_subscriptions (<[id := s]> (subscriptions db)) db) = webhooks_without tenant db.
Proof.
  intros [E Ht]%find_owned Es. unfold webhooks_without. cbn. f_equal. apply spare_insert; congruence.
Qed.

Lemma scoped_Create nonce sub :
  sub_TenantID sub = tenant -> keeps (webhooks_without tenant) (Create cipher nonce sub).
Proof.
  intros Ht st u st' Hr. unfold Create, within in Hr.
  apply use_bind_ok in Hr as (x & s1 & [_ ->]%lift_crypt_ok & Hr). inv_use Hr.
  unfold webhooks_without. cbn. f_equal. apply spare_insert; [done|congruence].
Qed.

Lemma scoped_Update id url types active : keeps (webhooks_without tenant) (Update cipher tenant id url types active).
Proof.
  unfold Update, within. apply keeps_bind; [apply keeps_require|intros _].
  intros st s st' (db & s1 & [-> ->]%read_ok & Hr)%use_bind_ok.
  destruct (find_subscription tenant id (u_db st)) as [s0|] eqn:E; [|done]. cbv zeta in Hr.
  apply use_bind_ok in Hr as (u & s2 & ->%write_ok & [_ ->]%lift_ok). by eapply scoped_put_subscription.
Qed.

Lemma scoped_RotateSecret nonce id secret e :
  keeps (webhooks_without tenant) (RotateSecret_ cipher nonce tenant id secret e).
Proof.
  unfold RotateSecret_, within. apply keeps_bind; [apply keeps_lift|intros enc].
  apply keeps_bind; [apply keeps_require|intros _].
  intros st s st' (db & s1 & [-> ->]%read_ok & Hr)%use_bind_ok.
  destruct (find_subscription tenant id (u_db st)) as [s0|] eqn:E; [|done]. apply write_ok in Hr as ->.
  by eapply scoped_put_subscription.
Qed.

Lemma scoped_Requeue id : keeps (webhooks_without tenant) (Requeue tenant id).
Proof.
  unfold Requeue, within. apply keeps_bind; [apply keeps_require|intros _].
  intros st d st' (db & s1 & [-> ->]%read_ok & Hr)%use_bind_ok.
  destruct (find_delivery tenant id (u_db st)) as [d0|] eqn:E; [|done]. case_decide; [|done].
  apply find_owned in E as [E Ht].
  apply use_bind_ok in Hr as (t & s2 & Hn%now_ok & Hr). inv_use Hr. cbn. rewrite Hn.
  unfold webhooks_without. cbn. f_equal. apply spare_insert; [done|congruence].
Qed.

(** A request of a client of webhooks writes rows of its tenant only. *)
Lemma wh_exec_scoped rq :
  match rq with
  | WqCreate _ _ _ _ _ | WqUpdate _ _ _ | WqRotate _ _ _ | WqRetry _ =>
      keeps (webhooks_without tenant) (wh_exec cipher tenant rq)
  | _ => True
  end.
Proof.
  destruct rq; cbn [wh_exec]; try done; (apply keeps_bind; [|intros ?; apply keeps_ret]).
  - unfold CreateSubscription. frame; try by apply scoped_Create.
  - unfold UpdateSubscription. frame; apply scoped_Update.
  - unfold RotateSecret. frame; apply scoped_RotateSecret.
  - apply scoped_Requeue.
Qed.
End Webhooks.
