(* ===== verification/Json.v ===== *)
(** * JSON bodies: what [encoding/json] makes of them

    A body is the value its tokens denote; members keep their order and may
    repeat. A decoder updates a Go value in place, as [Decode] does: [null]
    leaves a value alone or clears a pointer, map or slice, a repeated member
    is decoded over the first one, a name matches a field exactly or up to
    case, and [DisallowUnknownFields] refuses the others. Any error refuses the
    body; its text is not kept. A slice decoded three times over in one body,
    shorter the second time, keeps stale elements in Go and is not modelled. *)

From Stdlib Require Import Ascii String ZArith Lia.
From S2P Require Import Prelude Strconv Errors Money LedgerDomain LedgerStore LedgerReports Signature.
Local Open Scope Z_scope.

(** [JTime] is an instant a view marshals, in the zone its value carries;
    [JRaw] a [json.RawMessage]. Neither occurs in a body that is read. *)
#[local] Unset Elimination Schemes.
Inductive json : Type :=
| JNull
| JBool (b : bool)
| JNum (z : Z)
| JStr (s : string)
| JTime (t : time)
| JRaw (b : bytes)
| JArr (l : list json)
| JObj (members : list (string * json)).
#[local] Set Elimination Schemes.

(** ** Names of members

    [foldName] of [encoding/json]: letters lose their case, and the long s and
    the kelvin sign are the only other runes that fold to a letter of ASCII. *)
Fixpoint fold_bytes (s : list ascii) : list ascii :=
  match s with
  | [] => []
  | c :: rest =>
      match rest with
      | d :: rest1 =>
          if bool_decide (c = "197"%char) && bool_decide (d = "191"%char)
          then "s"%char :: fold_bytes rest1
          else
            match rest1 with
            | e :: rest2 =>
                if bool_decide (c = "226"%char) && bool_decide (d = "132"%char)
                   && bool_decide (e = "170"%char)
                then "k"%char :: fold_bytes rest2
                else lower_byte c :: fold_bytes rest
            | [] => lower_byte c :: fold_bytes rest
            end
      | [] => [lower_byte c]
      end
  end.

Definition foldName (s : string) : list ascii := fold_bytes (list_ascii_of_string s).

(** ** Decoders *)

Definition decoder (A : Type) : Type := json -> A -> option A.

(** [uuid.UUID.UnmarshalText] and [time.Time.UnmarshalJSON] on the text of a
    JSON string. *)
Class Unmarshal : Type := {
  uuid_UnmarshalText : string -> option uuid; time_UnmarshalJSON : string -> option time }.

Definition d_string : decoder string := fun v old =>
  match v with JStr s => Some s | JNull => Some old | _ => None end.

Definition d_bool : decoder bool := fun v old =>
  match v with JBool b => Some b | JNull => Some old | _ => None end.

Definition d_uuid `{Unmarshal} : decoder uuid := fun v old =>
  match v with JStr s => uuid_UnmarshalText s | JNull => Some old | _ => None end.

Definition d_time `{Unmarshal} : decoder time := fun v old =>
  match v with JStr s => time_UnmarshalJSON s | JNull => Some old | _ => None end.

(** A pointer: [null] clears it, any other value is decoded into what it points
    to, allocated when it is nil. *)
Definition d_ptr {A} (zero : A) (d : decoder A) : decoder (option A) := fun v old =>
  match v with JNull => Some None | _ => a ← d v (default zero old); Some (Some a) end.

(** [map[string]string]: values are decoded into an empty string. *)
Fixpoint put_members (ms : list (string * json)) (m : gmap string string)
  : option (gmap string string) :=
  match ms with
  | [] => Some m
  | (k, v) :: ms => s ← d_string v ""%string; put_members ms (<[k := s]> m)
  end.

Definition d_metadata : decoder (option (gmap string string)) := fun v old =>
  match v with
  | JNull => Some None
  | JObj ms => m ← put_members ms (default ∅ old); Some (Some m)
  | _ => None
  end.

(** The elements of an array, each decoded over the one the slice held. *)
Fixpoint fill {A} (zero : A) (d : decoder A) (l : list json) (old : list A) : option (list A) :=
  match l with
  | [] => Some []
  | v :: l =>
      a ← d v (match old with a :: _ => a | [] => zero end);
      rest ← fill zero d l (tail old);
      Some (a :: rest)
  end.

Definition d_slice {A} (zero : A) (d : decoder A) : decoder (option (list A)) := fun v old =>
  match v with
  | JNull => Some None
  | JArr l => l ← fill zero d l (default [] old); Some (Some l)
  | _ => None
  end.

(** ** Structs *)

(** A field of a struct [T]: its JSON name and how a value is decoded over it. *)
Definition field (T : Type) : Type := (string * decoder T)%type.

Definition member {T A} (name : string) (d : decoder A) (get : T -> A) (set : A -> T -> T) : field T :=
  (name, fun v x => a ← d v (get x); Some (set a x)).

Definition find_field {T} (fs : list (field T)) (name : string) : option (decoder T) :=
  match list_find (fun f => f.1 = name) fs with
  | Some (_, f) => Some f.2
  | None => '(_, f) ← list_find (fun f => foldName f.1 = foldName name) fs; Some f.2
  end.

Fixpoint set_members {T} (fs : list (field T)) (ms : list (string * json)) (x : T) : option T :=
  match ms with
  | [] => Some x
  | (k, v) :: ms => d ← find_field fs k; x ← d v x; set_members fs ms x
  end.

Definition d_struct {T} (fs : list (field T)) : decoder T := fun v x =>
  match v with JNull => Some x | JObj ms => set_members fs ms x | _ => None end.

(** ** Encoders *)

(** [json.Marshal] of a map: the keys are sorted. *)
Definition member_le {A} (a b : string * A) : Prop := str_le a.1 b.1.
#[export] Instance member_le_dec {A} : RelDecision (member_le (A := A)).
Proof. intros a b. unfold member_le. apply _. Defined.

Definition json_of_map {A} (f : A -> json) (m : gmap string A) : json :=
  JObj (map (fun kv => (kv.1, f kv.2)) (merge_sort member_le (map_to_list m))).

(** A pointer. *)
Definition json_opt {A} (f : A -> json) (o : option A) : json :=
  match o with Some a => f a | None => JNull end.

(** A slice; a nil one is [null]. *)
Definition json_list {A} (f : A -> json) (l : list A) : json := JArr (map f l).

(** A string field with [omitempty]. *)
Definition omitempty (name s : string) : list (string * json) :=
  if decide (s = ""%string) then [] else [(name, JStr s)].

(** ** Laws *)

Section Laws.
Context {T : Type} (fs : list (field T)).

Lemma set_members_app ms1 ms2 x :
  set_members fs (ms1 ++ ms2) x = y ← set_members fs ms1 x; set_members fs ms2 y.
Proof.
  revert x. induction ms1 as [|[k v] ms1 IH]; intros x; cbn; [done|].
  destruct (find_field fs k) as [d|]; cbn; [|done]. destruct (d v x); cbn; [apply IH|done].
Qed.

(** A member that names no field refuses the body, wherever it stands. *)
Lemma unknown_field_refused ms1 name v ms2 x :
  find_field fs name = None -> d_struct fs (JObj (ms1 ++ (name, v) :: ms2)) x = None.
Proof.
  intros E. cbn. rewrite set_members_app. destruct (set_members fs ms1 x); cbn; [|done].
  by rewrite E.
Qed.

Lemma find_field_fold name name' :
  (forall f, f ∈ fs -> f.1 <> name /\ f.1 <> name') -> foldName name = foldName name' ->
  find_field fs name = find_field fs name'.
Proof.
  intros Hn E. unfold find_field.
  assert (HN : forall n, n = name \/ n = name' -> list_find (fun f : field T => f.1 = n) fs = None).
  { intros n Hnn. apply list_find_None, Forall_forall. intros f Hf. destruct Hnn as [->| ->]; apply Hn, Hf. }
  rewrite !HN by auto. by rewrite E.
Qed.
End Laws.
