(* ===== verification/Http.v ===== *)
(** * HTTP: [libs/go/httpx/httpx.go], [net/http] routing, the service shell

    Requests, responses and handlers; [DecodeJSON], [WriteJSON] and
    [WriteError]; the middlewares; the mux with method patterns; and the shell
    the ledger, reconciliation and webhooks routers share: health endpoints, and
    an API behind authentication whose every route demands a scope. [Recover]
    and [Logger], which matter when a handler panics, are in [Middleware]. *)

From Stdlib Require Import Ascii String ZArith Lia.
From S2P Require Import Prelude Strconv Errors LedgerDomain Httpx Keycrypt Base64Url Webhooks Ident.
From S2P Require Import Signature LedgerStore LedgerReports Json.
Local Open Scope Z_scope.

(** ** Requests *)

(** A request body: unreadable (empty, malformed or beyond [MaxBodyBytes]), or
    a JSON value and the first byte after it that is not white space, if one
    can be read. *)
Inductive body : Type :=
| BodyUnreadable
| BodyValue (v : json) (next : option ascii).

Definition MaxBodyBytes : Z := 1048576.

(** [r.ParseMultipartForm]: the fields, and the files with their name and the
    records the CSV reader finds in them. *)
Record MultipartForm : Type := mkMultipartForm {
  mf_Value : string -> option string;
  mf_File : string -> option (string * list (option (list string))) }.

(** The path is clean and split at its slashes; [q_Query] is the first value of
    a query parameter, [q_Header] the first value of a header or the empty
    string; [q_Form] is absent when the body is no multipart form of at most
    10 MiB. *)
Record HttpRequest : Type := mkHttpRequest {
  q_Method : string; q_Path : list string; q_Query : string -> option string;
  q_Header : string -> string; q_ContentLength : Z; q_Body : body; q_Form : option MultipartForm }.

(** [r.URL.Query().Get(name)]. *)
Definition query_get (r : HttpRequest) (name : string) : string := default ""%string (q_Query r name).

(** [r.FormValue(name)]: the query comes before the form. *)
Definition form_value (r : HttpRequest) (form : MultipartForm) (name : string) : string :=
  match q_Query r name with Some v => v | None => default ""%string (mf_Value form name) end.

(** ** Responses *)

(** [ErrorBody] is the platform's error document, without its message;
    [PlainBody] a text of [net/http]. *)
Inductive content : Type :=
| NoBody | JsonBody (v : json) | ErrorBody (code request_id : string) | PlainBody.

Record HttpResponse : Type := mkHttpResponse {
  rs_Status : Z; rs_Header : gmap string string; rs_Body : content }.

(** [w.Header().Set(name, value)] before the response [rs] is written. *)
Definition with_header (name value : string) (rs : HttpResponse) : HttpResponse :=
  mkHttpResponse (rs_Status rs) (rs_Header rs ∪ {[ name := value ]}) (rs_Body rs).

Definition CodeValidationFailed : string := "validation_failed".
Definition CodeInvalidCursor : string := "invalid_cursor".
Definition CodeUnauthorized : string := "unauthorized".
Definition CodeForbidden : string := "forbidden".
Definition CodeNotFound : string := "not_found".
Definition CodeConflict : string := "conflict".
Definition CodeIdempotencyConflict : string := "idempotency_conflict".
Definition CodeUnbalancedTransaction : string := "unbalanced_transaction".
Definition CodeInsufficientFunds : string := "insufficient_funds".
Definition CodeRateLimited : string := "rate_limited".
Definition CodeServiceUnavailable : string := "service_unavailable".
Definition CodeInternal : string := "internal".

(** The catalog: the status each code stands for. *)
Definition catalog : list (string * Z) :=
  [(CodeValidationFailed, 400); (CodeInvalidCursor, 400); (CodeUnauthorized, 401);
   (CodeForbidden, 403); (CodeNotFound, 404); (CodeConflict, 409); (CodeIdempotencyConflict, 409);
   (CodeUnbalancedTransaction, 422); (CodeInsufficientFunds, 422); (CodeRateLimited, 429);
   (CodeServiceUnavailable, 503); (CodeInternal, 500)].

(** What the middlewares put into the request's context, and the path value
    the mux extracts. *)
Record Context : Type := mkContext {
  cx_Claims : option Claims; cx_RequestID : string; cx_PathID : string }.

Definition with_claims (c : Claims) (cx : Context) : Context :=
  mkContext (Some c) (cx_RequestID cx) (cx_PathID cx).
Definition with_request_id (id : string) (cx : Context) : Context :=
  mkContext (cx_Claims cx) id (cx_PathID cx).
Definition with_path_id (id : string) (cx : Context) : Context :=
  mkContext (cx_Claims cx) (cx_RequestID cx) id.

Definition json_content_type : gmap string string := {[ "Content-Type"%string := "application/json"%string ]}.

Definition WriteJSON (status : Z) (v : option json) : HttpResponse :=
  mkHttpResponse status json_content_type (match v with Some v => JsonBody v | None => NoBody end).

Definition WriteError (cx : Context) (status : Z) (code : string) : HttpResponse :=
  mkHttpResponse status json_content_type (ErrorBody code (cx_RequestID cx)).

(** [http.Error]. *)
Definition plain_error (status : Z) : HttpResponse :=
  mkHttpResponse status {[ "Content-Type"%string := "text/plain; charset=utf-8"%string ]} PlainBody.

(** ** Handlers

    A handler over states [S]. Its body runs in [result HttpResponse]: an
    early return answers and leaves the state as it was. *)

Definition handler (S : Type) : Type := Context -> HttpRequest -> S -> HttpResponse * S.

Definition respond {S} (run : result HttpResponse (HttpResponse * S)) (st : S) : HttpResponse * S :=
  match run with Ok answer => answer | Err rs => (rs, st) end.

(** [if err != nil { writeErr(w, r, err); return }]. *)
Definition service {E A} (write : E -> HttpResponse) (m : result E A) : result HttpResponse A :=
  map_err write m.

Definition bad_request (cx : Context) : HttpResponse := WriteError cx 400 CodeValidationFailed.

(** A value a check may refuse with 400 validation_failed. *)
Definition valid {A} (cx : Context) (o : option A) : result HttpResponse A :=
  match o with Some a => Ok a | None => Err (bad_request cx) end.

(** [dec.More()]: a closing bracket does not count as more. *)
Definition More (next : option ascii) : bool :=
  match next with
  | Some c => negb (bool_decide (c = "]"%char) || bool_decide (c = "}"%char))
  | None => false
  end.

(** [DecodeJSON] into a zero value, and the answer of every caller when it
    fails. *)
Definition DecodeJSON {A} (d : decoder A) (zero : A) (r : HttpRequest) : option A :=
  match q_Body r with
  | BodyUnreadable => None
  | BodyValue v next => x ← d v zero; if More next then None else Some x
  end.

Definition decoded {A} (cx : Context) (d : decoder A) (zero : A) (r : HttpRequest)
  : result HttpResponse A := valid cx (DecodeJSON d zero r).

(** [if r.ContentLength != 0 { DecodeJSON }]. *)
Definition decoded_optional {A} (cx : Context) (d : decoder A) (zero : A) (r : HttpRequest)
  : result HttpResponse A :=
  if q_ContentLength r =? 0 then Ok zero else decoded cx d zero r.

Section Parsing.
Context `{Render, Parsers}.

Definition pathID (cx : Context) : result HttpResponse uuid := valid cx (uuid_Parse (cx_PathID cx)).

(** [ParsePage] with the answers it writes. *)
Definition parse_page (cx : Context) (r : HttpRequest) : result HttpResponse PageRequest :=
  map_err (fun e => match e with
                    | BadLimit => bad_request cx
                    | BadCursor => WriteError cx 400 CodeInvalidCursor
                    end)
    (ParsePage DecodeCursor (query_get r "limit") (query_get r "cursor")).

(** [ListResponse] of a page: [Window] over the rows fetched, the views of the
    rows it keeps, and the cursor in its wire form. *)
Definition ListResponse {A} (keyOf : A -> Cursor) (view : A -> json) (limit : Z) (rows : list A) : json :=
  let '(items, next) := Window rows (Z.to_nat limit) keyOf in
  JObj [("data"%string, json_list view items);
        ("next_cursor"%string, json_opt (fun c => JStr (Encode c)) next)].

(** [ident.TenantFromContext] and the nil check. *)
Definition tenant (cx : Context) : result HttpResponse uuid :=
  match cx_Claims cx with
  | None => Err (WriteError cx 401 CodeUnauthorized)
  | Some c => if cl_TenantID c =? uuid_Nil then Err (WriteError cx 401 CodeUnauthorized)
              else Ok (cl_TenantID c)
  end.
End Parsing.

(** ** The mux *)

Inductive segment : Type := Lit (s : string) | Wild.

(** A pattern: its method (any when absent), its segments, and whether it ends
    in a slash and matches what lies below it. *)
Record pattern : Type := mkPattern {
  pt_Method : option string; pt_Segments : list segment; pt_Below : bool }.

Definition on (method : string) (segs : list segment) : pattern := mkPattern (Some method) segs false.

(** The path value captured, empty when the pattern has no wildcard. *)
Fixpoint match_segments (below : bool) (segs : list segment) (path : list string) : option string :=
  match segs, path with
  | [], [] => if below then None else Some ""%string
  | [], _ :: _ => if below then Some ""%string else None
  | Lit s :: segs, p :: path => if decide (s = p) then match_segments below segs path else None
  | Wild :: segs, p :: path =>
      if decide (p = ""%string) then None
      else match match_segments below segs path with Some _ => Some p | None => None end
  | _ :: _, [] => None
  end.

Definition match_path (p : pattern) (path : list string) : option string :=
  match_segments (pt_Below p) (pt_Segments p) path.

(** A GET pattern also serves HEAD. *)
Definition match_method (p : pattern) (method : string) : bool :=
  match pt_Method p with
  | None => true
  | Some m => bool_decide (m = method) || (bool_decide (m = "GET"%string) && bool_decide (method = "HEAD"%string))
  end.

(** The patterns of a mux never overlap here, so the first match is the most
    specific one. *)
Fixpoint find_route {H} (routes : list (pattern * H)) (method : string) (path : list string)
  : option (H * string) :=
  match routes with
  | [] => None
  | (p, h) :: routes =>
      match match_path p path with
      | Some id => if match_method p method then Some (h, id) else find_route routes method path
      | None => find_route routes method path
      end
  end.

Definition methods : list string := ["DELETE"; "GET"; "HEAD"; "PATCH"; "POST"]%string.

(** The methods with a pattern for the path, sorted. *)
Definition allowed {H} (routes : list (pattern * H)) (path : list string) : list string :=
  filter (fun m => existsb (fun r => bool_decide (is_Some (match_path r.1 path)) && match_method r.1 m) routes = true)
    methods.

Definition mux {S} (routes : list (pattern * handler S)) : handler S := fun cx r st =>
  match find_route routes (q_Method r) (q_Path r) with
  | Some (h, id) => h (with_path_id id cx) r st
  | None =>
      match allowed routes (q_Path r) with
      | [] => (plain_error 404, st)
      | ms => (with_header "Allow" (String.concat ", " ms) (plain_error 405), st)
      end
  end.

(** ** Middlewares *)

(** [RequestID]: the incoming id, or [fresh], the one [newRequestID] makes. *)
Definition request_id (fresh : string) (r : HttpRequest) : string :=
  let incoming := q_Header r "X-Request-Id"%string in
  if bool_decide (incoming = ""%string) || (128 <? Z.of_nat (String.length incoming))
  then fresh else incoming.

Definition RequestID {S} (fresh : string) (next : handler S) : handler S := fun cx r st =>
  let id := request_id fresh r in
  let '(rs, st) := next (with_request_id id cx) r st in
  (with_header "X-Request-Id" id rs, st).

Definition cors_headers (origin : string) : gmap string string := list_to_map [
  ("Access-Control-Allow-Origin", origin); ("Vary", "Origin");
  ("Access-Control-Allow-Credentials", "true");
  ("Access-Control-Allow-Headers",
   "Authorization, Content-Type, X-Tenant-Id, X-Request-Id, Idempotency-Key");
  ("Access-Control-Allow-Methods", "GET, POST, PUT, PATCH, DELETE, OPTIONS")]%string.

Definition with_cors (origin : string) (rs : HttpResponse) : HttpResponse :=
  if decide (origin = ""%string) then rs
  else mkHttpResponse (rs_Status rs) (rs_Header rs ∪ cors_headers origin) (rs_Body rs).

Definition CORSDev {S} (next : handler S) : handler S := fun cx r st =>
  let origin := q_Header r "Origin"%string in
  if decide (q_Method r = "OPTIONS"%string) then (with_cors origin (mkHttpResponse 204 ∅ NoBody), st)
  else let '(rs, st) := next cx r st in (with_cors origin rs, st).

(** [ident.RequireScope] as a middleware. *)
Definition require_scope {S} (scope : string) (next : handler S) : handler S := fun cx r st =>
  match RequireScope scope (cx_Claims cx) with
  | AuthError status code _ => (WriteError cx status code, st)
  | Next _ => next cx r st
  end.

Section Shell.
Context `{Parsers, Jwt}.

Definition auth_headers (r : HttpRequest) : AuthHeaders :=
  mkAuthHeaders (q_Header r "X-Tenant-Id"%string) (q_Header r "Authorization"%string).

(** [ident.RequireAuthConfig] as a middleware. *)
Definition require_auth {S} (cfg : AuthConfig) (now : time) (lookup : string -> option bytes)
  (next : handler S) : handler S := fun cx r st =>
  match RequireAuthConfig cfg now lookup (auth_headers r) with
  | AuthError status code _ => (WriteError cx status code, st)
  | Next c => next (with_claims c cx) r st
  end.

(** ** The shell of an API service *)

(** A route of the API: its pattern, its scope, its handler. *)
Definition api_route (S : Type) : Type := (pattern * (string * handler S))%type.

Definition scoped {S} (routes : list (api_route S)) : list (pattern * handler S) :=
  map (fun rt => (rt.1, require_scope rt.2.1 rt.2.2)) routes.

Definition status_ok (word : string) : HttpResponse :=
  WriteJSON 200 (Some (JObj [("status"%string, JStr word)])).

(** [readyz]: whether the database answers the ping. *)
Definition readyz {S} (ping : bool) (word : string) : handler S := fun cx _ st =>
  if ping then (status_ok word, st) else (WriteError cx 503 CodeServiceUnavailable, st).

Definition api_root {S} (cfg : AuthConfig) (now : time) (lookup : string -> option bytes) (ping : bool)
  (ready : string) (routes : list (api_route S)) : handler S :=
  mux [(on "GET" [Lit "healthz"], fun _ _ st => (status_ok "ok", st));
       (on "GET" [Lit "readyz"], readyz ping ready);
       (mkPattern None [Lit "v1"] true, require_auth cfg now lookup (mux (scoped routes)))].
End Shell.

(** The context a request arrives with. *)
Definition empty_context : Context := mkContext None "" "".
