(* ===== verification/LedgerViews.v ===== *)
(** * Wire views: [services/ledger-core/internal/adapters/http/views.go]

    Every entity as the JSON document of the OpenAPI contract: amounts are
    strings of decimal digits, a nil metadata map is an empty object. Also the
    conversions between the strings of the wire and the domain's enumerations. *)

From Stdlib Require Import Ascii String ZArith Lia.
From S2P Require Import Prelude Strconv Errors Money LedgerDomain LedgerEvents LedgerDb Httpx.
From S2P Require Import LedgerStore LedgerReports LedgerService Base64Url Json Http.
Local Open Scope string_scope.
Local Open Scope Z_scope.
Local Open Scope list_scope.

(** ** Strings of the enumerations *)

Definition AccountType_string (t : AccountType) : string :=
  match t with
  | AccountAsset => "asset" | AccountLiability => "liability" | AccountEquity => "equity"
  | AccountRevenue => "revenue" | AccountExpense => "expense" | AccountTypeOther s => s
  end.

(** [domain.AccountType(s)], [domain.Direction(s)], [domain.TransactionStatus(s)]. *)
Definition AccountType_of (s : string) : AccountType :=
  if decide (s = "asset"%string) then AccountAsset
  else if decide (s = "liability"%string) then AccountLiability
  else if decide (s = "equity"%string) then AccountEquity
  else if decide (s = "revenue"%string) then AccountRevenue
  else if decide (s = "expense"%string) then AccountExpense
  else AccountTypeOther s.

Definition Direction_of (s : string) : Direction :=
  if decide (s = "DEBIT"%string) then DirectionDebit
  else if decide (s = "CREDIT"%string) then DirectionCredit
  else DirectionOther s.

Definition TransactionStatus_of (s : string) : TransactionStatus :=
  if decide (s = "draft"%string) then TransactionDraft
  else if decide (s = "posted"%string) then TransactionPosted
  else if decide (s = "reversed"%string) then TransactionReversed
  else TransactionStatusOther s.

Definition HoldStatus_string (s : HoldStatus) : string :=
  match s with
  | HoldActive => "active" | HoldCaptured => "captured" | HoldReleased => "released"
  | HoldExpired => "expired"
  end.

Definition normalBalanceOut (nb : NormalBalance) : string :=
  match nb with NormalDebit => "DEBIT" | _ => "CREDIT" end.

Definition normalBalanceIn (s : string) : option NormalBalance :=
  if decide (ToUpper s = "DEBIT"%string) then Some NormalDebit
  else if decide (ToUpper s = "CREDIT"%string) then Some NormalCredit
  else None.

(** ** Amounts *)

Definition newMoneyView (a : Amount) : json :=
  JObj [("asset", JStr (Asset a)); ("amount", JStr (FormatInt (Units a)))].

Record moneyBody : Type := mkMoneyBody { mb_Asset : string; mb_Amount : string }.
Definition zero_moneyBody : moneyBody := mkMoneyBody "" "".

Definition d_moneyBody : decoder moneyBody := d_struct [
  member "asset" d_string mb_Asset (fun v m => mkMoneyBody v (mb_Amount m));
  member "amount" d_string mb_Amount (fun v m => mkMoneyBody (mb_Asset m) v)].

Definition toAmount (m : moneyBody) : option Amount :=
  units ← ParseInt (TrimSpace (mb_Amount m)); Some (mkAmount (mb_Asset m) units).

(** ** Entities *)

Definition orEmpty (m : metadata) : json := json_of_map JStr (default ∅ m).

Section Views.
Context `{Render, Parsers}.

Definition json_id (id : uuid) : json := JStr (uuid_String id).

Definition newLedgerView (l : Ledger) : json :=
  JObj ([("id", json_id (l_ID l)); ("name", JStr (l_Name l))]
        ++ omitempty "description" (l_Description l)
        ++ [("environment", JStr (l_Environment l)); ("metadata", orEmpty (l_Metadata l));
            ("created_at", JTime (l_CreatedAt l))]).

Definition newAccountView (a : Account) : json :=
  JObj [("id", json_id (a_ID a)); ("ledger_id", json_id (a_LedgerID a)); ("name", JStr (a_Name a));
        ("type", JStr (AccountType_string (a_Type a)));
        ("normal_balance", JStr (normalBalanceOut (a_NormalBalance a)));
        ("status", JStr (a_Status a)); ("metadata", orEmpty (a_Metadata a));
        ("created_at", JTime (a_CreatedAt a))].

Definition newBalanceView (b : Balance) (nb : NormalBalance) : json :=
  JObj [("asset", JStr (b_Asset b)); ("exponent", JNum (AssetExponent (b_Asset b)));
        ("posted", JStr (FormatInt (PostedNet b nb)));
        ("pending", JStr (FormatInt (PendingNet b nb)));
        ("available", JStr (FormatInt (Available b nb)));
        ("held", JStr (FormatInt (b_Held b)));
        ("posted_debits", JStr (FormatInt (b_PostedDebits b)));
        ("posted_credits", JStr (FormatInt (b_PostedCredits b)));
        ("version", JNum (b_Version b))].

Definition newPostingView (p : Posting) : json :=
  JObj [("id", json_id (p_ID p)); ("account_id", json_id (p_AccountID p));
        ("direction", JStr (Direction_string (p_Direction p)));
        ("amount", newMoneyView (p_Amount p))].

Definition newTransactionView (t : Transaction) : json :=
  JObj ([("id", json_id (t_ID t)); ("ledger_id", json_id (t_LedgerID t));
         ("idempotency_key", JStr (t_IdempotencyKey t))]
        ++ omitempty "reference" (t_Reference t) ++ omitempty "description" (t_Description t)
        ++ [("status", JStr (TransactionStatus_string (t_Status t)));
            ("postings", json_list newPostingView (t_Postings t));
            ("metadata", orEmpty (t_Metadata t));
            ("reversed_by", json_opt json_id (t_ReversedByID t));
            ("reverses", json_opt json_id (t_ReversesID t));
            ("effective_at", JTime (t_EffectiveAt t)); ("created_at", JTime (t_CreatedAt t));
            ("posted_at", json_opt JTime (t_PostedAt t))]).

Definition newEntryView (e : Entry) : json :=
  JObj [("id", json_id (e_ID e)); ("transaction_id", json_id (e_TransactionID e));
        ("account_id", json_id (e_AccountID e));
        ("direction", JStr (Direction_string (e_Direction e)));
        ("amount", newMoneyView (e_Amount e)); ("created_at", JTime (e_CreatedAt e))].

Definition newHoldView (h : Hold) : json :=
  JObj [("id", json_id (h_ID h)); ("ledger_id", json_id (h_LedgerID h));
        ("account_id", json_id (h_AccountID h)); ("idempotency_key", JStr (h_IdempotencyKey h));
        ("amount", newMoneyView (h_Amount h)); ("status", JStr (HoldStatus_string (h_Status h)));
        ("transaction_id", json_opt json_id (h_CapturedTransactionID h));
        ("expires_at", JTime (h_ExpiresAt h)); ("metadata", orEmpty (h_Metadata h));
        ("created_at", JTime (h_CreatedAt h))].

(** ** Reports *)

Definition trialBalanceRowView (r : TrialBalanceRow) : json :=
  JObj [("account_id", json_id (tbr_AccountID r)); ("account_name", JStr (tbr_AccountName r));
        ("account_type", JStr (AccountType_string (tbr_AccountType r)));
        ("asset", JStr (tbr_Asset r)); ("debits", JStr (FormatInt (tbr_Debits r)));
        ("credits", JStr (FormatInt (tbr_Credits r)));
        ("net", JStr (FormatInt (wrap64 (tbr_Debits r - tbr_Credits r))))].

Definition trialBalanceTotalView (t : TrialBalanceTotal) : json :=
  JObj [("asset", JStr (tbt_Asset t)); ("debits", JStr (FormatInt (tbt_Debits t)));
        ("credits", JStr (FormatInt (tbt_Credits t))); ("balanced", JBool (tbt_Balanced t))].

Definition newTrialBalanceView (tb : TrialBalance) : json :=
  JObj [("ledger_id", json_id (tb_LedgerID tb)); ("as_of", JTime (tb_AsOf tb));
        ("rows", json_list trialBalanceRowView (tb_Rows tb));
        ("totals", json_list trialBalanceTotalView (tb_Totals tb))].

Definition newAssetBalanceView (b : AssetBalance) : json :=
  JObj [("asset", JStr (ab_Asset b)); ("exponent", JNum (AssetExponent (ab_Asset b)));
        ("amount", JStr (FormatInt (ab_Units b)))].

Definition statementEntryView (e : StatementEntry) : json :=
  JObj ([("id", json_id (se_PostingID e)); ("transaction_id", json_id (se_TransactionID e))]
        ++ omitempty "reference" (se_Reference e)
        ++ [("direction", JStr (Direction_string (se_Direction e)));
            ("amount", newMoneyView (se_Amount e)); ("effective_at", JTime (se_EffectiveAt e));
            ("running_balance", JStr (FormatInt (se_Running e)))]).

Definition statement_cursor (e : StatementEntry) : Cursor := mkCursor (se_EffectiveAt e) (se_PostingID e).

Definition newStatementView (s : Statement) (limit : Z) : json :=
  let '(entries, next) := Window (st_Entries s) (Z.to_nat limit) statement_cursor in
  JObj [("account", newAccountView (st_Account s));
        ("period", JObj [("from", JTime (st_From s)); ("to", JTime (st_To s))]);
        ("opening_balance", json_list newAssetBalanceView (st_Opening s));
        ("entries", json_list statementEntryView entries);
        ("closing_balance", json_list newAssetBalanceView (st_Closing s));
        ("next_cursor", json_opt (fun c => JStr (Encode c)) next)].

Definition providerPositionsHint : string :=
  ("no provider accounts found: name accounts as " +:+
  "assets:provider:<name>:... (or liabilities:provider:<name>:...) or set metadata.provider on the account")%string.

Definition positionDirection (net : Z) : string :=
  if 0 <? net then "they_owe_us" else if net <? 0 then "we_owe_them" else "flat".

Definition assetPositionView (p : ProviderAssetPosition) : json :=
  JObj [("asset", JStr (pap_Asset p)); ("exponent", JNum (AssetExponent (pap_Asset p)));
        ("net", JStr (FormatInt (pap_Net p))); ("direction", JStr (positionDirection (pap_Net p)));
        ("accounts", json_list json_id (pap_Accounts p))].

Definition providerPositionView (p : ProviderPosition) : json :=
  JObj [("provider", JStr (pp_Provider p));
        ("positions", json_list assetPositionView (pp_Positions p))].

Definition newProviderPositionsView (positions : list ProviderPosition) : json :=
  JObj (("data", json_list providerPositionView positions)
        :: omitempty "hint" (if decide (positions = []) then providerPositionsHint else "")).
End Views.

(** ** Laws *)

Lemma ParseInt_range s z : ParseInt s = Some z -> in_int64 z = true.
Proof.
  unfold ParseInt. intros E. repeat case_in E; try done; by injection E as <-.
Qed.

Lemma toAmount_wf m a : toAmount m = Some a -> amount_wf a.
Proof.
  unfold toAmount. destruct (ParseInt (TrimSpace (mb_Amount m))) as [u|] eqn:E; cbn; [|done].
  intros [= <-]. by apply ParseInt_range in E.
Qed.

(** The snapshot kept with an idempotency key shows what the transaction showed. *)
Lemma snapshot_view `{Render} t : newTransactionView (json_snapshot t) = newTransactionView t.
Proof.
  unfold newTransactionView, json_snapshot, orEmpty. cbn [t_Metadata t_ID t_LedgerID t_IdempotencyKey
    t_Reference t_Description t_Status t_Postings t_ReversedByID t_ReversesID t_EffectiveAt t_CreatedAt
    t_PostedAt].
  destruct (t_Metadata t) as [m|]; cbn [mbind option_bind]; [|done]. case_decide; [|done]. by subst.
Qed.
