(* ===== verification/LedgerHttp.v ===== *)
(** * The HTTP adapter of the ledger: [services/ledger-core/internal/adapters/http]

    The handlers of [handlers.go] over any store, in the order of the file, and
    the router of [router.go]. Each handler is its sequence of early returns:
    tenant, path id, page, body, service call. *)

From Stdlib Require Import Ascii String ZArith Lia.
From S2P Require Import Prelude Strconv Errors Money LedgerDomain LedgerEvents LedgerDb Httpx.
From S2P Require Import LedgerStore LedgerReports LedgerService Signature Base64Url Ident Json Http LedgerViews.
Local Open Scope string_scope.
Local Open Scope Z_scope.
Local Open Scope list_scope.

(** ** Errors *)

(** [writeErr]: the status and code of an error. *)
Definition error_status (e : error) : Z * string :=
  match e with
  | ErrNotFound => (404, CodeNotFound)
  | ErrIdempotencyConflict => (409, CodeIdempotencyConflict)
  | ErrConflict => (409, CodeConflict)
  | ErrInvalidState => (409, CodeConflict)
  | ErrInsufficientFunds => (422, CodeInsufficientFunds)
  | ErrUnbalanced | ErrOverflow => (422, CodeUnbalancedTransaction)
  | ErrTooFewPostings | ErrNonPositiveAmount | ErrInvalidDirection | ErrInvalidAsset
  | ErrValidation => (400, CodeValidationFailed)
  | _ => (500, CodeInternal)
  end.

Definition writeErr (cx : Context) (e : error) : HttpResponse :=
  WriteError cx (error_status e).1 (error_status e).2.

(** ** Request bodies *)

Record createLedgerRequest : Type := mkCreateLedgerRequest {
  clr_Name : string; clr_Description : string; clr_Metadata : metadata }.

Definition d_createLedgerRequest : decoder createLedgerRequest := d_struct [
  member "name" d_string clr_Name (fun v q => mkCreateLedgerRequest v (clr_Description q) (clr_Metadata q));
  member "description" d_string clr_Description (fun v q => mkCreateLedgerRequest (clr_Name q) v (clr_Metadata q));
  member "metadata" d_metadata clr_Metadata (fun v q => mkCreateLedgerRequest (clr_Name q) (clr_Description q) v)].

Record createAccountRequest : Type := mkCreateAccountRequest {
  car_LedgerID : uuid; car_Name : string; car_Type : string; car_NormalBalance : string;
  car_Metadata : metadata }.

Definition d_createAccountRequest `{Unmarshal} : decoder createAccountRequest := d_struct [
  member "ledger_id" d_uuid car_LedgerID (fun v q =>
    mkCreateAccountRequest v (car_Name q) (car_Type q) (car_NormalBalance q) (car_Metadata q));
  member "name" d_string car_Name (fun v q =>
    mkCreateAccountRequest (car_LedgerID q) v (car_Type q) (car_NormalBalance q) (car_Metadata q));
  member "type" d_string car_Type (fun v q =>
    mkCreateAccountRequest (car_LedgerID q) (car_Name q) v (car_NormalBalance q) (car_Metadata q));
  member "normal_balance" d_string car_NormalBalance (fun v q =>
    mkCreateAccountRequest (car_LedgerID q) (car_Name q) (car_Type q) v (car_Metadata q));
  member "metadata" d_metadata car_Metadata (fun v q =>
    mkCreateAccountRequest (car_LedgerID q) (car_Name q) (car_Type q) (car_NormalBalance q) v)].

Record postingRequest : Type := mkPostingRequest {
  por_AccountID : uuid; por_Direction : string; por_Amount : moneyBody }.

Definition d_postingRequest `{Unmarshal} : decoder postingRequest := d_struct [
  member "account_id" d_uuid por_AccountID (fun v q => mkPostingRequest v (por_Direction q) (por_Amount q));
  member "direction" d_string por_Direction (fun v q => mkPostingRequest (por_AccountID q) v (por_Amount q));
  member "amount" d_moneyBody por_Amount (fun v q => mkPostingRequest (por_AccountID q) (por_Direction q) v)].

Record createTransactionRequest : Type := mkCreateTransactionRequest {
  ctr_LedgerID : uuid; ctr_IdempotencyKey : string; ctr_Reference : string; ctr_Description : string;
  ctr_Status : string; ctr_EffectiveAt : option time; ctr_Metadata : metadata;
  ctr_Postings : option (list postingRequest) }.

Definition d_createTransactionRequest `{Unmarshal} : decoder createTransactionRequest := d_struct [
  member "ledger_id" d_uuid ctr_LedgerID (fun v q => mkCreateTransactionRequest v (ctr_IdempotencyKey q)
    (ctr_Reference q) (ctr_Description q) (ctr_Status q) (ctr_EffectiveAt q) (ctr_Metadata q) (ctr_Postings q));
  member "idempotency_key" d_string ctr_IdempotencyKey (fun v q => mkCreateTransactionRequest (ctr_LedgerID q) v
    (ctr_Reference q) (ctr_Description q) (ctr_Status q) (ctr_EffectiveAt q) (ctr_Metadata q) (ctr_Postings q));
  member "reference" d_string ctr_Reference (fun v q => mkCreateTransactionRequest (ctr_LedgerID q)
    (ctr_IdempotencyKey q) v (ctr_Description q) (ctr_Status q) (ctr_EffectiveAt q) (ctr_Metadata q) (ctr_Postings q));
  member "description" d_string ctr_Description (fun v q => mkCreateTransactionRequest (ctr_LedgerID q)
    (ctr_IdempotencyKey q) (ctr_Reference q) v (ctr_Status q) (ctr_EffectiveAt q) (ctr_Metadata q) (ctr_Postings q));
  member "status" d_string ctr_Status (fun v q => mkCreateTransactionRequest (ctr_LedgerID q) (ctr_IdempotencyKey q)
    (ctr_Reference q) (ctr_Description q) v (ctr_EffectiveAt q) (ctr_Metadata q) (ctr_Postings q));
  member "effective_at" (d_ptr zero_time d_time) ctr_EffectiveAt (fun v q => mkCreateTransactionRequest (ctr_LedgerID q)
    (ctr_IdempotencyKey q) (ctr_Reference q) (ctr_Description q) (ctr_Status q) v (ctr_Metadata q) (ctr_Postings q));
  member "metadata" d_metadata ctr_Metadata (fun v q => mkCreateTransactionRequest (ctr_LedgerID q)
    (ctr_IdempotencyKey q) (ctr_Reference q) (ctr_Description q) (ctr_Status q) (ctr_EffectiveAt q) v (ctr_Postings q));
  member "postings" (d_slice (mkPostingRequest uuid_Nil "" zero_moneyBody) d_postingRequest) ctr_Postings
    (fun v q => mkCreateTransactionRequest (ctr_LedgerID q) (ctr_IdempotencyKey q) (ctr_Reference q)
       (ctr_Description q) (ctr_Status q) (ctr_EffectiveAt q) (ctr_Metadata q) v)].

Record reverseTransactionRequest : Type := mkReverseTransactionRequest {
  rtr_IdempotencyKey : string; rtr_Reason : string }.

Definition d_reverseTransactionRequest : decoder reverseTransactionRequest := d_struct [
  member "idempotency_key" d_string rtr_IdempotencyKey (fun v q => mkReverseTransactionRequest v (rtr_Reason q));
  member "reason" d_string rtr_Reason (fun v q => mkReverseTransactionRequest (rtr_IdempotencyKey q) v)].

Record createHoldRequest : Type := mkCreateHoldRequest {
  chr_LedgerID : option uuid; chr_AccountID : uuid; chr_IdempotencyKey : string; chr_Amount : moneyBody;
  chr_ExpiresAt : option time; chr_Metadata : metadata }.

Definition d_createHoldRequest `{Unmarshal} : decoder createHoldRequest := d_struct [
  member "ledger_id" (d_ptr uuid_Nil d_uuid) chr_LedgerID (fun v q => mkCreateHoldRequest v (chr_AccountID q)
    (chr_IdempotencyKey q) (chr_Amount q) (chr_ExpiresAt q) (chr_Metadata q));
  member "account_id" d_uuid chr_AccountID (fun v q => mkCreateHoldRequest (chr_LedgerID q) v
    (chr_IdempotencyKey q) (chr_Amount q) (chr_ExpiresAt q) (chr_Metadata q));
  member "idempotency_key" d_string chr_IdempotencyKey (fun v q => mkCreateHoldRequest (chr_LedgerID q)
    (chr_AccountID q) v (chr_Amount q) (chr_ExpiresAt q) (chr_Metadata q));
  member "amount" d_moneyBody chr_Amount (fun v q => mkCreateHoldRequest (chr_LedgerID q) (chr_AccountID q)
    (chr_IdempotencyKey q) v (chr_ExpiresAt q) (chr_Metadata q));
  member "expires_at" (d_ptr zero_time d_time) chr_ExpiresAt (fun v q => mkCreateHoldRequest (chr_LedgerID q)
    (chr_AccountID q) (chr_IdempotencyKey q) (chr_Amount q) v (chr_Metadata q));
  member "metadata" d_metadata chr_Metadata (fun v q => mkCreateHoldRequest (chr_LedgerID q) (chr_AccountID q)
    (chr_IdempotencyKey q) (chr_Amount q) (chr_ExpiresAt q) v)].

Record captureHoldRequest : Type := mkCaptureHoldRequest {
  khr_Amount : option moneyBody; khr_TransactionID : option uuid }.

Definition d_captureHoldRequest `{Unmarshal} : decoder captureHoldRequest := d_struct [
  member "amount" (d_ptr zero_moneyBody d_moneyBody) khr_Amount
    (fun v q => mkCaptureHoldRequest v (khr_TransactionID q));
  member "transaction_id" (d_ptr uuid_Nil d_uuid) khr_TransactionID
    (fun v q => mkCaptureHoldRequest (khr_Amount q) v)].

(** The [Idempotency-Key] header stands in for an empty body field. *)
Definition key_or_header (key : string) (r : HttpRequest) : string :=
  if decide (key = "") then q_Header r "Idempotency-Key" else key.

(** The legs of a request, or none when an amount is no integer. *)
Fixpoint posting_inputs (ps : list postingRequest) : option (list PostingInput) :=
  match ps with
  | [] => Some []
  | p :: ps =>
      amount ← toAmount (por_Amount p);
      rest ← posting_inputs ps;
      Some (mkPostingInput (por_AccountID p) (Direction_of (ToUpper (por_Direction p))) amount :: rest)
  end.

(** 201 for what the request made, 200 and a header for a replay. *)
Definition created (replayed : bool) (v : json) : HttpResponse :=
  if replayed then with_header "X-Idempotent-Replay" "true" (WriteJSON 200 (Some v))
  else WriteJSON 201 (Some v).

(** ** Handlers *)

Section Handlers.
Context {S : Type} `{Store S, Render, Parsers, Unmarshal}.
Variables (ids : list uuid) (now : time).

(** A service call in a handler. *)
Definition call {A} (cx : Context) (m : Call S A) (st : S) : result HttpResponse (A * S) :=
  service (writeErr cx) (m ids now st).

Definition fetch_page (pr : PageRequest) : Page := mkPage (pq_Cursor pr) (FetchLimit pr).

Definition optionalUUID (cx : Context) (raw : string) : result HttpResponse (option uuid) :=
  if decide (raw = "") then Ok None else id ← valid cx (uuid_Parse raw); Ok (Some id).

Definition optionalTime (cx : Context) (raw : string) : result HttpResponse time :=
  if decide (raw = "") then Ok zero_time else valid cx (time_Parse raw).

Definition createLedger : handler S := fun cx r st => respond (
  tenantID ← tenant cx;
  req ← decoded cx d_createLedgerRequest (mkCreateLedgerRequest "" "" None) r;
  let environment := match cx_Claims cx with Some c => cl_Environment c | None => "" end in
  '(l, st) ← call cx (svc_CreateLedger tenantID (mkCreateLedgerInput (clr_Name req) (clr_Description req)
               environment (clr_Metadata req))) st;
  Ok (WriteJSON 201 (Some (newLedgerView l)), st)) st.

Definition listLedgers : handler S := fun cx r st => respond (
  tenantID ← tenant cx;
  page ← parse_page cx r;
  '(ledgers, st) ← call cx (st_ListLedgers tenantID (fetch_page page)) st;
  Ok (WriteJSON 200 (Some (ListResponse ledger_key newLedgerView (pq_Limit page) ledgers)), st)) st.

Definition getLedger : handler S := fun cx r st => respond (
  tenantID ← tenant cx;
  id ← pathID cx;
  '(l, st) ← call cx (st_GetLedger tenantID id) st;
  Ok (WriteJSON 200 (Some (newLedgerView l)), st)) st.

Definition createAccount : handler S := fun cx r st => respond (
  tenantID ← tenant cx;
  req ← decoded cx d_createAccountRequest (mkCreateAccountRequest uuid_Nil "" "" "" None) r;
  nb ← valid cx (normalBalanceIn (car_NormalBalance req));
  '(a, st) ← call cx (svc_CreateAccount tenantID (mkCreateAccountInput (car_LedgerID req) (car_Name req)
               (AccountType_of (ToLower (car_Type req))) nb (car_Metadata req))) st;
  Ok (WriteJSON 201 (Some (newAccountView a)), st)) st.

(** The [type] filter. *)
Definition type_filter (cx : Context) (raw : string) : result HttpResponse (option AccountType) :=
  if decide (raw = "") then Ok None
  else let t := AccountType_of (ToLower raw) in
       if AccountType_Valid t then Ok (Some t) else Err (bad_request cx).

Definition listAccounts : handler S := fun cx r st => respond (
  tenantID ← tenant cx;
  page ← parse_page cx r;
  ledgerID ← optionalUUID cx (query_get r "ledger_id");
  type ← type_filter cx (query_get r "type");
  '(accounts, st) ← call cx (st_ListAccounts tenantID (mkAccountFilter ledgerID type) (fetch_page page)) st;
  Ok (WriteJSON 200 (Some (ListResponse account_key newAccountView (pq_Limit page) accounts)), st)) st.

Definition getAccount : handler S := fun cx r st => respond (
  tenantID ← tenant cx;
  id ← pathID cx;
  '(a, st) ← call cx (st_GetAccount tenantID id) st;
  Ok (WriteJSON 200 (Some (newAccountView a)), st)) st.

Definition getBalances : handler S := fun cx r st => respond (
  tenantID ← tenant cx;
  id ← pathID cx;
  '((account, balances), st) ← call cx (st_GetBalances tenantID id) st;
  let data := json_list (fun b => newBalanceView b (a_NormalBalance account)) balances in
  Ok (WriteJSON 200 (Some (JObj [("data", data)])), st)) st.

Definition listEntries : handler S := fun cx r st => respond (
  tenantID ← tenant cx;
  id ← pathID cx;
  page ← parse_page cx r;
  '(entries, st) ← call cx (svc_ListEntries tenantID id (query_get r "asset") (fetch_page page)) st;
  Ok (WriteJSON 200 (Some (ListResponse entry_key newEntryView (pq_Limit page) entries)), st)) st.

Definition transaction_input (req : createTransactionRequest) (r : HttpRequest) (ps : list PostingInput)
  : CreateTransactionInput :=
  mkCreateTransactionInput (ctr_LedgerID req) (key_or_header (ctr_IdempotencyKey req) r)
    (ctr_Reference req) (ctr_Description req)
    (if decide (ctr_Status req = "") then None else Some (TransactionStatus_of (ctr_Status req)))
    (ctr_EffectiveAt req) (ctr_Metadata req) ps.

Definition zero_createTransactionRequest : createTransactionRequest :=
  mkCreateTransactionRequest uuid_Nil "" "" "" "" None None None.

Definition createTransaction : handler S := fun cx r st => respond (
  tenantID ← tenant cx;
  req ← decoded cx d_createTransactionRequest zero_createTransactionRequest r;
  ps ← valid cx (posting_inputs (default [] (ctr_Postings req)));
  '((t, replayed), st) ← call cx (svc_CreateTransaction tenantID (transaction_input req r ps)) st;
  Ok (created replayed (newTransactionView t), st)) st.

(** The [status] filter. *)
Definition status_filter (cx : Context) (raw : string) : result HttpResponse (option TransactionStatus) :=
  if decide (raw = "") then Ok None
  else match TransactionStatus_of (ToLower raw) with
       | TransactionStatusOther _ => Err (bad_request cx)
       | s => Ok (Some s)
       end.

Definition listTransactions : handler S := fun cx r st => respond (
  tenantID ← tenant cx;
  page ← parse_page cx r;
  ledgerID ← optionalUUID cx (query_get r "ledger_id");
  status ← status_filter cx (query_get r "status");
  '(txs, st) ← call cx (st_ListTransactions tenantID (mkTransactionFilter ledgerID status) (fetch_page page)) st;
  Ok (WriteJSON 200 (Some (ListResponse transaction_key newTransactionView (pq_Limit page) txs)), st)) st.

Definition getTransaction : handler S := fun cx r st => respond (
  tenantID ← tenant cx;
  id ← pathID cx;
  '(t, st) ← call cx (st_GetTransaction tenantID id) st;
  Ok (WriteJSON 200 (Some (newTransactionView t)), st)) st.

Definition postTransaction : handler S := fun cx r st => respond (
  tenantID ← tenant cx;
  id ← pathID cx;
  '(t, st) ← call cx (svc_PostTransaction tenantID id) st;
  Ok (WriteJSON 200 (Some (newTransactionView t)), st)) st.

Definition reverseTransaction : handler S := fun cx r st => respond (
  tenantID ← tenant cx;
  id ← pathID cx;
  req ← decoded_optional cx d_reverseTransactionRequest (mkReverseTransactionRequest "" "") r;
  '((t, replayed), st) ← call cx (svc_ReverseTransaction tenantID id
      (mkReverseTransactionInput (key_or_header (rtr_IdempotencyKey req) r) (rtr_Reason req))) st;
  Ok (created replayed (newTransactionView t), st)) st.

Definition createHold : handler S := fun cx r st => respond (
  tenantID ← tenant cx;
  req ← decoded cx d_createHoldRequest (mkCreateHoldRequest None uuid_Nil "" zero_moneyBody None None) r;
  amount ← valid cx (toAmount (chr_Amount req));
  '((hold, replayed), st) ← call cx (svc_CreateHold tenantID (mkCreateHoldInput (chr_AccountID req)
      (default uuid_Nil (chr_LedgerID req)) (chr_IdempotencyKey req) amount (chr_ExpiresAt req)
      (chr_Metadata req))) st;
  Ok (created replayed (newHoldView hold), st)) st.

Definition getHold : handler S := fun cx r st => respond (
  tenantID ← tenant cx;
  id ← pathID cx;
  '(hold, st) ← call cx (st_GetHold tenantID id) st;
  Ok (WriteJSON 200 (Some (newHoldView hold)), st)) st.

(** The amount to capture, absent for the whole hold. *)
Definition capture_amount (cx : Context) (o : option moneyBody) : result HttpResponse (option Amount) :=
  match o with None => Ok None | Some m => a ← valid cx (toAmount m); Ok (Some a) end.

Definition captureHold : handler S := fun cx r st => respond (
  tenantID ← tenant cx;
  id ← pathID cx;
  req ← decoded_optional cx d_captureHoldRequest (mkCaptureHoldRequest None None) r;
  amount ← capture_amount cx (khr_Amount req);
  '(hold, st) ← call cx (svc_CaptureHold tenantID id (mkCaptureHoldInput amount (khr_TransactionID req))) st;
  Ok (WriteJSON 200 (Some (newHoldView hold)), st)) st.

Definition releaseHold : handler S := fun cx r st => respond (
  tenantID ← tenant cx;
  id ← pathID cx;
  '(hold, st) ← call cx (svc_ReleaseHold tenantID id) st;
  Ok (WriteJSON 200 (Some (newHoldView hold)), st)) st.

Definition trialBalance : handler S := fun cx r st => respond (
  tenantID ← tenant cx;
  ledgerID ← valid cx (uuid_Parse (query_get r "ledger_id"));
  t ← optionalTime cx (query_get r "as_of");
  let asOf := if time_IsZero t then None else Some t in
  '(tb, st) ← call cx (svc_TrialBalance tenantID ledgerID asOf) st;
  Ok (WriteJSON 200 (Some (newTrialBalanceView tb)), st)) st.

Definition statement : handler S := fun cx r st => respond (
  tenantID ← tenant cx;
  accountID ← valid cx (uuid_Parse (query_get r "account_id"));
  from ← optionalTime cx (query_get r "from");
  to ← optionalTime cx (query_get r "to");
  page ← parse_page cx r;
  '(s, st) ← call cx (svc_Statement tenantID accountID from to (fetch_page page)) st;
  Ok (WriteJSON 200 (Some (newStatementView s (pq_Limit page))), st)) st.

Definition providerPositions : handler S := fun cx r st => respond (
  tenantID ← tenant cx;
  '(positions, st) ← call cx (svc_ProviderPositions tenantID) st;
  Ok (WriteJSON 200 (Some (newProviderPositionsView positions)), st)) st.

(** ** The router *)

Definition get_ (segs : list segment) (h : handler S) : api_route S := (on "GET" segs, (ScopeLedgerRead, h)).
Definition post_ (segs : list segment) (h : handler S) : api_route S := (on "POST" segs, (ScopeLedgerWrite, h)).

Definition ledger_reads : list (api_route S) := [
  get_ [Lit "v1"; Lit "ledgers"] listLedgers;
  get_ [Lit "v1"; Lit "ledgers"; Wild] getLedger;
  get_ [Lit "v1"; Lit "accounts"] listAccounts;
  get_ [Lit "v1"; Lit "accounts"; Wild] getAccount;
  get_ [Lit "v1"; Lit "accounts"; Wild; Lit "balances"] getBalances;
  get_ [Lit "v1"; Lit "accounts"; Wild; Lit "entries"] listEntries;
  get_ [Lit "v1"; Lit "transactions"] listTransactions;
  get_ [Lit "v1"; Lit "transactions"; Wild] getTransaction;
  get_ [Lit "v1"; Lit "holds"; Wild] getHold;
  get_ [Lit "v1"; Lit "trial-balance"] trialBalance;
  get_ [Lit "v1"; Lit "statements"] statement;
  get_ [Lit "v1"; Lit "provider-positions"] providerPositions].

Definition ledger_writes : list (api_route S) := [
  post_ [Lit "v1"; Lit "ledgers"] createLedger;
  post_ [Lit "v1"; Lit "accounts"] createAccount;
  post_ [Lit "v1"; Lit "transactions"] createTransaction;
  post_ [Lit "v1"; Lit "transactions"; Wild; Lit "post"] postTransaction;
  post_ [Lit "v1"; Lit "transactions"; Wild; Lit "reverse"] reverseTransaction;
  post_ [Lit "v1"; Lit "holds"] createHold;
  post_ [Lit "v1"; Lit "holds"; Wild; Lit "capture"] captureHold;
  post_ [Lit "v1"; Lit "holds"; Wild; Lit "release"] releaseHold].

Definition ledger_auth (authDisabled : bool) : AuthConfig :=
  mkAuthConfig authDisabled DefaultIssuer AudienceLedgerCore 0.

(** [NewRouter]: the routes, authentication, the CORS middleware and the
    request id around everything. [fresh] is the request id generated, [ping]
    whether the database answers, [lookup] the keys of the JWKS cache. *)
Definition NewRouter `{Jwt} (authDisabled : bool) (lookup : string -> option bytes) (ping : bool)
  (fresh : string) : handler S :=
  RequestID fresh (CORSDev (api_root (ledger_auth authDisabled) now lookup ping "ok"
    (ledger_reads ++ ledger_writes))).
End Handlers.
