(* ===== verification/HttpFacts.v ===== *)
(** * What the HTTP shell guarantees

    Every handler answers by an error document of the catalog that leaves the
    state alone, or by what its specification says; the shell adds the answers
    of the mux, the probes and the middlewares, and runs a handler only behind
    authentication and the scope of its route. *)

From Stdlib Require Import Ascii String ZArith Lia.
From S2P Require Import Prelude Strconv Errors LedgerDomain Httpx Signature Base64Url Webhooks Ident.
From S2P Require Import Json Http.
Local Open Scope Z_scope.

(** ** Answers *)

(** An error document of the catalog, for the request with id [id]. *)
Definition refusal (id : string) (rs : HttpResponse) : Prop :=
  exists code, (code, rs_Status rs) ∈ catalog /\ rs_Body rs = ErrorBody code id.

Definition success (rs : HttpResponse) : Prop :=
  (rs_Status rs = 200 \/ rs_Status rs = 201) /\ exists v, rs_Body rs = JsonBody v.

Lemma refusal_status id rs : refusal id rs -> 400 <= rs_Status rs.
Proof.
  intros (code & Hin & _). unfold catalog in Hin.
  repeat (apply elem_of_cons in Hin as [[= _ ->]|Hin]; [lia|]). set_solver.
Qed.

Lemma success_not_refusal id rs : success rs -> ~ refusal id rs.
Proof. intros [[E|E] _] Hr%refusal_status; lia. Qed.

Lemma WriteJSON_success status v : status = 200 \/ status = 201 -> success (WriteJSON status (Some v)).
Proof. intros Hs. split; [done|]. by exists v. Qed.

Lemma with_header_success k v rs : success rs -> success (with_header k v rs).
Proof. done. Qed.

Lemma WriteError_refusal cx status code :
  (code, status) ∈ catalog -> refusal (cx_RequestID cx) (WriteError cx status code).
Proof. intros Hin. by exists code. Qed.

Lemma bad_request_refusal cx : refusal (cx_RequestID cx) (bad_request cx).
Proof. apply WriteError_refusal. set_solver. Qed.

(** ** Bodies of handlers *)

(** A computation that, when it returns early, does so with a refusal. *)
Definition guards {A} (id : string) (m : result HttpResponse A) : Prop :=
  forall rs, m = Err rs -> refusal id rs.

Definition yields {S} (id : string) (run : result HttpResponse (HttpResponse * S))
  (P : HttpResponse -> S -> Prop) : Prop :=
  match run with Ok (rs, st) => P rs st | Err rs => refusal id rs end.

Lemma yields_bind {A S} id (m : result HttpResponse A) (f : A -> result HttpResponse (HttpResponse * S)) P :
  guards id m -> (forall a, m = Ok a -> yields id (f a) P) -> yields id (m ≫= f) P.
Proof. intros Hg Hf. destruct m as [a|rs]; cbn; [by apply Hf|by apply Hg]. Qed.

Lemma yields_pair {A B S} id (m : result HttpResponse (A * B))
  (f : A -> B -> result HttpResponse (HttpResponse * S)) P :
  guards id m -> (forall a b, m = Ok (a, b) -> yields id (f a b) P) ->
  yields id ('(a, b) ← m; f a b) P.
Proof. intros Hg Hf. apply yields_bind; [done|]. intros [a b] E. by apply Hf. Qed.

Lemma yields_triple {A B C S} id (m : result HttpResponse ((A * B) * C))
  (f : A -> B -> C -> result HttpResponse (HttpResponse * S)) P :
  guards id m -> (forall a b c, m = Ok ((a, b), c) -> yields id (f a b c) P) ->
  yields id ('((a, b), c) ← m; f a b c) P.
Proof. intros Hg Hf. apply yields_bind; [done|]. intros [[a b] c] E. by apply Hf. Qed.

(** A handler refuses and changes nothing, or does what [Q] says. *)
Definition handles {S} (h : handler S) (Q : Context -> HttpRequest -> S -> HttpResponse -> S -> Prop) : Prop :=
  forall cx r st rs st', h cx r st = (rs, st') ->
    (refusal (cx_RequestID cx) rs /\ st' = st) \/ Q cx r st rs st'.

Lemma respond_yields {S} id run (st : S) P rs st' :
  yields id run P -> respond run st = (rs, st') -> (refusal id rs /\ st' = st) \/ P rs st'.
Proof. destruct run as [[rs0 st0]|rs0]; cbn; intros Hy [= <- <-]; auto. Qed.

(** An answer below 400 passed every early return. *)
Lemma respond_bind {A S} id (m : result HttpResponse A) (f : A -> result HttpResponse (HttpResponse * S)) st rs st' :
  guards id m -> rs_Status rs < 400 -> respond (m ≫= f) st = (rs, st') ->
  exists a, m = Ok a /\ respond (f a) st = (rs, st').
Proof.
  intros Hg Hs. destruct m as [a|rs0]; cbn; [by eauto|]. intros [= <- <-].
  pose proof (refusal_status _ _ (Hg _ eq_refl)). lia.
Qed.

(** A handler that reads: it answers with a document. *)
Definition reads {S} (h : handler S) : Prop :=
  handles h (fun _ _ st rs st' => success rs /\ st' = st).

Lemma respond_handles {S} (h : handler S) Q (run : Context -> HttpRequest -> S -> result HttpResponse (HttpResponse * S)) :
  (forall cx r st, h cx r st = respond (run cx r st) st) ->
  (forall cx r st, yields (cx_RequestID cx) (run cx r st) (Q cx r st)) -> handles h Q.
Proof. intros Eh Hy cx r st rs st' Hrun. rewrite Eh in Hrun. by eapply respond_yields. Qed.

Lemma valid_guards {A} cx (o : option A) : guards (cx_RequestID cx) (valid cx o).
Proof. intros rs. destruct o; cbn; [done|]. intros [= <-]. apply bad_request_refusal. Qed.

Lemma decoded_guards {A} cx (d : decoder A) zero r : guards (cx_RequestID cx) (decoded cx d zero r).
Proof. apply valid_guards. Qed.

Lemma decoded_optional_guards {A} cx (d : decoder A) zero r :
  guards (cx_RequestID cx) (decoded_optional cx d zero r).
Proof. unfold decoded_optional. destruct (_ =? _); [done|]. apply decoded_guards. Qed.

Lemma service_guards {E A} id (write : E -> HttpResponse) (m : result E A) :
  (forall e, refusal id (write e)) -> guards id (service write m).
Proof. intros Hw rs. destruct m; cbn; [done|]. by intros [= <-]. Qed.

Lemma service_ok {E A} (write : E -> HttpResponse) (m : result E A) a : service write m = Ok a -> m = Ok a.
Proof. destruct m; cbn; [by intros [= ->]|done]. Qed.

Section ParsingFacts.
Context `{Render, Parsers}.

Lemma tenant_guards cx : guards (cx_RequestID cx) (tenant cx).
Proof.
  intros rs. unfold tenant. intros E.
  repeat case_in E; try done; injection E as <-; apply WriteError_refusal; set_solver.
Qed.

Lemma tenant_ok cx t :
  tenant cx = Ok t -> exists c, cx_Claims cx = Some c /\ t = cl_TenantID c /\ t <> uuid_Nil.
Proof.
  unfold tenant. destruct (cx_Claims cx) as [c|]; [|done]. destruct (Z.eqb_spec (cl_TenantID c) uuid_Nil);
    [done|]. intros [= <-]. eauto.
Qed.

Lemma pathID_guards cx : guards (cx_RequestID cx) (pathID cx).
Proof. apply valid_guards. Qed.

Lemma parse_page_guards cx r : guards (cx_RequestID cx) (parse_page cx r).
Proof.
  intros rs. unfold parse_page. destruct (ParsePage _ _ _) as [|[|]]; cbn; intros [= <-].
  - apply bad_request_refusal.
  - apply WriteError_refusal. set_solver.
Qed.
End ParsingFacts.

Create HintDb http.
#[export] Hint Resolve valid_guards decoded_guards decoded_optional_guards tenant_guards pathID_guards
  parse_page_guards bad_request_refusal WriteJSON_success with_header_success : http.

(** Steps through the early returns of a handler; every result is kept as an
    equation. *)
Ltac step :=
  first [ apply yields_triple; [solve [auto with http]|intros]
        | apply yields_pair; [solve [auto with http]|intros]
        | apply yields_bind; [solve [auto with http]|intros] ].

Ltac handler_start :=
  eapply respond_handles; [intros; cbn; reflexivity|intros cx r st; repeat step; cbn].

(** ** The mux *)

Lemma find_route_some {H} (routes : list (pattern * H)) method path h id :
  find_route routes method path = Some (h, id) ->
  exists p, (p, h) ∈ routes /\ match_path p path = Some id /\ match_method p method = true.
Proof.
  induction routes as [|[p h'] routes IH]; cbn; [done|]. intros E.
  destruct (match_path p path) as [i|] eqn:Em; [destruct (match_method p method) eqn:Ep|].
  - injection E as -> ->. exists p. split; [left|done].
  - destruct (IH E) as (p' & ? & ?). exists p'. split; [by right|done].
  - destruct (IH E) as (p' & ? & ?). exists p'. split; [by right|done].
Qed.

(** The text a mux answers with where it has no handler. *)
Definition unrouted (rs : HttpResponse) : Prop :=
  rs_Body rs = PlainBody /\ (rs_Status rs = 404 \/ rs_Status rs = 405).

Lemma mux_inv {S} (routes : list (pattern * handler S)) cx r st rs st' :
  mux routes cx r st = (rs, st') ->
  (unrouted rs /\ st' = st) \/
  exists p h id, (p, h) ∈ routes /\ match_path p (q_Path r) = Some id /\
    match_method p (q_Method r) = true /\ h (with_path_id id cx) r st = (rs, st').
Proof.
  unfold mux. destruct (find_route routes (q_Method r) (q_Path r)) as [[h id]|] eqn:E.
  - apply find_route_some in E as (p & ? & ? & ?). intros Hh. right. eauto 10.
  - intros Hm. left. destruct (allowed routes (q_Path r)); injection Hm as <- <-;
      (split; [split; [done|auto]|done]).
Qed.

(** ** The shell *)

Section Shell.
Context `{Parsers, Jwt}.

Lemma auth_refusal cfg now lookup hd status code msg :
  RequireAuthConfig cfg now lookup hd = AuthError status code msg -> status = 401 /\ code = CodeUnauthorized.
Proof.
  unfold RequireAuthConfig, unauthorized. intros E.
  assert (D : forall m, AuthError 401 "unauthorized" m = AuthError status code msg ->
                status = 401 /\ code = CodeUnauthorized) by (by intros m [= <- <- _]).
  destruct (ac_AuthDisabled cfg).
  - case_decide; [by eapply D|]. destruct (uuid_Parse _); [done|by eapply D].
  - destruct (negb _); [by eapply D|]. destruct (ParseWithClaims _ _ _ _); [|by eapply D].
    case_decide; [by eapply D|]. destruct (uuid_Parse _); [|by eapply D].
    case_decide; [by eapply D|done].
Qed.

Lemma scope_refusal sc o status code msg :
  RequireScope sc o = AuthError status code msg -> (code, status) ∈ catalog.
Proof. unfold RequireScope. intros E. repeat case_in E; try discriminate E; injection E as <- <- _; set_solver. Qed.

(** What an API service answers. *)
Inductive api_outcome {S} (cfg : AuthConfig) (now : time) (lookup : string -> option bytes)
  (routes : list (api_route S)) (id : string) (r : HttpRequest) (st : S) : HttpResponse -> S -> Prop :=
| ao_unrouted rs : unrouted rs -> api_outcome cfg now lookup routes id r st rs st
| ao_probe rs : success rs -> match_method (on "GET" []) (q_Method r) = true ->
    api_outcome cfg now lookup routes id r st rs st
| ao_refused rs : refusal id rs -> api_outcome cfg now lookup routes id r st rs st
| ao_handled p sc h path c rs st' :
    (p, (sc, h)) ∈ routes -> match_path p (q_Path r) = Some path ->
    match_method p (q_Method r) = true ->
    authorize cfg sc now lookup (auth_headers r) = Next c ->
    h (mkContext (Some c) id path) r st = (rs, st') ->
    api_outcome cfg now lookup routes id r st rs st'.

Lemma require_scope_inv {S} sc (h : handler S) cx r st rs st' :
  require_scope sc h cx r st = (rs, st') ->
  (refusal (cx_RequestID cx) rs /\ st' = st) \/
  exists c, RequireScope sc (cx_Claims cx) = Next c /\ h cx r st = (rs, st').
Proof.
  unfold require_scope. destruct (RequireScope sc (cx_Claims cx)) as [status code msg|c] eqn:E.
  - intros [= <- <-]. left. split; [|done]. by eapply WriteError_refusal, scope_refusal.
  - intros Hh. right. eauto.
Qed.

Lemma require_auth_inv {S} cfg now lookup (h : handler S) cx r st rs st' :
  require_auth cfg now lookup h cx r st = (rs, st') ->
  (refusal (cx_RequestID cx) rs /\ st' = st) \/
  exists c, RequireAuthConfig cfg now lookup (auth_headers r) = Next c /\
    h (with_claims c cx) r st = (rs, st').
Proof.
  unfold require_auth. destruct (RequireAuthConfig _ _ _ _) as [status code msg|c] eqn:E.
  - apply auth_refusal in E as [-> ->]. intros [= <- <-]. left. split; [|done].
    apply WriteError_refusal. set_solver.
  - intros Hh. right. eauto.
Qed.

Lemma api_root_inv {S} cfg now lookup ping ready (routes : list (api_route S)) cx r st rs st' :
  api_root cfg now lookup ping ready routes cx r st = (rs, st') ->
  api_outcome cfg now lookup routes (cx_RequestID cx) r st rs st'.
Proof.
  intros Hr. apply mux_inv in Hr as [[Hu ->]|(p & h & id & Hin & _ & Hm & Hh)]; [by apply ao_unrouted|].
  apply elem_of_cons in Hin as [[= -> ->]|Hin].
  { injection Hh as <- <-. apply ao_probe; [|done]. apply WriteJSON_success. auto. }
  apply elem_of_cons in Hin as [[= -> ->]|Hin].
  { unfold readyz in Hh. destruct ping; injection Hh as <- <-.
    - apply ao_probe; [|done]. apply WriteJSON_success. auto.
    - apply ao_refused. apply (WriteError_refusal (with_path_id id cx)). set_solver. }
  apply list_elem_of_singleton in Hin as [= -> ->]. clear Hm.
  apply require_auth_inv in Hh as [[Hr ->]|(c & Hc & Hh)]; [by apply ao_refused|].
  apply mux_inv in Hh as [[Hu ->]|(p & h & path & Hin & Hp & Hm & Hh)]; [by apply ao_unrouted|].
  unfold scoped in Hin. apply list_elem_of_fmap in Hin as ([p' [sc h']] & [= -> ->] & Hin).
  apply require_scope_inv in Hh as [[Hr ->]|(c' & Hs & Hh)]; [by apply ao_refused|].
  eapply (ao_handled _ _ _ _ _ _ _ p' sc h' path c); [done..| |exact Hh].
  unfold authorize. rewrite Hc. cbn in Hs |- *. by destruct (HasScope c sc).
Qed.
End Shell.

(** A service whose routes are reads, which keep the state as [Keep] says, and
    writes behind one scope, which do what [Q] says for the claims. *)
Lemma api_request `{Parsers, Jwt} {S} (Keep : S -> S -> Prop) (Q : Claims -> S -> S -> Prop)
  cfg now lookup ping ready (rds wrs : list (api_route S)) scope cx r st rs st' :
  (forall st, Keep st st) ->
  Forall (fun rt => handles rt.2.2 (fun _ _ st rs st' => success rs /\ Keep st st')) rds ->
  Forall (fun rt => rt.2.1 = scope /\ handles rt.2.2 (fun cx _ st rs st' =>
    success rs /\ exists c, cx_Claims cx = Some c /\ Q c st st')) wrs ->
  api_root cfg now lookup ping ready (rds ++ wrs) cx r st = (rs, st') ->
  (success rs \/ refusal (cx_RequestID cx) rs \/ unrouted rs) /\
  (Keep st st' \/ exists p c, p ∈ wrs.*1 /\ match_method p (q_Method r) = true /\
     authorize cfg scope now lookup (auth_headers r) = Next c /\ success rs /\ Q c st st').
Proof.
  intros Hk HR HW Hr. apply api_root_inv in Hr.
  destruct Hr as [rs Hu|rs Hp _|rs Hr|p sc h path c rs st' Hin Hp Hm Ha Hh]; [auto..|].
  apply elem_of_app in Hin as [Hin|Hin].
  - apply (proj1 (Forall_forall _ _) HR _ Hin) in Hh as [[Hr ->]|[Hr Hx]]; auto.
  - destruct (proj1 (Forall_forall _ _) HW _ Hin) as [Hsc Hw]. cbn in Hsc. subst sc.
    apply Hw in Hh as [[Hr ->]|(Hr & c' & [= <-] & Hx)]; [auto|]. split; [auto|]. right.
    exists p, c. split_and!; try done. by apply (list_elem_of_fmap_2 fst) in Hin.
Qed.

(** A request under [/v1/] whose route and authorization are known runs the
    handler of the route. *)
Lemma api_root_dispatch `{Parsers, Jwt} {S} cfg now lookup ping ready (routes : list (api_route S)) cx r st
  below sc h path c :
  q_Path r = "v1"%string :: below -> below <> [] ->
  find_route (scoped routes) (q_Method r) (q_Path r) = Some (require_scope sc h, path) ->
  authorize cfg sc now lookup (auth_headers r) = Next c ->
  api_root cfg now lookup ping ready routes cx r st = h (mkContext (Some c) (cx_RequestID cx) path) r st.
Proof.
  intros Hp Hb Hf Ha. unfold api_root, mux at 1.
  assert (Hroot : forall h1 h2 h3 : handler S,
    find_route [(on "GET" [Lit "healthz"], h1); (on "GET" [Lit "readyz"], h2);
                (mkPattern None [Lit "v1"] true, h3)] (q_Method r) (q_Path r) = Some (h3, ""%string)).
  { intros h1 h2 h3. rewrite Hp. by destruct below. }
  rewrite Hroot. unfold authorize in Ha. unfold require_auth.
  destruct (RequireAuthConfig _ _ _ _) as [|c0]; [done|]. unfold mux. rewrite Hf.
  unfold require_scope. cbn [cx_Claims with_path_id with_claims].
  destruct (RequireScope sc (Some c0)) as [|c1] eqn:Es; [done|]. injection Ha as ->.
  unfold RequireScope in Es. destruct (HasScope c0 sc); [|done]. by injection Es as ->.
Qed.

(** ** Request ids and CORS *)

Definition preflight (r : HttpRequest) (rs : HttpResponse) : Prop :=
  q_Method r = "OPTIONS"%string /\ rs_Status rs = 204 /\ rs_Body rs = NoBody.

(** Status and body as the next handler wrote them. *)
Definition same_answer (rs rs' : HttpResponse) : Prop :=
  rs_Status rs' = rs_Status rs /\ rs_Body rs' = rs_Body rs.

Lemma same_answer_trans rs1 rs2 rs3 : same_answer rs1 rs2 -> same_answer rs2 rs3 -> same_answer rs1 rs3.
Proof. unfold same_answer. intuition congruence. Qed.

Lemma same_success rs rs' : same_answer rs rs' -> success rs -> success rs'.
Proof. unfold success. by intros [-> ->]. Qed.

Lemma RequestID_inv {S} fresh (h : handler S) cx r st rs st' :
  RequestID fresh h cx r st = (rs, st') ->
  exists rs0, h (with_request_id (request_id fresh r) cx) r st = (rs0, st') /\ same_answer rs0 rs.
Proof.
  unfold RequestID. destruct (h _ r st) as [rs0 st0]. intros [= <- <-]. by exists rs0.
Qed.

(** What the outer middlewares add to an answer of the API. *)
Lemma edge_dispatch {S} fresh (h : handler S) r st :
  q_Method r <> "OPTIONS"%string ->
  RequestID fresh (CORSDev h) empty_context r st
  = let '(rs, st') := h (mkContext None (request_id fresh r) "") r st in
    (with_header "X-Request-Id" (request_id fresh r) (with_cors (q_Header r "Origin"%string) rs), st').
Proof.
  intros Hm. unfold RequestID, CORSDev, with_request_id, empty_context. rewrite decide_False by done.
  cbn [cx_Claims cx_PathID]. by destruct (h _ r st).
Qed.

Lemma with_cors_answer origin rs : same_answer rs (with_cors origin rs).
Proof. unfold with_cors. by case_decide. Qed.

Lemma edge_header k v origin id rs :
  rs_Header rs !! k = Some v -> rs_Header (with_header "X-Request-Id" id (with_cors origin rs)) !! k = Some v.
Proof.
  intros Hk. unfold with_header, with_cors. cbn. case_decide; cbn; by repeat apply lookup_union_Some_l.
Qed.

Lemma CORSDev_inv {S} (h : handler S) cx r st rs st' :
  CORSDev h cx r st = (rs, st') ->
  (preflight r rs /\ st' = st) \/ exists rs0, h cx r st = (rs0, st') /\ same_answer rs0 rs.
Proof.
  unfold CORSDev, with_cors. case_decide as Hm.
  - intros [= <- <-]. left. split; [|done]. split_and!; [done|by case_decide..].
  - destruct (h cx r st) as [rs0 st0]. intros [= <- <-]. right. exists rs0. split; [done|].
    by case_decide.
Qed.

(** What a client of the platform can be answered. *)
Definition contract (fresh : string) (r : HttpRequest) (rs : HttpResponse) : Prop :=
  success rs \/ refusal (request_id fresh r) rs \/ unrouted rs \/
  (rs_Status rs = 204 /\ rs_Body rs = NoBody).

Lemma same_contract fresh r rs rs' : same_answer rs rs' -> contract fresh r rs -> contract fresh r rs'.
Proof.
  unfold contract, success, refusal, unrouted. intros [-> ->]. done.
Qed.

Lemma api_contract fresh r rs rs' :
  (success rs \/ refusal (request_id fresh r) rs \/ unrouted rs) -> same_answer rs rs' -> contract fresh r rs'.
Proof. intros Hc Hs. eapply same_contract; [done|]. unfold contract. intuition. Qed.
