(* ===== verification/LedgerHttpFacts.v ===== *)
(** * Requests to the ledger service

    [StoreReads] states what the handlers of the reading routes rely on: a read
    hands back the state it was given. The PostgreSQL store implements it,
    because the transactions of its reads contain no writing statement. Against
    it, what every handler and the router do. *)

From Stdlib Require Import Ascii String ZArith Lia.
From S2P Require Import Prelude Strconv Errors Money LedgerDomain LedgerEvents LedgerDb Httpx LedgerStore.
From S2P Require Import LedgerReports LedgerService LedgerSpec LedgerInv LedgerRefine Signature Base64Url.
From S2P Require Import Webhooks Ident Json Http LedgerViews LedgerHttp HttpFacts.
Local Open Scope Z_scope.

(** A call that never changes the state. *)
Definition reading {S A} (m : Call S A) : Prop :=
  forall ids now st a st', m ids now st = Ok (a, st') -> st' = st.

Class StoreReads (S : Type) `{Store S} : Prop := {
  reads_GetLedger t id : reading (st_GetLedger t id);
  reads_ListLedgers t p : reading (st_ListLedgers t p);
  reads_GetAccount t id : reading (st_GetAccount t id);
  reads_ListAccounts t f p : reading (st_ListAccounts t f p);
  reads_GetBalances t id : reading (st_GetBalances t id);
  reads_ListEntries t id a p : reading (st_ListEntries t id a p);
  reads_GetTransaction t id : reading (st_GetTransaction t id);
  reads_ListTransactions t f p : reading (st_ListTransactions t f p);
  reads_GetHold t id : reading (st_GetHold t id);
  reads_TrialBalance t id o : reading (st_TrialBalance t id o);
  reads_Statement t id a b p : reading (st_Statement t id a b p);
  reads_ProviderAccountBalances t : reading (st_ProviderAccountBalances t)
}.

#[export] Hint Resolve reads_GetLedger reads_ListLedgers reads_GetAccount reads_ListAccounts
  reads_GetBalances reads_ListEntries reads_GetTransaction reads_ListTransactions reads_GetHold
  reads_TrialBalance reads_Statement reads_ProviderAccountBalances : ledger.

(** The use cases that only read. *)
Section ServiceReads.
Context {S : Type} `{StoreReads S}.

Lemma svc_ListEntries_reads t id a p : reading (svc_ListEntries t id a p).
Proof.
  intros ids now st x st'. unfold svc_ListEntries. case_decide; [apply reads_ListEntries|].
  destruct (ValidateAssetCode a); [apply reads_ListEntries|done].
Qed.

Lemma svc_TrialBalance_reads t id o : reading (svc_TrialBalance t id o).
Proof. apply reads_TrialBalance. Qed.

Lemma svc_Statement_reads t id a b p : reading (svc_Statement t id a b p).
Proof.
  intros ids now st x st'. unfold svc_Statement. destruct (id =? uuid_Nil); [done|].
  destruct (_ <? _); [done|apply reads_Statement].
Qed.

Lemma svc_ProviderPositions_reads t : reading (svc_ProviderPositions t).
Proof.
  intros ids now st x st'. unfold svc_ProviderPositions.
  destruct (st_ProviderAccountBalances t ids now st) as [[rows st1]|] eqn:E; cbn; [|done].
  intros [= _ <-]. by eapply reads_ProviderAccountBalances.
Qed.
End ServiceReads.

#[export] Hint Resolve svc_ListEntries_reads svc_TrialBalance_reads svc_Statement_reads
  svc_ProviderPositions_reads : ledger.

(** ** Transactions without a writing statement *)

Definition pure_tx {A} (m : Tx A) : Prop :=
  forall st a st', m st = Ok (a, st') -> tx_db st' = tx_db st.

Lemma pure_ret {A} (a : A) : pure_tx (mret a).
Proof. by intros st b st' [= _ <-]. Qed.
Lemma pure_throw {A} e : pure_tx (throw e : Tx A).
Proof. done. Qed.
Lemma pure_get : pure_tx get_db.
Proof. by intros st b st' [= _ <-]. Qed.
Lemma pure_check b e : pure_tx (check b e).
Proof. destruct b; [apply pure_ret|apply pure_throw]. Qed.
Lemma pure_bind {A B} (m : Tx A) (f : A -> Tx B) :
  pure_tx m -> (forall a, pure_tx (f a)) -> pure_tx (m ≫= f).
Proof.
  intros Hm Hf st b st'. unfold mbind, Tx_bind. destruct (m st) as [[a st1]|] eqn:E; [|done].
  intros Hb. rewrite (Hf _ _ _ _ Hb). by eapply Hm.
Qed.
Lemma pure_option {A B} (o : option A) (f : A -> Tx B) (g : Tx B) :
  (forall a, pure_tx (f a)) -> pure_tx g -> pure_tx (match o with Some a => f a | None => g end).
Proof. destruct o; auto. Qed.
Lemma pure_mapM {A B} (f : A -> Tx B) l : (forall a, pure_tx (f a)) -> pure_tx (mapM_ f l).
Proof.
  intros Hf. induction l as [|a l IH]; cbn; [apply pure_ret|].
  apply pure_bind; [done|]. intros b. apply pure_bind; [done|]. intros bs. apply pure_ret.
Qed.

#[export] Hint Resolve pure_ret pure_throw pure_get pure_check : ledger.

Ltac pure :=
  repeat first [ progress intros | apply pure_bind | apply pure_mapM | apply pure_option
               | solve [auto with ledger] ].

Lemma WithTenantTx_reading {A} tenant (fn : Tx A) ids now db a db' :
  pure_tx fn -> WithTenantTx tenant fn ids now db = Ok (a, db') -> db' = db.
Proof. intros Hp (_ & st & E & ->)%WithTenantTx_ok. by rewrite (Hp _ _ _ E). Qed.

#[export] Instance pgStore_reads `{Render, Digest} seen : @StoreReads DB (pgStore seen).
Proof.
  split; intros; intros ids now db x db'; apply WithTenantTx_reading;
    unfold getLedgerTx, getAccountTx, loadTransactionTx, getHoldTx, requireLedger, statementRawSums,
      statement_entry, scan_trial_row, scan_int64; pure.
Qed.

(** ** What a request to the ledger does

    Every reading route leaves the state alone over any store with
    [StoreReads]; every writing route is one call of [exec] for the tenant of
    the claims; hence the guarantees of a request at the router. *)
Local Open Scope string_scope.
Local Open Scope Z_scope.
Local Open Scope list_scope.

Lemma error_status_catalog e : ((error_status e).2, (error_status e).1) ∈ catalog.
Proof. destruct e; cbn; unfold catalog; set_solver. Qed.

Lemma created_success b v : success (created b v).
Proof. destruct b; cbn; [apply with_header_success|]; apply WriteJSON_success; auto. Qed.

#[export] Hint Resolve created_success : http.

Section Handlers.
Context {S : Type} `{Store S, Render, Parsers, Unmarshal}.
Variables (ids : list uuid) (now : time).

Lemma call_ok {A} cx (m : Call S A) st x : call ids now cx m st = Ok x -> m ids now st = Ok x.
Proof. apply service_ok. Qed.

Lemma call_guards {A} cx (m : Call S A) st : guards (cx_RequestID cx) (call ids now cx m st).
Proof. apply service_guards. intros e. apply WriteError_refusal, error_status_catalog. Qed.

Lemma optionalUUID_guards cx raw : guards (cx_RequestID cx) (optionalUUID cx raw).
Proof.
  unfold optionalUUID. case_decide; [done|]. intros rs. destruct (uuid_Parse raw); cbn; [done|].
  intros [= <-]. apply bad_request_refusal.
Qed.

Lemma optionalTime_guards cx raw : guards (cx_RequestID cx) (optionalTime cx raw).
Proof. unfold optionalTime. case_decide; [done|apply valid_guards]. Qed.

Lemma type_filter_guards cx raw : guards (cx_RequestID cx) (type_filter cx raw).
Proof.
  unfold type_filter. case_decide; [done|]. destruct (AccountType_Valid _); [done|].
  intros rs [= <-]. apply bad_request_refusal.
Qed.

Lemma status_filter_guards cx raw : guards (cx_RequestID cx) (status_filter cx raw).
Proof.
  unfold status_filter. case_decide; [done|]. destruct (TransactionStatus_of _); [done..|].
  intros rs [= <-]. apply bad_request_refusal.
Qed.

Lemma capture_amount_guards cx o : guards (cx_RequestID cx) (capture_amount cx o).
Proof.
  unfold capture_amount. destruct o as [m|]; [|done]. intros rs.
  destruct (toAmount m); cbn; [done|]. intros [= <-]. apply bad_request_refusal.
Qed.
End Handlers.

#[export] Hint Resolve call_guards optionalUUID_guards optionalTime_guards type_filter_guards
  status_filter_guards capture_amount_guards : http.

(** ** Reading routes *)

Section Reads.
Context {S : Type} `{StoreReads S, Render, Parsers, Unmarshal}.
Variables (ids : list uuid) (now : time).

Lemma call_reading {A} cx (m : Call S A) st a st' :
  reading m -> call ids now cx m st = Ok (a, st') -> st' = st.
Proof. intros Hm Hc%call_ok. by eapply Hm. Qed.

Ltac read_handler :=
  handler_start; (split; [auto with http|eapply call_reading; [|eassumption]; auto with ledger]).

Lemma ledger_reads_read : Forall (fun rt => reads rt.2.2) (ledger_reads ids now).
Proof.
  repeat apply Forall_cons_2; [..|apply Forall_nil_2]; read_handler.
Qed.
End Reads.

(** ** Writing routes *)

Section Writes.
Context `{Render, Digest, Parsers, Unmarshal}.
Variables (seen : option DB) (ids : list uuid) (now : time).

Local Instance store : Store DB := pgStore seen.

(** One state-changing request of the tenant the claims name. *)
Definition executes (c : Claims) (db db' : DB) : Prop :=
  cl_TenantID c <> uuid_Nil /\ exists req resp,
    request_wf req /\ exec seen (cl_TenantID c) req ids now db = Ok (resp, db').

Lemma executes_intro cx db rs db' tid req resp :
  success rs -> tenant cx = Ok tid -> request_wf req -> exec seen tid req ids now db = Ok (resp, db') ->
  success rs /\ exists c, cx_Claims cx = Some c /\ executes c db db'.
Proof. intros Hs (c & Hc & -> & Hn)%tenant_ok Hw He. split; [done|]. exists c. split; [done|]. split; [done|]. by exists req, resp. Qed.

Lemma posting_inputs_wf ps inputs :
  posting_inputs ps = Some inputs -> Forall (fun p => amount_wf (pi_Amount p)) inputs.
Proof.
  revert inputs. induction ps as [|p ps IH]; cbn; intros inputs; [by intros [= <-]|].
  destruct (toAmount (por_Amount p)) as [a|] eqn:Ea; cbn; [|done].
  destruct (posting_inputs ps) as [rest|]; cbn; [|done]. intros [= <-].
  constructor; [by eapply toAmount_wf|by apply IH].
Qed.

Lemma valid_ok {A} cx (o : option A) a : valid cx o = Ok a -> o = Some a.
Proof. destruct o; cbn; congruence. Qed.

Lemma capture_amount_wf cx o a :
  capture_amount cx o = Ok a -> match a with Some a => amount_wf a | None => True end.
Proof.
  unfold capture_amount. destruct o as [m|]; [|by intros [= <-]].
  destruct (toAmount m) as [x|] eqn:E; cbn; [|done]. intros [= <-]. by eapply toAmount_wf.
Qed.

(** The service calls of the handlers, as requests. *)
Lemma exec_calls tid db db' :
  (forall i l, svc_CreateLedger tid i ids now db = Ok (l, db') ->
     exec seen tid (ReqCreateLedger i) ids now db = Ok (RespLedger l, db')) /\
  (forall i a, svc_CreateAccount tid i ids now db = Ok (a, db') ->
     exec seen tid (ReqCreateAccount i) ids now db = Ok (RespAccount a, db')) /\
  (forall i t b, svc_CreateTransaction tid i ids now db = Ok ((t, b), db') ->
     exec seen tid (ReqCreateTransaction i) ids now db = Ok (RespTransaction t b, db')) /\
  (forall id t, svc_PostTransaction tid id ids now db = Ok (t, db') ->
     exec seen tid (ReqPostTransaction id) ids now db = Ok (RespTransaction t false, db')) /\
  (forall id i t b, svc_ReverseTransaction tid id i ids now db = Ok ((t, b), db') ->
     exec seen tid (ReqReverseTransaction id i) ids now db = Ok (RespTransaction t b, db')) /\
  (forall i h b, svc_CreateHold tid i ids now db = Ok ((h, b), db') ->
     exec seen tid (ReqCreateHold i) ids now db = Ok (RespHold h b, db')) /\
  (forall id i h, svc_CaptureHold tid id i ids now db = Ok (h, db') ->
     exec seen tid (ReqCaptureHold id i) ids now db = Ok (RespHold h false, db')) /\
  (forall id h, svc_ReleaseHold tid id ids now db = Ok (h, db') ->
     exec seen tid (ReqReleaseHold id) ids now db = Ok (RespHold h false, db')).
Proof. split_and!; cbn [exec]; unfold store; by intros * ->. Qed.

Ltac write_handler :=
  handler_start;
  lazymatch goal with
  | Hc : call _ _ _ _ ?db = Ok (_, ?db') |- _ =>
      apply call_ok in Hc;
      match goal with Ht : tenant _ = Ok ?tid |- _ =>
        destruct (exec_calls tid db db') as (?&?&?&?&?&?&?&?)
      end;
      eapply executes_intro; [auto with http|eassumption| |eauto]; cbn
  end;
  first [done | by eapply capture_amount_wf | eauto using posting_inputs_wf, toAmount_wf, valid_ok].

Lemma ledger_writes_execute :
  Forall (fun rt => rt.2.1 = ScopeLedgerWrite /\ handles rt.2.2 (fun cx _ db rs db' =>
    success rs /\ exists c, cx_Claims cx = Some c /\ executes c db db')) (ledger_writes ids now).
Proof. repeat apply Forall_cons_2; [..|apply Forall_nil_2]; (split; [done|]); write_handler. Qed.

Lemma ledger_writes_post p method :
  p ∈ (ledger_writes ids now).*1 -> match_method p method = true -> method = "POST".
Proof.
  intros Hin Hm. assert (Hp : pt_Method p = Some "POST").
  { cbn in Hin. repeat (apply elem_of_cons in Hin as [->|Hin]; [done|]). by apply elem_of_nil in Hin. }
  unfold match_method in Hm. rewrite Hp in Hm. cbn in Hm. rewrite orb_false_r in Hm.
  by apply bool_decide_eq_true in Hm.
Qed.

(** ** The router *)

Context `{Jwt}.

(** What a request does to the ledger: it is refused, unrouted, a probe or a
    read, and changes nothing; or an authenticated POST whose claims hold the
    write scope executes one request for their tenant. *)
Lemma NewRouter_request authDisabled lookup ping fresh r db rs db' :
  NewRouter ids now authDisabled lookup ping fresh empty_context r db = (rs, db') ->
  contract fresh r rs /\
  (db' = db \/ exists c,
     authorize (ledger_auth authDisabled) ScopeLedgerWrite now lookup (auth_headers r) = Next c /\
     q_Method r = "POST" /\ success rs /\ executes c db db').
Proof.
  intros (rs1 & Hr & Hs1)%RequestID_inv.
  apply CORSDev_inv in Hr as [[(_ & Hst & Hb) ->]|(rs2 & Hr & Hs2)].
  { split; [|by left]. eapply same_contract; [done|]. right. right. right. auto. }
  pose proof (same_answer_trans _ _ _ Hs2 Hs1) as Hs. clear Hs1 Hs2.
  apply (api_request (fun a b => b = a) executes _ _ _ _ _ _ _ ScopeLedgerWrite) in Hr as [Hc Hw];
    [|done|apply ledger_reads_read|apply ledger_writes_execute].
  split; [by eapply api_contract|].
  destruct Hw as [->|(p & c & Hin & Hm & Ha & Hsuc & He)]; [by left|]. right. exists c.
  apply ledger_writes_post in Hm; [|done]. split_and!; try done. by eapply same_success.
Qed.
End Writes.
