(* ===== verification/LedgerHttpTheorems.v ===== *)
(** * The ledger as its HTTP clients see it

    State changes need the write scope and stay within the tenant of the
    claims; a repeated POST replays; a client that follows [next_cursor] reads
    every transaction of its tenant once. *)

From Stdlib Require Import Ascii String ZArith Lia Sorted.
From S2P Require Import Prelude Strconv Errors Money LedgerDomain LedgerEvents Httpx LedgerDb LedgerStore.
From S2P Require Import LedgerReports LedgerService LedgerSpec LedgerInv LedgerRefine LedgerTheorems.
From S2P Require Import LedgerGuarantees Signature Webhooks Base64Url Ident Json Http LedgerViews.
From S2P Require Import LedgerHttp HttpFacts LedgerHttpFacts.
Local Open Scope string_scope.
Local Open Scope Z_scope.
Local Open Scope list_scope.

Section Theorems.
Context `{Render, Digest, Parsers, Unmarshal, Jwt}.

Lemma authorize_scope cfg sc now lookup hd c :
  authorize cfg sc now lookup hd = Next c -> HasScope c sc = true.
Proof.
  unfold authorize. destruct (RequireAuthConfig cfg now lookup hd) as [|c0]; [done|].
  unfold RequireScope. destruct (HasScope c0 sc) eqn:E; [|done]. by intros [= <-].
Qed.

(** C2: authority over HTTP. Whatever a request to the ledger service holds -
    method, path, headers, body - it keeps the invariant of the database, and
    an error answer (status 400 and above) leaves the database as it was. The
    database changes only for a POST whose credentials are accepted with
    claims that hold the scope [ledger:write]; the change is one step of the
    abstract ledger for the tenant of those claims, which is not nil; nothing
    another tenant can see changes - no ledger, account, transaction, posting,
    balance, hold, idempotency record or outbox event -, and the answer is a
    document with status 200 or 201. *)
Theorem ledger_writes_authorized seen ids now authDisabled lookup ping fresh r db rs db' :
  Inv db ->
  NewRouter (H := pgStore seen) ids now authDisabled lookup ping fresh empty_context r db = (rs, db') ->
  Inv db' /\ (400 <= rs_Status rs -> db' = db) /\
  (db' = db \/ exists c,
     authorize (ledger_auth authDisabled) ScopeLedgerWrite now lookup (auth_headers r) = Next c /\
     HasScope c ScopeLedgerWrite = true /\ q_Method r = "POST" /\ success rs /\
     cl_TenantID c <> uuid_Nil /\ change (cl_TenantID c) db db' /\
     forall other, other <> cl_TenantID c -> LedgerGuarantees.view other db' = LedgerGuarantees.view other db).
Proof.
  intros I (_ & [->|(c & Ha & Hm & Hs & Hn & req & resp & Hw & He)])%NewRouter_request;
    [by split_and!; [..|left]|].
  pose proof (exec_change _ _ _ _ _ _ _ _ I Hw He) as Hc. split_and!.
  - destruct Hc as [->|Hc]; [done|by eapply Inv_change].
  - intros Hst. destruct Hs as [[E|E] _]; lia.
  - destruct Hc as [->|Hc]; [by left|]. right. exists c. split_and!; try done.
    + by eapply authorize_scope.
    + intros other Ho. by eapply change_hidden.
Qed.

(** ** Retries *)

Lemma transaction_route (S : Type) `{Store S} ids now :
  find_route (scoped (ledger_reads ids now ++ ledger_writes ids now)) "POST" ["v1"; "transactions"]
  = Some (require_scope ScopeLedgerWrite (createTransaction ids now), "").
Proof. reflexivity. Qed.

(** A creation request at the router is the handler's answer. *)
Lemma post_transaction seen ids now authDisabled lookup ping fresh r db c :
  q_Method r = "POST" -> q_Path r = ["v1"; "transactions"] ->
  authorize (ledger_auth authDisabled) ScopeLedgerWrite now lookup (auth_headers r) = Next c ->
  NewRouter (H := pgStore seen) ids now authDisabled lookup ping fresh empty_context r db
  = let '(rs, db') := createTransaction (H := pgStore seen) ids now
                        (mkContext (Some c) (request_id fresh r) "") r db in
    (with_header "X-Request-Id" (request_id fresh r) (with_cors (q_Header r "Origin") rs), db').
Proof.
  intros Hm Hp Ha. unfold NewRouter. rewrite edge_dispatch by (by rewrite Hm).
  erewrite api_root_dispatch; [reflexivity|done..| |done].
  rewrite Hm, Hp. apply transaction_route.
Qed.

(** The parts of a successful creation. *)
Lemma createTransaction_inv seen ids now c id r db rs db' :
  rs_Status rs = 201 ->
  createTransaction (H := pgStore seen) ids now (mkContext (Some c) id "") r db = (rs, db') ->
  exists req ps t,
    cl_TenantID c <> uuid_Nil /\
    DecodeJSON d_createTransactionRequest zero_createTransactionRequest r = Some req /\
    posting_inputs (default [] (ctr_Postings req)) = Some ps /\
    exec seen (cl_TenantID c) (ReqCreateTransaction (transaction_input req r ps)) ids now db
      = Ok (RespTransaction t false, db') /\
    rs_Body rs = JsonBody (newTransactionView t).
Proof.
  intros Hst Hc. unfold createTransaction in Hc.
  set (cx := mkContext (Some c) id "") in *. assert (Hlt : rs_Status rs < 400) by lia.
  apply (respond_bind _ _ _ _ _ _ (tenant_guards cx) Hlt) in Hc as (tid & Ht & Hc).
  apply (respond_bind _ _ _ _ _ _ (decoded_guards cx _ _ r) Hlt) in Hc as (req & Hd%valid_ok & Hc).
  apply (respond_bind _ _ _ _ _ _ (valid_guards cx _) Hlt) in Hc as (ps & Hps%valid_ok & Hc).
  apply (respond_bind _ _ _ _ _ _ (call_guards ids now cx _ db) Hlt) in Hc as ([[t b] db1] & Hx%call_ok & Hc).
  injection Hc as <- <-. destruct b; [done|].
  apply tenant_ok in Ht as (? & [= <-] & -> & Hn).
  exists req, ps, t. split_and!; try done. cbn [exec]. by rewrite Hx.
Qed.

(** A handler call whose service call is known to replay. *)
Lemma createTransaction_replay ids now c id r db req ps t :
  cl_TenantID c <> uuid_Nil ->
  DecodeJSON d_createTransactionRequest zero_createTransactionRequest r = Some req ->
  posting_inputs (default [] (ctr_Postings req)) = Some ps ->
  exec None (cl_TenantID c) (ReqCreateTransaction (transaction_input req r ps)) ids now db
    = Ok (RespTransaction t true, db) ->
  createTransaction (H := pgStore None) ids now (mkContext (Some c) id "") r db
  = (created true (newTransactionView t), db).
Proof.
  intros Hn Hd Hps Hx. unfold createTransaction, tenant, decoded, valid. cbn [cx_Claims].
  rewrite (proj2 (Z.eqb_neq _ _) Hn), Hd. cbn [mbind result_bind]. rewrite Hps. cbn [mbind result_bind].
  unfold call, service. cbn [exec] in Hx.
  destruct (svc_CreateTransaction _ _ ids now db) as [[[t0 b] db0]|e]; cbn in Hx |- *; [|done].
  by injection Hx as -> -> ->.
Qed.

(** The use case refuses more than a thousand legs. *)
Lemma exec_create_length seen tid i ids now db resp db' :
  exec seen tid (ReqCreateTransaction i) ids now db = Ok (resp, db') -> (length (ci_Postings i) <= 1000)%nat.
Proof.
  cbn [exec]. unfold svc_CreateTransaction. destruct (bad_name _); [done|].
  destruct (_ =? _); [done|]. destruct (negb _); [done|].
  destruct (Z.ltb_spec 1000 (Z.of_nat (length (ci_Postings i)))); [done|]. intros _. lia.
Qed.

(** C8: retries over HTTP. A POST to /v1/transactions answered with 201 can be
    sent again at any later time, to any later state of the service, with any
    accepted credentials of the same tenant: the same body and the same
    [Idempotency-Key] header get status 200, the very document of the first
    answer and the header [X-Idempotent-Replay: true], and nothing changes. *)
Theorem retry_over_http seen ids now authDisabled lookup ping fresh r c db0 rs db1 newer older db2
  ids' now' lookup' ping' fresh' r' c' :
  Inv db0 ->
  authorize (ledger_auth authDisabled) ScopeLedgerWrite now lookup (auth_headers r) = Next c ->
  q_Method r = "POST" -> q_Path r = ["v1"; "transactions"] ->
  NewRouter (H := pgStore seen) ids now authDisabled lookup ping fresh empty_context r db0 = (rs, db1) ->
  rs_Status rs = 201 ->
  history (newer ++ db1 :: older) -> db2 ∈ newer ++ [db1] ->
  authorize (ledger_auth authDisabled) ScopeLedgerWrite now' lookup' (auth_headers r') = Next c' ->
  cl_TenantID c' = cl_TenantID c ->
  q_Method r' = q_Method r -> q_Path r' = q_Path r -> q_Body r' = q_Body r ->
  q_Header r' "Idempotency-Key" = q_Header r "Idempotency-Key" ->
  (1001 <= length ids')%nat ->
  exists rs',
    NewRouter (H := pgStore None) ids' now' authDisabled lookup' ping' fresh' empty_context r' db2 = (rs', db2) /\
    rs_Status rs' = 200 /\ rs_Header rs' !! "X-Idempotent-Replay" = Some "true" /\
    rs_Body rs' = rs_Body rs.
Proof.
  intros I Ha Hm Hp Hr Hst Hh Hin Ha' Et Em Ep Eb Ek Hlen.
  rewrite (post_transaction _ _ _ _ _ _ _ _ _ _ Hm Hp Ha) in Hr.
  destruct (createTransaction _ _ _ r db0) as [rs0 db0'] eqn:Hc. injection Hr as <- ->.
  destruct (with_cors_answer (q_Header r "Origin") rs0) as [Es Ebd]. cbn in Hst. rewrite Es in Hst.
  destruct (createTransaction_inv _ _ _ _ _ _ _ _ _ Hst Hc) as (req & ps & t & Hn & Hd & Hps & Hx & Hbody).
  pose proof (exec_create_length _ _ _ _ _ _ _ _ Hx) as Hps'.
  assert (Hw : request_wf (ReqCreateTransaction (transaction_input req r ps)))
    by (by eapply posting_inputs_wf).
  assert (Hrep := retry_replays _ _ _ _ _ _ _ _ _ _ _ ids' now' Hn I Hw Hx Hh Hin ltac:(lia)).
  assert (Ei : transaction_input req r ps = transaction_input req r' ps)
    by (unfold transaction_input, key_or_header; by rewrite Ek).
  rewrite Ei, <- Et in Hrep. rewrite <- Et in Hn.
  rewrite (post_transaction _ _ _ _ _ _ _ _ _ c') by (done || congruence).
  rewrite (createTransaction_replay _ _ _ _ _ _ req ps (json_snapshot t) Hn) by
    (done || (unfold DecodeJSON in *; by rewrite Eb)).
  eexists. split; [done|].
  destruct (with_cors_answer (q_Header r' "Origin") (created true (newTransactionView (json_snapshot t)))) as [Es' Eb'].
  split_and!; cbn [rs_Status rs_Body with_header].
  - by rewrite Es'.
  - by apply edge_header.
  - rewrite Eb', Ebd, Hbody. cbn. by rewrite snapshot_view.
Qed.
End Theorems.

(** ** Paging through a collection over HTTP

    A client that asks for a page, then for the page of the [next_cursor] it
    was handed, until that is null; and what it has read at the end, for the
    transactions of its tenant. *)

(** ** The client *)

(** The items and the next cursor of a list response. *)
Definition read_page (rs : HttpResponse) : option (list json * option string) :=
  match rs_Body rs with
  | JsonBody (JObj [(_, JArr items); (_, JNull)]) => Some (items, None)
  | JsonBody (JObj [(_, JArr items); (_, JStr cursor)]) => Some (items, Some cursor)
  | _ => None
  end.

(** At most [fuel] requests; [None] when the last page was not reached. *)
Fixpoint read_all (fuel : nat) (get : string -> HttpResponse) (cursor : string) : option (list json) :=
  match fuel with
  | O => None
  | S fuel =>
      '(items, next) ← read_page (get cursor);
      match next with
      | None => Some items
      | Some cursor => rest ← read_all fuel get cursor; Some (items ++ rest)
      end
  end.

(** A GET of [path] with the page parameters. *)
Definition page_request (header : string -> string) (path : list string) (limit : Z) (cursor : string)
  : HttpRequest :=
  mkHttpRequest "GET" path
    (fun k => if decide (k = "limit") then Some (FormatInt limit)
              else if decide (k = "cursor") then Some cursor else None)
    header 0 BodyUnreadable None.

Section Paging.
Context `{Render, Parsers}.

(** The formats of an instant and an id are parsed back. *)
Definition cursor_readable (c : Cursor) : Prop :=
  time_Parse (rfc3339nano (c_CreatedAt c)) = Some (c_CreatedAt c) /\
  ("|"%char ∉ list_ascii_of_string (rfc3339nano (c_CreatedAt c))) /\
  uuid_Parse (uuid_String (c_ID c)) = Some (c_ID c).

Lemma read_all_rows {A} (keyOf : A -> Cursor) (view : A -> json) (rows : list A) (get : string -> HttpResponse)
  (limit : Z) :
  1 <= limit ->
  NoDup (map keyOf rows) ->
  (forall a, a ∈ rows -> Cursor_IsZero (keyOf a) = false /\ cursor_readable (keyOf a)) ->
  (forall cursor c, DecodeCursor cursor = Some c ->
     rs_Body (get cursor)
     = JsonBody (ListResponse keyOf view limit (list_page descending keyOf c (S (Z.to_nat limit)) rows))) ->
  read_all (S (length rows)) get "" = Some (map view (order_rows descending keyOf rows)).
Proof.
  intros Hl Hnd Hk Hget. pose proof (order_rows_strict descending keyOf rows Hnd) as Hs.
  assert (Hz : forall a, a ∈ rows -> Cursor_IsZero (keyOf a) = false) by (intros a Ha; by apply Hk).
  assert (G : forall fuel cursor c pre suf, DecodeCursor cursor = Some c ->
    order_rows descending keyOf rows = pre ++ suf ->
    filter (fun a => beyond descending keyOf c a = true) (order_rows descending keyOf rows) = suf ->
    (length suf < fuel)%nat -> read_all fuel get cursor = Some (map view suf)).
  { induction fuel as [|fuel IH]; intros cursor c pre suf Hd Hsplit Hf Hlen; [lia|]. cbn [read_all].
    unfold read_page. rewrite (Hget _ _ Hd). unfold ListResponse.
    destruct (page_step descending keyOf c (Z.to_nat limit) rows pre suf ltac:(lia) Hz Hs Hsplit Hf)
      as [[_ ->]|(l & x & rest & _ & -> & Hx & -> & Hall & Hrest)]; [done|].
    cbn [json_opt json_list mbind option_bind].
    destruct (proj2 (Hk x Hx)) as (Ht & Hbar & Hid).
    rewrite (IH _ (keyOf x) _ rest (cursor_roundtrip _ Ht Hbar Hid) Hall Hrest).
    - cbn. rewrite <- map_app, <- app_assoc. done.
    - rewrite length_app in Hlen. cbn in Hlen. lia. }
  apply (G _ "" zero_cursor [] _); [done|done|by apply list_filter_id|].
  rewrite order_rows_perm. lia.
Qed.

Lemma ListResponse_map {A B} (f : A -> B) keyA (keyB : B -> Cursor) view limit l :
  (forall a, keyB (f a) = keyA a) ->
  ListResponse keyB view limit (map f l) = ListResponse keyA (fun a => view (f a)) limit l.
Proof.
  intros Hk. unfold ListResponse, Window. rewrite length_map. destruct (_ <=? _)%nat.
  - unfold json_list. by rewrite map_map.
  - change (take (Z.to_nat limit) (map f l)) with (take (Z.to_nat limit) (f <$> l)).
    rewrite <- fmap_take, fmap_last. unfold json_list. rewrite <- list_fmap_compose.
    by destruct (last _); cbn; rewrite ?Hk.
Qed.
End Paging.

(** ** Transactions *)

Section Transactions.
Context `{Render, Digest, Parsers, Unmarshal, Jwt}.

Lemma transaction_keys_NoDup (db : DB) tenant :
  Inv db -> NoDup (map transaction_key (visible_transactions tenant db)).
Proof.
  intros I. apply (NoDup_fmap_1 c_ID).
  assert (E : map t_ID (values (transactions db)) = (map_to_list (transactions db)).*1).
  { unfold values. rewrite map_map. apply list_fmap_ext. intros i [id t] Hi.
    apply list_elem_of_lookup_2, elem_of_map_to_list in Hi.
    by destruct (wf_transactions _ (inv_wf _ I) _ _ Hi). }
  eapply sublist_NoDup; [apply (NoDup_fst_map_to_list (transactions db))|]. rewrite <- E.
  unfold visible_transactions. rewrite <- list_fmap_compose. apply fmap_sublist, sublist_filter.
Qed.

Lemma parse_page_request cx header path limit cursor c :
  1 <= limit <= max_int64 -> DecodeCursor cursor = Some c ->
  parse_page cx (page_request header path limit cursor) = Ok (mkPageRequest (Z.min limit MaxLimit) c).
Proof.
  intros Hl Hd. assert (Hp : ParseInt (FormatInt limit) = Some limit).
  { apply ParseInt_FormatInt_aux, in_int64_spec. unfold min_int64. lia. }
  change (parse_page cx (page_request header path limit cursor))
    with (map_err (fun e => match e with
                            | BadLimit => bad_request cx
                            | BadCursor => WriteError cx 400 CodeInvalidCursor
                            end) (ParsePage DecodeCursor (FormatInt limit) cursor)).
  unfold ParsePage. rewrite decide_False by (intros E; rewrite E in Hp; discriminate).
  rewrite Hp, Hd. destruct (Z.ltb_spec limit 1); [lia|]. cbn. unfold MaxLimit.
  destruct (Z.ltb_spec 200 limit); [by rewrite Z.min_r by lia|by rewrite Z.min_l by lia].
Qed.

Lemma list_route (S : Type) `{Store S} ids now :
  find_route (scoped (ledger_reads ids now ++ ledger_writes ids now)) "GET" ["v1"; "transactions"]
  = Some (require_scope ScopeLedgerRead (listTransactions ids now), "").
Proof. reflexivity. Qed.

Lemma no_filters cx header path limit cursor :
  optionalUUID cx (query_get (page_request header path limit cursor) "ledger_id") = Ok None /\
  status_filter cx (query_get (page_request header path limit cursor) "status") = Ok None.
Proof. split; reflexivity. Qed.

Lemma all_transactions tenant page ids now db :
  tenant <> uuid_Nil ->
  ListTransactions tenant (mkTransactionFilter None None) page ids now db
  = Ok (map (fun t => with_postings t (loadPostings tenant (t_ID t) db))
          (list_rows transaction_key page (visible_transactions tenant db)), db).
Proof.
  intros Hn. unfold ListTransactions. rewrite <- (list_filter_id (fun t =>
    opt_filter (tf_LedgerID (mkTransactionFilter None None)) (t_LedgerID t) = true /\
    opt_filter (tf_Status (mkTransactionFilter None None)) (t_Status t) = true)
    (visible_transactions tenant db)) by done.
  by apply WithTenantTx_read.
Qed.

(** The store's own limit does not cut the page of a handler. *)
Lemma page_rows limit :
  1 <= limit -> Z.to_nat (normalizeLimit (Z.min limit MaxLimit + 1)) = S (Z.to_nat (Z.min limit MaxLimit)).
Proof.
  intros Hl. unfold normalizeLimit, MaxLimit. destruct (Z.leb_spec (Z.min limit 200 + 1) 0); [lia|].
  destruct (Z.ltb_spec (200 + 1) (Z.min limit 200 + 1)); lia.
Qed.

(** One page of the transactions of a tenant. *)
Lemma transactions_page seen ids now authDisabled lookup ping fresh header limit cursor c k db :
  let r := page_request header ["v1"; "transactions"] limit cursor in
  authorize (ledger_auth authDisabled) ScopeLedgerRead now lookup (auth_headers r) = Next c ->
  cl_TenantID c <> uuid_Nil -> 1 <= limit <= max_int64 -> DecodeCursor cursor = Some k ->
  rs_Body (NewRouter (H := pgStore seen) ids now authDisabled lookup ping fresh empty_context r db).1
  = JsonBody (ListResponse transaction_key
      (fun t => newTransactionView (with_postings t (loadPostings (cl_TenantID c) (t_ID t) db)))
      (Z.min limit MaxLimit)
      (list_page descending transaction_key k (S (Z.to_nat (Z.min limit MaxLimit)))
         (visible_transactions (cl_TenantID c) db))).
Proof.
  intros r Ha Hn Hl Hd. unfold NewRouter. rewrite edge_dispatch by done.
  erewrite api_root_dispatch; [|done..|apply list_route|exact Ha].
  cbn [cx_RequestID].
  unfold listTransactions, tenant. cbn [cx_Claims]. rewrite (proj2 (Z.eqb_neq _ _) Hn).
  cbn [mbind result_bind]. unfold r. rewrite (parse_page_request _ _ _ _ _ _ Hl Hd). cbn [mbind result_bind].
  rewrite (proj1 (no_filters _ _ _ _ _)), (proj2 (no_filters _ _ _ _ _)). cbn [mbind result_bind]. unfold call, service.
  change (st_ListTransactions (Store := pgStore seen)) with ListTransactions.
  rewrite all_transactions by done. cbn [map_err mbind result_bind respond].
  unfold fetch_page, list_rows. cbn [pg_Cursor pg_Limit pq_Cursor pq_Limit FetchLimit].
  unfold FetchLimit. cbn [pq_Limit]. rewrite page_rows by lia.
  cbn [fst with_header rs_Body]. rewrite (proj2 (with_cors_answer _ _)). cbn [WriteJSON rs_Body].
  f_equal. by apply ListResponse_map.
Qed.

(** C9: paging over HTTP. With credentials that hold the scope [ledger:read], a
    client that asks for GET /v1/transactions with any positive limit and then
    follows [next_cursor] reaches a last page after at most one request more
    than there are transactions of its tenant, and by then has read the view
    of each of them, with its postings, exactly once and newest first. *)
Theorem transactions_paged seen ids now authDisabled lookup ping fresh header limit c db :
  Inv db ->
  authorize (ledger_auth authDisabled) ScopeLedgerRead now lookup
    (mkAuthHeaders (header "X-Tenant-Id") (header "Authorization")) = Next c ->
  cl_TenantID c <> uuid_Nil -> 1 <= limit <= max_int64 ->
  let rows := visible_transactions (cl_TenantID c) db in
  (forall t, t ∈ rows -> Cursor_IsZero (transaction_key t) = false /\ cursor_readable (transaction_key t)) ->
  read_all (S (length rows)) (fun cursor =>
    (NewRouter (H := pgStore seen) ids now authDisabled lookup ping fresh empty_context
       (page_request header ["v1"; "transactions"] limit cursor) db).1) ""
  = Some (map (fun t => newTransactionView (with_postings t (loadPostings (cl_TenantID c) (t_ID t) db)))
            (order_rows descending transaction_key rows)) /\
  Permutation (order_rows descending transaction_key rows) rows.
Proof.
  intros I Ha Hn Hl rows Hk. split; [|apply order_rows_perm].
  apply (read_all_rows _ _ _ _ (Z.min limit MaxLimit)).
  - unfold MaxLimit. lia.
  - by apply transaction_keys_NoDup.
  - done.
  - intros cursor k Hd. by apply transactions_page.
Qed.
End Transactions.
