(* ===== verification/LedgerHttpWitnesses.v ===== *)
(** * The HTTP theorems of the ledger at work

    A client with one accepted token, on the states of [LedgerWitnesses]. *)

From Stdlib Require Import Ascii String ZArith Lia.
From S2P Require Import Prelude Strconv Errors Money LedgerDomain LedgerEvents LedgerDb Httpx.
From S2P Require Import LedgerStore LedgerReports LedgerService LedgerSpec LedgerInv LedgerRefine LedgerTheorems.
From S2P Require Import LedgerWitnesses LedgerGuarantees Signature Base64Url Webhooks Ident.
From S2P Require Import Json Http LedgerViews LedgerHttp HttpFacts LedgerHttpFacts LedgerHttpTheorems.
Local Open Scope string_scope.
Local Open Scope Z_scope.
Local Open Scope list_scope.

#[local] Instance http_parsers : Parsers := {| uuid_Parse := ParseInt; time_Parse := ParseInt |}.
#[local] Instance http_unmarshal : Unmarshal :=
  {| uuid_UnmarshalText := ParseInt; time_UnmarshalJSON := ParseInt |}.

(** One token, of a service account of tenant 7. *)
Definition demo_claims : tokenClaims :=
  mkTokenClaims "7" "sandbox" ["ledger:read"; "ledger:write"] "service" "ledgercore-identity"
    ["ledger-core"] None (Some 900000000) None "jti".

#[local] Instance http_jwt : Jwt := {|
  SignedString := fun _ _ _ => None;
  ParseWithClaims := fun _ _ tok _ => if decide (tok = "demo") then Some demo_claims else None;
  NewNumericDate := fun t => t |}.

Definition demo_header (name : string) : string :=
  if decide (name = "Authorization") then "Bearer demo" else "".

Definition no_keys (kid : string) : option bytes := None.

Definition leg (account direction : string) : json :=
  JObj [("account_id", JStr account); ("direction", JStr direction);
        ("amount", JObj [("asset", JStr "USD"); ("amount", JStr " 500")])].

(** The body of the first transfer; names of members are matched up to case. *)
Definition transfer_body : json :=
  JObj [("ledger_id", JStr "1"); ("Idempotency_Key", JStr "k1"); ("reference", JStr "r");
        ("status", JStr "posted"); ("effective_at", JNull);
        ("postings", JArr [leg "2" "debit"; leg "3" "credit"])].

Definition transfer_request : HttpRequest :=
  mkHttpRequest "POST" ["v1"; "transactions"] (fun _ => None) demo_header 200
    (BodyValue transfer_body (Some "}"%char)) None.

Definition demo_router (seen : option DB) (ids : list uuid) (now : time) : handler DB :=
  NewRouter (H := pgStore seen) ids now false no_keys true "generated".

Definition demo_answer : HttpResponse * DB :=
  demo_router None [10; 11; 12; 13] 4000 empty_context transfer_request (demo_db 3).

Lemma demo_answer_db : demo_answer.2 = demo_db 4.
Proof. vm_compute. reflexivity. Qed.

Lemma demo_answer_status : rs_Status demo_answer.1 = 201.
Proof. vm_compute. reflexivity. Qed.

#[local] Opaque demo_db demo_hs.

Lemma ledger_writes_authorized_witness :
  Inv demo_answer.2 /\ change 7 (demo_db 3) demo_answer.2 /\
  LedgerGuarantees.view 8 demo_answer.2 = LedgerGuarantees.view 8 (demo_db 3).
Proof.
  destruct (ledger_writes_authorized None [10; 11; 12; 13] 4000 false no_keys true "generated"
    transfer_request (demo_db 3) demo_answer.1 demo_answer.2 (demo_inv 3) (surjective_pairing _))
    as (Hi & _ & [E|(c & Ha & _ & _ & _ & _ & Hc & Hv)]).
  - exfalso. rewrite demo_answer_db in E. apply (f_equal (fun db => length (postings db))) in E.
    vm_compute in E. discriminate E.
  - split; [exact Hi|]. vm_compute in Ha. injection Ha as <-. split; [exact Hc|]. apply Hv. done.
Defined.

Lemma retry_over_http_witness : exists rs,
  demo_router None (map Z.of_nat (seq 100 1001)) 99999 empty_context transfer_request (demo_db 9)
    = (rs, demo_db 9) /\
  rs_Status rs = 200 /\ rs_Body rs = rs_Body demo_answer.1.
Proof.
  assert (E : demo_answer = (demo_answer.1, demo_db 4)) by (rewrite <- demo_answer_db; apply surjective_pairing).
  assert (Ha : forall now, authorize (ledger_auth false) ScopeLedgerWrite now no_keys (auth_headers transfer_request)
            = Next (mkClaims "service" 7 "sandbox" ["ledger:read"; "ledger:write"])) by reflexivity.
  destruct (retry_over_http None [10; 11; 12; 13] 4000 false no_keys true "generated" transfer_request _
    (demo_db 3) demo_answer.1 (demo_db 4)
    [demo_db 9; demo_db 8; demo_db 7; demo_db 6; demo_db 5] (demo_hs 3) (demo_db 9)
    (map Z.of_nat (seq 100 1001)) 99999 no_keys true "generated" transfer_request _
    (demo_inv 3) (Ha _) eq_refl eq_refl E demo_answer_status demo_history_9
    ltac:(apply list_elem_of_In; by left) (Ha _) eq_refl eq_refl eq_refl eq_refl eq_refl
    ltac:(rewrite length_map, length_seq; lia)) as (rs & Hr & Hs & _ & Hb).
  exists rs. split; [exact Hr|]. split; [exact Hs|exact Hb].
Defined.

Lemma transactions_paged_witness :
  option_map (fun l => length l)
    (read_all 4 (fun cursor =>
       (demo_router None [] 10000 empty_context
          (page_request demo_header ["v1"; "transactions"] 1 cursor) (demo_db 9)).1) "") = Some 3%nat.
Proof.
  destruct (transactions_paged None [] 10000 false no_keys true "generated" demo_header 1
    (mkClaims "service" 7 "sandbox" ["ledger:read"; "ledger:write"]) (demo_db 9) (demo_inv 9)) as [E _].
  - reflexivity.
  - discriminate.
  - by split.
  - apply Forall_forall. eapply bool_decide_unpack. vm_compute. exact I.
  - assert (Hn : length (visible_transactions 7 (demo_db 9)) = 3%nat) by (vm_compute; reflexivity).
    cbn [cl_TenantID] in E. rewrite Hn in E. unfold demo_router. rewrite E. cbn [option_map].
    by rewrite length_map, (Permutation_length (order_rows_perm descending transaction_key _)), Hn.
Defined.
