(* ===== verification/ReconHttp.v ===== *)
(** * The HTTP adapter of reconciliation: [services/reconciliation/internal/adapters/httpapi]

    Documents, handlers and router. The texts of parser errors and findings are
    an argument, like every message. *)

From Stdlib Require Import Ascii String ZArith Lia.
From S2P Require Import Prelude Strconv Errors Money LedgerDomain LedgerEvents Httpx TxMonad Signature.
From S2P Require Import Base64Url Webhooks Ident Recon ReconStore LedgerStore LedgerReports Json Http.
From S2P Require Import ReconInv ReconMirror HttpFacts.
Local Open Scope string_scope.
Local Open Scope Z_scope.
Local Open Scope list_scope.

(** ** Strings of the enumerations *)

Definition SourceKind_string (k : SourceKind) : string :=
  match k with
  | SourceBank => "bank" | SourcePSP => "psp" | SourceProvider => "provider" | SourceManual => "manual"
  | SourceKindOther s => s
  end.

Definition SourceKind_of (s : string) : SourceKind :=
  if decide (s = "bank") then SourceBank else if decide (s = "psp") then SourcePSP
  else if decide (s = "provider") then SourceProvider else if decide (s = "manual") then SourceManual
  else SourceKindOther s.

Definition ImportStatus_string (s : ImportStatus) : string :=
  match s with ImportPending => "pending" | ImportProcessed => "processed" | ImportFailed => "failed" end.

Definition RunStatus_string (s : RunStatus) : string :=
  match s with
  | RunPending => "pending" | RunRunning => "running" | RunCompleted => "completed" | RunFailed => "failed"
  end.

Definition DiscrepancyKind_string (k : DiscrepancyKind) : string :=
  match k with
  | KindMissingInternal => "missing_internal" | KindMissingExternal => "missing_external"
  | KindAmountMismatch => "amount_mismatch" | KindDuplicate => "duplicate"
  end.

Definition DiscrepancyStatus_string (s : DiscrepancyStatus) : string :=
  match s with
  | DiscrepancyOpen => "open" | DiscrepancyInvestigating => "investigating"
  | DiscrepancyResolved => "resolved" | DiscrepancyStatusOther s => s
  end.

Definition DiscrepancyStatus_of (s : string) : DiscrepancyStatus :=
  if decide (s = "open") then DiscrepancyOpen
  else if decide (s = "investigating") then DiscrepancyInvestigating
  else if decide (s = "resolved") then DiscrepancyResolved
  else DiscrepancyStatusOther s.

(** ** Documents *)

(** The text of a parser error, and of a finding's detail. *)
Class ReconTexts : Type := { csv_error_text : csv_error -> string; detail_text : detail -> string }.

Section Documents.
Context `{Render, ReconTexts}.

Definition id_json (id : uuid) : json := JStr (uuid_String id).

Definition toSourceJSON (s : Source) : json :=
  JObj [("id", id_json (s_ID s)); ("name", JStr (s_Name s));
        ("kind", JStr (SourceKind_string (s_Kind s))); ("created_at", JTime (s_CreatedAt s))].

Definition toImportJSON (i : Import_) : json :=
  JObj ([("id", id_json (i_ID i)); ("source_id", id_json (i_SourceID i));
         ("filename", JStr (i_Filename i)); ("status", JStr (ImportStatus_string (i_Status i)));
         ("row_count", JNum (i_RowCount i))]
        ++ omitempty "error" (match i_Error i with Some e => csv_error_text e | None => "" end)
        ++ [("created_at", JTime (i_CreatedAt i))]).

Definition toRunJSON (r : Run) : json :=
  JObj ([("id", id_json (r_ID r)); ("source_id", id_json (r_SourceID r));
         ("status", JStr (RunStatus_string (r_Status r)));
         ("matched_count", JNum (r_MatchedCount r)); ("unmatched_count", JNum (r_UnmatchedCount r));
         ("started_at", JTime (r_StartedAt r))]
        ++ match r_FinishedAt r with Some t => [("finished_at", JTime t)] | None => [] end).

Definition dvalue_json (v : dvalue) : json :=
  match v with DText s => JStr s | DDetail d => JStr (detail_text d) end.

Definition toDiscrepancyJSON (d : Discrepancy) : json :=
  JObj [("id", id_json (d_ID d)); ("run_id", id_json (d_RunID d));
        ("kind", JStr (DiscrepancyKind_string (d_Kind d)));
        ("details", json_of_map dvalue_json (d_Details d));
        ("status", JStr (DiscrepancyStatus_string (d_Status d))); ("created_at", JTime (d_CreatedAt d))].

Definition summaryJSON (s : SourceSummary) : json :=
  JObj [("source_id", id_json (ss_SourceID s)); ("source_name", JStr (ss_SourceName s));
        ("matched", JNum (ss_Matched s)); ("unmatched", JNum (ss_Unmatched s));
        ("disputed", JNum (ss_Disputed s)); ("open_discrepancies", JNum (ss_OpenDiscrepancies s))].

(** The totals of the report, accumulated in [int]s; a map's keys are sorted. *)
Definition total_of (f : SourceSummary -> Z) (l : list SourceSummary) : json :=
  JNum (fold_left (fun acc s => wrap64 (acc + f s)) l 0).

Definition report_json (l : list SourceSummary) : json :=
  JObj [("data", json_list summaryJSON l);
        ("totals", JObj [("disputed", total_of ss_Disputed l); ("matched", total_of ss_Matched l);
                         ("open_discrepancies", total_of ss_OpenDiscrepancies l);
                         ("unmatched", total_of ss_Unmatched l)])].
End Documents.

(** ** Errors and bodies *)

Definition recon_error_status (e : error) : Z * string :=
  match e with
  | ErrNotFound => (404, CodeNotFound)
  | ErrValidation => (400, CodeValidationFailed)
  | _ => (500, CodeInternal)
  end.

Definition recon_writeServiceError (cx : Context) (e : error) : HttpResponse :=
  WriteError cx (recon_error_status e).1 (recon_error_status e).2.

Record sourceBody : Type := mkSourceBody { sob_Name : string; sob_Kind : string }.
Definition d_sourceBody : decoder sourceBody := d_struct [
  member "name" d_string sob_Name (fun v b => mkSourceBody v (sob_Kind b));
  member "kind" d_string sob_Kind (fun v b => mkSourceBody (sob_Name b) v)].

Definition d_runBody `{Unmarshal} : decoder uuid := d_struct [
  member "source_id" d_uuid (fun id => id) (fun v _ => v)].

Record triageBody : Type := mkTriageBody { trb_Status : string; trb_ResolutionNote : string }.
Definition d_triageBody : decoder triageBody := d_struct [
  member "status" d_string trb_Status (fun v b => mkTriageBody v (trb_ResolutionNote b));
  member "resolution_note" d_string trb_ResolutionNote (fun v b => mkTriageBody (trb_Status b) v)].

(** ** Handlers *)

Section Handlers.
Context `{Supply, Render, Parsers, Unmarshal, ReconTexts}.

Definition RSt : Type := UseState ReconDB.

Definition recon_call {A} (cx : Context) (m : RTx A) (st : RSt) : result HttpResponse (A * RSt) :=
  service (recon_writeServiceError cx) (m st).

Definition createSource : handler RSt := fun cx r st => respond (
  tenantID ← tenant cx;
  body ← decoded cx d_sourceBody (mkSourceBody "" "") r;
  '(src, st) ← recon_call cx (CreateSource tenantID (sob_Name body) (SourceKind_of (sob_Kind body))) st;
  Ok (WriteJSON 201 (Some (toSourceJSON src)), st)) st.

Definition listSources : handler RSt := fun cx r st => respond (
  tenantID ← tenant cx;
  page ← parse_page cx r;
  '(sources, st) ← recon_call cx (within tenantID (ListSources tenantID (FetchLimit page) (pq_Cursor page))) st;
  Ok (WriteJSON 200 (Some (ListResponse source_key toSourceJSON (pq_Limit page) sources)), st)) st.

Definition createImport : handler RSt := fun cx r st => respond (
  tenantID ← tenant cx;
  form ← valid cx (q_Form r);
  sourceID ← valid cx (uuid_Parse (form_value r form "source_id"));
  '(filename, records) ← valid cx (mf_File form "file");
  '(imp, st) ← recon_call cx (ImportStatement time_Parse tenantID sourceID filename records) st;
  Ok (WriteJSON 201 (Some (toImportJSON imp)), st)) st.

Definition createRun : handler RSt := fun cx r st => respond (
  tenantID ← tenant cx;
  sourceID ← decoded cx d_runBody uuid_Nil r;
  '(run, st) ← recon_call cx (StartRun tenantID sourceID) st;
  Ok (WriteJSON 201 (Some (toRunJSON run)), st)) st.

Definition getRun : handler RSt := fun cx r st => respond (
  tenantID ← tenant cx;
  id ← pathID cx;
  '(run, st) ← recon_call cx (svc_GetRun tenantID id) st;
  Ok (WriteJSON 200 (Some (toRunJSON run)), st)) st.

Definition getReports : handler RSt := fun cx r st => respond (
  tenantID ← tenant cx;
  '(summaries, st) ← recon_call cx (Report tenantID) st;
  Ok (WriteJSON 200 (Some (report_json summaries)), st)) st.

Definition listDiscrepancies : handler RSt := fun cx r st => respond (
  tenantID ← tenant cx;
  page ← parse_page cx r;
  let raw := query_get r "status" in
  let status := if decide (raw = "") then None else Some (DiscrepancyStatus_of raw) in
  '(ds, st) ← recon_call cx (svc_ListDiscrepancies tenantID status (FetchLimit page) (pq_Cursor page)) st;
  Ok (WriteJSON 200 (Some (ListResponse discrepancy_key toDiscrepancyJSON (pq_Limit page) ds)), st)) st.

Definition patchDiscrepancy : handler RSt := fun cx r st => respond (
  tenantID ← tenant cx;
  id ← pathID cx;
  body ← decoded cx d_triageBody (mkTriageBody "" "") r;
  '(d, st) ← recon_call cx (svc_UpdateDiscrepancy tenantID id (DiscrepancyStatus_of (trb_Status body))
      (trb_ResolutionNote body)) st;
  Ok (WriteJSON 200 (Some (toDiscrepancyJSON d)), st)) st.

(** ** The router *)

Definition under (rest : list segment) : list segment := Lit "v1" :: Lit "reconciliation" :: rest.

Definition recon_reads : list (api_route RSt) := [
  (on "GET" (under [Lit "sources"]), (ScopeReconRead, listSources));
  (on "GET" (under [Lit "runs"; Wild]), (ScopeReconRead, getRun));
  (on "GET" (under [Lit "reports"]), (ScopeReconRead, getReports));
  (on "GET" (under [Lit "discrepancies"]), (ScopeReconRead, listDiscrepancies))].

Definition recon_writes : list (api_route RSt) := [
  (on "POST" (under [Lit "sources"]), (ScopeReconWrite, createSource));
  (on "POST" (under [Lit "imports"]), (ScopeReconWrite, createImport));
  (on "POST" (under [Lit "runs"]), (ScopeReconWrite, createRun));
  (on "PATCH" (under [Lit "discrepancies"; Wild]), (ScopeReconWrite, patchDiscrepancy))].

Definition recon_auth (authDisabled : bool) : AuthConfig :=
  mkAuthConfig authDisabled DefaultIssuer AudienceReconciliation 0.

Definition recon_NewHandler `{Jwt} (authDisabled : bool) (now : time) (lookup : string -> option bytes)
  (ping : bool) (fresh : string) : handler RSt :=
  RequestID fresh (CORSDev (api_root (recon_auth authDisabled) now lookup ping "ready"
    (recon_reads ++ recon_writes))).

End Handlers.

(** ** Requests to the reconciliation service

    Reads leave the tables alone; a write is one call of the service for the
    tenant of the claims. *)

Section Requests.
Context `{Supply, Render, Parsers, Unmarshal, ReconTexts, Jwt}.
Implicit Types st : RSt.

Lemma recon_call_guards {A} cx (m : RTx A) st : guards (cx_RequestID cx) (recon_call cx m st).
Proof.
  apply service_guards. intros e. apply WriteError_refusal. destruct e; cbn; set_solver.
Qed.

Lemma recon_call_ok {A} cx (m : RTx A) st r : recon_call cx m st = Ok r -> m st = Ok r.
Proof. apply service_ok. Qed.
#[local] Hint Resolve recon_call_guards : http.

(** A use case whose result the handler shows. *)
Lemma recon_exec_of {A} tid rq (m : RTx A) st a st' :
  recon_exec tid rq = (_ ← m; mret tt) -> m st = Ok (a, st') -> recon_exec tid rq st = Ok (tt, st').
Proof. intros -> Hm. apply use_bind_ok. exists a, st'. by rewrite use_ret_ok. Qed.

Definition recon_keep (st st' : RSt) : Prop := u_db st' = u_db st.

(** A write of a client: one use case for the tenant of the claims; clients do
    not reach the mirror. *)
Definition recon_client (rq : recon_request) : Prop :=
  match rq with RqMirror _ => False | _ => True end.

Definition recon_writes_for (c : Claims) (st st' : RSt) : Prop :=
  cl_TenantID c <> uuid_Nil /\ exists rq, recon_client rq /\ recon_exec (cl_TenantID c) rq st = Ok (tt, st').

Lemma recon_call_keep {A} cx (m : RTx A) st a st' :
  keeps id m -> recon_call cx m st = Ok (a, st') -> recon_keep st st'.
Proof. intros Hk Hc%recon_call_ok. by apply Hk in Hc. Qed.

Lemma recon_reads_ok :
  Forall (fun rt => handles rt.2.2 (fun _ _ st rs st' => success rs /\ recon_keep st st')) recon_reads.
Proof.
  repeat apply Forall_cons_2; [..|apply Forall_nil_2]; handler_start;
    (split; [auto with http|]); (eapply recon_call_keep; [|eassumption]);
    unfold svc_GetRun, Report, svc_ListDiscrepancies, ListSources, GetRun, SourceSummaries,
      ListDiscrepancies_; frame.
Qed.

Lemma recon_writes_ok :
  Forall (fun rt => rt.2.1 = ScopeReconWrite /\ handles rt.2.2 (fun cx _ st rs st' =>
    success rs /\ exists c, cx_Claims cx = Some c /\ recon_writes_for c st st')) recon_writes.
Proof.
  repeat apply Forall_cons_2; [..|apply Forall_nil_2]; (split; [done|]); handler_start;
    (split; [auto with http|]);
    match goal with Ht : tenant _ = Ok _, Hc : recon_call _ _ _ = Ok _ |- _ =>
      apply recon_call_ok in Hc; apply tenant_ok in Ht as (c & ? & -> & ?); exists c; split; [done|split; [done|]] end.
  - eexists (RqCreateSource _ _). split; [done|]. by eapply recon_exec_of.
  - eexists (RqImport _ _ _ _). split; [done|]. by eapply recon_exec_of.
  - eexists (RqStartRun _). split; [done|]. by eapply recon_exec_of.
  - eexists (RqUpdateDiscrepancy _ _ _). split; [done|]. by eapply recon_exec_of.
Qed.

(** What a request does to the service. *)
Lemma recon_request_ok authDisabled now lookup ping fresh r st rs st' :
  recon_NewHandler authDisabled now lookup ping fresh empty_context r st = (rs, st') ->
  contract fresh r rs /\
  (recon_keep st st' \/ exists p c, p ∈ recon_writes.*1 /\ match_method p (q_Method r) = true /\
     authorize (recon_auth authDisabled) ScopeReconWrite now lookup (auth_headers r) = Next c /\
     success rs /\ recon_writes_for c st st').
Proof.
  intros (rs1 & Hr & Hs1)%RequestID_inv.
  apply CORSDev_inv in Hr as [[(_ & Hst & Hb) ->]|(rs2 & Hr & Hs2)].
  { split; [|by left]. eapply same_contract; [done|]. right. right. right. auto. }
  pose proof (same_answer_trans _ _ _ Hs2 Hs1) as Hs. clear Hs1 Hs2.
  eapply (api_request recon_keep recon_writes_for) in Hr as [Hc Hw];
    [|done|apply recon_reads_ok|apply recon_writes_ok].
  split; [by eapply api_contract|].
  destruct Hw as [?|(p & c & ? & ? & ? & ? & ?)]; [by left|]. right. exists p, c.
  split_and!; try done. by eapply same_success.
Qed.
End Requests.
