(* ===== verification/WebhooksHttp.v ===== *)
(** * The HTTP adapter of webhooks: [services/webhooks/internal/adapters/httpapi]

    Documents, handlers and router. Random bytes and nonces are arguments of
    the handlers that draw them; a secret is shown when it is made and never
    again. *)

From Stdlib Require Import Ascii String ZArith Lia.
From S2P Require Import Prelude Strconv Errors LedgerDomain LedgerEvents Httpx TxMonad Signature Keycrypt.
From S2P Require Import Base64Url Webhooks Ident LedgerStore LedgerReports WebhooksStore WebhooksService.
From S2P Require Import Json Http WebhooksInv WebhooksWorld ReconMirror TenantScope HttpFacts.
Local Open Scope string_scope.
Local Open Scope Z_scope.
Local Open Scope list_scope.

Definition DeliveryStatus_string (s : DeliveryStatus) : string :=
  match s with
  | StatusPending => "pending" | StatusDelivered => "delivered" | StatusFailed => "failed"
  | StatusDead => "dead"
  end.

(** ** Documents *)

Section Documents.
Context `{Render}.

Definition uuid_json (id : uuid) : json := JStr (uuid_String id).

Definition toSubscriptionDTO (s : Subscription) (includeSecret : bool) : json :=
  JObj ([("id", uuid_json (sub_ID s)); ("url", JStr (sub_URL s));
         ("event_types", json_list JStr (sub_EventTypes s)); ("active", JBool (sub_Active s));
         ("created_at", JTime (sub_CreatedAt s))]
        ++ omitempty "secret" (if includeSecret then string_of_list_ascii (sub_Secret s) else "")).

Definition toDeliveryDTO (d : Delivery) : json :=
  JObj [("id", uuid_json (dl_ID d)); ("subscription_id", uuid_json (dl_SubscriptionID d));
        ("event_id", uuid_json (dl_EventID d)); ("event_type", JStr (dl_EventType d));
        ("payload", JRaw (dl_Payload d)); ("status", JStr (DeliveryStatus_string (dl_Status d)));
        ("attempts", JNum (dl_Attempts d)); ("next_attempt_at", JTime (dl_NextAttemptAt d));
        ("last_status_code", json_opt JNum (dl_LastStatusCode d));
        ("last_error", json_opt JStr (dl_LastError d)); ("created_at", JTime (dl_CreatedAt d));
        ("delivered_at", json_opt JTime (dl_DeliveredAt d))].

(** The keys of a map are sorted. *)
Definition rotated_json (id : uuid) (secret : bytes) (prevExpires : time) : json :=
  JObj [("id", uuid_json id); ("previous_secret_expires_at", JTime prevExpires);
        ("secret", JStr (string_of_list_ascii secret))].
End Documents.

(** ** Errors and bodies *)

Definition wh_error_status (e : error) : Z * string :=
  match e with
  | ErrValidation => (400, CodeValidationFailed)
  | ErrNotFound => (404, CodeNotFound)
  | ErrConflict => (409, CodeConflict)
  | _ => (500, CodeInternal)
  end.

Definition wh_writeServiceError (cx : Context) (e : error) : HttpResponse :=
  WriteError cx (wh_error_status e).1 (wh_error_status e).2.

Record subscriptionBody : Type := mkSubscriptionBody { sub_b_URL : string; sub_b_EventTypes : option (list string) }.
Definition d_subscriptionBody : decoder subscriptionBody := d_struct [
  member "url" d_string sub_b_URL (fun v b => mkSubscriptionBody v (sub_b_EventTypes b));
  member "event_types" (d_slice "" d_string) sub_b_EventTypes (fun v b => mkSubscriptionBody (sub_b_URL b) v)].

Definition d_patchBody : decoder SubscriptionPatch := d_struct [
  member "url" (d_ptr "" d_string) pt_URL (fun v b => mkSubscriptionPatch v (pt_EventTypes b) (pt_Active b));
  member "event_types" (d_slice "" d_string) pt_EventTypes
    (fun v b => mkSubscriptionPatch (pt_URL b) v (pt_Active b));
  member "active" (d_ptr false d_bool) pt_Active (fun v b => mkSubscriptionPatch (pt_URL b) (pt_EventTypes b) v)].

(** ** Handlers *)

Section Handlers.
Context `{Supply, Render, Parsers, Aead, Jsonb, UrlParse}.
Variable cipher : option bytes.

Definition WSt : Type := UseState WebhookDB.

Definition wh_call {A} (cx : Context) (m : WTx A) (st : WSt) : result HttpResponse (A * WSt) :=
  service (wh_writeServiceError cx) (m st).

(** The tenant, and whether endpoints must be https. *)
Definition requestIdentity (cx : Context) : result HttpResponse (uuid * bool) :=
  match cx_Claims cx with
  | None => Err (WriteError cx 401 CodeUnauthorized)
  | Some c => Ok (cl_TenantID c, bool_decide (cl_Environment c = EnvLive))
  end.

Definition createSubscription (rand : list Z) (nonce : option bytes) : handler WSt := fun cx r st => respond (
  '(tenantID, requireHTTPS) ← requestIdentity cx;
  req ← decoded cx d_subscriptionBody (mkSubscriptionBody "" None) r;
  '(sub, st) ← wh_call cx (CreateSubscription cipher rand nonce tenantID requireHTTPS (sub_b_URL req)
      (default [] (sub_b_EventTypes req))) st;
  Ok (WriteJSON 201 (Some (toSubscriptionDTO sub true)), st)) st.

Definition listSubscriptions : handler WSt := fun cx r st => respond (
  '(tenantID, _) ← requestIdentity cx;
  page ← parse_page cx r;
  '(subs, st) ← wh_call cx (List_ cipher tenantID (FetchLimit page) (pq_Cursor page)) st;
  Ok (WriteJSON 200 (Some (ListResponse subscription_key (fun s => toSubscriptionDTO s false)
        (pq_Limit page) subs)), st)) st.

Definition getSubscription : handler WSt := fun cx r st => respond (
  '(tenantID, _) ← requestIdentity cx;
  id ← pathID cx;
  '(sub, st) ← wh_call cx (Get cipher tenantID id) st;
  Ok (WriteJSON 200 (Some (toSubscriptionDTO sub false)), st)) st.

Definition updateSubscription : handler WSt := fun cx r st => respond (
  '(tenantID, requireHTTPS) ← requestIdentity cx;
  id ← pathID cx;
  req ← decoded cx d_patchBody (mkSubscriptionPatch None None None) r;
  '(sub, st) ← wh_call cx (UpdateSubscription cipher tenantID requireHTTPS id req) st;
  Ok (WriteJSON 200 (Some (toSubscriptionDTO sub false)), st)) st.

Definition rotateSecret (rand : list Z) (nonce : option bytes) : handler WSt := fun cx r st => respond (
  '(tenantID, _) ← requestIdentity cx;
  id ← pathID cx;
  '((secret, prevExpires), st) ← wh_call cx (RotateSecret cipher rand nonce tenantID id) st;
  Ok (WriteJSON 200 (Some (rotated_json id secret prevExpires)), st)) st.

(** The [subscription_id] filter. *)
Definition subscription_filter (cx : Context) (raw : string) : result HttpResponse (option uuid) :=
  if decide (raw = "") then Ok None else id ← valid cx (uuid_Parse raw); Ok (Some id).

Definition listDeliveries : handler WSt := fun cx r st => respond (
  '(tenantID, _) ← requestIdentity cx;
  subID ← subscription_filter cx (query_get r "subscription_id");
  page ← parse_page cx r;
  '((ds, next), st) ← wh_call cx (ListDeliveries tenantID (query_get r "status") subID (pq_Cursor page)
      (pq_Limit page)) st;
  Ok (WriteJSON 200 (Some (JObj [("data", json_list toDeliveryDTO ds);
                                 ("next_cursor", json_opt (fun c => JStr (Encode c)) next)])), st)) st.

Definition retryDelivery : handler WSt := fun cx r st => respond (
  '(tenantID, _) ← requestIdentity cx;
  id ← pathID cx;
  '(d, st) ← wh_call cx (Requeue tenantID id) st;
  Ok (WriteJSON 200 (Some (toDeliveryDTO d)), st)) st.

(** ** The router *)

Definition wh_reads : list (api_route WSt) := [
  (on "GET" [Lit "v1"; Lit "webhook-subscriptions"], (ScopeWebhooksRead, listSubscriptions));
  (on "GET" [Lit "v1"; Lit "webhook-subscriptions"; Wild], (ScopeWebhooksRead, getSubscription));
  (on "GET" [Lit "v1"; Lit "webhook-deliveries"], (ScopeWebhooksRead, listDeliveries))].

Definition wh_writes (rand : list Z) (nonce : option bytes) : list (api_route WSt) := [
  (on "POST" [Lit "v1"; Lit "webhook-subscriptions"], (ScopeWebhooksWrite, createSubscription rand nonce));
  (on "PATCH" [Lit "v1"; Lit "webhook-subscriptions"; Wild], (ScopeWebhooksWrite, updateSubscription));
  (on "POST" [Lit "v1"; Lit "webhook-subscriptions"; Wild; Lit "rotate-secret"],
   (ScopeWebhooksWrite, rotateSecret rand nonce));
  (on "POST" [Lit "v1"; Lit "webhook-deliveries"; Wild; Lit "retry"], (ScopeWebhooksWrite, retryDelivery))].

Definition wh_auth (authDisabled : bool) : AuthConfig :=
  mkAuthConfig authDisabled DefaultIssuer AudienceWebhooks 0.

Definition wh_NewHandler `{Jwt} (authDisabled : bool) (now : time) (lookup : string -> option bytes)
  (ping : bool) (fresh : string) (rand : list Z) (nonce : option bytes) : handler WSt :=
  RequestID fresh (api_root (wh_auth authDisabled) now lookup ping "ready" (wh_reads ++ wh_writes rand nonce)).
End Handlers.

(** ** Requests to the webhooks service

    Reads leave the tables alone; a write is one call of the service for the
    tenant of the claims. *)

Section Requests.
Context `{Supply, Render, Parsers, Aead, Jsonb, UrlParse, Jwt}.
Variable cipher : option bytes.
Implicit Types st : WSt.

Lemma wh_call_guards {A} cx (m : WTx A) st : guards (cx_RequestID cx) (wh_call cx m st).
Proof.
  apply service_guards. intros e. apply WriteError_refusal. destruct e; cbn; set_solver.
Qed.

Lemma wh_call_ok {A} cx (m : WTx A) st r : wh_call cx m st = Ok r -> m st = Ok r.
Proof. apply service_ok. Qed.

Lemma requestIdentity_guards cx : guards (cx_RequestID cx) (requestIdentity cx).
Proof.
  intros rs. unfold requestIdentity. destruct (cx_Claims cx); [done|]. intros [= <-].
  apply WriteError_refusal. set_solver.
Qed.

Lemma requestIdentity_ok cx tid https :
  requestIdentity cx = Ok (tid, https) ->
  exists c, cx_Claims cx = Some c /\ tid = cl_TenantID c /\ https = bool_decide (cl_Environment c = EnvLive).
Proof. unfold requestIdentity. destruct (cx_Claims cx) as [c|]; [|done]. intros [= <- <-]. eauto. Qed.

Lemma subscription_filter_guards cx raw : guards (cx_RequestID cx) (subscription_filter cx raw).
Proof.
  intros rs. unfold subscription_filter. case_decide; [done|].
  destruct (uuid_Parse raw); cbn; [done|]. intros [= <-]. apply bad_request_refusal.
Qed.
#[local] Hint Resolve wh_call_guards requestIdentity_guards subscription_filter_guards : http.

Definition wh_keep (st st' : WSt) : Prop := u_db st' = u_db st.

(** A write of a client: one use case for the tenant of the claims. Endpoints
    must be https in the live environment. *)
Definition wh_client (live : bool) (rq : wh_request) : Prop :=
  match rq with
  | WqCreate _ _ https _ _ | WqUpdate https _ _ => https = live
  | WqRotate _ _ _ | WqRetry _ => True
  | _ => False
  end.

Definition wh_writes_for (c : Claims) (st st' : WSt) : Prop :=
  exists rq, wh_client (bool_decide (cl_Environment c = EnvLive)) rq /\
    wh_exec cipher (cl_TenantID c) rq st = Ok (tt, st').

Lemma wh_exec_of {A} tid rq (m : WTx A) st a st' :
  wh_exec cipher tid rq = (_ ← m; mret tt) -> m st = Ok (a, st') -> wh_exec cipher tid rq st = Ok (tt, st').
Proof. intros -> Hm. apply use_bind_ok. exists a, st'. by rewrite use_ret_ok. Qed.

Lemma keeps_querySubscriptions tid q : keeps id (querySubscriptions cipher tid q).
Proof. intros st a st' Hq. by apply querySubscriptions_ok in Hq as [-> _]. Qed.

Lemma wh_call_keep {A} cx (m : WTx A) st a st' :
  keeps id m -> wh_call cx m st = Ok (a, st') -> wh_keep st st'.
Proof. intros Hk Hc%wh_call_ok. by apply Hk in Hc. Qed.

Lemma wh_reads_ok :
  Forall (fun rt => handles rt.2.2 (fun _ _ st rs st' => success rs /\ wh_keep st st')) (wh_reads cipher).
Proof.
  repeat apply Forall_cons_2; [..|apply Forall_nil_2]; handler_start;
    (split; [auto with http|]); (eapply wh_call_keep; [|eassumption]).
  - apply keeps_querySubscriptions.
  - unfold Get. frame.
  - unfold ListDeliveries, ListDeliveries_. frame.
Qed.

Lemma wh_writes_ok rand nonce :
  Forall (fun rt => rt.2.1 = ScopeWebhooksWrite /\ handles rt.2.2 (fun cx _ st rs st' =>
    success rs /\ exists c, cx_Claims cx = Some c /\ wh_writes_for c st st')) (wh_writes cipher rand nonce).
Proof.
  repeat apply Forall_cons_2; [..|apply Forall_nil_2]; (split; [done|]); handler_start;
    (split; [auto with http|]);
    match goal with Ht : requestIdentity _ = Ok _, Hc : wh_call _ _ _ = Ok _ |- _ =>
      apply wh_call_ok in Hc; apply requestIdentity_ok in Ht as (cl & ? & -> & ->); exists cl; split; [done|] end.
  - eexists (WqCreate _ _ _ _ _). split; [done|]. by eapply wh_exec_of.
  - eexists (WqUpdate _ _ _). split; [done|]. by eapply wh_exec_of.
  - eexists (WqRotate _ _ _). split; [done|]. by eapply wh_exec_of.
  - eexists (WqRetry _). split; [done|]. by eapply wh_exec_of.
Qed.

(** What a request does to the service. *)
Lemma wh_request_ok authDisabled now lookup ping fresh rand nonce r st rs st' :
  wh_NewHandler cipher authDisabled now lookup ping fresh rand nonce empty_context r st = (rs, st') ->
  contract fresh r rs /\
  (wh_keep st st' \/ exists p c, p ∈ (wh_writes cipher rand nonce).*1 /\ match_method p (q_Method r) = true /\
     authorize (wh_auth authDisabled) ScopeWebhooksWrite now lookup (auth_headers r) = Next c /\
     success rs /\ wh_writes_for c st st').
Proof.
  intros (rs1 & Hr & Hs)%RequestID_inv.
  eapply (api_request wh_keep wh_writes_for) in Hr as [Hc Hw];
    [|done|apply wh_reads_ok|apply wh_writes_ok].
  split; [by eapply api_contract|].
  destruct Hw as [?|(p & c & ? & ? & ? & ? & ?)]; [by left|]. right. exists p, c.
  split_and!; try done. by eapply same_success.
Qed.
End Requests.
