(* ===== verification/IdentityHttp.v ===== *)
(** * The HTTP adapter of identity: [services/identity/internal/adapters/http]

    Documents, handlers and router, then what requests do. Tokens and the JWKS
    are public; tenants and keys sit behind the admin token, and without one they
    are closed. Random draws are arguments of the handlers that make secrets. *)

From Stdlib Require Import Ascii String ZArith Lia.
From S2P Require Import Prelude Strconv Errors LedgerDomain LedgerEvents Httpx TxMonad Signature Keycrypt.
From S2P Require Import Base64Url Webhooks Ident Identity IdentityStore IdentityService LedgerStore.
From S2P Require Import LedgerReports Json Http IdentitySlug IdentityInv IdentityWorld ReconMirror.
From S2P Require Import HttpFacts.
Local Open Scope string_scope.
Local Open Scope Z_scope.
Local Open Scope list_scope.

Definition TenantStatus_string (s : TenantStatus) : string :=
  match s with
  | TenantActive => "active" | TenantSuspended => "suspended" | TenantPurging => "purging"
  | TenantPurged => "purged"
  end.

(** ** Documents *)

Section Documents.
Context `{Render}.

Definition toTenantResponse (t : Tenant) : json :=
  JObj [("id", JStr (uuid_String (tn_ID t))); ("name", JStr (tn_Name t)); ("slug", JStr (tn_Slug t));
        ("status", JStr (TenantStatus_string (tn_Status t))); ("created_at", JTime (tn_CreatedAt t))].

(** The secret is present on creation only, the only time this is written. *)
Definition apiKeyResponse (k : APIKey) (secret : string) : json :=
  JObj ([("id", JStr (uuid_String (key_ID k))); ("tenant_id", JStr (uuid_String (key_TenantID k)));
         ("environment", JStr (key_Environment k)); ("name", JStr (key_Name k));
         ("key_prefix", JStr (key_Prefix k)); ("scopes", json_list JStr (key_Scopes k))]
        ++ omitempty "secret" secret ++ [("created_at", JTime (key_CreatedAt k))]).

(** The keys of a map are sorted. *)
Definition signup_json (s : SandboxSignup) : json :=
  JObj [("api_key", JStr (ss_Secret s)); ("expires_at", json_opt JTime (tn_ExpiresAt (ss_Tenant s)));
        ("key_prefix", JStr (key_Prefix (ss_Key s))); ("slug", JStr (tn_Slug (ss_Tenant s)));
        ("tenant_id", JStr (uuid_String (tn_ID (ss_Tenant s))))].

Definition token_json (t : IssuedToken) : json :=
  JObj [("access_token", JStr (it_AccessToken t)); ("token_type", JStr (it_TokenType t));
        ("expires_in", JNum (it_ExpiresIn t))].

Definition jwk_json (k : jwk) : json :=
  JObj [("kty", JStr (k_Kty k)); ("crv", JStr (k_Crv k)); ("kid", JStr (k_Kid k)); ("x", JStr (k_X k));
        ("alg", JStr AlgorithmEdDSA); ("use", JStr "sig")].

Definition jwks_json (d : JWKSDocument) : json := JObj [("keys", json_list jwk_json (jwks_Keys d))].
End Documents.

(** ** Errors and bodies *)

Definition id_error_status (e : error) : Z * string :=
  match e with
  | ErrValidation => (400, CodeValidationFailed)
  | ErrNotFound => (404, CodeNotFound)
  | ErrSlugConflict | ErrEmailTaken => (409, CodeConflict)
  | ErrSignupLimitReached => (429, CodeRateLimited)
  | ErrInvalidCredentials => (401, CodeUnauthorized)
  | _ => (500, CodeInternal)
  end.

Definition id_writeServiceError (cx : Context) (e : error) : HttpResponse :=
  WriteError cx (id_error_status e).1 (id_error_status e).2.

Record tenantBody : Type := mkTenantBody { tb_Name : string; tb_Slug : string }.
Definition d_tenantBody : decoder tenantBody := d_struct [
  member "name" d_string tb_Name (fun v b => mkTenantBody v (tb_Slug b));
  member "slug" d_string tb_Slug (fun v b => mkTenantBody (tb_Name b) v)].

Record keyBody : Type := mkKeyBody {
  kb_TenantID : string; kb_Environment : string; kb_Name : string; kb_Scopes : option (list string) }.
Definition d_keyBody : decoder keyBody := d_struct [
  member "tenant_id" d_string kb_TenantID
    (fun v b => mkKeyBody v (kb_Environment b) (kb_Name b) (kb_Scopes b));
  member "environment" d_string kb_Environment
    (fun v b => mkKeyBody (kb_TenantID b) v (kb_Name b) (kb_Scopes b));
  member "name" d_string kb_Name (fun v b => mkKeyBody (kb_TenantID b) (kb_Environment b) v (kb_Scopes b));
  member "scopes" (d_slice "" d_string) kb_Scopes
    (fun v b => mkKeyBody (kb_TenantID b) (kb_Environment b) (kb_Name b) v)].

Record signupBody : Type := mkSignupBody { sgb_Email : string; sgb_CompanyName : string }.
Definition d_signupBody : decoder signupBody := d_struct [
  member "email" d_string sgb_Email (fun v b => mkSignupBody v (sgb_CompanyName b));
  member "company_name" d_string sgb_CompanyName (fun v b => mkSignupBody (sgb_Email b) v)].

Record tokenBody : Type := mkTokenBody { tkb_APIKey : string; tkb_APIKeyID : string; tkb_APIKeySecret : string }.
Definition d_tokenBody : decoder tokenBody := d_struct [
  member "api_key" d_string tkb_APIKey (fun v b => mkTokenBody v (tkb_APIKeyID b) (tkb_APIKeySecret b));
  member "api_key_id" d_string tkb_APIKeyID (fun v b => mkTokenBody (tkb_APIKey b) v (tkb_APIKeySecret b));
  member "api_key_secret" d_string tkb_APIKeySecret
    (fun v b => mkTokenBody (tkb_APIKey b) (tkb_APIKeyID b) v)].

(** ** Handlers *)

Section Handlers.
Context `{Supply, Render, Parsers, Jwt, Sha256, Ed25519, Aead, MailParse}.

Definition ISt : Type := UseState IdentityDB.

Definition id_call {A} (cx : Context) (m : ITx A) (st : ISt) : result HttpResponse (A * ISt) :=
  service (id_writeServiceError cx) (m st).

Definition handleCreateTenant : handler ISt := fun cx r st => respond (
  req ← decoded cx d_tenantBody (mkTenantBody "" "") r;
  '(tenant, st) ← id_call cx (CreateTenant (tb_Name req) (tb_Slug req)) st;
  Ok (WriteJSON 201 (Some (toTenantResponse tenant)), st)) st.

Definition handleGetTenant : handler ISt := fun cx r st => respond (
  id ← pathID cx;
  '(tenant, st) ← id_call cx (GetTenant id) st;
  Ok (WriteJSON 200 (Some (toTenantResponse tenant)), st)) st.

Definition handleListTenants : handler ISt := fun cx r st => respond (
  page ← parse_page cx r;
  '(tenants, st) ← id_call cx (ListTenants (FetchLimit page) (pq_Cursor page)) st;
  Ok (WriteJSON 200 (Some (ListResponse tenant_key toTenantResponse (pq_Limit page) tenants)), st)) st.

Definition handleCreateAPIKey (reads : list (list Z)) : handler ISt := fun cx r st => respond (
  req ← decoded cx d_keyBody (mkKeyBody "" "" "" None) r;
  tenantID ← valid cx (uuid_Parse (kb_TenantID req));
  '((key, secret), st) ← id_call cx (CreateAPIKey reads tenantID (kb_Environment req) (kb_Name req)
      (default [] (kb_Scopes req))) st;
  Ok (WriteJSON 201 (Some (apiKeyResponse key secret)), st)) st.

Definition handleRevokeAPIKey : handler ISt := fun cx r st => respond (
  id ← pathID cx;
  '(_, st) ← id_call cx (RevokeAPIKey id) st;
  Ok (WriteJSON 204 None, st)) st.

Definition handleSandboxSignup (dailyLimit : Z) (reads : list (list Z)) : handler ISt := fun cx r st => respond (
  req ← decoded cx d_signupBody (mkSignupBody "" "") r;
  '(signup, st) ← id_call cx (Signup dailyLimit reads (sgb_Email req) (sgb_CompanyName req)) st;
  Ok (WriteJSON 201 (Some (signup_json signup)), st)) st.

Definition handleIssueToken (issuer : TokenIssuer) : handler ISt := fun cx r st => respond (
  req ← decoded cx d_tokenBody (mkTokenBody "" "" "") r;
  let apiKey := if decide (tkb_APIKey req = "") then tkb_APIKeySecret req else tkb_APIKey req in
  secret ← valid cx (if decide (apiKey = "") then None else Some apiKey);
  '(token, st) ← id_call cx (IssueToken issuer secret) st;
  Ok (WriteJSON 200 (Some (token_json token)), st)) st.

Definition handleJWKS : handler ISt := fun cx r st => respond (
  '(doc, st) ← id_call cx JWKS st;
  Ok (with_header "Cache-Control" "public, max-age=300" (WriteJSON 200 (Some (jwks_json doc))), st)) st.

(** ** The admin gate and the router *)

(** The token of the [X-Admin-Token] header, or else the bearer token. *)
Definition presented (r : HttpRequest) : string :=
  let got := q_Header r "X-Admin-Token" in
  let auth := q_Header r "Authorization" in
  if decide (got = "")
  then if String.prefix "Bearer " auth then substring 7 (String.length auth - 7) auth else ""
  else got.

Definition admin (adminToken : string) (next : handler ISt) : handler ISt := fun cx r st =>
  if decide (adminToken = "") then (WriteError cx 503 CodeServiceUnavailable, st)
  else if decide (presented r = adminToken) then next cx r st
  else (WriteError cx 401 CodeUnauthorized, st).

(** What a server is made of: the admin token, the issuer of the startup key,
    and the daily limit of signups when they are enabled. *)
Record Server : Type := mkServer {
  sv_adminToken : string; sv_issuer : TokenIssuer; sv_sandbox : option Z }.

Definition public_routes (s : Server) (ping : bool) (reads : list (list Z)) : list (pattern * handler ISt) :=
  [(on "GET" [Lit "healthz"], fun _ _ st => (status_ok "ok", st));
   (on "GET" [Lit "readyz"], readyz ping "ready");
   (on "POST" [Lit "v1"; Lit "auth"; Lit "token"], handleIssueToken (sv_issuer s));
   (on "GET" [Lit ".well-known"; Lit "jwks.json"], handleJWKS)]
  ++ match sv_sandbox s with
     | Some dailyLimit => [(on "POST" [Lit "v1"; Lit "sandbox"; Lit "signups"],
                            handleSandboxSignup dailyLimit reads)]
     | None => []
     end.

Definition admin_routes (reads : list (list Z)) : list (pattern * handler ISt) :=
  [(on "POST" [Lit "v1"; Lit "tenants"], handleCreateTenant);
   (on "GET" [Lit "v1"; Lit "tenants"], handleListTenants);
   (on "GET" [Lit "v1"; Lit "tenants"; Wild], handleGetTenant);
   (on "POST" [Lit "v1"; Lit "api-keys"], handleCreateAPIKey reads);
   (on "DELETE" [Lit "v1"; Lit "api-keys"; Wild], handleRevokeAPIKey)].

Definition Handler (s : Server) (ping : bool) (fresh : string) (reads : list (list Z)) : handler ISt :=
  RequestID fresh (CORSDev (mux (public_routes s ping reads
    ++ map (fun rt => (rt.1, admin (sv_adminToken s) rt.2)) (admin_routes reads)))).
End Handlers.

(** ** Requests to the identity service

    A token is issued or the public keys are shown without writing; what the
    public can change is to sign up, where that is enabled; every other change
    is one administrative use case behind the admin token. *)

Section Requests.
Context `{Supply, Render, Parsers, Jwt, Sha256, Ed25519, Aead, MailParse}.
Implicit Types st : ISt.

Lemma id_call_guards {A} cx (m : ITx A) st : guards (cx_RequestID cx) (id_call cx m st).
Proof.
  apply service_guards. intros e. apply WriteError_refusal. destruct e; cbn; set_solver.
Qed.
#[local] Hint Resolve id_call_guards : http.

Lemma id_call_ok {A} cx (m : ITx A) st r : id_call cx m st = Ok r -> m st = Ok r.
Proof. apply service_ok. Qed.

Lemma id_exec_of {A} rq (m : ITx A) st a st' :
  id_exec rq = (_ ← m; mret tt) -> m st = Ok (a, st') -> id_exec rq st = Ok (tt, st').
Proof. intros -> Hm. apply use_bind_ok. exists a, st'. by rewrite use_ret_ok. Qed.

(** What an answer is when it is no refusal. *)
Definition answers (rs : HttpResponse) : Prop := success rs \/ (rs_Status rs = 204 /\ rs_Body rs = NoBody).

Definition id_reads (h : handler ISt) : Prop :=
  handles h (fun _ _ st rs st' => success rs /\ u_db st' = u_db st).

Lemma id_call_keep {A} cx (m : ITx A) st a st' :
  keeps id m -> id_call cx m st = Ok (a, st') -> u_db st' = u_db st.
Proof. intros Hk Hc%id_call_ok. by apply Hk in Hc. Qed.

Lemma handleIssueToken_reads issuer : id_reads (handleIssueToken issuer).
Proof.
  handler_start. split; [auto with http|].
  match goal with Hc : id_call _ _ _ = Ok _ |- _ => apply id_call_ok, IssueToken_ok in Hc as (? & ? & ? & -> & _) end.
  done.
Qed.

Lemma handleJWKS_reads : id_reads handleJWKS.
Proof.
  handler_start. split; [auto with http|]. eapply id_call_keep; [|eassumption].
  unfold JWKS, ListActiveSigningKeys. frame.
Qed.

(** The use cases of the admin endpoints. *)
Definition id_admin (rq : id_request) : Prop :=
  match rq with IqCreateTenant _ _ | IqCreateAPIKey _ _ _ _ _ | IqRevoke _ => True | _ => False end.

Definition id_changed (rq : id_request) (st st' : ISt) : Prop := id_exec rq st = Ok (tt, st').

Lemma admin_routes_ok reads :
  Forall (fun rt => handles rt.2 (fun _ _ st rs st' => answers rs /\
    (u_db st' = u_db st \/ exists rq, id_admin rq /\ id_changed rq st st'))) (admin_routes reads).
Proof.
  repeat apply Forall_cons_2; [..|apply Forall_nil_2]; handler_start;
    (split; [first [left; solve [auto with http]|by right]|]).
  - right. eexists (IqCreateTenant _ _). split; [done|]. by eapply id_exec_of, id_call_ok.
  - left. eapply id_call_keep; [|eassumption]. unfold ListTenants. frame.
  - left. eapply id_call_keep; [|eassumption]. unfold GetTenant. frame.
  - right. eexists (IqCreateAPIKey _ _ _ _ _). split; [done|]. by eapply id_exec_of, id_call_ok.
  - right. eexists (IqRevoke _). split; [done|]. destruct a0. by eapply id_call_ok.
Qed.

Lemma handleSandboxSignup_ok dailyLimit reads :
  handles (handleSandboxSignup dailyLimit reads) (fun _ _ st rs st' => success rs /\
    exists email company, id_changed (IqSignup dailyLimit reads email company) st st').
Proof.
  handler_start. split; [auto with http|]. do 2 eexists. by eapply id_exec_of, id_call_ok.
Qed.

(** ** The gate *)

(** The request holds the token of a server that has one. *)
Definition admitted (s : Server) (r : HttpRequest) : Prop :=
  sv_adminToken s <> "" /\ presented r = sv_adminToken s.

Lemma admin_inv token (h : handler ISt) cx r st rs st' :
  admin token h cx r st = (rs, st') ->
  (refusal (cx_RequestID cx) rs /\ st' = st) \/ (token <> "" /\ presented r = token /\ h cx r st = (rs, st')).
Proof.
  unfold admin. repeat case_decide; try (intros [= <- <-]; left; split; [apply WriteError_refusal; set_solver|done]).
  auto.
Qed.

(** What the router does with a request. *)
Inductive id_outcome (s : Server) (reads : list (list Z)) (id : string) (r : HttpRequest) (st : ISt)
  : HttpResponse -> ISt -> Prop :=
| io_unrouted rs : unrouted rs -> id_outcome s reads id r st rs st
| io_refused rs : refusal id rs -> id_outcome s reads id r st rs st
| io_public rs st' : success rs -> u_db st' = u_db st ->
    (forall rest, q_Path r <> "v1" :: "tenants" :: rest /\ q_Path r <> "v1" :: "api-keys" :: rest) ->
    id_outcome s reads id r st rs st'
| io_signup rs st' dailyLimit email company : success rs -> sv_sandbox s = Some dailyLimit ->
    q_Path r = ["v1"; "sandbox"; "signups"] ->
    id_changed (IqSignup dailyLimit reads email company) st st' -> id_outcome s reads id r st rs st'
| io_admin rs st' : answers rs -> admitted s r ->
    (u_db st' = u_db st \/ exists rq, id_admin rq /\ id_changed rq st st') -> id_outcome s reads id r st rs st'.

Lemma match_lits p ls path i :
  pt_Below p = false -> pt_Segments p = map Lit ls -> match_path p path = Some i -> path = ls.
Proof.
  unfold match_path. intros -> ->. revert path. induction ls as [|l ls IH]; intros [|q path]; cbn; try done.
  case_decide as E; [|done]. subst. intros Hm. f_equal. by apply IH.
Qed.

Lemma router_ok s ping reads cx r st rs st' :
  mux (public_routes s ping reads ++ map (fun rt => (rt.1, admin (sv_adminToken s) rt.2)) (admin_routes reads))
    cx r st = (rs, st') ->
  id_outcome s reads (cx_RequestID cx) r st rs st'.
Proof.
  intros [[Hu ->]|(p & h & path & Hin & Hp & _ & Hh)]%mux_inv; [by apply io_unrouted|].
  assert (Hpub : forall ls, pt_Below p = false -> pt_Segments p = map Lit ls -> q_Path r = ls)
    by (intros ls Hb Hl; by eapply match_lits).
  apply elem_of_app in Hin as [[Hin|Hin]%elem_of_app|Hin].
  - repeat (apply elem_of_cons in Hin as [[= -> ->]|Hin]); [..|by apply elem_of_nil in Hin].
    + specialize (Hpub ["healthz"] eq_refl eq_refl). injection Hh as <- <-.
      apply io_public; [apply WriteJSON_success; auto|done|by rewrite Hpub].
    + specialize (Hpub ["readyz"] eq_refl eq_refl). unfold readyz in Hh. destruct ping; injection Hh as <- <-.
      * apply io_public; [apply WriteJSON_success; auto|done|by rewrite Hpub].
      * apply io_refused. apply (WriteError_refusal (with_path_id path cx)). set_solver.
    + specialize (Hpub ["v1"; "auth"; "token"] eq_refl eq_refl).
      apply handleIssueToken_reads in Hh as [[Hr ->]|[Hs Hk]]; [by apply io_refused|].
      apply io_public; [done|done|by rewrite Hpub].
    + specialize (Hpub [".well-known"; "jwks.json"] eq_refl eq_refl).
      apply handleJWKS_reads in Hh as [[Hr ->]|[Hs Hk]]; [by apply io_refused|].
      apply io_public; [done|done|by rewrite Hpub].
  - destruct (sv_sandbox s) as [limit|] eqn:El; [|by apply elem_of_nil in Hin].
    apply list_elem_of_singleton in Hin as [= -> ->].
    specialize (Hpub ["v1"; "sandbox"; "signups"] eq_refl eq_refl).
    apply handleSandboxSignup_ok in Hh as [[Hr ->]|(Hs & email & company & Hx)]; [by apply io_refused|].
    by eapply io_signup.
  - apply list_elem_of_fmap in Hin as ([p' h'] & [= -> ->] & Hin).
    apply admin_inv in Hh as [[Hr ->]|(Ht & Hg & Hh)]; [by apply io_refused|].
    apply (proj1 (Forall_forall _ _) (admin_routes_ok reads) _ Hin) in Hh as [[Hr ->]|[Hs Hx]];
      [by apply io_refused|by apply io_admin].
Qed.
End Requests.
