(* ===== verification/PlatformHttp.v ===== *)
(** * The platform as its HTTP clients see it

    One error contract for the four services; who may change reconciliation,
    webhooks and identity, and what a change may touch. *)

From Stdlib Require Import Ascii String ZArith Lia.
From S2P Require Import Prelude Strconv Errors Money LedgerDomain LedgerEvents Httpx LedgerStore LedgerService TxMonad.
From S2P Require Import Signature Keycrypt Base64Url Webhooks Ident Recon ReconStore ReconInv Purge.
From S2P Require Import WebhooksStore WebhooksInv WebhooksWorld Identity IdentityStore IdentityService IdentityInv IdentityWorld.
From S2P Require Import ReconMirror TenantScope Json Http LedgerHttp HttpFacts LedgerHttpFacts.
From S2P Require Import ReconHttp WebhooksHttp IdentityHttp.
Local Open Scope string_scope.
Local Open Scope Z_scope.
Local Open Scope list_scope.

Lemma success_below rs : success rs -> ~ 400 <= rs_Status rs.
Proof. intros [[->| ->] _]; lia. Qed.

Section Identity.
Context `{Supply, Render, Parsers, Jwt, Sha256, Ed25519, Aead, MailParse}.

(** What [Handler] does: the CORS preflight, or what the router does. *)
Lemma identity_request_ok s ping fresh reads r st rs st' :
  Handler s ping fresh reads empty_context r st = (rs, st') ->
  ((rs_Status rs = 204 /\ rs_Body rs = NoBody) /\ st' = st) \/
  exists rs0, same_answer rs0 rs /\ id_outcome s reads (request_id fresh r) r st rs0 st'.
Proof.
  intros (rs1 & Hr & Hs1)%RequestID_inv.
  apply CORSDev_inv in Hr as [[(_ & Hst & Hb) ->]|(rs2 & Hr & Hs2)].
  - left. destruct Hs1 as [-> ->]. auto.
  - right. exists rs2. split; [by eapply same_answer_trans|]. by apply router_ok in Hr.
Qed.

Lemma id_outcome_contract s reads fresh r st rs st' :
  id_outcome s reads (request_id fresh r) r st rs st' -> contract fresh r rs.
Proof. unfold contract. intros []; unfold answers in *; tauto. Qed.

Lemma identity_contract s ping fresh reads r st :
  contract fresh r (Handler s ping fresh reads empty_context r st).1.
Proof.
  destruct (Handler s ping fresh reads empty_context r st) as [rs st'] eqn:E.
  apply identity_request_ok in E as [[? ->]|(rs0 & Hs & Ho)]; [unfold contract; tauto|].
  eapply same_contract; [done|]. by eapply id_outcome_contract.
Qed.

Lemma id_outcome_unchanged s reads id r st rs st' :
  id_outcome s reads id r st rs st' -> 400 <= rs_Status rs -> u_db st' = u_db st.
Proof.
  intros [rs0 _|rs0 _|rs0 st0 _ Hk _|rs0 st0 dl e c Hs _ _ _|rs0 st0 Ha _ _] Hst; try done.
  - by apply success_below in Hst.
  - destruct Ha as [Hs%success_below|[E _]]; [done|lia].
Qed.

Lemma id_outcome_changed s reads id r st rs st' :
  id_outcome s reads id r st rs st' -> u_db st' = u_db st \/ exists rq, id_exec rq st = Ok (tt, st').
Proof.
  intros [rs0 _|rs0 _|rs0 st0 _ Hk _|rs0 st0 dl e c _ _ _ Hx|rs0 st0 _ _ [Hk|(rq & _ & Hx)]]; eauto.
Qed.

(** C13: administration is gated. Whatever a request to the identity service
    holds, it keeps the invariant of its tables and what is settled in them,
    and an error answer changes no row. The tables change only by a sandbox
    signup, on its own path and where signups are enabled, or by one
    administrative use case for a request that presents the admin token of a
    server that has one; issuing a token writes nothing. Without that token no
    request below /v1/tenants or /v1/api-keys gets a document or changes
    anything. *)
Theorem identity_gated s ping fresh reads r st rs st' :
  (forall id, length (id_suffix id) = 6%nat /\ Forall (fun c => slug_char c = true) (id_suffix id)) ->
  IInv (u_db st) ->
  Handler s ping fresh reads empty_context r st = (rs, st') ->
  IInv (u_db st') /\ ipersists (u_db st) (u_db st') /\ (400 <= rs_Status rs -> u_db st' = u_db st) /\
  (u_db st' = u_db st \/
   (q_Path r = ["v1"; "sandbox"; "signups"] /\ success rs /\ exists dailyLimit email company,
      sv_sandbox s = Some dailyLimit /\ id_exec (IqSignup dailyLimit reads email company) st = Ok (tt, st')) \/
   (sv_adminToken s <> "" /\ presented r = sv_adminToken s /\
      exists rq, id_admin rq /\ id_exec rq st = Ok (tt, st'))) /\
  (forall rest, q_Path r = "v1" :: "tenants" :: rest \/ q_Path r = "v1" :: "api-keys" :: rest ->
     sv_adminToken s = "" \/ presented r <> sv_adminToken s -> ~ success rs /\ u_db st' = u_db st).
Proof.
  intros Hhex I [[[Hst _] ->]|(rs0 & Hs & Ho)]%identity_request_ok.
  { split_and!; [done|apply ipersists_refl|done|by left|]. intros rest _ _. split; [|done].
    intros [[E|E] _]; lia. }
  pose proof (id_outcome_changed _ _ _ _ _ _ _ Ho) as Hch.
  assert (Hg : igood (u_db st) (u_db st')).
  { destruct Hch as [->|[rq Hx]]; [by apply igood_refl|by eapply id_exec_good]. }
  destruct Hg as [Hi Hp]. pose proof Hs as [Es _]. rewrite Es. split_and!; [done|done| | |].
  - by eapply id_outcome_unchanged.
  - destruct Ho as [| |rs0 st0 _ Hk _|rs0 st0 dl e c Hok Hl Hpath Hx|rs0 st0 _ [Ht Hpr] [Hk|Hx]]; [by left..| | |].
    + right. left. split; [done|]. split; [by eapply same_success|eauto].
    + by left.
    + right. right. auto.
  - intros rest Hpath Hno.
    assert (Hns : ~ success rs0 /\ u_db st' = u_db st).
    { destruct Ho as [rs0 [_ Hu]|rs0 Hr|rs0 st0 _ _ Hd|rs0 st0 dl e c _ _ Hpp _|rs0 st0 _ [Ht Hpr] _].
      - split; [|done]. intros [Hz _]. lia.
      - split; [|done]. intros Hz. by eapply success_not_refusal.
      - destruct (Hd rest) as [Ht Ha]. tauto.
      - rewrite Hpp in Hpath. naive_solver.
      - tauto. }
    destruct Hns as [Hns Hk]. split; [|done]. intros Hz. apply Hns. eapply same_success; [|done].
    destruct Hs as [E1 E2]. by split.
Qed.
End Identity.

Section Satellites.
Context `{Supply, Render, Parsers, Unmarshal, ReconTexts, Aead, Jsonb, UrlParse, Jwt}.

Lemma patterns_methods {X} (routes : list (pattern * X)) (ms : list string) p method :
  Forall (fun rt => exists m, rt.1 = on m (pt_Segments rt.1) /\ m <> "GET" /\ m ∈ ms) routes ->
  p ∈ routes.*1 -> match_method p method = true -> method ∈ ms.
Proof.
  intros Hall ([p' h] & -> & Hin)%list_elem_of_fmap Hm. rewrite Forall_forall in Hall.
  destruct (Hall _ Hin) as (m & E & Hg & Hms). cbn [fst] in *. rewrite E in Hm. unfold match_method in Hm. cbn in Hm.
  rewrite (bool_decide_false (m = "GET")), orb_false_r in Hm by done.
  by apply bool_decide_eq_true in Hm as <-.
Qed.

Lemma recon_write_methods :
  Forall (fun rt => exists m, rt.1 = on m (pt_Segments rt.1) /\ m <> "GET" /\ m ∈ ["POST"; "PATCH"]) recon_writes.
Proof. repeat apply Forall_cons_2; [..|apply Forall_nil_2]; (eexists; split_and!; [done|done|set_solver]). Qed.

Lemma wh_write_methods cipher rand nonce :
  Forall (fun rt => exists m, rt.1 = on m (pt_Segments rt.1) /\ m <> "GET" /\ m ∈ ["POST"; "PATCH"])
    (wh_writes cipher rand nonce).
Proof. repeat apply Forall_cons_2; [..|apply Forall_nil_2]; (eexists; split_and!; [done|done|set_solver]). Qed.

Lemma wh_client_scoped cipher tenant live rq :
  wh_client live rq -> keeps (webhooks_without tenant) (wh_exec cipher tenant rq).
Proof. intros Hc. pose proof (wh_exec_scoped cipher tenant rq) as Hs. by destruct rq. Qed.

(** C12: authority over reconciliation and webhooks. A request to either service
    keeps the invariant of its tables, never undoes what is settled in them,
    and an error answer changes no row. The tables change only for a POST or a
    PATCH whose credentials are accepted with the write scope of the service,
    answered by a document, by one use case for the tenant of the claims; and
    the rows of every other tenant are the same before and after. The claims'
    environment decides whether a webhook endpoint must be https. *)
Theorem satellite_writes_authorized authDisabled now lookup ping fresh r :
  (forall st rs st', RInv (u_db st) ->
     recon_NewHandler authDisabled now lookup ping fresh empty_context r st = (rs, st') ->
     ReconInv.good (u_db st) (u_db st') /\ (400 <= rs_Status rs -> u_db st' = u_db st) /\
     (u_db st' = u_db st \/ exists c rq,
        authorize (recon_auth authDisabled) ScopeReconWrite now lookup (auth_headers r) = Next c /\
        q_Method r ∈ ["POST"; "PATCH"] /\ success rs /\ cl_TenantID c <> uuid_Nil /\ recon_client rq /\
        recon_exec (cl_TenantID c) rq st = Ok (tt, st') /\
        recon_without (cl_TenantID c) (u_db st') = recon_without (cl_TenantID c) (u_db st))) /\
  (forall cipher rand nonce st rs st', DInv (u_db st) ->
     wh_NewHandler cipher authDisabled now lookup ping fresh rand nonce empty_context r st = (rs, st') ->
     WebhooksInv.good (u_db st) (u_db st') /\ (400 <= rs_Status rs -> u_db st' = u_db st) /\
     (u_db st' = u_db st \/ exists c rq,
        authorize (wh_auth authDisabled) ScopeWebhooksWrite now lookup (auth_headers r) = Next c /\
        q_Method r ∈ ["POST"; "PATCH"] /\ success rs /\
        wh_client (bool_decide (cl_Environment c = EnvLive)) rq /\
        wh_exec cipher (cl_TenantID c) rq st = Ok (tt, st') /\
        webhooks_without (cl_TenantID c) (u_db st') = webhooks_without (cl_TenantID c) (u_db st))).
Proof.
  split.
  - intros st rs st' I [_ Hw]%recon_request_ok.
    destruct Hw as [Hk|(p & c & Hp & Hm & Ha & Hs & Hn & rq & Hcl & Hx)].
    { unfold recon_keep in Hk. rewrite Hk. split_and!; [by apply ReconInv.good_refl|done|by left]. }
    split_and!; [by eapply recon_exec_good|by intros Hst%success_below|].
    right. exists c, rq. split_and!; try done; [|by eapply recon_exec_scoped].
    by eapply patterns_methods; [apply recon_write_methods| |].
  - intros cipher rand nonce st rs st' I [_ Hw]%wh_request_ok.
    destruct Hw as [Hk|(p & c & Hp & Hm & Ha & Hs & rq & Hcl & Hx)].
    { unfold wh_keep in Hk. rewrite Hk. split_and!; [by apply wgood_refl|done|by left]. }
    split_and!; [by eapply wh_exec_good|by intros Hst%success_below|].
    right. exists c, rq. split_and!; try done; [|by eapply wh_client_scoped].
    by eapply patterns_methods; [apply wh_write_methods| |].
Qed.
End Satellites.

(** C10: the error contract of the platform. Every answer of the ledger,
    reconciliation, webhooks and identity services, to any request, is a JSON
    document with status 200 or 201, an error document whose code is in the
    catalog with the status the catalog gives it and whose request id is the one
    of this request, the empty 204 of a preflight or a revocation, or a plain
    text with 404 or 405 that the mux writes for a path or method without a
    route. *)
Theorem platform_error_contract `{Supply, Render, Digest, Parsers, Unmarshal, ReconTexts, Aead, Jsonb, UrlParse,
    Jwt, Sha256, Ed25519, MailParse} authDisabled now lookup ping fresh r :
  (forall seen ids db,
     contract fresh r (NewRouter (H := pgStore seen) ids now authDisabled lookup ping fresh empty_context r db).1) /\
  (forall st, contract fresh r (recon_NewHandler authDisabled now lookup ping fresh empty_context r st).1) /\
  (forall cipher rand nonce st,
     contract fresh r (wh_NewHandler cipher authDisabled now lookup ping fresh rand nonce empty_context r st).1) /\
  (forall s reads st, contract fresh r (Handler s ping fresh reads empty_context r st).1).
Proof.
  split_and!; intros.
  - destruct (NewRouter _ _ _ _ _ _ empty_context r db) as [rs db'] eqn:E. by apply NewRouter_request in E as [Hc _].
  - destruct (recon_NewHandler _ _ _ _ _ empty_context r st) as [rs st'] eqn:E. by apply recon_request_ok in E as [Hc _].
  - destruct (wh_NewHandler _ _ _ _ _ _ _ _ empty_context r st) as [rs st'] eqn:E. by apply wh_request_ok in E as [Hc _].
  - apply identity_contract.
Qed.
