(* ===== verification/Startup.v ===== *)
(** * Starting the services

    [cmd/server/main.go] of ledger-core and identity and the [config] packages
    of reconciliation and webhooks: what the environment variables select, when
    a service refuses to start, and what it serves then; and what that makes of a
    public sandbox. Connecting to the database and to NATS succeeds here; the
    processes around it, with what may fail, are [Lifecycle]'s. *)

From Stdlib Require Import Ascii String ZArith Lia.
From S2P Require Import Prelude Strconv Errors LedgerDomain LedgerEvents Httpx LedgerService TxMonad.
From S2P Require Import Signature Keycrypt Base64Url Webhooks Ident Identity IdentityStore IdentityService.
From S2P Require Import WebhooksStore WebhooksService Recon ReconStore Json Http LedgerHttp ReconHttp.
From S2P Require Import WebhooksHttp IdentityHttp IdentitySlug IdentityInv IdentityWorld IdentityTokens.
From S2P Require Import IdentityGuarantees WebhooksInv.
Local Open Scope string_scope.
Local Open Scope Z_scope.

(** ** The environment *)

(** [os.Getenv]: empty when the variable is not set. *)
Definition environment : Type := string -> string.

Definition getenv (env : environment) (key fallback : string) : string :=
  if decide (env key = "") then fallback else env key.

(** [strconv.ParseBool]. *)
Definition ParseBool (s : string) : option bool :=
  if decide (s ∈ ["1"; "t"; "T"; "TRUE"; "true"; "True"]) then Some true
  else if decide (s ∈ ["0"; "f"; "F"; "FALSE"; "false"; "False"]) then Some false
  else None.

Definition boolenv (env : environment) (key : string) : bool := default false (ParseBool (env key)).

Inductive start_error : Type :=
| DatabaseURLRequired | JWKSURLRequired | AuthDisabledForbidden | MasterKeyRequired | StrongAdminTokenRequired
| BadSignupsPerDay | BadSweepInterval | BadMasterKey (e : crypt_error) | StartFailed (e : error).

(** The settings the services share. *)
Record Config : Type := mkConfig {
  cfg_HTTPAddr : string; cfg_DatabaseURL : string; cfg_NATSURL : string; cfg_JWKSURL : string;
  cfg_AuthDisabled : bool; cfg_AutoMigrate : bool; cfg_Env : string; cfg_MasterKey : string }.

Definition reject (b : bool) (e : start_error) : result start_error unit := if b then Err e else Ok tt.

Definition public (cfg : Config) : bool := bool_decide (cfg_Env cfg = "sandbox-public").

(** [loadConfig] of ledger-core. *)
Definition loadConfig (env : environment) : result start_error Config :=
  let cfg := mkConfig (getenv env "LEDGERCORE_HTTP_ADDR" ":8081") (env "LEDGERCORE_DATABASE_URL")
               (env "LEDGERCORE_NATS_URL")
               (getenv env "LEDGERCORE_JWKS_URL" "http://localhost:8082/.well-known/jwks.json")
               (bool_decide (env "LEDGERCORE_AUTH_DISABLED" = "true"))
               (bool_decide (env "LEDGERCORE_AUTO_MIGRATE" = "true")) (getenv env "LEDGERCORE_ENV" "dev") "" in
  _ ← reject (bool_decide (cfg_DatabaseURL cfg = "")) DatabaseURLRequired;
  _ ← reject (public cfg && cfg_AuthDisabled cfg) AuthDisabledForbidden;
  Ok cfg.

(** [config.Load] of reconciliation. *)
Definition recon_Load (env : environment) : result start_error Config :=
  let cfg := mkConfig (getenv env "LEDGERCORE_HTTP_ADDR" ":8083") (env "LEDGERCORE_DATABASE_URL")
               (env "LEDGERCORE_NATS_URL") (env "LEDGERCORE_JWKS_URL") (boolenv env "LEDGERCORE_AUTH_DISABLED")
               (boolenv env "LEDGERCORE_AUTO_MIGRATE") (getenv env "LEDGERCORE_ENV" "dev") "" in
  _ ← reject (bool_decide (cfg_DatabaseURL cfg = "")) DatabaseURLRequired;
  _ ← reject (public cfg && cfg_AuthDisabled cfg) AuthDisabledForbidden;
  _ ← reject (negb (cfg_AuthDisabled cfg) && bool_decide (cfg_JWKSURL cfg = "")) JWKSURLRequired;
  Ok cfg.

(** [config.Load] of webhooks. *)
Definition wh_Load (env : environment) : result start_error Config :=
  let cfg := mkConfig (getenv env "LEDGERCORE_HTTP_ADDR" ":8084") (env "LEDGERCORE_DATABASE_URL")
               (getenv env "LEDGERCORE_NATS_URL" "nats://localhost:4222") (env "LEDGERCORE_JWKS_URL")
               (bool_decide (env "LEDGERCORE_AUTH_DISABLED" = "true"))
               (bool_decide (env "LEDGERCORE_AUTO_MIGRATE" = "true")) (getenv env "LEDGERCORE_ENV" "dev")
               (env "LEDGERCORE_MASTER_KEY") in
  _ ← reject (bool_decide (cfg_DatabaseURL cfg = "")) DatabaseURLRequired;
  _ ← reject (public cfg && cfg_AuthDisabled cfg) AuthDisabledForbidden;
  _ ← reject (public cfg && bool_decide (cfg_MasterKey cfg = "")) MasterKeyRequired;
  _ ← reject (negb (cfg_AuthDisabled cfg) && bool_decide (cfg_JWKSURL cfg = "")) JWKSURLRequired;
  Ok cfg.

(** The settings of identity. *)
Record config : Type := mkIdConfig {
  httpAddr : string; databaseURL : string; natsURL : string; adminToken : string; masterKey : string;
  autoMigrate : bool; env_ : string; authDisabled : bool; signupsPerDay : Z; sweepInterval : Z }.

(** A numeric setting: its default, or the positive value [parse] reads. *)
Definition positive (raw : string) (dflt : Z) (parse : string -> option Z) (e : start_error) : result start_error Z :=
  if decide (raw = "") then Ok dflt
  else match parse raw with
       | Some n => if n <=? 0 then Err e else Ok n
       | None => Err e
       end.

(** [loadConfig] of identity; [ParseDuration] is [time.ParseDuration], in
    nanoseconds; [Atoi] reads 64 bits. *)
Definition id_loadConfig (ParseDuration : string -> option Z) (env : environment) : result start_error config :=
  signups ← positive (env "LEDGERCORE_SANDBOX_SIGNUPS_PER_DAY") DefaultSignupsPerDay ParseInt BadSignupsPerDay;
  sweep ← positive (env "LEDGERCORE_SANDBOX_SWEEP_INTERVAL") 3600000000000 ParseDuration BadSweepInterval;
  Ok (mkIdConfig (getenv env "LEDGERCORE_HTTP_ADDR" ":8082") (env "LEDGERCORE_DATABASE_URL")
        (env "LEDGERCORE_NATS_URL") (env "LEDGERCORE_ADMIN_TOKEN") (env "LEDGERCORE_MASTER_KEY")
        (bool_decide (env "LEDGERCORE_AUTO_MIGRATE" = "true")) (getenv env "LEDGERCORE_ENV" "dev")
        (bool_decide (env "LEDGERCORE_AUTH_DISABLED" = "true")) signups sweep).

Definition hardeningChecks (cfg : config) : result start_error unit :=
  if decide (env_ cfg <> "sandbox-public") then Ok tt
  else
    _ ← reject (bool_decide (adminToken cfg = "" \/ adminToken cfg = "dev-admin-token")) StrongAdminTokenRequired;
    _ ← reject (authDisabled cfg) AuthDisabledForbidden;
    reject (bool_decide (masterKey cfg = "")) MasterKeyRequired.

(** ** What the services serve *)

Definition master_cipher `{Aead} (key : string) : result start_error (option bytes) :=
  if decide (key = "") then Ok None
  else map_err BadMasterKey (c ← New (list_ascii_of_string key); Ok (Some c)).

(** A service that answers with [h] once started. *)
Definition ledger_serve {S : Type} `{LedgerService.Store S, Render, Parsers, Unmarshal, Jwt} (env : environment)
  : result start_error (list uuid -> time -> (string -> option bytes) -> bool -> string -> handler S) :=
  cfg ← loadConfig env;
  Ok (fun ids now => NewRouter ids now (cfg_AuthDisabled cfg)).

Definition recon_serve `{Supply, Render, Parsers, Unmarshal, ReconTexts, Jwt} (env : environment)
  : result start_error (time -> (string -> option bytes) -> bool -> string -> handler RSt) :=
  cfg ← recon_Load env;
  Ok (recon_NewHandler (cfg_AuthDisabled cfg)).

(** [run] of webhooks: the secrets left in the clear are sealed before the
    service listens. *)
Definition wh_serve `{Supply, Render, Parsers, Aead, Jsonb, UrlParse, Jwt} (env : environment)
  (nonces : uuid -> option bytes * option bytes) (st : WSt)
  : result start_error ((time -> (string -> option bytes) -> bool -> string -> list Z -> option bytes -> handler WSt)
                        * option bytes) * WSt :=
  match (cfg ← wh_Load env; cipher ← master_cipher (cfg_MasterKey cfg); Ok (cfg, cipher)) with
  | Err e => (Err e, st)
  | Ok (cfg, cipher) =>
      match commit (ReencryptPlaintextSecrets cipher nonces) st with
      | (Err e, st) => (Err (StartFailed e), st)
      | (Ok _, st) => (Ok (wh_NewHandler cipher (cfg_AuthDisabled cfg), cipher), st)
      end
  end.

(** [run] of identity: the signing key is ready and sealed before the server is
    built; signups are for public sandboxes. *)
Definition id_serve `{Supply, Render, Parsers, Jwt, Sha256, Ed25519, Aead, MailParse}
  (ParseDuration : string -> option Z) (env : environment) (nonce : uuid -> option bytes) (draw : nat) (st : ISt)
  : result start_error Server * ISt :=
  match (cfg ← id_loadConfig ParseDuration env;
         _ ← reject (bool_decide (databaseURL cfg = "")) DatabaseURLRequired;
         _ ← hardeningChecks cfg;
         cipher ← master_cipher (masterKey cfg); Ok (cfg, cipher)) with
  | Err e => (Err e, st)
  | Ok (cfg, cipher) =>
      match EnsureSigningKey cipher nonce draw st with
      | (Err e, st) => (Err (StartFailed e), st)
      | (Ok signingKey, st) =>
          match NewTokenIssuer signingKey TokenTTL with
          | Err e => (Err (StartFailed e), st)
          | Ok issuer =>
              (Ok (mkServer (adminToken cfg) issuer
                     (if decide (env_ cfg = "sandbox-public") then Some (NewSandboxService (signupsPerDay cfg))
                      else None)), st)
          end
      end
  end.

(** ** A public sandbox is closed

    Started with [LEDGERCORE_ENV=sandbox-public], no service takes a tenant from
    a header, identity has a strong admin token, and secrets are sealed; without
    it nobody can sign up. *)

(** ** Secrets of webhooks *)

Section Sealed.
Context `{Supply, Render, Aead, Jsonb, UrlParse}.
Variable c : bytes.
Implicit Types st : UseState WebhookDB.

Lemma Encrypt_IsEncrypted nonce p a b : Encrypt (Some c) nonce p a = Ok b -> IsEncrypted b = true.
Proof.
  destruct nonce as [n|]; [|done]. intros [= <-]. unfold IsEncrypted, HasPrefix. 
  apply bool_decide_eq_true, (take_app_length Keycrypt.prefix).
Qed.

Lemma reencrypt_row_sealed nonces s s' : reencrypt_row (Some c) nonces s = Ok s' -> has_plaintext s' = false.
Proof.
  intros (secret & Hs & (prev & Hp & [= <-])%bind_ok)%bind_ok. unfold has_plaintext, with_secrets. cbn.
  assert (Es : IsEncrypted secret = true).
  { destruct (IsEncrypted (sub_Secret s)) eqn:E; [by injection Hs as <-|by eapply Encrypt_IsEncrypted]. }
  rewrite Es. cbn. destruct (sub_PreviousSecret s) as [v|]; [|by injection Hp as <-].
  destruct (IsEncrypted v) eqn:E; [injection Hp as <-; by rewrite E|].
  apply bind_ok in Hp as (v' & Hv & [= <-]). by rewrite (Encrypt_IsEncrypted _ _ _ _ Hv).
Qed.

Lemma reencrypt_all nonces l st u st' :
  each l (fun s =>
    s' ← lift_crypt (reencrypt_row (Some c) (nonces (sub_ID s)) s);
    write (fun db => set_subscriptions (<[sub_ID s := s']> (subscriptions db)) db)) st = Ok (u, st') ->
  (forall id s, subscriptions (u_db st) !! id = Some s -> has_plaintext s = true -> id ∈ map sub_ID l) ->
  forall id s, subscriptions (u_db st') !! id = Some s -> has_plaintext s = false.
Proof.
  revert st. induction l as [|s0 l IH]; intros st Hr Hall id s Hs; cbn [each] in Hr.
  - inv_use Hr. destruct (has_plaintext s) eqn:E; [|done]. by apply (Hall id), elem_of_nil in E.
  - apply use_bind_ok in Hr as (v & st1 & Hw & Hr).
    apply use_bind_ok in Hw as (s' & s1 & (Hre & ->)%lift_crypt_ok & ->%write_ok).
    apply reencrypt_row_sealed in Hre. eapply IH; [exact Hr| |exact Hs]. cbn.
    intros i x [[<- <-]|[Hne Hx]]%lookup_insert_Some Hp; [congruence|].
    specialize (Hall _ _ Hx Hp). cbn in Hall. apply elem_of_cons in Hall as [->|?]; done.
Qed.

Lemma Reencrypt_sealed nonces st u st' :
  DInv (u_db st) -> ReencryptPlaintextSecrets (Some c) nonces st = Ok (u, st') ->
  forall id s, subscriptions (u_db st') !! id = Some s -> has_plaintext s = false.
Proof.
  intros I Hr. unfold ReencryptPlaintextSecrets in Hr. apply use_bind_ok in Hr as (db & st1 & [-> ->]%read_ok & Hr).
  apply (reencrypt_all _ _ _ _ _ Hr). intros id s Hs Hp.
  apply list_elem_of_fmap. exists s. split; [by rewrite (di_skey _ I _ _ Hs)|].
  apply list_elem_of_filter. split; [done|]. apply elem_of_rows_of. eauto.
Qed.
End Sealed.

(** ** Refusals at start *)

Lemma reject_ok b e u : reject b e = Ok u <-> b = false.
Proof. destruct b, u; cbn; naive_solver. Qed.

Section Start.
Context `{Supply, Render, Parsers, Unmarshal, ReconTexts, Jwt, Sha256, Ed25519, Aead, MailParse, Jsonb, UrlParse}.

Lemma getenv_public env : env "LEDGERCORE_ENV" = "sandbox-public" -> getenv env "LEDGERCORE_ENV" "dev" = "sandbox-public".
Proof. unfold getenv. by intros ->. Qed.

(** Peels the checks of a configuration. *)
Ltac checks H :=
  repeat match type of H with
  | mbind _ (reject _ _) = Ok _ =>
      let Hb := fresh "Hb" in apply bind_ok in H; destruct H as (? & Hb & H); apply reject_ok in Hb
  end.

Lemma loadConfig_public env cfg :
  env "LEDGERCORE_ENV" = "sandbox-public" -> loadConfig env = Ok cfg -> cfg_AuthDisabled cfg = false.
Proof.
  intros E%getenv_public Hl. unfold loadConfig in Hl. checks Hl. injection Hl as <-.
  unfold public in *. cbn in *. by rewrite E in *.
Qed.

Lemma recon_Load_public env cfg :
  env "LEDGERCORE_ENV" = "sandbox-public" -> recon_Load env = Ok cfg -> cfg_AuthDisabled cfg = false.
Proof.
  intros E%getenv_public Hl. unfold recon_Load in Hl. checks Hl. injection Hl as <-.
  unfold public in *. cbn in *. by rewrite E in *.
Qed.

Lemma wh_Load_public env cfg :
  env "LEDGERCORE_ENV" = "sandbox-public" -> wh_Load env = Ok cfg ->
  cfg_AuthDisabled cfg = false /\ cfg_MasterKey cfg <> "".
Proof.
  intros E%getenv_public Hl. unfold wh_Load in Hl. checks Hl. injection Hl as <-.
  unfold public in *. cbn in *. rewrite E in *. cbn in *. split; [done|]. by apply bool_decide_eq_false in Hb1.
Qed.

Lemma master_cipher_some key o : key <> "" -> master_cipher key = Ok o -> is_Some o.
Proof.
  intros Hk. unfold master_cipher. rewrite decide_False by done.
  destruct (New _); cbn; [by intros [= <-]|done].
Qed.

(** What starting identity went through. *)
Lemma id_serve_ok ParseDuration env nonce draw st s st' :
  id_serve ParseDuration env nonce draw st = (Ok s, st') ->
  exists cfg cipher k, id_loadConfig ParseDuration env = Ok cfg /\ hardeningChecks cfg = Ok tt /\
    master_cipher (masterKey cfg) = Ok cipher /\ EnsureSigningKey cipher nonce draw st = (Ok k, st') /\
    sv_adminToken s = adminToken cfg /\ ti_kid (sv_issuer s) = uuid_String (sk_Kid k) /\
    sv_sandbox s = (if decide (env_ cfg = "sandbox-public") then Some (NewSandboxService (signupsPerDay cfg)) else None).
Proof.
  unfold id_serve. destruct (id_loadConfig ParseDuration env) as [cfg|] eqn:El; [|done]. cbn.
  destruct (reject _ _); [|done]. cbn. destruct (hardeningChecks cfg) as [[]|] eqn:Eh; [|done]. cbn.
  destruct (master_cipher (masterKey cfg)) as [cipher|] eqn:Ec; [|done]. cbn.
  destruct (EnsureSigningKey cipher nonce draw st) as [[k|] st1] eqn:Ee; [|done].
  destruct (NewTokenIssuer k TokenTTL) as [issuer|] eqn:Ei; [|done]. intros [= <- <-].
  exists cfg, cipher, k. split_and!; try done. cbn. unfold NewTokenIssuer in Ei.
  case_decide; [done|]. destruct (ParsePrivatePEM _); [|done]. by injection Ei as <-.
Qed.

Lemma id_loadConfig_env ParseDuration env cfg :
  id_loadConfig ParseDuration env = Ok cfg -> env_ cfg = getenv env "LEDGERCORE_ENV" "dev".
Proof. intros (n & _ & (d & _ & [= <-])%bind_ok)%bind_ok. done. Qed.

Lemma hardeningChecks_public cfg :
  env_ cfg = "sandbox-public" -> hardeningChecks cfg = Ok tt ->
  adminToken cfg <> "" /\ adminToken cfg <> "dev-admin-token" /\ authDisabled cfg = false /\ masterKey cfg <> "".
Proof.
  intros E Hh. unfold hardeningChecks in Hh. rewrite decide_False in Hh by (intros Hn; by apply Hn).
  checks Hh. apply reject_ok, bool_decide_eq_false in Hh. apply bool_decide_eq_false in Hb. tauto.
Qed.

Lemma NewSandboxService_pos n : 0 < NewSandboxService n.
Proof. unfold NewSandboxService. destruct (Z.leb_spec n 0); [done|done]. Qed.

(** The stored signing keys once identity serves with a master key. *)
Definition keys_sealed (issuer : TokenIssuer) (before after : IdentityDB) : Prop :=
  (forall kid k0, signing_keys before !! kid = Some k0 -> sk_Active k0 = true ->
     exists k1, signing_keys after !! kid = Some k1 /\ IsEncrypted (sk_PrivateKeyPEM k1) = true) /\
  exists kid stored, signing_keys after !! kid = Some stored /\ ti_kid issuer = uuid_String kid /\
    sk_Active stored = true /\ IsEncrypted (sk_PrivateKeyPEM stored) = true.

(** C14: a public sandbox is closed. When [LEDGERCORE_ENV] is [sandbox-public],
    whatever the other variables hold: a ledger, reconciliation or webhooks
    service that starts verifies tokens on every request; webhooks serves with a
    master key and no stored secret is in the clear; identity serves with an
    admin token that is neither empty nor the development default, with a
    positive daily limit on signups, and with its active signing keys - the one
    it signs with among them - sealed. In every other environment identity
    serves no signups. *)
Theorem public_sandbox_closed env :
  (env "LEDGERCORE_ENV" = "sandbox-public" ->
     (forall (S : Type) (store : LedgerService.Store S) h, ledger_serve env = Ok h ->
        h = fun ids now => NewRouter ids now false) /\
     (forall h, recon_serve env = Ok h -> h = recon_NewHandler false) /\
     (forall nonces st h cipher st', DInv (u_db st) -> wh_serve env nonces st = (Ok (h, cipher), st') ->
        h = wh_NewHandler cipher false /\ is_Some cipher /\
        forall id s, subscriptions (u_db st') !! id = Some s -> has_plaintext s = false) /\
     (forall ParseDuration nonce draw w st s st',
        (forall key n p a, Open key n (Seal key n p a) a = Some p) ->
        (forall kid n, nonce kid = Some n -> length n = NonceSize) ->
        (forall priv pub, GenerateKeyPEM draw = Some (priv, pub) -> IsEncrypted priv = false) ->
        (forall id, length (id_suffix id) = 6%nat /\ Forall (fun c => slug_char c = true) (id_suffix id)) ->
        ireach w -> u_db st = iw_db w -> id_serve ParseDuration env nonce draw st = (Ok s, st') ->
        sv_adminToken s <> "" /\ sv_adminToken s <> "dev-admin-token" /\
        (exists n, sv_sandbox s = Some n /\ 0 < n) /\ keys_sealed (sv_issuer s) (u_db st) (u_db st'))) /\
  (env "LEDGERCORE_ENV" <> "sandbox-public" ->
     forall ParseDuration nonce draw st s st',
       id_serve ParseDuration env nonce draw st = (Ok s, st') -> sv_sandbox s = None).
Proof.
  split.
  - intros Henv. split_and!.
    + intros S store h (cfg & Hl & [= <-])%bind_ok. by rewrite (loadConfig_public _ _ Henv Hl).
    + intros h (cfg & Hl & [= <-])%bind_ok. by rewrite (recon_Load_public _ _ Henv Hl).
    + intros nonces st h cipher st' I Hr. unfold wh_serve in Hr.
      destruct (wh_Load env) as [cfg|] eqn:El; [|done]. cbn in Hr.
      destruct (master_cipher (cfg_MasterKey cfg)) as [o|] eqn:Ec; [|done]. cbn in Hr.
      destruct (wh_Load_public _ _ Henv El) as [Ha Hk]. destruct (master_cipher_some _ _ Hk Ec) as [c ->].
      unfold commit in Hr. destruct (ReencryptPlaintextSecrets _ _ _) as [[u st1]|] eqn:Er; [|done].
      injection Hr as <- <- <-. rewrite Ha. split; [done|]. split; [done|]. by eapply Reencrypt_sealed.
    + intros PD nonce draw w st s st' Hopen Hnonce Hgen Hhex Hw Edb Hr.
      apply id_serve_ok in Hr as (cfg & cipher & k & Hl & Hh & Hc & He & Ht & Hkid & Hs).
      assert (Ep : env_ cfg = "sandbox-public") by (by rewrite (id_loadConfig_env _ _ _ Hl), getenv_public).
      destruct (hardeningChecks_public _ Ep Hh) as (H1' & H2' & _ & Hm).
      destruct (master_cipher_some _ _ Hm Hc) as [c ->].
      destruct (EnsureSigningKey_seals c nonce Hopen Hnonce w draw st _ st' Hhex Hgen Hw Edb He) as [_ Hk].
      destruct (Hk k eq_refl) as (Hold & stored & Hst & Hact & _ & Henc & _).
      rewrite Ht, Hs, decide_True by done. split_and!; [done|done|eexists; split; [done|apply NewSandboxService_pos]|].
      split; [|by exists (sk_Kid k), stored]. intros kid k0 Hk0 Ha0.
      destruct (Hold kid k0 Hk0) as (k1 & Hk1 & Hk1'). rewrite Ha0 in Hk1'. destruct Hk1' as (_ & ? & _). eauto.
  - intros Henv PD nonce draw st s st' (cfg & cipher & k & Hl & _ & _ & _ & _ & _ & Hs)%id_serve_ok.
    rewrite Hs, (id_loadConfig_env _ _ _ Hl). unfold getenv.
    destruct (decide (env _ = "")); (rewrite decide_False; [done|]); [discriminate|done].
Qed.
End Start.
