(* ===== verification/Middleware.v ===== *)
(** * Panics and logs: [Recover], [Logger] and [statusRecorder] of [httpx.go]

    Handlers as the middlewares see them: a sequence of calls on the
    [http.ResponseWriter], log lines, and possibly a panic. The chain of every
    service over such a handler, what of a panic reaches the client, and that a
    handler that returns is answered as the routers of [Http] answer it. *)

From Stdlib Require Import Ascii String ZArith Lia.
From S2P Require Import Prelude Strconv Errors LedgerDomain LedgerEvents Httpx LedgerService TxMonad.
From S2P Require Import Signature Keycrypt Base64Url Webhooks Ident Identity IdentityStore IdentityService.
From S2P Require Import WebhooksStore Recon ReconStore Json Http LedgerHttp ReconHttp WebhooksHttp IdentityHttp.
Local Open Scope string_scope.
Local Open Scope Z_scope.
Local Open Scope list_scope.

(** ** The response writer *)

(** [w.Header().Set], [w.WriteHeader] and [w.Write]. *)
Inductive writer_call : Type := SetHeader (name value : string) | WriteHeader (status : Z) | Write (chunk : content).

(** The writer of [net/http]: the header map, the status and headers once sent,
    the chunks of the body. *)
Record Writer : Type := mkWriter {
  w_Header : gmap string string; w_Sent : option (Z * gmap string string); w_Body : list content }.

Definition send (status : Z) (w : Writer) : Writer :=
  match w_Sent w with
  | Some _ => w
  | None => mkWriter (w_Header w) (Some (status, w_Header w)) (w_Body w)
  end.

(** Only the first status counts; a body without one is sent with 200. *)
Definition perform_call (w : Writer) (c : writer_call) : Writer :=
  match c with
  | SetHeader name value => mkWriter (<[name := value]> (w_Header w)) (w_Sent w) (w_Body w)
  | WriteHeader status => send status w
  | Write chunk => let w := send 200 w in mkWriter (w_Header w) (w_Sent w) (w_Body w ++ [chunk])
  end.

Definition perform_calls (w : Writer) (cs : list writer_call) : Writer := fold_left perform_call cs w.

Definition new_writer : Writer := mkWriter ∅ None [].

(** What the client gets when the handler is done. *)
Definition answered (cs : list writer_call) : Z * gmap string string * list content :=
  let w := send 200 (perform_calls new_writer cs) in
  (default (200, ∅) (w_Sent w), w_Body w).

(** ** Handlers that may panic *)

Inductive panicked : Type := AbortHandler | Panicked (text : string).

Inductive log_line : Type :=
| LogPanic (text method : string) (path : list string) (request_id : string)
| LogRequest (method : string) (path : list string) (status bytes : Z) (request_id : string)
| LogOther (text : string).

Record Ran (S : Type) : Type := mkRan {
  ran_Calls : list writer_call; ran_Log : list log_line; ran_Panic : option panicked; ran_State : S }.
Arguments mkRan {S} _ _ _ _.
Arguments ran_Calls {S} _.
Arguments ran_Log {S} _.
Arguments ran_Panic {S} _.
Arguments ran_State {S} _.

Definition raw_handler (S : Type) : Type := Context -> HttpRequest -> S -> Ran S.

Definition body_chunks (b : content) : list content := match b with NoBody => [] | b => [b] end.

(** The calls that write a response: its headers, its status, its body. *)
Definition write_response (rs : HttpResponse) : list writer_call :=
  map (fun h => SetHeader h.1 h.2) (map_to_list (rs_Header rs)) ++
  WriteHeader (rs_Status rs) :: map Write (body_chunks (rs_Body rs)).

(** A handler that answers and returns. *)
Definition returning {S} (h : handler S) : raw_handler S := fun cx r st =>
  let '(rs, st) := h cx r st in mkRan (write_response rs) [] None st.

(** [statusRecorder]: its methods pass the call on and keep the status and the
    size. *)
Record statusRecorder : Type := mkStatusRecorder { sr_status : Z; sr_bytes : Z }.

Section Chain.
Variable size : content -> Z.

Definition record_call (rec : statusRecorder) (c : writer_call) : statusRecorder :=
  match c with
  | SetHeader _ _ => rec
  | WriteHeader code => mkStatusRecorder code (sr_bytes rec)
  | Write chunk => mkStatusRecorder (if sr_status rec =? 0 then 200 else sr_status rec) (sr_bytes rec + size chunk)
  end.

(** ** The middlewares *)

(** The deferred function of [Recover]. *)
Definition recovered {S} (cx : Context) (r : HttpRequest) (ran : Ran S) : Ran S :=
  match ran_Panic ran with
  | Some (Panicked text) =>
      mkRan (ran_Calls ran ++ write_response (WriteError cx 500 CodeInternal))
        (ran_Log ran ++ [LogPanic text (q_Method r) (q_Path r) (cx_RequestID cx)]) None (ran_State ran)
  | _ => ran
  end.

Definition Recover {S} (next : raw_handler S) : raw_handler S := fun cx r st => recovered cx r (next cx r st).

(** What [Logger] does after the handler returned. *)
Definition logged {S} (cx : Context) (r : HttpRequest) (ran : Ran S) : Ran S :=
  match ran_Panic ran with
  | Some _ => ran
  | None =>
      let rec := fold_left record_call (ran_Calls ran) (mkStatusRecorder 0 0) in
      let status := if sr_status rec =? 0 then 200 else sr_status rec in
      mkRan (ran_Calls ran)
        (ran_Log ran ++ [LogRequest (q_Method r) (q_Path r) status (sr_bytes rec) (cx_RequestID cx)]) None (ran_State ran)
  end.

Definition Logger {S} (next : raw_handler S) : raw_handler S := fun cx r st => logged cx r (next cx r st).

Definition before {S} (cs : list writer_call) (ran : Ran S) : Ran S :=
  mkRan (cs ++ ran_Calls ran) (ran_Log ran) (ran_Panic ran) (ran_State ran).

Definition raw_RequestID {S} (fresh : string) (next : raw_handler S) : raw_handler S := fun cx r st =>
  let id := request_id fresh r in
  before [SetHeader "X-Request-Id" id] (next (with_request_id id cx) r st).

(** The headers [CORSDev] sets for an origin. *)
Definition allow_origin (origin : string) : list writer_call :=
  if decide (origin = "") then [] else map (fun h => SetHeader h.1 h.2) (map_to_list (cors_headers origin)).

Definition raw_CORSDev {S} (next : raw_handler S) : raw_handler S := fun cx r st =>
  before (allow_origin (q_Header r "Origin"))
    (if decide (q_Method r = "OPTIONS") then mkRan [WriteHeader 204] [] None st else next cx r st).

(** ** The chain of each service *)

Inductive service_name : Type := ServiceLedger | ServiceRecon | ServiceWebhooks | ServiceIdentity.

Definition chain {S} (s : service_name) (fresh : string) (root : raw_handler S) : raw_handler S :=
  match s with
  | ServiceLedger | ServiceRecon => raw_RequestID fresh (Recover (Logger (raw_CORSDev root)))
  | ServiceWebhooks => raw_RequestID fresh (Recover (Logger root))
  | ServiceIdentity => Recover (raw_RequestID fresh (Logger (raw_CORSDev root)))
  end.
End Chain.

(** The same chain without [Recover] and [Logger], over a root that returns. *)
Definition pure_chain {S} (s : service_name) (fresh : string) (root : handler S) : handler S :=
  match s with ServiceWebhooks => RequestID fresh root | _ => RequestID fresh (CORSDev root) end.

(** ** Calls on the writer *)

Lemma set_headers (l : list (string * string)) w :
  NoDup l.*1 ->
  perform_calls w (map (fun h => SetHeader h.1 h.2) l) = mkWriter (list_to_map l ∪ w_Header w) (w_Sent w) (w_Body w).
Proof.
  revert w. induction l as [|[k v] l IH]; intros w Hl.
  - cbn. rewrite map_empty_union. by destruct w.
  - apply NoDup_cons in Hl as [Hk Hl]. change (perform_calls w (map ?[f] ((k, v) :: l))) with
      (perform_calls (perform_call w (SetHeader k v)) (map (fun h => SetHeader h.1 h.2) l)).
    rewrite IH by done. cbn. f_equal.
    rewrite <- insert_union_l. symmetry. apply insert_union_r. by apply not_elem_of_list_to_map_1.
Qed.

Lemma set_map_headers (m : gmap string string) w :
  perform_calls w (map (fun h => SetHeader h.1 h.2) (map_to_list m)) = mkWriter (m ∪ w_Header w) (w_Sent w) (w_Body w).
Proof. by rewrite set_headers, list_to_map_to_list by apply NoDup_fst_map_to_list. Qed.

Lemma perform_app w cs cs' : perform_calls w (cs ++ cs') = perform_calls (perform_calls w cs) cs'.
Proof. apply fold_left_app. Qed.

(** A response written to a writer that sent nothing is what is sent. *)
Lemma write_response_sent h rs :
  let w := perform_calls (mkWriter h None []) (write_response rs) in
  w_Sent w = Some (rs_Status rs, rs_Header rs ∪ h) /\ w_Body w = body_chunks (rs_Body rs).
Proof.
  cbn zeta. unfold write_response. rewrite perform_app, set_map_headers. cbn. by destruct (rs_Body rs).
Qed.

(** A response written after anything: its status counts if none was sent, its
    body follows. *)
Lemma response_after w rs :
  let w' := perform_calls w (write_response rs) in
  fst <$> w_Sent w' = Some (default (rs_Status rs) (fst <$> w_Sent w)) /\ w_Body w' = w_Body w ++ body_chunks (rs_Body rs).
Proof.
  cbn zeta. unfold write_response. rewrite perform_app, set_map_headers. cbn.
  destruct (w_Sent w) as [[]|] eqn:E, (rs_Body rs); cbn; unfold send; cbn; rewrite ?E, ?app_nil_r; done.
Qed.

(** The status sent and the body do not depend on the headers. *)
Definition sent_of (w : Writer) : option Z * list content := (fst <$> w_Sent w, w_Body w).

Lemma sent_of_calls cs w w' : sent_of w = sent_of w' -> sent_of (perform_calls w cs) = sent_of (perform_calls w' cs).
Proof.
  revert w w'. induction cs as [|c cs IH]; [done|]. intros [h s b] [h' s' b'] [= Es ->]. cbn. apply IH.
  destruct c, s as [[]|], s' as [[]|]; cbn in *; unfold sent_of; cbn; congruence.
Qed.

(** A body is sent after a status. *)
Lemma unsent_empty cs : w_Sent (perform_calls new_writer cs) = None -> w_Body (perform_calls new_writer cs) = [].
Proof.
  assert (Hg : forall w, (w_Sent w = None -> w_Body w = []) ->
            w_Sent (perform_calls w cs) = None -> w_Body (perform_calls w cs) = []).
  { induction cs as [|c cs IH]; [done|]. intros w Hw. cbn. apply IH.
    destruct c, (w_Sent w) eqn:E; cbn; unfold send; rewrite ?E; cbn; try done; auto. }
  by apply Hg.
Qed.

(** ** What the chain makes of a handler *)

(** A request whose handler runs: it is no preflight a service answers itself. *)
Definition routed (s : service_name) (r : HttpRequest) : Prop :=
  s = ServiceWebhooks \/ q_Method r <> "OPTIONS".

(** The request id of the document of a recovered panic: [Recover] of identity
    runs outside [RequestID] and finds none in the request. *)
Definition error_id (s : service_name) (id : string) : string :=
  match s with ServiceIdentity => "" | _ => id end.

Section Chained.
Context {S : Type} (size : content -> Z) (s : service_name) (fresh : string) (r : HttpRequest) (st : S).
Let id := request_id fresh r.
Let cx := with_request_id id empty_context.

(** The headers the middlewares set first. *)
Definition chain_headers : list writer_call :=
  SetHeader "X-Request-Id" id ::
  match s with ServiceWebhooks => [] | _ => allow_origin (q_Header r "Origin") end.

(** What runs inside the middlewares: the preflight's empty answer or the root. *)
Definition innermost (root : raw_handler S) : Ran S :=
  match s with
  | ServiceWebhooks => root cx r st
  | _ => if decide (q_Method r = "OPTIONS") then mkRan [WriteHeader 204] [] None st else root cx r st
  end.

Lemma innermost_routed root : routed s r -> innermost root = root cx r st.
Proof. unfold innermost. intros Hr. destruct s; try done; (rewrite decide_False by (by destruct Hr)); done. Qed.

Lemma chain_ran (root : raw_handler S) :
  let ran := innermost root in
  let out := chain size s fresh root empty_context r st in
  ran_State out = ran_State ran /\
  match ran_Panic ran with
  | None =>
      ran_Panic out = None /\ ran_Calls out = chain_headers ++ ran_Calls ran /\
      let rec := fold_left (record_call size) (ran_Calls out) (mkStatusRecorder 0 0) in
      ran_Log out = ran_Log ran ++ [LogRequest (q_Method r) (q_Path r) (if sr_status rec =? 0 then 200 else sr_status rec)
                                      (sr_bytes rec) id]
  | Some (Panicked text) =>
      ran_Panic out = None /\
      ran_Calls out = chain_headers ++ ran_Calls ran ++
        write_response (WriteError (with_request_id (error_id s id) empty_context) 500 CodeInternal) /\
      ran_Log out = ran_Log ran ++ [LogPanic text (q_Method r) (q_Path r) (error_id s id)]
  | Some AbortHandler => ran_Panic out = Some AbortHandler /\ ran_Log out = ran_Log ran
  end.
Proof.
  cbn zeta.
  assert (E : chain size s fresh root empty_context r st =
    match s with
    | ServiceIdentity => recovered empty_context r
        (before [SetHeader "X-Request-Id" id] (logged size cx r (before (allow_origin (q_Header r "Origin")) (innermost root))))
    | ServiceWebhooks => before [SetHeader "X-Request-Id" id] (recovered cx r (logged size cx r (innermost root)))
    | _ => before [SetHeader "X-Request-Id" id]
             (recovered cx r (logged size cx r (before (allow_origin (q_Header r "Origin")) (innermost root))))
    end) by (unfold innermost; destruct s; unfold chain, raw_RequestID, Recover, Logger, raw_CORSDev; reflexivity).
  rewrite E. unfold chain_headers. destruct (innermost root) as [calls log [[|text]|] st'], s;
    cbn [ran_Calls ran_Log ran_Panic ran_State before logged recovered]; split_and!; rewrite <- ?app_assoc; done.
Qed.

(** The response under the middlewares of [httpx.go] that answer themselves. *)
Definition inner (h : handler S) : HttpResponse * S :=
  match s with
  | ServiceWebhooks => h cx r st
  | _ => if decide (q_Method r = "OPTIONS") then (mkHttpResponse 204 ∅ NoBody, st) else h cx r st
  end.

Lemma innermost_returning h :
  innermost (returning h) = mkRan (write_response (inner h).1) [] None (inner h).2.
Proof.
  assert (Eb : write_response (mkHttpResponse 204 ∅ NoBody) = [WriteHeader 204])
    by (unfold write_response; cbn [rs_Header]; by rewrite map_to_list_empty).
  unfold innermost, inner, returning. destruct (h cx r st) as [rs st'].
  destruct s; try case_decide; cbn [fst snd]; by rewrite ?Eb.
Qed.

(** The headers set first, as a map. *)
Definition header_map : gmap string string :=
  match s with
  | ServiceWebhooks => ∅
  | _ => if decide (q_Header r "Origin" = "") then ∅ else cors_headers (q_Header r "Origin")
  end ∪ {[ "X-Request-Id" := id ]}.

Lemma chain_headers_map : perform_calls new_writer chain_headers = mkWriter header_map None [].
Proof.
  unfold chain_headers, header_map, allow_origin.
  destruct s; try case_decide; try (cbn; by rewrite map_empty_union);
    change (SetHeader "X-Request-Id" id :: ?l) with ([SetHeader "X-Request-Id" id] ++ l);
    rewrite perform_app, set_map_headers; reflexivity.
Qed.

Lemma pure_inner (h : handler S) :
  let '(rs, st') := pure_chain s fresh h empty_context r st in
  rs_Status rs = rs_Status (inner h).1 /\ rs_Body rs = rs_Body (inner h).1 /\
  rs_Header rs = rs_Header (inner h).1 ∪ header_map /\ st' = (inner h).2.
Proof.
  unfold pure_chain, RequestID, CORSDev, inner, header_map, with_cors, cx, id.
  destruct s; try destruct (decide (q_Method r = "OPTIONS")); try destruct (decide (q_Header r "Origin" = ""));
    unfold with_header; cbn [fst snd rs_Status rs_Body rs_Header];
    try (destruct (h (with_request_id (request_id fresh r) empty_context) r st) as [rs st']);
    cbn [fst snd rs_Status rs_Body rs_Header]; split_and!; try reflexivity;
    by rewrite !map_empty_union || by rewrite ?map_empty_union, (assoc_L (∪)).
Qed.
End Chained.

(** ** What the recorder has seen *)

Definition body_size (size : content -> Z) (b : content) : Z := match b with NoBody => 0 | b => size b end.

Lemma record_headers size (l : list (string * string)) rec :
  fold_left (record_call size) (map (fun h => SetHeader h.1 h.2) l) rec = rec.
Proof. by induction l. Qed.

Lemma record_chain size s fresh r rec : fold_left (record_call size) (chain_headers s fresh r) rec = rec.
Proof.
  unfold chain_headers, allow_origin. destruct s; try case_decide; cbn; try done; apply record_headers.
Qed.

Lemma record_response size rs rec :
  rs_Status rs <> 0 ->
  fold_left (record_call size) (write_response rs) rec =
    mkStatusRecorder (rs_Status rs) (sr_bytes rec + body_size size (rs_Body rs)).
Proof.
  intros Hs%Z.eqb_neq. unfold write_response. rewrite fold_left_app, record_headers.
  destruct (rs_Body rs); cbn; rewrite ?Hs, ?Z.add_0_r; done.
Qed.

(** The client's view of calls made after the headers of the chain. *)
Lemma answered_chain s fresh r cs :
  let out := answered (chain_headers s fresh r ++ cs) in
  let w := perform_calls new_writer cs in
  out.1.1 = default 200 (fst <$> w_Sent w) /\ out.2 = w_Body w.
Proof.
  cbn zeta. unfold answered. rewrite perform_app, chain_headers_map.
  pose proof (sent_of_calls cs (mkWriter (header_map s fresh r) None []) new_writer eq_refl) as E.
  destruct (perform_calls (mkWriter (header_map s fresh r) None []) cs) as [h [[]|] b],
    (perform_calls new_writer cs) as [h' [[]|] b']; unfold sent_of in E; cbn in *; injection E; intros; by subst.
Qed.

(** C11: panics are contained and every request is accounted for. In all four
    services, whatever a handler has written before it panics, the panic does
    not leave the process's handler: if nothing was sent the client gets 500 with
    the internal error document, otherwise the status sent stands and the
    document follows the body; the state is what the handler left. The panic is
    logged and the request is not. The document and the log name the request,
    except in identity, whose [Recover] runs outside [RequestID]. A handler that
    aborts aborts the connection. A handler that returns is answered as its
    router in [Http] answers, and logged once with the status and size the
    client got. *)
Theorem panics_contained {S : Type} size s fresh r (st : S) :
  let id := request_id fresh r in
  (forall root : raw_handler S, routed s r ->
     let ran := root (with_request_id id empty_context) r st in
     let out := chain size s fresh root empty_context r st in
     let written := perform_calls new_writer (ran_Calls ran) in
     (forall text, ran_Panic ran = Some (Panicked text) ->
        ran_Panic out = None /\ ran_State out = ran_State ran /\
        ran_Log out = ran_Log ran ++ [LogPanic text (q_Method r) (q_Path r) (error_id s id)] /\
        (answered (ran_Calls out)).1.1 = default 500 (fst <$> w_Sent written) /\
        (answered (ran_Calls out)).2 = w_Body written ++ [ErrorBody CodeInternal (error_id s id)] /\
        (w_Sent written = None -> w_Body written = [])) /\
     (ran_Panic ran = Some AbortHandler -> ran_Panic out = Some AbortHandler /\ ran_Log out = ran_Log ran)) /\
  (forall h : handler S,
     let '(rs, st') := pure_chain s fresh h empty_context r st in
     let out := chain size s fresh (returning h) empty_context r st in
     ran_Panic out = None /\ ran_State out = st' /\
     answered (ran_Calls out) = ((rs_Status rs, rs_Header rs), body_chunks (rs_Body rs)) /\
     (rs_Status rs <> 0 ->
        ran_Log out = [LogRequest (q_Method r) (q_Path r) (rs_Status rs) (body_size size (rs_Body rs)) id])).
Proof.
  cbn zeta. split.
  - intros root Hr. pose proof (chain_ran size s fresh r st root) as [Hst Hc]. cbn zeta in *.
    rewrite (innermost_routed s fresh r st root Hr) in *.
    destruct (root (with_request_id (request_id fresh r) empty_context) r st) as [calls log [[|text]|] st'];
      cbn [ran_Panic ran_Calls ran_Log ran_State] in *; (split; [|done]); [done| |done].
    intros t [= <-]. destruct Hc as (Hp & Hcalls & Hlog). rewrite Hcalls.
    pose proof (answered_chain s fresh r (calls ++ write_response
      (WriteError (with_request_id (error_id s (request_id fresh r)) empty_context) 500 CodeInternal))) as [E1 E2].
    rewrite E1, E2, perform_app. split_and!; try done; [| |apply unsent_empty].
    + by rewrite (proj1 (response_after _ _)).
    + by rewrite (proj2 (response_after _ _)).
  - intros h. pose proof (pure_inner s fresh r st h) as Hpure.
    destruct (pure_chain s fresh h empty_context r st) as [rs st']. destruct Hpure as (E1 & E2 & E3 & ->).
    pose proof (chain_ran size s fresh r st (returning h)) as [Hst Hc]. cbn zeta in *.
    rewrite innermost_returning in *. cbn [ran_Panic ran_Calls ran_Log ran_State] in *.
    destruct Hc as (Hp & Hcalls & Hlog). rewrite Hlog, Hcalls. split_and!; [done|done| |].
    + unfold answered. rewrite perform_app, chain_headers_map.
      pose proof (write_response_sent (header_map s fresh r) (inner s fresh r st h).1) as [Es Eb]. cbn zeta in *.
      unfold send. rewrite Es. rewrite Es. cbn. by rewrite Eb, E1, E2, E3.
    + intros Hs. rewrite E1 in Hs. rewrite fold_left_app, record_chain, record_response by done. cbn.
      apply Z.eqb_neq in Hs. by rewrite Hs, E1, E2.
Qed.

(** The routers of [Http] are these chains over their muxes. *)
Lemma routers_chained `{Supply, Render, Parsers, Unmarshal, ReconTexts, Jwt, Sha256, Ed25519, Aead, MailParse, Jsonb,
    UrlParse} {S} `{LedgerService.Store S} authDisabled now lookup ping fresh :
  (forall ids, NewRouter ids now authDisabled lookup ping fresh =
     pure_chain ServiceLedger fresh (api_root (ledger_auth authDisabled) now lookup ping "ok"
       (ledger_reads ids now ++ ledger_writes ids now))) /\
  recon_NewHandler authDisabled now lookup ping fresh =
    pure_chain ServiceRecon fresh (api_root (recon_auth authDisabled) now lookup ping "ready" (recon_reads ++ recon_writes)) /\
  (forall cipher rand nonce, wh_NewHandler cipher authDisabled now lookup ping fresh rand nonce =
     pure_chain ServiceWebhooks fresh (api_root (wh_auth authDisabled) now lookup ping "ready"
       (wh_reads cipher ++ wh_writes cipher rand nonce))) /\
  (forall s reads, Handler s ping fresh reads =
     pure_chain ServiceIdentity fresh (mux (public_routes s ping reads
       ++ map (fun rt => (rt.1, admin (sv_adminToken s) rt.2)) (admin_routes reads)))).
Proof. done. Qed.

(** A handler that panics before and one that panics after its status. *)
Definition panicking (cs : list writer_call) : raw_handler unit := fun _ _ st => mkRan cs [] (Some (Panicked "nil map")) st.
Definition plain_get : HttpRequest := mkHttpRequest "GET" ["v1"] (fun _ => None) (fun _ => "") 0 BodyUnreadable None.

Lemma panics_contained_witness :
  let out s cs := chain (fun _ => 1) s "fresh" (panicking cs) empty_context plain_get tt in
  ((answered (ran_Calls (out ServiceLedger []))).1.1 = 500 /\
   (answered (ran_Calls (out ServiceLedger []))).2 = [ErrorBody "internal" "fresh"]) /\
  ((answered (ran_Calls (out ServiceIdentity [WriteHeader 201]))).1.1 = 201 /\
   (answered (ran_Calls (out ServiceIdentity [WriteHeader 201]))).2 = [ErrorBody "internal" ""]).
Proof.
  assert (Hr : forall s, routed s plain_get) by (right; discriminate). split.
  - destruct (panics_contained (fun _ => 1) ServiceLedger "fresh" plain_get tt) as [Hp _].
    destruct (proj1 (Hp (panicking []) (Hr _)) "nil map" eq_refl) as (_ & _ & _ & Hs & Hb & _).
    split; [exact Hs|exact Hb].
  - destruct (panics_contained (fun _ => 1) ServiceIdentity "fresh" plain_get tt) as [Hp _].
    destruct (proj1 (Hp (panicking [WriteHeader 201]) (Hr _)) "nil map" eq_refl) as (_ & _ & _ & Hs & Hb & _).
    split; [exact Hs|exact Hb].
Defined.
