(* ===== verification/Lifecycle.v ===== *)
(** * The life of a process: [run] of the four [main.go]

    What each service opens, starts and closes between its configuration and
    its exit: pools, migrations, connections, consumers, background loops, the
    listener; what fails and how, in programs over a log of actions with the
    deferred calls of Go. The outside - which call succeeds, how listening
    ends - is a class. *)

From Stdlib Require Import Ascii String ZArith Lia.
From S2P Require Import Prelude Strconv Errors LedgerDomain LedgerEvents Httpx LedgerService TxMonad.
From S2P Require Import Signature Keycrypt Webhooks WebhooksStore Base64Url Ident Identity IdentityStore.
From S2P Require Import IdentityService EventStream Recon ReconStore Json Http LedgerHttp ReconHttp.
From S2P Require Import WebhooksHttp IdentityHttp Startup.
Local Open Scope string_scope.
Local Open Scope list_scope.

(** ** Actions *)

Inductive resource : Type :=
| Signals | Telemetry | Pool (url schema : string) | SqlDB | Conn (url name : string) | Subscription (durable : string)
| FanOut (url : string).

#[export] Instance resource_eq_dec : EqDecision resource.
Proof. solve_decision. Defined.

Inductive worker : Type :=
| OutboxPoller | RunSweeper (interval : Z) | PurgeSetup (url : string) | DispatcherRun | PurgePreviousSecrets.

(** [Open] and [Close] of resources, steps of the start, goroutines, and the
    listener, which serves [h]. *)
Inductive action (H : Type) : Type :=
| Open (r : resource) | Close (r : resource)
| SchemaExists (schema : string) | CreateSchema (schema : string) | ApplyMigrations (schema : string)
| EnsureStream | JetStreamOf | Go (w : worker) | Listen (addr : string) (h : H) | Shutdown.
Arguments Open {H} r.
Arguments Close {H} r.
Arguments SchemaExists {H} schema.
Arguments CreateSchema {H} schema.
Arguments ApplyMigrations {H} schema.
Arguments EnsureStream {H}.
Arguments JetStreamOf {H}.
Arguments Go {H} w.
Arguments Listen {H} addr h.
Arguments Shutdown {H}.

(** How the wait of [run] ends: a signal, or [ListenAndServe] returning
    [http.ErrServerClosed] or another error. *)
Inductive ending : Type := Signalled | ServerClosed | ListenFailed.

(** The outside. [reply log a] is the answer to [a] after [log]: nothing when it
    fails, and for a question its answer. *)
Class Host (H : Type) : Type := { reply : list (action H) -> action H -> option bool; ended : ending }.

Inductive run_error : Type := Refused (e : start_error) | Unavailable | ServeFailed.

(** What [run] makes of [http.ErrServerClosed]: a clean exit, nothing - it waits
    for the signal -, or a failure. *)
Inductive closing : Type := ClosedReturns | ClosedWaits | ClosedFails.

(** ** Programs *)

Record ProcState (S H : Type) : Type := mkProcess { ps_Log : list (action H); ps_Defers : list (action H); ps_Db : S }.
Arguments mkProcess {S H} _ _ _.
Arguments ps_Log {S H} _.
Arguments ps_Defers {S H} _.
Arguments ps_Db {S H} _.

Definition Proc (S H A : Type) : Type := ProcState S H -> result run_error A * ProcState S H.

#[export] Instance Proc_ret {S H} : MRet (Proc S H) := fun A a s => (Ok a, s).
#[export] Instance Proc_bind {S H} : MBind (Proc S H) := fun A B f m s =>
  match m s with (Ok a, s') => f a s' | (Err e, s') => (Err e, s') end.

Section Programs.
Context {S H : Type} `{Host H}.

Definition emit (a : action H) : Proc S H unit := fun s =>
  (Ok tt, mkProcess (ps_Log s ++ [a]) (ps_Defers s) (ps_Db s)).

(** A call that may fail; what it answers. *)
Definition ask (a : action H) : Proc S H bool := fun s =>
  match reply (ps_Log s) a with
  | None => (Err Unavailable, s)
  | Some b => (Ok b, mkProcess (ps_Log s ++ [a]) (ps_Defers s) (ps_Db s))
  end.

Definition perform (a : action H) : Proc S H unit := _ ← ask a; mret tt.

Definition defer (a : action H) : Proc S H unit := fun s =>
  (Ok tt, mkProcess (ps_Log s) (a :: ps_Defers s) (ps_Db s)).

(** A resource and the deferred call that closes it; [acquire] cannot fail. *)
Definition opening (r : resource) : Proc S H unit := _ ← perform (Open r); defer (Close r).
Definition acquire (r : resource) : Proc S H unit := _ ← emit (Open r); defer (Close r).

Definition refuse {A} (m : result start_error A) : Proc S H A := fun s =>
  match m with Ok a => (Ok a, s) | Err e => (Err (Refused e), s) end.

(** A call of the service on its tables. *)
Definition on_db {A} (f : S -> result error A * S) : Proc S H A := fun s =>
  match f (ps_Db s) with
  | (Ok a, db) => (Ok a, mkProcess (ps_Log s) (ps_Defers s) db)
  | (Err e, db) => (Err (Refused (StartFailed e)), mkProcess (ps_Log s) (ps_Defers s) db)
  end.

(** The body of a function: its deferred calls run when it is left, last
    deferred first. *)
Definition frame {A} (m : Proc S H A) : Proc S H A := fun s =>
  let '(res, s') := m (mkProcess (ps_Log s) [] (ps_Db s)) in
  (res, mkProcess (ps_Log s' ++ ps_Defers s') (ps_Defers s) (ps_Db s')).

(** [if b { m }]. *)
Definition if_ (b : bool) (m : Proc S H unit) : Proc S H unit := if b then m else mret tt.

(** [Migrate] of ledger-core, webhooks and identity, over the pool. *)
Definition Migrate (schema : string) : Proc S H unit := frame (
  exists_ ← ask (SchemaExists schema);
  _ ← if_ (negb exists_) (perform (CreateSchema schema));
  _ ← acquire SqlDB;
  perform (ApplyMigrations schema)).

(** [Migrate] of reconciliation, over a connection of its own. *)
Definition recon_Migrate (schema : string) : Proc S H unit := frame (
  _ ← opening SqlDB;
  exists_ ← ask (SchemaExists schema);
  _ ← if_ (negb exists_) (perform (CreateSchema schema));
  perform (ApplyMigrations schema)).

(** Listening until something ends it. *)
Definition serve (closed : closing) (addr : string) (h : H) : Proc S H unit :=
  _ ← emit (Listen addr h);
  let broken : Proc S H unit := fun s => (Err ServeFailed, s) in
  match ended, closed with
  | Signalled, _ | ServerClosed, ClosedWaits => perform Shutdown
  | ServerClosed, ClosedReturns => mret tt
  | ServerClosed, ClosedFails | ListenFailed, _ => broken
  end.

(** ** Background set-up

    [if err != nil { nc.Close() }] after a connection was opened. *)
Definition or_close (r : resource) (m : Proc S H unit) : Proc S H unit := fun s =>
  match m s with
  | (Err e, s') => (Err e, mkProcess (ps_Log s' ++ [Close r]) (ps_Defers s') (ps_Db s'))
  | done => done
  end.

Fixpoint subscribe (specs : list consumer) : Proc S H unit :=
  match specs with
  | [] => mret tt
  | c :: specs => _ ← perform (Open (Subscription (cs_Durable c))); subscribe specs
  end.

(** [Consumer.setup] of the fan-out consumer. *)
Definition fanout_setup (url : string) : Proc S H unit :=
  _ ← perform (Open (Conn url "webhooks"));
  or_close (Conn url "webhooks") (
    _ ← perform EnsureStream;
    _ ← perform JetStreamOf;
    subscribe subscriptionSpecs).

(** One round of the loop that sets the purge consumer up. *)
Definition purge_setup (url : string) : Proc S H unit :=
  _ ← perform (Open (Conn url "webhooks-purge"));
  or_close (Conn url "webhooks-purge") (subscribe [tenant_expired_consumer wh_Durable]).
End Programs.

(** The loops around a set-up: an attempt every five seconds, each with the
    outside of its moment, until one succeeds or the process is cancelled. *)
Fixpoint retrying {S H} (attempts : list (Host H)) (setup : Host H -> Proc S H unit) (s : ProcState S H)
  : bool * ProcState S H :=
  match attempts with
  | [] => (false, s)
  | host :: attempts =>
      match setup host s with
      | (Ok _, s') => (true, s')
      | (Err _, s') => retrying attempts setup s'
      end
  end.

(** ** The services *)

Definition configured (url : string) : bool := negb (bool_decide (url = "")).

Section Services.
Context `{Supply, Render, Parsers, Unmarshal, ReconTexts, Jwt, Sha256, Ed25519, Aead, MailParse, Jsonb, UrlParse}.

(** The handler of the ledger service over a store, reading what changes from
    request to request. *)
Definition ledger_handler (S : Type) : Type :=
  list uuid -> time -> (string -> option bytes) -> bool -> string -> handler S.

(** [run] of ledger-core. *)
Definition ledger_start {D S} `{LedgerService.Store S, Host (ledger_handler S)} (env : environment)
  : Proc D (ledger_handler S) (string * ledger_handler S) :=
  cfg ← refuse (loadConfig env);
  _ ← acquire Telemetry;
  _ ← opening (Pool (cfg_DatabaseURL cfg) "ledger");
  _ ← if_ (cfg_AutoMigrate cfg) (Migrate "ledger");
  _ ← if_ (configured (cfg_NATSURL cfg)) (
    _ ← opening (Conn (cfg_NATSURL cfg) "ledger-core");
    _ ← perform EnsureStream;
    _ ← emit (Go OutboxPoller);
    opening (Subscription PurgeDurable));
  mret (cfg_HTTPAddr cfg, fun ids now => NewRouter ids now (cfg_AuthDisabled cfg)).

Definition ledger_run {D S} `{LedgerService.Store S, Host (ledger_handler S)} (env : environment)
  : Proc D (ledger_handler S) unit :=
  frame (_ ← acquire Signals; '(addr, h) ← ledger_start env; serve ClosedReturns addr h).

Definition recon_handler : Type := time -> (string -> option bytes) -> bool -> string -> handler RSt.

(** [run] of reconciliation. *)
Definition recon_start {D} `{Host recon_handler} (env : environment) : Proc D recon_handler (string * recon_handler) :=
  cfg ← refuse (recon_Load env);
  _ ← acquire Telemetry;
  _ ← if_ (cfg_AutoMigrate cfg) (recon_Migrate "recon");
  _ ← opening (Pool (cfg_DatabaseURL cfg) "recon");
  _ ← if_ (configured (cfg_NATSURL cfg)) (
    _ ← opening (Conn (cfg_NATSURL cfg) "reconciliation");
    _ ← perform EnsureStream;
    _ ← opening (Subscription DurableName);
    _ ← opening (Subscription recon_Durable);
    emit (Go OutboxPoller));
  mret (cfg_HTTPAddr cfg, recon_NewHandler (cfg_AuthDisabled cfg)).

Definition recon_run {D} `{Host recon_handler} (env : environment) : Proc D recon_handler unit :=
  frame (_ ← acquire Signals; '(addr, h) ← recon_start env; serve ClosedWaits addr h).

Definition wh_handler : Type :=
  (time -> (string -> option bytes) -> bool -> string -> list Z -> option bytes -> handler WSt) * option bytes.

(** [run] of webhooks; the set-up of its two consumers runs in the background. *)
Definition wh_start `{Host wh_handler} (env : environment) (nonces : uuid -> option bytes * option bytes)
  : Proc WSt wh_handler (string * wh_handler) :=
  cfg ← refuse (wh_Load env);
  _ ← acquire Telemetry;
  _ ← opening (Pool (cfg_DatabaseURL cfg) "webhooks");
  _ ← if_ (cfg_AutoMigrate cfg) (Migrate "webhooks");
  cipher ← refuse (master_cipher (cfg_MasterKey cfg));
  _ ← on_db (commit (ReencryptPlaintextSecrets cipher nonces));
  _ ← acquire (FanOut (cfg_NATSURL cfg));
  _ ← emit (Go (PurgeSetup (cfg_NATSURL cfg)));
  _ ← emit (Go DispatcherRun);
  _ ← emit (Go PurgePreviousSecrets);
  mret (cfg_HTTPAddr cfg, (wh_NewHandler cipher (cfg_AuthDisabled cfg), cipher)).

Definition wh_run `{Host wh_handler} (env : environment) (nonces : uuid -> option bytes * option bytes)
  : Proc WSt wh_handler unit :=
  frame (_ ← acquire Signals; '(addr, h) ← wh_start env nonces; serve ClosedReturns addr h).

(** The checks of identity's configuration. *)
Definition id_config (ParseDuration : string -> option Z) (env : environment) : result start_error config :=
  cfg ← id_loadConfig ParseDuration env;
  _ ← reject (bool_decide (databaseURL cfg = "")) DatabaseURLRequired;
  _ ← hardeningChecks cfg;
  Ok cfg.

(** [run] of identity. *)
Definition id_start `{Host Server} (ParseDuration : string -> option Z) (env : environment)
  (nonce : uuid -> option bytes) (draw : nat) : Proc ISt Server (string * Server) :=
  cfg ← refuse (id_config ParseDuration env);
  _ ← acquire Telemetry;
  _ ← opening (Pool (databaseURL cfg) "identity");
  _ ← if_ (autoMigrate cfg) (Migrate "identity");
  cipher ← refuse (master_cipher (masterKey cfg));
  signingKey ← on_db (EnsureSigningKey cipher nonce draw);
  issuer ← refuse (map_err StartFailed (NewTokenIssuer signingKey TokenTTL));
  let public := bool_decide (env_ cfg = "sandbox-public") in
  _ ← if_ public (emit (Go (RunSweeper (sweepInterval cfg))));
  _ ← if_ (configured (natsURL cfg)) (
    _ ← opening (Conn (natsURL cfg) "identity");
    _ ← perform EnsureStream;
    emit (Go OutboxPoller));
  mret (httpAddr cfg, mkServer (adminToken cfg) issuer
                        (if public then Some (NewSandboxService (signupsPerDay cfg)) else None)).

Definition id_run `{Host Server} (ParseDuration : string -> option Z) (env : environment)
  (nonce : uuid -> option bytes) (draw : nat) : Proc ISt Server unit :=
  frame (_ ← acquire Signals; '(addr, h) ← id_start ParseDuration env nonce draw;
         serve ClosedFails addr h).
End Services.

(** ** What is open, what runs *)

(** The resources open after a log, innermost first; nothing when one is closed
    out of order. *)
Fixpoint open_after {H} (stack : list resource) (log : list (action H)) : option (list resource) :=
  match log with
  | [] => Some stack
  | Open r :: log => open_after (r :: stack) log
  | Close r :: log =>
      match stack with
      | top :: stack => if decide (top = r) then open_after stack log else None
      | [] => None
      end
  | _ :: log => open_after stack log
  end.

Definition workers {H} (log : list (action H)) : list worker :=
  omap (fun a => match a with Go w => Some w | _ => None end) log.
Definition listens {H} (log : list (action H)) : list (string * H) :=
  omap (fun a => match a with Listen addr h => Some (addr, h) | _ => None end) log.

(** Migrations applied, streams ensured. *)
Inductive milestone : Type := Migrated (schema : string) | StreamReady.
Definition milestones {H} (log : list (action H)) : list milestone :=
  omap (fun a => match a with ApplyMigrations s => Some (Migrated s) | EnsureStream => Some StreamReady | _ => None end)
    log.

Section Logs.
Context {H : Type}.
Implicit Types log : list (action H).

Lemma open_after_app stack log log' :
  open_after stack (log ++ log') = (s ← open_after stack log; open_after s log').
Proof.
  revert stack. induction log as [|a log IH]; intros stack; [done|].
  destruct a; cbn; try apply IH. destruct stack as [|top stack]; [done|]. case_decide; [apply IH|done].
Qed.

Lemma open_after_close stack base : open_after (H := H) (stack ++ base) (map Close stack) = Some base.
Proof. induction stack as [|r stack IH]; [done|]. cbn. by rewrite decide_True. Qed.

Lemma workers_app log log' : workers (log ++ log') = workers log ++ workers log'.
Proof. apply omap_app. Qed.
Lemma listens_app log log' : listens (log ++ log') = listens log ++ listens log'.
Proof. apply omap_app. Qed.
Lemma milestones_app log log' : milestones (log ++ log') = milestones log ++ milestones log'.
Proof. apply omap_app. Qed.
Lemma listens_close (l : list resource) : listens (H := H) (map Close l) = [].
Proof. by induction l. Qed.
Lemma workers_close (l : list resource) : workers (H := H) (map Close l) = [].
Proof. by induction l. Qed.
Lemma milestones_close (l : list resource) : milestones (H := H) (map Close l) = [].
Proof. by induction l. Qed.
End Logs.

(** ** Programs before the listener

    [standing base own ws ms] is a process that has not listened yet: over the
    resources [base] of its callers it has opened [own], which its deferred
    calls will close, runs [ws] and has reached [ms]. *)

Record standing {S H} (base own : list resource) (ws : list worker) (ms : list milestone) (s : ProcState S H) : Prop := {
  st_open : open_after [] (ps_Log s) = Some (own ++ base);
  st_defers : ps_Defers s = map Close own;
  st_workers : workers (ps_Log s) = ws;
  st_milestones : milestones (ps_Log s) = ms;
  st_silent : listens (ps_Log s) = [] }.

Section Triples.
Context {S H : Type} `{Host H}.
Implicit Types s : ProcState S H.

(** Why a program stops early: the outside refused an action, or the service
    refused with an error that [R] explains. *)
Definition stopped (R : start_error -> S -> Prop) (e : run_error) (db : S) : Prop :=
  match e with
  | Unavailable => exists log a, reply log a = None
  | Refused e => R e db
  | ServeFailed => False
  end.

(** From [P], [m] ends in [Q], or stops early with everything it opened
    deferred. *)
Definition triple {A} (R : start_error -> S -> Prop) (base : list resource) (P : ProcState S H -> Prop)
  (m : Proc S H A) (Q : A -> ProcState S H -> Prop) : Prop :=
  forall s, P s ->
    match m s with
    | (Ok a, s') => Q a s'
    | (Err e, s') => stopped R e (ps_Db s') /\ exists own ws ms, standing base own ws ms s'
    end.

Variable R : start_error -> S -> Prop.

Lemma triple_bind {A B} base P (m : Proc S H A) Q (f : A -> Proc S H B) Q' :
  triple R base P m Q -> (forall a, triple R base (Q a) (f a) Q') -> triple R base P (m ≫= f) Q'.
Proof.
  intros Hm Hf s Hs. specialize (Hm s Hs). unfold mbind, Proc_bind.
  destruct (m s) as [[a|e] s']; [by apply Hf|exact Hm].
Qed.

Lemma triple_ret {A} base (P : ProcState S H -> Prop) (a : A) (Q : A -> ProcState S H -> Prop) :
  (forall s, P s -> Q a s) -> triple R base P (mret a) Q.
Proof. intros HQ s Hs. by apply HQ. Qed.

(** The state of a start: what stands, and the tables. *)
Definition at_ (base own : list resource) (ws : list worker) (ms : list milestone) (db : S) (s : ProcState S H) : Prop :=
  standing base own ws ms s /\ ps_Db s = db.

(** An action that changes neither the open resources nor the listener. *)
Definition plain_action (a : action H) : Prop :=
  match a with Open _ | Close _ | Listen _ _ => False | _ => True end.

Lemma at_plain base own ws ms db s a :
  plain_action a -> at_ base own ws ms db s ->
  at_ base own (ws ++ workers [a]) (ms ++ milestones [a]) db (mkProcess (ps_Log s ++ [a]) (ps_Defers s) (ps_Db s)).
Proof.
  intros Ha [[Ho Hd Hw Hm Hl] Hdb]. split; [|done].
  split; cbn [ps_Log ps_Defers ps_Db]; rewrite ?open_after_app, ?workers_app, ?milestones_app, ?listens_app, ?Ho, ?Hw, ?Hm, ?Hl; try done.
  - by destruct a.
  - by destruct a.
Qed.

Lemma at_open base own ws ms db s r :
  at_ base own ws ms db s ->
  at_ base (r :: own) ws ms db (mkProcess (ps_Log s ++ [Open r]) (Close r :: ps_Defers s) (ps_Db s)).
Proof.
  intros [[Ho Hd Hw Hm Hl] Hdb]. split; [|done].
  split; cbn [ps_Log ps_Defers ps_Db]; rewrite ?open_after_app, ?workers_app, ?milestones_app, ?listens_app, ?Ho, ?Hd, ?Hw, ?Hm, ?Hl, ?app_nil_r;
    done.
Qed.

Lemma triple_ask base own ws ms db a :
  plain_action a ->
  triple R base (at_ base own ws ms db) (ask a) (fun _ => at_ base own (ws ++ workers [a]) (ms ++ milestones [a]) db).
Proof.
  intros Ha s Hs. unfold ask. destruct (reply (ps_Log s) a) eqn:E; [by apply at_plain|].
  split; [by exists (ps_Log s), a|]. destruct Hs. eauto.
Qed.

Lemma triple_perform base own ws ms db a :
  plain_action a ->
  triple R base (at_ base own ws ms db) (perform a) (fun _ => at_ base own (ws ++ workers [a]) (ms ++ milestones [a]) db).
Proof. intros Ha. eapply triple_bind; [by apply triple_ask|]. intros b. by apply triple_ret. Qed.

Lemma triple_go base own ws ms db w :
  triple R base (at_ base own ws ms db) (emit (Go w)) (fun _ => at_ base own (ws ++ [w]) ms db).
Proof. intros s Hs. cbn. rewrite <- (app_nil_r ms). by apply (at_plain _ _ _ _ _ _ (Go w)). Qed.

Lemma triple_opening base own ws ms db r :
  triple R base (at_ base own ws ms db) (opening r) (fun _ => at_ base (r :: own) ws ms db).
Proof.
  intros s Hs. unfold opening, perform, ask, mbind, Proc_bind. destruct (reply (ps_Log s) (Open r)) eqn:E.
  - exact (at_open _ _ _ _ _ _ _ Hs).
  - split; [by exists (ps_Log s), (Open r)|]. destruct Hs. eauto.
Qed.

Lemma triple_acquire base own ws ms db r :
  triple R base (at_ base own ws ms db) (acquire r) (fun _ => at_ base (r :: own) ws ms db).
Proof. intros s Hs. exact (at_open _ _ _ _ _ _ _ Hs). Qed.

Lemma triple_refuse {A} base own ws ms db (m : result start_error A) :
  (forall e, m = Err e -> R e db) ->
  triple R base (at_ base own ws ms db) (refuse m) (fun a s => m = Ok a /\ at_ base own ws ms db s).
Proof.
  intros HR s Hs. unfold refuse. destruct m as [a|e]; [done|]. destruct Hs as [? ->].
  split; [by apply HR|eauto].
Qed.

Lemma triple_on_db {A} base own ws ms db (f : S -> result error A * S) :
  (forall e db', f db = (Err e, db') -> R (StartFailed e) db') ->
  triple R base (at_ base own ws ms db) (on_db f)
    (fun a s => exists db', f db = (Ok a, db') /\ at_ base own ws ms db' s).
Proof.
  intros HR s [[Ho Hd Hw Hm Hl] Hdb]. unfold on_db. rewrite Hdb. destruct (f db) as [[a|e] db'] eqn:E.
  - exists db'. by split.
  - split; [by apply HR|]. exists own, ws, ms. by split.
Qed.

Lemma triple_if base own ws ms db (b : bool) m own' ws' ms' :
  (b = true -> triple R base (at_ base own ws ms db) m (fun _ => at_ base own' ws' ms' db)) ->
  triple R base (at_ base own ws ms db) (if_ b m)
    (fun _ => at_ base (if b then own' else own) (if b then ws' else ws) (if b then ms' else ms) db).
Proof. intros Hm. destruct b; [by apply Hm|by apply triple_ret]. Qed.

(** What is known before a step. *)
Lemma triple_pure {A} base (K : Prop) P (m : Proc S H A) Q :
  (K -> triple R base P m Q) -> triple R base (fun s => K /\ P s) m Q.
Proof. intros Hm s [HK HP]. by apply Hm. Qed.

Lemma triple_exists {A X} base P (m : Proc S H A) Q :
  (forall x : X, triple R base (P x) m Q) -> triple R base (fun s => exists x, P x s) m Q.
Proof. intros Hm s [x Hx]. by apply (Hm x). Qed.

(** A called function leaves nothing open. *)
Lemma triple_frame base own ws ms db (m : Proc S H unit) ws' ms' :
  triple R (own ++ base) (at_ (own ++ base) [] ws ms db) m (fun _ s => exists own', at_ (own ++ base) own' ws' ms' db s) ->
  triple R base (at_ base own ws ms db) (frame m) (fun _ => at_ base own ws' ms' db).
Proof.
  intros Hm s [[Ho Hd Hw Hms Hl] Hdb]. unfold frame.
  assert (Hs : at_ (own ++ base) [] ws ms db (mkProcess (ps_Log s) [] (ps_Db s))) by (by repeat split).
  specialize (Hm _ Hs). destruct (m _) as [[[]|e] s'].
  - destruct Hm as (own' & [Ho' Hd' Hw' Hm' Hl'] & Hdb'). split; [|done].
    split; cbn [ps_Log ps_Defers ps_Db]; rewrite ?Hd', ?open_after_app, ?Ho', ?workers_app, ?milestones_app, ?listens_app, ?workers_close,
      ?milestones_close, ?listens_close, ?app_nil_r; cbn; rewrite ?open_after_close; done.
  - destruct Hm as (Hr & own' & ws1 & ms1 & [Ho' Hd' Hw' Hm' Hl']). split; [done|]. exists own, ws1, ms1.
    split; cbn [ps_Log ps_Defers ps_Db]; rewrite ?Hd', ?open_after_app, ?Ho', ?workers_app, ?milestones_app, ?listens_app, ?workers_close,
      ?milestones_close, ?listens_close, ?app_nil_r; cbn; rewrite ?open_after_close; done.
Qed.
End Triples.

(** ** The life of a process *)

Section Life.
Context {S H : Type} `{Host H}.

(** How the wait ended, and what [run] did and returned then. *)
Definition left_by (closed : closing) (tail : list (action H)) (res : result run_error unit) : Prop :=
  match ended, closed with
  | Signalled, _ | ServerClosed, ClosedWaits =>
      (tail = [Shutdown] /\ res = Ok tt) \/
      (tail = [] /\ res = Err Unavailable /\ exists log, reply log (H := H) Shutdown = None)
  | ServerClosed, ClosedReturns => tail = [] /\ res = Ok tt
  | ServerClosed, ClosedFails | ListenFailed, _ => tail = [] /\ res = Err ServeFailed
  end.

(** A process that ends early closed everything it opened and never listened.
    One that listens does so once, with everything in [own] open and [ws]
    running, which [promise] describes; and when it stops it closes what is
    open, last opened first, and starts nothing. *)
Definition lifecycle (R : start_error -> S -> Prop)
  (promise : string -> H -> S -> list resource -> list worker -> list milestone -> Prop) (closed : closing)
  (out : result run_error unit * ProcState S H) : Prop :=
  let '(res, s) := out in
  (listens (ps_Log s) = [] /\ open_after [] (ps_Log s) = Some [] /\
   exists e, res = Err e /\ stopped R e (ps_Db s)) \/
  (exists addr h before tail own,
     ps_Log s = before ++ Listen addr h :: tail ++ map Close (own ++ [Signals]) /\
     listens before = [] /\ open_after [] before = Some (own ++ [Signals]) /\
     promise addr h (ps_Db s) own (workers before) (milestones before) /\ left_by closed tail res).

Definition started (promise : string -> H -> S -> list resource -> list worker -> list milestone -> Prop)
  (x : string * H) (s : ProcState S H) : Prop :=
  exists own ws ms db, at_ [] (own ++ [Signals]) ws ms db s /\ promise x.1 x.2 db own ws ms.

Lemma serve_left closed addr h (s : ProcState S H) :
  let '(res, s') := serve closed addr h s in
  exists tail, s' = mkProcess (ps_Log s ++ Listen addr h :: tail) (ps_Defers s) (ps_Db s) /\ left_by closed tail res.
Proof.
  unfold serve, left_by, perform, ask, emit, mbind, mret, Proc_bind, Proc_ret.
  destruct ended, closed; cbn [ps_Log ps_Defers ps_Db];
    try (destruct (reply _ _) eqn:E; [exists [Shutdown]|exists []]; split; cbn; rewrite <- ?app_assoc; eauto 6; fail);
    exists []; split; eauto.
Qed.

Lemma run_lifecycle R promise closed start st :
  triple R [] (at_ [] [Signals] [] [] st) start (started promise) ->
  lifecycle R promise closed
    (frame (_ ← acquire Signals; '(addr, h) ← start; serve closed addr h) (mkProcess [] [] st)).
Proof.
  intros Ht. specialize (Ht (mkProcess [Open Signals] [Close Signals] st)).
  unfold frame, mbind, Proc_bind. cbn [acquire emit defer ps_Log ps_Defers ps_Db app mbind Proc_bind].
  change (acquire Signals (mkProcess [] [] st)) with (Ok (E := run_error) tt, mkProcess [Open (H := H) Signals] [Close Signals] st).
  cbn beta iota. destruct (start _) as [[[addr h]|e] s'].
  - destruct Ht as (own & ws & ms & db & [[Ho Hd Hw Hm Hl] Hdb] & Hp); [by repeat split|].
    pose proof (serve_left closed addr h s') as Hs. destruct (serve closed addr h s') as [res s2].
    destruct Hs as (tail & -> & Hleft). right. cbn [ps_Log ps_Defers ps_Db].
    exists addr, h, (ps_Log s'), tail, own. rewrite Hd, Hw, Hm, Hdb, <- app_assoc. cbn. rewrite app_nil_r in Ho. auto.
  - destruct Ht as (Hr & own & ws & ms & [Ho Hd Hw Hm Hl]); [by repeat split|]. left. cbn [ps_Log ps_Defers ps_Db].
    rewrite Hd, listens_app, Hl, listens_close, open_after_app, Ho. cbn. rewrite open_after_close. eauto.
Qed.

(** A refusal before anything else. *)
Lemma run_refused {A} closed (m : result start_error A) (f : A -> Proc S H (string * H)) e st :
  m = Err e ->
  frame (_ ← acquire Signals; '(addr, h) ← (a ← refuse m; f a); serve closed addr h) (mkProcess [] [] st)
  = (Err (Refused e), mkProcess [Open Signals; Close Signals] [] st).
Proof. by intros ->. Qed.
End Life.

(** ** The starts *)

Section Starts.
Context {S H : Type} `{Host H}.
Variable R : start_error -> S -> Prop.

Lemma triple_quiet base own ws ms db a :
  plain_action a -> workers [a] = [] -> milestones [a] = [] ->
  triple R base (at_ base own ws ms db) (ask a) (fun _ => at_ base own ws ms db).
Proof.
  intros Ha Ew Em. pose proof (triple_ask R base own ws ms db a Ha) as Ht. by rewrite Ew, Em, !app_nil_r in Ht.
Qed.

Lemma triple_milestone base own ws ms db a m :
  plain_action a -> workers [a] = [] -> milestones [a] = [m] ->
  triple R base (at_ base own ws ms db) (perform a) (fun _ => at_ base own ws (ms ++ [m]) db).
Proof. intros Ha Ew Em. pose proof (triple_perform R base own ws ms db a Ha) as Ht. by rewrite Ew, Em, app_nil_r in Ht. Qed.

Lemma triple_schema base own ws ms db schema b :
  triple R base (at_ base own ws ms db) (if_ (negb b) (perform (CreateSchema schema))) (fun _ => at_ base own ws ms db).
Proof.
  destruct b; [by apply triple_ret|]. eapply triple_bind; [by apply triple_quiet|]. intros ?. by apply triple_ret.
Qed.

Lemma triple_Migrate base own ws ms db schema :
  triple R base (at_ base own ws ms db) (Migrate schema) (fun _ => at_ base own ws (ms ++ [Migrated schema]) db).
Proof.
  apply triple_frame. eapply triple_bind; [by apply triple_quiet|]. intros b.
  eapply triple_bind; [apply triple_schema|]. intros ?.
  eapply triple_bind; [apply triple_acquire|]. intros _ s Hs.
  pose proof (triple_milestone (own ++ base) [SqlDB] ws ms db (ApplyMigrations schema) _ I eq_refl eq_refl s Hs) as Ht.
  destruct (perform _ s) as [[]]; eauto.
Qed.

Lemma triple_recon_Migrate base own ws ms db schema :
  triple R base (at_ base own ws ms db) (recon_Migrate schema) (fun _ => at_ base own ws (ms ++ [Migrated schema]) db).
Proof.
  apply triple_frame. eapply triple_bind; [apply triple_opening|]. intros ?.
  eapply triple_bind; [by apply triple_quiet|]. intros b.
  eapply triple_bind; [apply triple_schema|]. intros _ s Hs.
  pose proof (triple_milestone (own ++ base) [SqlDB] ws ms db (ApplyMigrations schema) _ I eq_refl eq_refl s Hs) as Ht.
  destruct (perform _ s) as [[]]; eauto.
Qed.

Lemma triple_stream base own ws ms db :
  triple R base (at_ base own ws ms db) (perform EnsureStream) (fun _ => at_ base own ws (ms ++ [StreamReady]) db).
Proof. by apply triple_milestone. Qed.
End Starts.

Section Services.
Context `{Supply, Render, Parsers, Unmarshal, ReconTexts, Jwt, Sha256, Ed25519, Aead, MailParse, Jsonb, UrlParse}.

(** What a service opens and starts when its event stream is configured. *)
Definition when {A} (b : bool) (l : list A) : list A := if b then l else [].

(** What the ledger promises while it listens. *)
Definition ledger_promise {S} `{LedgerService.Store S} {D} (env : environment) (st : D)
  (addr : string) (h : ledger_handler S) (db : D) (own : list resource) (ws : list worker) (ms : list milestone) : Prop :=
  exists cfg, loadConfig env = Ok cfg /\ addr = cfg_HTTPAddr cfg /\ ledger_serve env = Ok h /\ db = st /\
    let nats := configured (cfg_NATSURL cfg) in
    own = when nats [Subscription PurgeDurable; Conn (cfg_NATSURL cfg) "ledger-core"] ++
          [Pool (cfg_DatabaseURL cfg) "ledger"; Telemetry] /\
    ws = when nats [OutboxPoller] /\
    ms = when (cfg_AutoMigrate cfg) [Migrated "ledger"] ++ when nats [StreamReady].

(** The steps of a start, each with its lemma. *)
Ltac step := eapply triple_bind; [first [apply triple_acquire|apply triple_opening|apply triple_go|apply triple_stream]|intros ?].
Ltac optional t := eapply triple_bind; [apply triple_if; intros _; t|intros ?].

Lemma ledger_start_ok {S} `{LedgerService.Store S, Host (ledger_handler S)} {D} (env : environment) (st : D) :
  triple (fun e db => ledger_serve (S := S) env = Err e /\ db = st) [] (at_ [] [Signals] [] [] st) (ledger_start env)
    (started (ledger_promise env st)).
Proof.
  unfold ledger_start, ledger_promise, ledger_serve. eapply triple_bind.
  { apply triple_refuse. intros e ->. done. }
  intros cfg. apply triple_pure. intros Hcfg. do 2 step. optional ltac:(apply triple_Migrate).
  optional ltac:(do 3 step; apply triple_opening).
  apply triple_ret. intros s Hs.
  exists (when (configured (cfg_NATSURL cfg)) [Subscription PurgeDurable; Conn (cfg_NATSURL cfg) "ledger-core"] ++
          [Pool (cfg_DatabaseURL cfg) "ledger"; Telemetry]), (when (configured (cfg_NATSURL cfg)) [OutboxPoller]),
    (when (cfg_AutoMigrate cfg) [Migrated "ledger"] ++ when (configured (cfg_NATSURL cfg)) [StreamReady]), st.
  split; [by destruct (configured _), (cfg_AutoMigrate cfg); exact Hs|]. exists cfg. by rewrite Hcfg.
Qed.

(** What reconciliation promises while it listens. *)
Definition recon_promise {D} (env : environment) (st : D)
  (addr : string) (h : recon_handler) (db : D) (own : list resource) (ws : list worker) (ms : list milestone) : Prop :=
  exists cfg, recon_Load env = Ok cfg /\ addr = cfg_HTTPAddr cfg /\ recon_serve env = Ok h /\ db = st /\
    let nats := configured (cfg_NATSURL cfg) in
    own = when nats [Subscription recon_Durable; Subscription DurableName; Conn (cfg_NATSURL cfg) "reconciliation"] ++
          [Pool (cfg_DatabaseURL cfg) "recon"; Telemetry] /\
    ws = when nats [OutboxPoller] /\
    ms = when (cfg_AutoMigrate cfg) [Migrated "recon"] ++ when nats [StreamReady].

Lemma recon_start_ok `{Host recon_handler} {D} (env : environment) (st : D) :
  triple (fun e db => recon_serve env = Err e /\ db = st) [] (at_ [] [Signals] [] [] st) (recon_start env)
    (started (recon_promise env st)).
Proof.
  unfold recon_start, recon_promise, recon_serve. eapply triple_bind.
  { apply triple_refuse. intros e ->. done. }
  intros cfg. apply triple_pure. intros Hcfg. step. optional ltac:(apply triple_recon_Migrate). step.
  optional ltac:(do 4 step; apply triple_go).
  apply triple_ret. intros s Hs.
  exists (when (configured (cfg_NATSURL cfg)) [Subscription recon_Durable; Subscription DurableName;
            Conn (cfg_NATSURL cfg) "reconciliation"] ++ [Pool (cfg_DatabaseURL cfg) "recon"; Telemetry]).
  exists (when (configured (cfg_NATSURL cfg)) [OutboxPoller]),
    (when (cfg_AutoMigrate cfg) [Migrated "recon"] ++ when (configured (cfg_NATSURL cfg)) [StreamReady]), st.
  split; [by destruct (configured _), (cfg_AutoMigrate cfg); exact Hs|]. exists cfg. by rewrite Hcfg.
Qed.

(** What webhooks promises while it listens. *)
Definition wh_promise (env : environment) (nonces : uuid -> option bytes * option bytes) (st : WSt)
  (addr : string) (h : wh_handler) (db : WSt) (own : list resource) (ws : list worker) (ms : list milestone) : Prop :=
  exists cfg, wh_Load env = Ok cfg /\ addr = cfg_HTTPAddr cfg /\ wh_serve env nonces st = (Ok h, db) /\
    own = [FanOut (cfg_NATSURL cfg); Pool (cfg_DatabaseURL cfg) "webhooks"; Telemetry] /\
    ws = [PurgeSetup (cfg_NATSURL cfg); DispatcherRun; PurgePreviousSecrets] /\
    ms = when (cfg_AutoMigrate cfg) [Migrated "webhooks"].

Lemma wh_start_ok `{Host wh_handler} (env : environment) (nonces : uuid -> option bytes * option bytes) (st : WSt) :
  triple (fun e db => wh_serve env nonces st = (Err e, db)) [] (at_ [] [Signals] [] [] st) (wh_start env nonces)
    (started (wh_promise env nonces st)).
Proof.
  unfold wh_start, wh_promise, wh_serve. eapply triple_bind.
  { apply triple_refuse. intros e ->. done. }
  intros cfg. apply triple_pure. intros Hcfg. do 2 step. optional ltac:(apply triple_Migrate).
  eapply triple_bind.
  { apply triple_refuse. intros e He. rewrite Hcfg. cbn. by rewrite He. }
  intros cipher. apply triple_pure. intros Hc. eapply triple_bind.
  { apply triple_on_db. intros e db He. rewrite Hcfg. cbn. rewrite Hc. cbn. by rewrite He. }
  intros u. apply triple_exists. intros db. apply triple_pure. intros Hdb. do 4 step.
  apply triple_ret. intros s Hs.
  exists [FanOut (cfg_NATSURL cfg); Pool (cfg_DatabaseURL cfg) "webhooks"; Telemetry].
  exists [PurgeSetup (cfg_NATSURL cfg); DispatcherRun; PurgePreviousSecrets],
    (when (cfg_AutoMigrate cfg) [Migrated "webhooks"]), db.
  split; [by destruct (cfg_AutoMigrate cfg); exact Hs|]. exists cfg. rewrite Hcfg. cbn. rewrite Hc. cbn. by rewrite Hdb.
Qed.

(** What identity promises while it listens. *)
Definition id_promise (ParseDuration : string -> option Z) (env : environment) (nonce : uuid -> option bytes)
  (draw : nat) (st : ISt)
  (addr : string) (h : Server) (db : ISt) (own : list resource) (ws : list worker) (ms : list milestone) : Prop :=
  exists cfg, id_config ParseDuration env = Ok cfg /\ addr = httpAddr cfg /\
    id_serve ParseDuration env nonce draw st = (Ok h, db) /\
    let nats := configured (natsURL cfg) in
    own = when nats [Conn (natsURL cfg) "identity"] ++ [Pool (databaseURL cfg) "identity"; Telemetry] /\
    ws = when (bool_decide (env_ cfg = "sandbox-public")) [RunSweeper (sweepInterval cfg)] ++ when nats [OutboxPoller] /\
    ms = when (autoMigrate cfg) [Migrated "identity"] ++ when nats [StreamReady].

(** [id_serve] after its configuration. *)
Lemma id_serve_config ParseDuration env nonce draw st :
  id_serve ParseDuration env nonce draw st =
    match id_config ParseDuration env with
    | Err e => (Err e, st)
    | Ok cfg =>
        match master_cipher (masterKey cfg) with
        | Err e => (Err e, st)
        | Ok cipher =>
            match EnsureSigningKey cipher nonce draw st with
            | (Err e, st) => (Err (StartFailed e), st)
            | (Ok signingKey, st) =>
                match NewTokenIssuer signingKey TokenTTL with
                | Err e => (Err (StartFailed e), st)
                | Ok issuer =>
                    (Ok (mkServer (adminToken cfg) issuer
                       (if decide (env_ cfg = "sandbox-public") then Some (NewSandboxService (signupsPerDay cfg))
                        else None)), st)
                end
            end
        end
    end.
Proof.
  unfold id_serve, id_config. destruct (id_loadConfig ParseDuration env) as [cfg|]; [|done]. cbn.
  destruct (reject _ _); [|done]. cbn. destruct (hardeningChecks cfg); [|done]. cbn.
  by destruct (master_cipher _).
Qed.

Lemma id_start_ok `{Host Server} ParseDuration (env : environment) (nonce : uuid -> option bytes) draw (st : ISt) :
  triple (fun e db => id_serve ParseDuration env nonce draw st = (Err e, db)) [] (at_ [] [Signals] [] [] st)
    (id_start ParseDuration env nonce draw) (started (id_promise ParseDuration env nonce draw st)).
Proof.
  unfold id_start, id_promise. rewrite id_serve_config. eapply triple_bind.
  { apply triple_refuse. intros e ->. done. }
  intros cfg. apply triple_pure. intros ->. do 2 step. optional ltac:(apply triple_Migrate).
  eapply triple_bind; [apply triple_refuse; by intros e ->|].
  intros cipher. apply triple_pure. intros ->. eapply triple_bind; [apply triple_on_db; by intros e db ->|].
  intros k. apply triple_exists. intros db. apply triple_pure. intros ->.
  eapply triple_bind; [apply triple_refuse; intros e; by destruct (NewTokenIssuer k TokenTTL) as [|e0]; [|intros [= <-]]|].
  intros issuer. apply triple_pure. intros Hi. destruct (NewTokenIssuer k TokenTTL) as [i|]; [injection Hi as ->|done].
  optional ltac:(apply triple_go). optional ltac:(do 2 step; apply triple_go).
  apply triple_ret. intros s Hs.
  exists (when (configured (natsURL cfg)) [Conn (natsURL cfg) "identity"] ++
          [Pool (databaseURL cfg) "identity"; Telemetry]),
    (when (bool_decide (env_ cfg = "sandbox-public")) [RunSweeper (sweepInterval cfg)] ++
     when (configured (natsURL cfg)) [OutboxPoller]),
    (when (autoMigrate cfg) [Migrated "identity"] ++ when (configured (natsURL cfg)) [StreamReady]), db.
  split; [by destruct (configured _), (autoMigrate cfg), (bool_decide _); exact Hs|].
  exists cfg. split_and!; try done. cbn [snd]. unfold bool_decide. by case_decide.
Qed.
End Services.

(** ** Background set-up *)

(** The connections a log leaves open. *)
Definition connections {H} (log : list (action H)) : list (string * string) :=
  fold_left (fun open a => match a with
                           | Open (Conn url name) => (url, name) :: open
                           | Close (Conn url name) => filter (fun c => c <> (url, name)) open
                           | _ => open
                           end) log [].

Section Background.
Context {S H : Type}.
Implicit Types s : ProcState S H.

(** A set-up opens its connection and takes [steps], or ends without a
    connection: none was opened, or it was closed after some of the steps. *)
Definition sets_up (url name : string) (steps : list (action H)) (setup : Host H -> Proc S H unit) : Prop :=
  forall host s,
    match setup host s with
    | (Ok _, s') => ps_Log s' = ps_Log s ++ Open (Conn url name) :: steps
    | (Err _, s') =>
        ps_Log s' = ps_Log s \/
        exists n, ps_Log s' = ps_Log s ++ Open (Conn url name) :: take n steps ++ [Close (Conn url name)]
    end.

Definition no_connection (a : action H) : Prop :=
  match a with Open (Conn _ _) | Close (Conn _ _) => False | _ => True end.

Lemma connections_app log log' :
  connections (H := H) (log ++ log') =
  fold_left (fun open a => match a with
                           | Open (Conn url name) => (url, name) :: open
                           | Close (Conn url name) => filter (fun c => c <> (url, name)) open
                           | _ => open
                           end) log' (connections log).
Proof. apply fold_left_app. Qed.

Lemma connections_quiet log steps : Forall no_connection steps -> connections (log ++ steps) = connections log.
Proof.
  intros Hs. rewrite connections_app. generalize (connections log).
  induction Hs as [|a steps Ha _ IH]; intros open; [done|]. cbn. destruct a as [[]|[]| | | | | | | |]; try done; apply IH.
Qed.

Lemma connections_opened log url name steps :
  Forall no_connection steps -> connections (log ++ Open (Conn url name) :: steps) = (url, name) :: connections log.
Proof.
  intros Hs. change (Open (Conn url name) :: steps) with ([Open (Conn url name)] ++ steps).
  rewrite app_assoc, connections_quiet by done. by rewrite connections_app.
Qed.

(** Whatever the attempts met, there is one connection when the last one
    succeeded, with the steps taken on it, and none otherwise. *)
Lemma retrying_ok url name steps setup attempts s :
  sets_up url name steps setup -> Forall no_connection steps -> connections (ps_Log s) = [] ->
  let '(ok, s') := retrying attempts setup s in
  if ok then exists before, ps_Log s' = before ++ Open (Conn url name) :: steps /\ connections before = []
  else connections (ps_Log s') = [].
Proof.
  intros Hset Hst. revert s. induction attempts as [|host attempts IH]; intros s Hc; cbn; [done|].
  specialize (Hset host s). destruct (setup host s) as [[u|e] s'].
  - by exists (ps_Log s).
  - apply IH. destruct Hset as [->|[n ->]]; [done|].
    rewrite app_comm_cons, app_assoc, connections_app. cbn.
    rewrite connections_opened by (apply Forall_take; done). by rewrite Hc, filter_cons, decide_False by tauto.
Qed.

Definition fanout_steps : list (action H) :=
  EnsureStream :: JetStreamOf :: map (fun c => Open (Subscription (cs_Durable c))) subscriptionSpecs.

(** Runs a set-up against every answer of the outside. *)
Ltac attempts :=
  repeat match goal with |- context [reply ?l ?a] => destruct (reply l a); cbn end.

Lemma fanout_sets_up url : sets_up url "webhooks" fanout_steps (fun host => fanout_setup url).
Proof.
  intros host s. unfold fanout_setup, or_close, subscriptionSpecs. cbn [subscribe]. unfold perform, ask, mbind, mret, Proc_bind, Proc_ret. cbn.
  attempts; rewrite <- ?app_assoc; cbn; try by left.
  - done.
  - right. by exists 3%nat.
  - right. by exists 2%nat.
  - right. by exists 1%nat.
  - right. by exists 0%nat.
Qed.

Lemma purge_sets_up url :
  sets_up url "webhooks-purge" [Open (Subscription wh_Durable)] (fun host => purge_setup url).
Proof.
  intros host s. unfold purge_setup, or_close. cbn [subscribe]. unfold perform, ask, mbind, mret, Proc_bind, Proc_ret. cbn.
  attempts; rewrite <- ?app_assoc; cbn; try by left.
  - done.
  - right. by exists 0%nat.
Qed.
End Background.

(** C15: the life of a process. A service that refuses its configuration has
    touched nothing but its signal handler. Whatever fails while it starts, what
    it had opened is closed, last opened first, and it never listened. When it
    listens, it does so once, its configuration was accepted, its migrations
    were applied if they are asked for, and it serves exactly what its
    configuration and tables select ([*_serve]); its pool and, where an event
    stream is configured, its connection and subscriptions are open, its stream
    is ensured and its background loops run. How it stops decides the result of
    [run]; then everything is closed in reverse order. The background set-up of
    the two consumers of webhooks, retried after every failure, holds one
    connection with all its subscriptions once it succeeded and none before. *)
Theorem process_lifecycle `{Supply, Render, Parsers, Unmarshal, ReconTexts, Jwt, Sha256, Ed25519, Aead, MailParse,
    Jsonb, UrlParse} (env : environment) :
  (forall S D (store : LedgerService.Store S) (host : Host (ledger_handler S)) (st : D),
     lifecycle (fun e db => ledger_serve (S := S) env = Err e /\ db = st) (ledger_promise env st) ClosedReturns
       (ledger_run env (mkProcess [] [] st)) /\
     forall e, loadConfig env = Err e ->
       ledger_run env (mkProcess [] [] st) = (Err (Refused e), mkProcess [Open Signals; Close Signals] [] st)) /\
  (forall D (host : Host recon_handler) (st : D),
     lifecycle (fun e db => recon_serve env = Err e /\ db = st) (recon_promise env st) ClosedWaits
       (recon_run env (mkProcess [] [] st)) /\
     forall e, recon_Load env = Err e ->
       recon_run env (mkProcess [] [] st) = (Err (Refused e), mkProcess [Open Signals; Close Signals] [] st)) /\
  (forall nonces (host : Host wh_handler) st,
     lifecycle (fun e db => wh_serve env nonces st = (Err e, db)) (wh_promise env nonces st) ClosedReturns
       (wh_run env nonces (mkProcess [] [] st)) /\
     forall e, wh_Load env = Err e ->
       wh_run env nonces (mkProcess [] [] st) = (Err (Refused e), mkProcess [Open Signals; Close Signals] [] st)) /\
  (forall ParseDuration nonce draw (host : Host Server) st,
     lifecycle (fun e db => id_serve ParseDuration env nonce draw st = (Err e, db))
       (id_promise ParseDuration env nonce draw st) ClosedFails
       (id_run ParseDuration env nonce draw (mkProcess [] [] st)) /\
     forall e, id_config ParseDuration env = Err e ->
       id_run ParseDuration env nonce draw (mkProcess [] [] st)
       = (Err (Refused e), mkProcess [Open Signals; Close Signals] [] st)) /\
  (forall url (attempts : list (Host unit)),
     (let '(ok, s) := retrying attempts (fun host => fanout_setup (S := unit) url) (mkProcess [] [] tt) in
      if ok then exists before, ps_Log s = before ++ Open (Conn url "webhooks") :: fanout_steps /\ connections before = []
      else connections (ps_Log s) = []) /\
     (let '(ok, s) := retrying attempts (fun host => purge_setup (S := unit) url) (mkProcess [] [] tt) in
      if ok then exists before, ps_Log s = before ++ [Open (Conn url "webhooks-purge"); Open (Subscription wh_Durable)] /\
                   connections before = []
      else connections (ps_Log s) = [])).
Proof.
  split_and!.
  - intros S D store host st. split; [apply run_lifecycle, ledger_start_ok|]. intros e He. by apply run_refused.
  - intros D host st. split; [apply run_lifecycle, recon_start_ok|]. intros e He. by apply run_refused.
  - intros nonces host st. split; [apply run_lifecycle, wh_start_ok|]. intros e He. by apply run_refused.
  - intros PD nonce draw host st. split; [apply run_lifecycle, id_start_ok|]. intros e He. by apply run_refused.
  - intros url attempts. split.
    + apply retrying_ok; [apply fanout_sets_up| |done]. by repeat apply Forall_cons_2.
    + apply retrying_ok; [apply purge_sets_up| |done]. by repeat apply Forall_cons_2.
Qed.
