(* ===== verification/PlatformWitnesses.v ===== *)
(** * The HTTP theorems of the platform at work

    A development token registers a source and a webhook; an administrator
    makes a tenant, and nobody else does. *)

From Stdlib Require Import Ascii String ZArith Lia.
From S2P Require Import Prelude Strconv Errors Money LedgerDomain LedgerEvents Httpx TxMonad.
From S2P Require Import Signature Keycrypt Base64Url Webhooks Ident Recon ReconStore ReconInv Purge.
From S2P Require Import WebhooksStore WebhooksInv WebhooksWorld Identity IdentitySlug IdentityStore IdentityService.
From S2P Require Import IdentityInv IdentityWorld IdentityWitnesses Json Http HttpFacts.
From S2P Require Import ReconHttp WebhooksHttp IdentityHttp.
From S2P Require Import PlatformHttp EventStream Startup Lifecycle.
Local Open Scope string_scope.
Local Open Scope Z_scope.
Local Open Scope list_scope.

#[local] Instance pf_unmarshal : Unmarshal := {| uuid_UnmarshalText := uuid_Parse; time_UnmarshalJSON := time_Parse |}.
#[local] Instance pf_texts : ReconTexts := {| csv_error_text := fun _ => "bad"; detail_text := fun _ => "detail" |}.
#[local] Instance pf_jsonb : Jsonb := {| jsonb_in := Some |}.
#[local] Instance pf_url : UrlParse := {| url_Parse := fun s => Some ("https", s) |}.

(** A POST with a JSON body and one header. *)
Definition post (path : list string) (header value : string) (v : json) : HttpRequest :=
  mkHttpRequest "POST" path (fun _ => None) (fun name => if decide (name = header) then value else "") 100
    (BodyValue v None) None.

Definition pf_keys (kid : string) : option bytes := None.

(** Ids for the rows a request makes. *)
Definition pf_state {S} (db : S) : UseState S := mkUse db [2 ^ 80 + 21; 2 ^ 80 + 22] 0 7.

Definition source_request : HttpRequest :=
  post ["v1"; "reconciliation"; "sources"] "X-Tenant-Id" (uuid_String 7)
    (JObj [("name", JStr "bank"); ("kind", JStr "bank")]).

Definition webhook_request : HttpRequest :=
  post ["v1"; "webhook-subscriptions"] "X-Tenant-Id" (uuid_String 7)
    (JObj [("url", JStr "example.com"); ("event_types", JArr [JStr "*"])]).

Definition recon_answer : HttpResponse * RSt :=
  recon_NewHandler true 0 pf_keys true "generated" empty_context source_request (pf_state empty_recon).

Definition webhook_answer : HttpResponse * WSt :=
  wh_NewHandler None true 0 pf_keys true "generated" (replicate 32 1) None empty_context webhook_request
    (pf_state empty_webhooks).

Lemma satellite_writes_authorized_witness :
  (rs_Status recon_answer.1 = 201 /\ RInv (u_db recon_answer.2) /\
   recon_without 7 (u_db recon_answer.2) = recon_without 7 empty_recon) /\
  (rs_Status webhook_answer.1 = 201 /\ DInv (u_db webhook_answer.2) /\
   webhooks_without 7 (u_db webhook_answer.2) = webhooks_without 7 empty_webhooks).
Proof.
  split.
  - destruct (satellite_writes_authorized true 0 pf_keys true "generated" source_request) as [Hr _].
    destruct (Hr (pf_state empty_recon) recon_answer.1 recon_answer.2 RInv_empty (surjective_pairing _))
      as ([Hi _] & _ & [E|(c & rq & Ha & _ & _ & _ & _ & _ & Hw)]).
    + exfalso. apply (f_equal (fun db => size (sources db))) in E. vm_compute in E. discriminate E.
    + split; [vm_compute; reflexivity|]. split; [exact Hi|]. vm_compute in Ha. injection Ha as <-. exact Hw.
  - destruct (satellite_writes_authorized true 0 pf_keys true "generated" webhook_request) as [_ Hr].
    destruct (Hr None (replicate 32 1) None (pf_state empty_webhooks) webhook_answer.1 webhook_answer.2
      (proj1 (wreach_inv None _ (wreach_init None))) (surjective_pairing _))
      as ([Hi _] & _ & [E|(c & rq & Ha & _ & _ & _ & _ & Hw)]).
    + exfalso. apply (f_equal (fun db => size (subscriptions db))) in E. vm_compute in E. discriminate E.
    + split; [vm_compute; reflexivity|]. split; [exact Hi|]. vm_compute in Ha. injection Ha as <-. exact Hw.
Defined.

(** ** Administration *)

Definition pf_server : Server := mkServer "root-token" (mkTokenIssuer "kid" [] TokenTTL []) None.

Definition tenant_request (token : string) : HttpRequest :=
  post ["v1"; "tenants"] "Authorization" token (JObj [("name", JStr "Globex Corp")]).

Definition identity_answer (token : string) : HttpResponse * ISt :=
  Handler pf_server true "generated" [] empty_context (tenant_request token) (pf_state id_db1).

Lemma identity_gated_witness :
  (rs_Status (identity_answer "Bearer root-token").1 = 201 /\ IInv (u_db (identity_answer "Bearer root-token").2) /\
   exists rq, id_admin rq /\ id_exec rq (pf_state id_db1) = Ok (tt, (identity_answer "Bearer root-token").2)) /\
  (~ success (identity_answer "root-token").1 /\ u_db (identity_answer "root-token").2 = id_db1).
Proof.
  pose proof (proj1 (ireach_inv demo_id_hex _ id_db1_reach)) as I.
  split.
  - destruct (identity_gated pf_server true "generated" [] (tenant_request "Bearer root-token") (pf_state id_db1)
      (identity_answer "Bearer root-token").1 (identity_answer "Bearer root-token").2 demo_id_hex I
      (surjective_pairing _)) as (Hi & _ & _ & [E|[[E _]|(_ & _ & Hx)]] & _).
    + exfalso. apply (f_equal (fun db => size (tenants db))) in E. vm_compute in E. discriminate E.
    + discriminate E.
    + split; [vm_compute; reflexivity|]. split; [exact Hi|exact Hx].
  - destruct (identity_gated pf_server true "generated" [] (tenant_request "root-token") (pf_state id_db1)
      (identity_answer "root-token").1 (identity_answer "root-token").2 demo_id_hex I
      (surjective_pairing _)) as (_ & _ & _ & _ & Hno).
    apply (Hno []); [by left|]. right. vm_compute. discriminate.
Defined.

(** ** A public sandbox *)

Definition pf_env : environment := fun key =>
  if decide (key = "LEDGERCORE_ENV") then "sandbox-public"
  else if decide (key = "LEDGERCORE_DATABASE_URL") then "postgres://db"
  else if decide (key = "LEDGERCORE_ADMIN_TOKEN") then "root-token"
  else if decide (key = "LEDGERCORE_MASTER_KEY")
  then "6b6b6b6b6b6b6b6b6b6b6b6b6b6b6b6b6b6b6b6b6b6b6b6b6b6b6b6b6b6b6b6b"
  else "".

Definition pf_start : result start_error Server * ISt := id_serve (fun _ => None) pf_env demo_nonce 1 id_st6.

Lemma public_sandbox_closed_witness : exists s st',
  pf_start = (Ok s, st') /\ sv_adminToken s = "root-token" /\ sv_sandbox s = Some 20 /\
  keys_sealed (sv_issuer s) id_db2 (u_db st').
Proof.
  destruct pf_start as [[s|e] st'] eqn:E; [|exfalso; vm_compute in E; discriminate E].
  exists s, st'. split; [reflexivity|].
  assert (Hg : forall priv pub, GenerateKeyPEM 1 = Some (priv, pub) -> IsEncrypted priv = false)
    by (intros priv pub [= <- <-]; vm_compute; reflexivity).
  destruct (public_sandbox_closed pf_env) as [Hp _]. destruct (Hp eq_refl) as (_ & _ & _ & Hi).
  destruct (Hi (fun _ => None) demo_nonce 1%nat (mkIdWorld id_db2 [] []) id_st6 s st' id_open_seal id_nonce_size Hg
    demo_id_hex id_db2_reach eq_refl E) as (_ & _ & _ & Hk).
  split; [|split; [|exact Hk]]; clear Hi Hp Hk; vm_compute in E; injection E as <- _; reflexivity.
Defined.

(** ** A process *)

(** Everything succeeds, until a signal comes. *)
#[local] Instance pf_host : Host Server := {| reply := fun _ _ => Some true; ended := Signalled |}.

Lemma process_lifecycle_witness : exists h before,
  ps_Log (id_run (fun _ => None) pf_env demo_nonce 1 (mkProcess [] [] id_st6)).2 =
    before ++ [Listen ":8082" h; Shutdown; Close (Pool "postgres://db" "identity"); Close Telemetry; Close Signals] /\
  workers before = [RunSweeper 3600000000000] /\ sv_sandbox h = Some 20.
Proof.
  destruct (process_lifecycle pf_env) as (_ & _ & _ & Hi & _).
  destruct (Hi (fun _ => None) demo_nonce 1%nat pf_host id_st6) as [Hl _].
  unfold lifecycle in Hl. destruct (id_run _ _ _ _ _) as [res s]. cbn [snd].
  destruct pf_start as [[server|e] st'] eqn:E; [|exfalso; vm_compute in E; discriminate E].
  destruct Hl as [(_ & _ & e & _ & Hs)|(addr & h & before & tail & own & Hlog & _ & _ & Hp & Hleft)].
  - exfalso. destruct e as [e| |]; [|destruct Hs as (? & ? & Hs); discriminate Hs|exact Hs].
    pose proof (eq_trans (eq_sym E) Hs) as Hc. discriminate Hc.
  - destruct Hp as (cfg & Hc & -> & Hs & -> & Hw & _). vm_compute in Hc. injection Hc as <-.
    exists h, before. destruct Hleft as [[-> _]|(_ & _ & log & Hr)]; [|discriminate Hr].
    split; [exact Hlog|]. split; [exact Hw|]. pose proof (eq_trans (eq_sym E) Hs) as Ec. injection Ec as <- _.
    vm_compute in E. injection E as <- _. reflexivity.
Defined.
